(* ===== verification/_CoqProject ===== *)
-Q . S2P
Prelude.v
Sync.v
GlobalAlloc.v
BumpAllocator.v
LinkedListAllocator.v
FixedSizeBlock.v
Arch.v
FrameAllocator.v
Paging.v
Ustar.v
Hardware.v
Pci.v
Apic.v
Executor.v
Keyboard.v
Rtl8139.v
Interrupts.v
Text.v
Framebuffer.v
Font.v
Tty.v
Console.v
Syscall.v
Commandline.v
Shell.v
Elf.v
Ide.v
Acpi.v
Usermode.v
User.v
Preempt.v
Host.v
Boot.v
Faults.v
Nvme.v
NvmeAdmin.v
NvmeInit.v
KernelMain.v
System.v
