(* ===== verification/Prelude.v ===== *)
(** * Lemoncake kernel: verification library

    A model of the kernel in kernel/src (Rust, x86_64, no_std) and the theorems
    that make it correct, or say exactly where it is not.  Source paths below
    are relative to src/kernel/src, where they do not start with src/.

    ** How the program is put together

    [kernel_main] (main.rs) takes the screen from the boot loader, makes the page
    tables and the frame allocator usable (memory.rs), maps the heap
    (allocator/), draws the logo (png.rs), finds the PCIe configuration window
    (acpi.rs), scans the bus (pci.rs), loads descriptors and interrupt table
    (gdt.rs, interrupts.rs), programs the interrupt controllers (apic.rs), starts
    keyboard and network card (keyboard.rs, drivers/rtl8139.rs), unpacks the RAM
    disk (drivers/ustar.rs) and then either starts the init program
    (elf.rs, syscall.rs) or runs the command line (commandline.rs) on the
    executor (executor.rs).  Everything prints through the console (display.rs,
    font.rs, logging.rs, serial.rs).  drivers/ide.rs and drivers/nvme.rs are in the
    repository, and not in the build.  src/init.asm is the init program;
    src/build.rs and src/src/main.rs run on the host, and make and start the image.

    ** Files

    Foundations.
    - [Prelude]: outcomes of code (a value, a panic, a loop out of fuel), checked
      arithmetic on w-bit integers, slices, byte memories, loops, disjoint ranges.
    - [Text]: Rust strings, UTF-8, decimal and hexadecimal [Display].
    - [Arch]: the class [X86], addresses and pages of the crate x86_64.
    - [Hardware]: the class of device registers, ports and MSRs; the driver monad
      [io]; [Mmio], how an access to a memory-mapped register gets there: always
      ([flat]), or through the page tables, with a fault ([KernelMain.paged]).
    - [Sync]: [ArrayQueue], [AtomicWaker], [Spinlock], as classes with their laws.

    Memory (allocator/, memory.rs).
    - [GlobalAlloc]: layouts, [align_up], the trait as the class [GlobalAlloc], and
      [AllocContract], the interface every allocator is proved against, which the
      lock around an allocator ([Locked]) keeps.
    - [BumpAllocator] (bump.rs, the one in use), [LinkedListAllocator]
      (linked_list.rs), [FixedSizeBlock] (fixed_size_block.rs): three
      instances of the contract.
    - [FrameAllocator] (memory.rs) and [Paging] (allocator/mod.rs): frames of the
      memory map, and pages over the class [Mapper].

    Buses, interrupts and tasks.
    - [Pci] (pci.rs), [Acpi] (acpi.rs): configuration space and its window.
    - [Apic] (apic.rs), [Interrupts] (interrupts.rs, sleep.rs), [Usermode] (gdt.rs and
      [jump_to_usermode]).
    - [Executor] (executor.rs), [Keyboard] (keyboard.rs with its interrupt): the second
      is a step relation, an interrupt between any two steps of the reader and of
      the executor, its last pop and its idle test included.
    - [Shell]: the task behind the scancodes with its own steps (the command line
      of commandline.rs, or [print_keypresses]), which refines [Keyboard].
    - [Faults] (the fault handlers, the panic handler, the locks behind the
      output macros and of the framebuffer): a step relation over statements and
      their locks.

    Output, shell, programs.
    - [Framebuffer], [Font], [Tty] (display.rs, font.rs): pixels, glyphs, console.
    - [Console] (logging.rs, macros of main.rs): the class clients print through;
      [tty_Console] is the console of [Tty], [log_Console] one that records.
    - [Commandline] (commandline.rs), [Syscall] (syscall.rs), [Elf] (elf.rs), [Ustar]
      (drivers/ustar.rs).
    - [User] (src/init.asm): the init program, instruction by instruction, through
      the gate of [Interrupts] into the stub of [Syscall], and beside it whatever
      code of ring 3 can do; [Preempt]: programs of such instructions with the
      interrupts of devices between any two of them.

    Drivers: [Rtl8139] (drivers/rtl8139.rs), [Ide] (drivers/ide.rs), [Nvme],
    [NvmeAdmin] and [NvmeInit] (drivers/nvme.rs).

    The boot: [Boot] (main.rs from the network cards on) and [KernelMain] (main.rs
    as one function on one state, with png.rs and memory.rs); [System] puts
    [KernelMain], [User] and [Preempt], or [Shell], together.

    [Host] (src/build.rs, src/src/main.rs): the requests of the build script and of
    the runner, over a class of hosts.

    ** How the code is written down

    An operation is a function named like the one it models, over explicit
    state.  A panic is [Panic] with its reason: the repository is built with the
    [dev] profile, so arithmetic is checked ([a +[w] b] panics on overflow),
    while [as] casts wrap ([wrap w]) and shifts that the code writes with [<<]
    drop bits ([shl w]).  Slices panic out of range.  A loop that need not end
    ([while], [loop]) takes fuel and is [OutOfFuel] without it; every such loop
    has a theorem or lemma that gives fuel enough: the length of the archive
    for [Ustar], of the free list for [LinkedListAllocator], the number of queued
    and coming wake-ups for [Executor], of characters for [Tty].  Where the loop
    is endless in the code, so is it in the model ([Ide], [Interrupts.sleep_ms],
    [Syscall.syscall_sleep_hangs]), for every fuel.

    Crates are classes with laws that state what their documentation says; every
    class has a concrete instance, and a theorem under such laws has a witness
    that computes on it.  A [static] behind a lock is a field of the state, one
    step per operation under the lock, except where the lock itself is what can
    go wrong ([Ide], [Faults]).

    ** What the theorems show

    - Heap: whatever the kernel asks for, no call panics and live blocks are
      aligned, inside of the heap and disjoint, for each allocator; the linked
      list is first fit on an abstract list of regions.
    - Pages: allocation maps fresh pages to frames of their own; freeing undoes
      it, except for allocations of one page, of which one page leaks.
    - Archive: listing and searching end on any bytes, and reading back an
      archive that was written gives the same files.
    - Configuration space: both access methods reach the same register; writes
      of parts keep the rest; probing a size restores the register; the scan lists
      exactly the functions its (wrong) multi-function test lets it see.
    - Interrupts: every line has its vector, every device interrupt is
      acknowledged; no key is lost and no wake-up missed; the reader handles all
      of them; what is typed is run, each line once, whatever interrupts come
      while the task works; the executor polls what is due, first in, first out.
      The serial port never waits for its lock; a panic while the console is in
      use never reaches the screen, and one while the framebuffer is in use
      stops inside of the console.
    - Console: it refines an abstract terminal, scrolling shows the scrolled
      grid; a sequence of drawing calls leaves exactly the picture it describes.
    - Shell, system calls, programs: lines run as typed and never panic (the
      command that is meant to apart); registers pass through int 0x80; programs
      are loaded as their headers say; the jump enters ring 3; whatever code runs
      there changes memory outside of its own pages only where it asks inttostr to
      write (which is anywhere the kernel can write: the pointer is not checked)
      and leaves the console well formed; interrupts do not disturb programs, and programs do not
      disturb the clock and the keyboard.
    - Boot: from the hand-over of the boot loader, with memory enough and the
      registers it uses mapped (for the bus scan the window of all 256 buses: with
      fewer it never gets past the scan), the kernel ends in the init program with all of the above set up, and that program
      shows its greeting and stays, whatever devices interrupt it; without that program in the archive it ends in
      the command line, and cat with the name of a file, typed with whatever
      corrections and at whatever moments, shows that file.
    - Drivers: what the network card hands out, where the NVMe driver's
      commands and registers go wrong, what the start of its queues leaves mapped,
      that its self test never passes, that the IDE driver cannot start.

    ** Not modelled, and why

    - In drivers/nvme.rs three copies past the end of what they copy
      ([submit_cmd_to_queue], [wait_completion], [run_basic_test]): they have no
      defined result and are arguments of [NvmeInit].
    - serial.rs: the port itself is the crate uart_16550's; [get_input] has no caller.
    - The modules' declarations (drivers/mod.rs), the crates' glue ([acpi::Handler],
      [Default] instances), and the instructions rdrand and cpuid, arguments of
      the functions around them.
    - Decoding of scancodes (pc_keyboard), ELF (goblin), PNG (zune_png), ACPI tables:
      parameters of the operations that use them.
    - The frames interrupts push on the kernel's stacks: [Preempt] gives the program its
      registers back, as the x86-interrupt calling convention promises, and [User]
      keeps the frame of a system call apart from the memory of the program.
    - Log lines of drivers and boot: [Console] shows that printing returns, and
      [Faults] what its locks do.  [System] starts the init program on any
      well-formed console, whatever the boot has logged there.
    - The bytes of the init program's instructions: [User] has the instructions of
      the assembly file, [System] the texts of its data section.

    ** Left to do

    The heap's lock where an interrupt drops a waker; the executor with more tasks
    than the command line; the page tables below the registers of the interrupt
    handlers and of the drivers that are not started at boot. *)

From Stdlib Require Export ZArith Lia.
From stdpp Require Export base tactics decidable option numbers list list_numbers gmap.

#[export] Set Default Goal Selector "!".
Open Scope Z_scope.

(** ** Outcomes: a value, a kernel panic, or a busy loop cut by its fuel *)

(** What made the kernel panic. The source builds with the [dev] profile
    (README: [cargo build] / [cargo run]), whose arithmetic is checked. *)
Inductive reason : Type :=
| ArithmeticOverflow   (** checked [+], [-], [*] left the integer type *)
| IndexOutOfBounds     (** [a[i]] or [a[i..j]] outside the slice *)
| UnwrapFailed         (** [unwrap()] / [expect()] on [None] or [Err] *)
| AssertionFailed      (** [assert!] / [assert_eq!] *)
| MisalignedPointer    (** [*p] of a raw pointer, checked in the [dev] profile *)
| PageFault            (** not a panic: an access to no page; the fault's handler reports it and halts *)
| ExplicitPanic.       (** [panic!] *)

#[export] Instance reason_eq_dec : EqDecision reason.
Proof. solve_decision. Defined.

Inductive outcome (A : Type) : Type :=
| Ret (a : A)
| Panic (r : reason)
| OutOfFuel.
Arguments Ret {A} a.
Arguments Panic {A} r.
Arguments OutOfFuel {A}.

#[export] Instance outcome_ret : MRet outcome := λ A a, Ret a.
#[export] Instance outcome_bind : MBind outcome := λ A B f m,
  match m with Ret a => f a | Panic r => Panic r | OutOfFuel => OutOfFuel end.
#[export] Instance outcome_fmap : FMap outcome := λ A B f m,
  match m with Ret a => Ret (f a) | Panic r => Panic r | OutOfFuel => OutOfFuel end.

(** [m] ends with a value that satisfies [P]: total correctness. *)
Definition returns {A} (m : outcome A) (P : A → Prop) : Prop :=
  ∃ a, m = Ret a ∧ P a.

(** If [m] ends with a value, the value satisfies [P], and [m] has fuel
    enough: the panics are the only other ends. *)
Definition ensures {A} (m : outcome A) (P : A → Prop) : Prop :=
  match m with Ret a => P a | Panic _ => True | OutOfFuel => False end.

(** [unwrap] of an [Option]. *)
Definition unwrap {A} (o : option A) : outcome A :=
  match o with Some a => Ret a | None => Panic UnwrapFailed end.

(** [assert!]. *)
Definition assert_b (b : bool) : outcome unit :=
  if b then Ret () else Panic AssertionFailed.

Section outcome_lemmas.
Context {A B : Type}.
Implicit Types (m : outcome A) (f : A → outcome B).

Lemma bind_Ret a f : (Ret a ≫= f) = f a.
Proof. reflexivity. Qed.

Lemma bind_assoc {C} m f (g : B → outcome C) : ((m ≫= f) ≫= g) = (m ≫= λ a, f a ≫= g).
Proof. by destruct m. Qed.

Lemma bind_Ret_inv m f b :
  (m ≫= f) = Ret b → ∃ a, m = Ret a ∧ f a = Ret b.
Proof. destruct m; simpl; naive_solver. Qed.

Lemma returns_bind m f (P : A → Prop) (Q : B → Prop) :
  returns m P → (∀ a, P a → returns (f a) Q) → returns (m ≫= f) Q.
Proof. intros (a & -> & Ha) Hf. exact (Hf a Ha). Qed.

Lemma returns_Ret a (P : A → Prop) : P a → returns (Ret a) P.
Proof. intros ?. by exists a. Qed.

Lemma returns_mono m (P Q : A → Prop) :
  returns m P → (∀ a, P a → Q a) → returns m Q.
Proof. intros (a & -> & ?) HPQ. exists a. auto. Qed.

Lemma returns_Ret_inv a (P : A → Prop) : returns (Ret a) P → P a.
Proof. by intros (? & [= <-] & ?). Qed.

Lemma ensures_bind m f (P : A → Prop) (Q : B → Prop) :
  ensures m P → (∀ a, P a → ensures (f a) Q) → ensures (m ≫= f) Q.
Proof. destruct m; simpl; auto. Qed.

Lemma returns_ensures m (P : A → Prop) : returns m P → ensures m P.
Proof. by intros (? & -> & ?). Qed.
End outcome_lemmas.

Lemma unwrap_Ret_inv {A} (o : option A) a : unwrap o = Ret a → o = Some a.
Proof. destruct o; simpl; congruence. Qed.

Lemma assert_b_inv b u : assert_b b = Ret u → b = true.
Proof. by destruct b. Qed.

(** Take a returning computation in a hypothesis apart, bind by bind. *)
Ltac inv_ret :=
  repeat match goal with
  | H : (_ ≫= _) = Ret _ |- _ =>
      let a := fresh "r" in let H1 := fresh "Hr" in
      apply bind_Ret_inv in H as (a & H1 & H)
  | H : Ret _ = Ret _ |- _ => injection H as H
  | H : Panic _ = Ret _ |- _ => discriminate H
  | H : OutOfFuel = Ret _ |- _ => discriminate H
  | H : unwrap _ = Ret _ |- _ => apply unwrap_Ret_inv in H
  | H : assert_b _ = Ret _ |- _ => apply assert_b_inv in H
  end; simplify_eq.

(** Split the boolean guards the code tests. *)
Ltac split_guard :=
  match goal with
  | |- context [if ?b then _ else _] => destruct b eqn:?
  | H : context [if ?b then _ else _] |- _ => destruct b eqn:?
  end.

(** ** Machine integers

    A [w]-bit unsigned integer is a [Z] in [[0, 2^w)]. *)

Declare Scope rust_scope.
Delimit Scope rust_scope with rust.

Definition uint_max (w : Z) : Z := 2 ^ w - 1.

Definition in_width (w z : Z) : Prop := 0 ≤ z < 2 ^ w.

(** The result of a checked operation: the value, or the overflow panic. *)
Definition checked (w r : Z) : outcome Z :=
  if (0 <=? r) && (r <? 2 ^ w) then Ret r else Panic ArithmeticOverflow.

(** [checked_add] and friends return an [Option] instead. *)
Definition checked_opt (w r : Z) : option Z :=
  if (0 <=? r) && (r <? 2 ^ w) then Some r else None.

Notation "a +[ w ] b" := (checked w (a + b))
  (at level 50, left associativity, format "a  +[ w ]  b") : rust_scope.
Notation "a -[ w ] b" := (checked w (a - b))
  (at level 50, left associativity, format "a  -[ w ]  b") : rust_scope.
Notation "a *[ w ] b" := (checked w (a * b))
  (at level 40, left associativity, format "a  *[ w ]  b") : rust_scope.
Open Scope rust_scope.

(** [as uN] truncation, wrapping arithmetic, [!], [<<], saturation. *)
Definition wrap (w z : Z) : Z := z mod 2 ^ w.
Definition unot (w z : Z) : Z := 2 ^ w - 1 - z.
Definition shl (w z n : Z) : Z := wrap w (Z.shiftl z n).
Definition saturating_sub (a b : Z) : Z := Z.max 0 (a - b).
Definition saturating_add (w a b : Z) : Z := Z.min (uint_max w) (a + b).
Definition saturating_mul (w a b : Z) : Z := Z.min (uint_max w) (a * b).
Definition div_ceil (a b : Z) : Z := (a + b - 1) / b.

Definition is_power_of_two (a : Z) : bool := (0 <? a) && (a =? 2 ^ Z.log2 a).

Lemma checked_ok w r : in_width w r → checked w r = Ret r.
Proof.
  intros [??]. unfold checked.
  rewrite (proj2 (Z.leb_le _ _)) by done. by rewrite (proj2 (Z.ltb_lt _ _)).
Qed.

Lemma checked_inv w r x : checked w r = Ret x → x = r ∧ in_width w r.
Proof.
  unfold checked, in_width. split_guard; [|discriminate].
  intros [= <-]. split; [done|]. lia.
Qed.

Lemma checked_overflow w r : 2 ^ w ≤ r → checked w r = Panic ArithmeticOverflow.
Proof. intros. unfold checked. split_guard; [lia|done]. Qed.

Lemma checked_underflow w r : r < 0 → checked w r = Panic ArithmeticOverflow.
Proof. intros. unfold checked. split_guard; [lia|done]. Qed.

Lemma checked_returns w r : in_width w r → returns (checked w r) (λ x, x = r).
Proof. intros. exists r. split; [by apply checked_ok|done]. Qed.

Lemma checked_opt_Some w r x : checked_opt w r = Some x ↔ x = r ∧ in_width w r.
Proof.
  unfold checked_opt, in_width. split; [split_guard; [|discriminate]; intros [= <-]; lia|].
  intros [-> ?]. split_guard; [done|lia].
Qed.

Lemma is_power_of_two_spec a :
  is_power_of_two a = true ↔ ∃ k, 0 ≤ k ∧ a = 2 ^ k.
Proof.
  unfold is_power_of_two. rewrite andb_true_iff, Z.ltb_lt, Z.eqb_eq. split.
  - intros [? Ha]. exists (Z.log2 a). split; [apply Z.log2_nonneg|done].
  - intros (k & Hk & ->). rewrite Z.log2_pow2 by done. split; [|done].
    apply Z.pow_pos_nonneg; lia.
Qed.

(** Evaluate the checked operation at the head of the goal's computation. *)
Ltac checked_step :=
  match goal with
  | |- context [@mbind _ outcome_bind _ _ ?f (checked ?w ?r)] =>
      rewrite (checked_ok w r) by (unfold in_width; first [lia|nia]); rewrite bind_Ret
  end.

(** ** Bits *)

Lemma testbit_above w z i : in_width w z → w ≤ i → Z.testbit z i = false.
Proof.
  intros [H0 Hw] Hi. destruct (decide (z = 0)) as [->|]; [apply Z.testbit_0_l|].
  apply Z.bits_above_log2; [done|].
  apply Z.log2_lt_pow2; [lia|]. eapply Z.lt_le_trans; [done|].
  apply Z.pow_le_mono_r; lia.
Qed.

Create Rewrite HintDb zbit.
#[export] Hint Rewrite
  Z.land_spec Z.lor_spec Z.lxor_spec Z.testbit_0_l
  Z.shiftr_spec Z.shiftl_spec Z.ones_spec_low Z.ones_spec_high
  Z.mod_pow2_bits_low Z.mod_pow2_bits_high Z.lnot_spec
  using lia : zbit.

Lemma in_width_small w z : in_width w z → z mod 2 ^ w = z.
Proof. intros. by apply Z.mod_small. Qed.

Lemma wrap_in_width w z : 0 ≤ w → in_width w (wrap w z).
Proof. intros. apply Z.mod_pos_bound. apply Z.pow_pos_nonneg; lia. Qed.

Lemma in_width_wrap w z : in_width w z → wrap w z = z.
Proof. apply in_width_small. Qed.

Lemma in_width_mono w w' z : w ≤ w' → in_width w z → in_width w' z.
Proof.
  intros ? [??]. split; [done|].
  eapply Z.lt_le_trans; [done|]. apply Z.pow_le_mono_r; lia.
Qed.

Lemma in_width_land_r w a b : 0 ≤ a → in_width w b → in_width w (Z.land a b).
Proof.
  intros ? [??]. assert (0 ≤ Z.land a b) by (apply Z.land_nonneg; auto).
  split; [done|].
  assert (Hle : Z.land a b ≤ b).
  { apply Z.ldiff_le; [done|]. apply Z.bits_inj'. intros i Hi.
    rewrite Z.ldiff_spec, Z.land_spec, Z.testbit_0_l.
    by destruct (Z.testbit a i), (Z.testbit b i). }
  lia.
Qed.

Lemma in_width_shiftr w a n :
  0 ≤ n → 0 ≤ w → in_width (w + n) a → in_width w (Z.shiftr a n).
Proof.
  intros ?? [??]. rewrite Z.shiftr_div_pow2 by done. split.
  - apply Z.div_pos; [done|]. apply Z.pow_pos_nonneg; lia.
  - apply Z.div_lt_upper_bound; [apply Z.pow_pos_nonneg; lia|].
    rewrite <- Z.pow_add_r by lia. by rewrite Z.add_comm.
Qed.

Lemma shiftr_nonneg a n : 0 ≤ a → 0 ≤ Z.shiftr a n.
Proof. intros. by apply Z.shiftr_nonneg. Qed.

Lemma in_width_lor w a b : 0 ≤ w → in_width w a → in_width w b → in_width w (Z.lor a b).
Proof.
  intros ? [??] [??]. assert (0 ≤ Z.lor a b) by (apply Z.lor_nonneg; auto).
  split; [done|].
  destruct (decide (Z.lor a b = 0)) as [->|]; [apply Z.pow_pos_nonneg; lia|].
  apply Z.log2_lt_pow2; [lia|]. rewrite Z.log2_lor by done.
  apply Z.max_lub_lt.
  - destruct (decide (a = 0)) as [->|].
    { simpl. destruct (decide (w = 0)); [|lia]. subst.
      assert (b = 0) by lia. subst. done. }
    apply Z.log2_lt_pow2; lia.
  - destruct (decide (b = 0)) as [->|].
    { simpl. destruct (decide (w = 0)); [|lia]. subst.
      assert (a = 0) by lia. subst. done. }
    apply Z.log2_lt_pow2; lia.
Qed.

Lemma unot_testbit w z i :
  in_width w z → 0 ≤ i < w → Z.testbit (unot w z) i = negb (Z.testbit z i).
Proof.
  intros Hz Hi. unfold unot. replace (2 ^ w - 1 - z) with (Z.ones w - z) by (rewrite Z.ones_equiv; lia).
  rewrite Z.sub_nocarry_ldiff.
  - rewrite Z.ldiff_spec, Z.ones_spec_low by lia. done.
  - apply Z.bits_inj'. intros j Hj. rewrite Z.ldiff_spec, Z.testbit_0_l.
    destruct (decide (j < w)).
    + rewrite Z.ones_spec_low by lia. apply andb_false_r.
    + by rewrite (testbit_above w z j) by (done || lia).
Qed.

Lemma wrap_testbit w z i : 0 ≤ i < w → Z.testbit (wrap w z) i = Z.testbit z i.
Proof. intros. unfold wrap. by rewrite Z.mod_pow2_bits_low by lia. Qed.

Lemma shl_testbit w z n i :
  0 ≤ n → 0 ≤ i < w → Z.testbit (shl w z n) i = (n <=? i) && Z.testbit z (i - n).
Proof.
  intros Hn Hi. unfold shl. rewrite wrap_testbit by done. rewrite Z.shiftl_spec by lia.
  destruct (Z.leb_spec n i); [done|]. by rewrite Z.testbit_neg_r by lia.
Qed.

(** Two [w]-bit words with the same [w] bits are equal. *)
Lemma in_width_ext w a b :
  in_width w a → in_width w b → (∀ i, 0 ≤ i < w → Z.testbit a i = Z.testbit b i) → a = b.
Proof.
  intros Ha Hb Hab. apply Z.bits_inj'. intros i Hi. destruct (decide (i < w)).
  - apply Hab. lia.
  - by rewrite !(testbit_above w) by (done || lia).
Qed.

(** Masking with [2^k - 1] and clearing the low [k] bits. *)
Lemma land_low_mask a k : 0 ≤ k → Z.land a (2 ^ k - 1) = a mod 2 ^ k.
Proof. intros. rewrite <- Z.land_ones by done. by rewrite Z.ones_equiv. Qed.

Lemma land_clear_low w k a :
  0 ≤ k ≤ w → in_width w a →
  Z.land a (unot w (2 ^ k - 1)) = a - a mod 2 ^ k.
Proof.
  intros Hk Ha.
  assert (Hm : unot w (2 ^ k - 1) = Z.lxor (Z.ones w) (Z.ones k)).
  { unfold unot. rewrite !Z.ones_equiv.
    replace (2 ^ w - 1 - (2 ^ k - 1)) with (Z.ones w - Z.ones k)
      by (rewrite !Z.ones_equiv; lia).
    rewrite <- !Z.ones_equiv.
    rewrite Z.sub_nocarry_ldiff.
    - apply Z.bits_inj'. intros i Hi.
      rewrite Z.ldiff_spec, Z.lxor_spec.
      destruct (decide (i < k)).
      + by rewrite !Z.ones_spec_low by lia.
      + rewrite (Z.ones_spec_high k) by lia. by destruct (Z.testbit _ _).
    - apply Z.bits_inj'. intros i Hi. rewrite Z.ldiff_spec, Z.testbit_0_l.
      destruct (decide (i < k)).
      + by rewrite !Z.ones_spec_low by lia.
      + by rewrite (Z.ones_spec_high k) by lia. }
  rewrite Hm. rewrite <- (Z.land_ones a k) by lia.
  rewrite Z.sub_nocarry_ldiff.
  - apply Z.bits_inj'. intros i Hi.
    rewrite Z.ldiff_spec, !Z.land_spec, Z.lxor_spec.
    destruct (decide (i < k)).
    + rewrite !Z.ones_spec_low by lia. by destruct (Z.testbit a i).
    + rewrite (Z.ones_spec_high k) by lia. destruct (decide (i < w)).
      * rewrite Z.ones_spec_low by lia. by destruct (Z.testbit a i).
      * rewrite (testbit_above w a i) by (done || lia). done.
  - apply Z.bits_inj'. intros i Hi.
    rewrite Z.ldiff_spec, Z.land_spec, Z.testbit_0_l.
    by destruct (Z.testbit a i), (Z.testbit (Z.ones k) i).
Qed.

(** Disjoint bit ranges: [lor] is [+]. *)
Lemma lor_shiftl_add a b k :
  0 ≤ k → in_width k a → Z.lor a (Z.shiftl b k) = a + b * 2 ^ k.
Proof.
  intros Hk Ha. rewrite <- Z.shiftl_mul_pow2 by done.
  symmetry.
  rewrite <- Z.lxor_lor; [apply Z.add_nocarry_lxor|];
    apply Z.bits_inj'; intros i Hi; rewrite Z.land_spec, Z.testbit_0_l;
    rewrite Z.shiftl_spec by done;
    (destruct (decide (i < k));
     [rewrite (Z.testbit_neg_r b) by lia; apply andb_false_r
     |by rewrite (testbit_above k a i) by (done || lia)]).
Qed.

(** ** Alignment *)

Definition round_up (a n : Z) : Z := (a + n - 1) / n * n.

Lemma round_up_spec a n :
  0 < n → a ≤ round_up a n < a + n ∧ round_up a n mod n = 0.
Proof.
  intros Hn. unfold round_up. split; [|apply Z.mod_mul; lia].
  pose proof (Z.mod_pos_bound (a + n - 1) n Hn).
  pose proof (Z.div_mod (a + n - 1) n ltac:(lia)). lia.
Qed.

Lemma round_up_least a n b : 0 < n → a ≤ b → b mod n = 0 → round_up a n ≤ b.
Proof.
  intros Hn Hab Hb. destruct (round_up_spec a n Hn) as [[? ?] Hr].
  apply Z.div_exact in Hr; [|lia]. apply Z.div_exact in Hb; [|lia].
  generalize dependent (round_up a n). intros u Hu1 Hu2 Hu.
  generalize dependent (u / n). intros q Hq. generalize dependent (b / n).
  intros p Hp. assert (n * q < n * (p + 1)) by lia.
  apply Z.mul_lt_mono_pos_l in H; [nia|done].
Qed.

Lemma round_up_id a n : 0 < n → a mod n = 0 → round_up a n = a.
Proof.
  intros Hn Ha. pose proof (round_up_least a n a Hn ltac:(lia) Ha).
  destruct (round_up_spec a n Hn) as [[? ?] _]. lia.
Qed.

Lemma mod_pow2_weaken a j k :
  0 ≤ j ≤ k → a mod 2 ^ k = 0 → a mod 2 ^ j = 0.
Proof.
  intros Hjk Ha. apply Z.mod_divide in Ha; [|apply Z.pow_nonzero; lia].
  apply Z.mod_divide; [apply Z.pow_nonzero; lia|].
  etransitivity; [|exact Ha].
  exists (2 ^ (k - j)). rewrite <- Z.pow_add_r by lia. f_equal. lia.
Qed.

(** ** Slices and arrays *)

Definition zlen {A} (l : list A) : Z := Z.of_nat (length l).

(** [l[i]], [l[i] = x], [&l[a..b]] and [l.get(a..b)] for [usize] indices. *)
Definition index {A} (l : list A) (i : Z) : outcome A :=
  match l !! Z.to_nat i with Some x => Ret x | None => Panic IndexOutOfBounds end.
Definition store {A} (l : list A) (i : Z) (x : A) : outcome (list A) :=
  if i <? zlen l then Ret (<[Z.to_nat i := x]> l) else Panic IndexOutOfBounds.
Definition sub_list {A} (l : list A) (a b : Z) : list A :=
  take (Z.to_nat (b - a)) (drop (Z.to_nat a) l).
Definition slice {A} (l : list A) (a b : Z) : outcome (list A) :=
  if (a <=? b) && (b <=? zlen l) then Ret (sub_list l a b)
  else Panic IndexOutOfBounds.
Definition get_slice {A} (l : list A) (a b : Z) : option (list A) :=
  if (a <=? b) && (b <=? zlen l) then Some (sub_list l a b) else None.

(** [iter().position(p)]: the index of the first element that satisfies [p]. *)
Fixpoint position {A} (p : A → bool) (l : list A) : option Z :=
  match l with
  | [] => None
  | x :: l => if p x then Some 0 else Z.succ <$> position p l
  end.

Section list_lemmas.
Context {A : Type}.
Implicit Types (l : list A).

Lemma zlen_nonneg l : 0 ≤ zlen l.
Proof. unfold zlen. lia. Qed.

Lemma zlen_app l1 l2 : zlen (l1 ++ l2) = zlen l1 + zlen l2.
Proof. unfold zlen. rewrite length_app. lia. Qed.

Lemma zlen_cons x l : zlen (x :: l) = 1 + zlen l.
Proof. unfold zlen. simpl. lia. Qed.

Lemma index_returns l i :
  0 ≤ i < zlen l → returns (index l i) (λ x, l !! Z.to_nat i = Some x).
Proof.
  unfold zlen, index. intros ?.
  destruct (lookup_lt_is_Some_2 l (Z.to_nat i)) as [x Hx]; [lia|].
  rewrite Hx. by exists x.
Qed.

Lemma index_inv l i x : index l i = Ret x → l !! Z.to_nat i = Some x.
Proof. unfold index. by destruct (_ !! _); [intros [= <-]|]. Qed.

Lemma store_ok l i x : i < zlen l → store l i x = Ret (<[Z.to_nat i := x]> l).
Proof. intros ?. unfold store. by rewrite (proj2 (Z.ltb_lt _ _)). Qed.

Lemma store_inv l i x l' :
  store l i x = Ret l' → l' = <[Z.to_nat i := x]> l ∧ i < zlen l.
Proof. unfold store. split_guard; [|discriminate]. intros [= <-]. split; [done|lia]. Qed.

Lemma zlen_insert l i x : zlen (<[i := x]> l) = zlen l.
Proof. unfold zlen. by rewrite length_insert. Qed.

Lemma slice_ok l a b : a ≤ b → b ≤ zlen l → slice l a b = Ret (sub_list l a b).
Proof.
  intros. unfold slice.
  by rewrite (proj2 (Z.leb_le a b)), (proj2 (Z.leb_le b (zlen l))).
Qed.

Lemma get_slice_ok l a b :
  a ≤ b → b ≤ zlen l → get_slice l a b = Some (sub_list l a b).
Proof.
  intros. unfold get_slice.
  by rewrite (proj2 (Z.leb_le a b)), (proj2 (Z.leb_le b (zlen l))).
Qed.

Lemma zlen_sub_list l a b :
  0 ≤ a ≤ b → b ≤ zlen l → zlen (sub_list l a b) = b - a.
Proof.
  unfold zlen, sub_list. intros. rewrite length_take, length_drop. lia.
Qed.

Lemma lookup_sub_list l a b (i : nat) :
  0 ≤ a ≤ b → Z.of_nat i < b - a →
  sub_list l a b !! i = l !! (Z.to_nat a + i)%nat.
Proof.
  unfold sub_list. intros. rewrite lookup_take_lt by lia. by rewrite lookup_drop.
Qed.

Lemma sub_list_app_l l1 l2 a b :
  0 ≤ a ≤ b → b ≤ zlen l1 → sub_list (l1 ++ l2) a b = sub_list l1 a b.
Proof.
  unfold zlen, sub_list. intros. rewrite drop_app_le by lia.
  rewrite take_app_le; [done|]. rewrite length_drop. lia.
Qed.

Lemma sub_list_app_r l1 l2 a b :
  zlen l1 ≤ a → a ≤ b →
  sub_list (l1 ++ l2) a b = sub_list l2 (a - zlen l1) (b - zlen l1).
Proof.
  unfold zlen, sub_list. intros. rewrite drop_app_ge by lia.
  f_equal; [lia|]. f_equal. lia.
Qed.

Lemma sub_list_full l : sub_list l 0 (zlen l) = l.
Proof. unfold zlen, sub_list. simpl. apply take_ge. lia. Qed.

(** Cell [(r, c)] of rows of [w] cells. *)
Lemma row_major_inj w r c r' c' :
  0 ≤ c < w → 0 ≤ c' < w → 0 ≤ r → 0 ≤ r' →
  Z.to_nat (r * w + c) = Z.to_nat (r' * w + c') → r = r' ∧ c = c'.
Proof.
  intros Hc Hc' Hr Hr' Heq. apply Z2Nat.inj in Heq; [|nia|nia].
  assert (r = r') by nia. subst. split; [done|lia].
Qed.

Lemma row_major_bounds w h r c : 0 ≤ c < w → 0 ≤ r < h → 0 ≤ r * w ∧ r * w + w ≤ w * h ∧ 0 ≤ r * w + c < w * h.
Proof. intros. split_and!; nia. Qed.

Lemma tail_drop (n : nat) l : tail (drop n l) = drop (S n) l.
Proof. revert n. induction l as [|x l IH]; intros [|n]; simpl; [done..|apply IH]. Qed.

Lemma position_Some p l i :
  position p l = Some i →
  0 ≤ i < zlen l ∧ (∃ x, l !! Z.to_nat i = Some x ∧ p x = true) ∧
  (∀ j x, 0 ≤ j < i → l !! Z.to_nat j = Some x → p x = false).
Proof.
  revert i. induction l as [|y l IH]; intros i; simpl; [done|].
  destruct (p y) eqn:Hy.
  { intros [= <-]. rewrite zlen_cons. pose proof (zlen_nonneg l).
    split; [lia|]. split; [by exists y|]. lia. }
  destruct (position p l) as [k|] eqn:Hk; [|done]. intros [= <-].
  destruct (IH k eq_refl) as (Hr & (x & Hx & Hpx) & Hlt). rewrite zlen_cons.
  split; [lia|]. split.
  - exists x. rewrite Z2Nat.inj_succ by lia. done.
  - intros j z Hj. destruct (decide (j = 0)) as [->|].
    { simpl. by intros [= <-]. }
    replace (Z.to_nat j) with (S (Z.to_nat (j - 1))) by lia. simpl.
    apply Hlt. lia.
Qed.

Lemma position_None p l :
  position p l = None ↔ Forall (λ x, p x = false) l.
Proof.
  induction l as [|y l IH]; simpl; [by split; [constructor|]|].
  rewrite Forall_cons. destruct (p y) eqn:Hy; [naive_solver|].
  destruct (position p l); naive_solver.
Qed.
End list_lemmas.

(** ** Memory: a byte at every address *)

(** [core::slice::from_raw_parts(p, n)]. *)
Definition read_bytes (mem : Z → Z) (p n : Z) : list Z := mem <$> seqZ p n.

(** [dst.copy_from_slice(bs)] where [dst] is at [p]. *)
Definition write_bytes (mem : Z → Z) (p : Z) (bs : list Z) : Z → Z :=
  λ a, if bool_decide (p ≤ a < p + zlen bs) then default 0 (bs !! Z.to_nat (a - p)) else mem a.

Lemma read_bytes_length mem p n : 0 ≤ n → zlen (read_bytes mem p n) = n.
Proof. intros. unfold read_bytes, zlen. rewrite length_fmap, length_seqZ. lia. Qed.

Lemma read_write_bytes mem p bs : read_bytes (write_bytes mem p bs) p (zlen bs) = bs.
Proof.
  apply list_eq. intros k. unfold read_bytes. rewrite list_lookup_fmap.
  destruct (decide (k < length bs)%nat) as [Hk|Hk].
  - rewrite lookup_seqZ_lt by (unfold zlen; lia). cbn [fmap option_fmap option_map].
    unfold write_bytes. rewrite bool_decide_eq_true_2 by (unfold zlen; lia).
    replace (Z.to_nat (p + Z.of_nat k - p)) with k by lia.
    by destruct (lookup_lt_is_Some_2 bs k Hk) as [b ->].
  - rewrite lookup_seqZ_ge by (unfold zlen; lia). by rewrite lookup_ge_None_2 by lia.
Qed.

(** ** [for i in lo..hi] *)

Fixpoint for_n {S} (n : nat) (i : Z) (body : Z → S → outcome S) (s : S) : outcome S :=
  match n with
  | O => Ret s
  | Datatypes.S n => s ← body i s; for_n n (i + 1) body s
  end.
Definition for_range {S} (lo hi : Z) (body : Z → S → outcome S) (s : S) : outcome S :=
  for_n (Z.to_nat (hi - lo)) lo body s.

(** A loop whose body keeps the invariant runs to its end. *)
Lemma for_range_inv {S} (I : Z → S → Prop) lo hi body s :
  lo ≤ hi → I lo s → (∀ i s, lo ≤ i < hi → I i s → returns (body i s) (I (i + 1))) →
  returns (for_range lo hi body s) (I hi).
Proof.
  intros Hle Hs Hb. unfold for_range. remember (Z.to_nat (hi - lo)) as n eqn:Hn.
  revert lo s Hle Hs Hb Hn. induction n as [|n IH]; intros lo s Hle Hs Hb Hn; simpl.
  { exists s. split; [done|]. by replace hi with lo by lia. }
  destruct (Hb lo s ltac:(lia) Hs) as (s1 & -> & Hs1). rewrite bind_Ret.
  apply IH; [lia|done| |lia]. intros i s' Hi. apply Hb. lia.
Qed.

(** The same without a promise that the body ends well. *)
Lemma for_range_ensures {S} (I : S → Prop) lo hi body s :
  I s → (∀ i s, I s → ensures (body i s) I) → ensures (for_range lo hi body s) I.
Proof.
  intros Hs Hb. unfold for_range. generalize (Z.to_nat (hi - lo)) as n. intros n. revert lo s Hs.
  induction n as [|n IH]; intros lo s Hs; [done|]. cbn [for_n].
  eapply ensures_bind; [by apply Hb|]. intros s1 Hs1. by apply IH.
Qed.

Lemma for_range_empty {S} lo hi (body : Z → S → outcome S) s : hi ≤ lo → for_range lo hi body s = Ret s.
Proof. intros. unfold for_range. by replace (Z.to_nat (hi - lo)) with 0%nat by lia. Qed.

(** ** Pairwise disjoint address ranges [(start, length)] *)

Definition range : Type := Z * Z.
Definition r_end (r : range) : Z := r.1 + r.2.
Definition apart (r s : range) : Prop := r_end r ≤ s.1 ∨ r_end s ≤ r.1.

Fixpoint separated (rs : list range) : Prop :=
  match rs with
  | [] => True
  | r :: rs => Forall (apart r) rs ∧ separated rs
  end.

Definition within (lo hi : Z) (r : range) : Prop := lo ≤ r.1 ∧ 0 ≤ r.2 ∧ r_end r ≤ hi.

Lemma apart_sym r s : apart r s → apart s r.
Proof. unfold apart. tauto. Qed.

(** The order of the ranges does not matter: rewriting under [≡ₚ]. *)
#[export] Instance separated_Permutation : Proper ((≡ₚ) ==> iff) separated.
Proof.
  assert (Hdir : ∀ l k, l ≡ₚ k → separated l → separated k).
  { induction 1 as [|x l k Hp IH|x y l|l1 l2 l3 H1 IH1 H2 IH2]; simpl; [done| | |tauto].
    - intros [Hx Hl]. split; [by rewrite <- Hp|auto].
    - intros [Hx [Hy Hl]]. apply Forall_cons in Hx as [Hxy Hx].
      split_and!; [|done|done]. constructor; [by apply apart_sym|done]. }
  intros l k Hp. split; apply Hdir; [done|by symmetry].
Qed.

Lemma separated_app rs ss :
  separated (rs ++ ss) ↔
  separated rs ∧ separated ss ∧ Forall (λ r, Forall (apart r) ss) rs.
Proof.
  induction rs as [|r rs IH]; simpl; [naive_solver|].
  rewrite Forall_app, IH, Forall_cons. tauto.
Qed.

(** [r'] lies inside [r]. *)
Definition inside (r' r : range) : Prop := r.1 ≤ r'.1 ∧ r_end r' ≤ r_end r.

Lemma apart_inside r r' s s' :
  inside r' r → inside s' s → apart r s → apart r' s'.
Proof. unfold inside, apart. lia. Qed.

Lemma inside_refl r : inside r r.
Proof. unfold inside. lia. Qed.

(** Shrinking every range keeps a family separated. *)
Lemma separated_shrink {A} (f g : A → range) (l : list A) :
  Forall (λ x, inside (g x) (f x)) l → separated (f <$> l) → separated (g <$> l).
Proof.
  induction 1 as [|x l Hx Hl IH]; simpl; [done|]. intros [Hf Hs]. split; [|auto].
  rewrite Forall_forall in Hf. rewrite Forall_forall in Hl. rewrite Forall_forall.
  intros y (z & -> & Hz)%list_elem_of_fmap.
  eapply apart_inside; [exact Hx|by apply Hl|]. apply Hf. by apply list_elem_of_fmap_2.
Qed.

(** Two disjoint parts of a range take its place. *)
Lemma separated_split r r1 r2 rs :
  inside r1 r → inside r2 r → apart r1 r2 →
  separated (r :: rs) → separated (r1 :: r2 :: rs).
Proof.
  intros H1 H2 H12 [Hr Hs]. simpl. split_and!; [|  |done].
  - constructor; [done|]. eapply Forall_impl; [exact Hr|].
    intros s ?. eapply apart_inside; [exact H1|apply inside_refl|done].
  - eapply Forall_impl; [exact Hr|].
    intros s ?. eapply apart_inside; [exact H2|apply inside_refl|done].
Qed.

Lemma separated_sub r r1 rs :
  inside r1 r → separated (r :: rs) → separated (r1 :: rs).
Proof.
  intros H1 [Hr Hs]. split; [|done]. eapply Forall_impl; [exact Hr|].
  intros s ?. eapply apart_inside; [exact H1|apply inside_refl|done].
Qed.

Lemma separated_tail r rs : separated (r :: rs) → separated rs.
Proof. by intros [_ ?]. Qed.

(** Non-empty separated ranges start at different addresses. *)
Lemma separated_start r rs :
  0 < r.2 → Forall (λ s, 0 < s.2) rs → separated (r :: rs) → r.1 ∉ rs.*1.
Proof.
  intros Hr Hrs [Ha _] Hin. apply list_elem_of_fmap in Hin as (s & Heq & Hs).
  rewrite Forall_forall in Ha. rewrite Forall_forall in Hrs. specialize (Ha s Hs). specialize (Hrs s Hs).
  unfold apart, r_end in Ha. lia.
Qed.

Lemma separated_NoDup rs :
  Forall (λ r, 0 < r.2) rs → separated rs → NoDup rs.*1.
Proof.
  induction 1 as [|r rs Hr Hrs IH]; intros Hs; simpl; [constructor|].
  constructor; [by apply separated_start|]. apply IH. by eapply separated_tail.
Qed.

Create HintDb lemoncake.
#[export] Hint Resolve zlen_nonneg checked_ok apart_sym wrap_in_width returns_Ret : lemoncake.
