(* ===== verification/Sync.v ===== *)
(** * Queues, wakers and spin locks: interfaces

    The crates [crossbeam_queue] ([ArrayQueue], a bounded FIFO) and
    [futures_util] ([AtomicWaker], a cell for one waker), with the documented
    laws the executor and the keyboard rely on, and list instances of both for
    the sample runs.  Each operation is atomic.  The spin lock of the crate
    [spinning_top] is the class [Spinlock]. *)

From S2P Require Import Prelude.
Open Scope Z_scope.

(** [push] gives [None] where the crate gives [Err]: the queue is full. *)
Class ArrayQueue (Q A : Type) := {
  aq_new : Z → Q;
  aq_push : Q → A → option Q;
  aq_pop : Q → option A * Q;
  aq_is_empty : Q → bool;
}.

Class ArrayQueueLaws (Q A : Type) `{ArrayQueue Q A} := {
  aq_items : Q → list A;
  aq_capacity : Q → Z;
  aq_items_new n : aq_items (aq_new n) = [];
  aq_capacity_new n : 0 < n → aq_capacity (aq_new n) = n;
  aq_push_room q a : zlen (aq_items q) < aq_capacity q →
    ∃ q', aq_push q a = Some q' ∧ aq_items q' = aq_items q ++ [a] ∧ aq_capacity q' = aq_capacity q;
  aq_push_full q a : aq_capacity q ≤ zlen (aq_items q) → aq_push q a = None;
  aq_pop_items q :
    match aq_items q with
    | [] => ∃ q', aq_pop q = (None, q') ∧ aq_items q' = [] ∧ aq_capacity q' = aq_capacity q
    | a :: l => ∃ q', aq_pop q = (Some a, q') ∧ aq_items q' = l ∧ aq_capacity q' = aq_capacity q
    end;
  aq_is_empty_items q : aq_is_empty q = true ↔ aq_items q = [];
}.

(** [register], [take]; [wake] is [take] and a call of the waker it gave. *)
Class AtomicWaker (W A : Type) := {
  aw_new : W;
  aw_register : W → A → W;
  aw_take : W → option A * W;
}.

Class AtomicWakerLaws (W A : Type) `{AtomicWaker W A} := {
  aw_slot : W → option A;
  aw_slot_new : aw_slot aw_new = None;
  aw_slot_register w a : aw_slot (aw_register w a) = Some a;
  aw_take_slot w : ∃ w', aw_take w = (aw_slot w, w') ∧ aw_slot w' = None;
}.

Section queue_lemmas.
Context {Q A : Type} `{ArrayQueueLaws Q A}.

Lemma aq_pop_cons (q : Q) (a : A) l :
  aq_items q = a :: l →
  ∃ q', aq_pop q = (Some a, q') ∧ aq_items q' = l ∧ aq_capacity q' = aq_capacity q.
Proof. intros Hq. pose proof (aq_pop_items q) as Hp. by rewrite Hq in Hp. Qed.

Lemma aq_pop_nil (q : Q) :
  aq_items q = [] →
  ∃ q', aq_pop q = (None, q') ∧ aq_items q' = [] ∧ aq_capacity q' = aq_capacity q.
Proof. intros Hq. pose proof (aq_pop_items q) as Hp. by rewrite Hq in Hp. Qed.
End queue_lemmas.

(** [lock] of a lock that is free or held, and the drop of its guard.  A lock
    that the running code holds itself is never given: the wait does not end. *)
Class Spinlock := {
  spin_lock : bool → outcome bool;
  spin_unlock : bool → bool;
}.

Class SpinlockLaws `{Spinlock} : Prop := {
  spin_lock_free : spin_lock false = Ret true;
  spin_lock_held : spin_lock true = OutOfFuel;
  spin_unlock_frees b : spin_unlock b = false;
}.

(** ** List instances *)

Record list_queue (A : Type) : Type := mkLQ { lq_cap : Z; lq_items : list A }.
Arguments mkLQ {A}.
Arguments lq_cap {A}.
Arguments lq_items {A}.

#[local] Instance list_ArrayQueue A : ArrayQueue (list_queue A) A := {
  aq_new n := mkLQ n [];
  aq_push q a := if zlen (lq_items q) <? lq_cap q then Some (mkLQ (lq_cap q) (lq_items q ++ [a])) else None;
  aq_pop q := match lq_items q with [] => (None, q) | a :: l => (Some a, mkLQ (lq_cap q) l) end;
  aq_is_empty q := match lq_items q with [] => true | _ => false end;
}.

#[local] Instance list_ArrayQueueLaws A : ArrayQueueLaws (list_queue A) A.
Proof.
  refine {| aq_items := lq_items; aq_capacity := lq_cap |}; simpl.
  - done.
  - done.
  - intros q a Hq. rewrite (proj2 (Z.ltb_lt _ _)) by done. by eexists.
  - intros q a Hq. by rewrite (proj2 (Z.ltb_ge _ _)) by done.
  - intros [c [|a l]]; simpl; by eexists.
  - intros [c [|a l]]; simpl; naive_solver.
Defined.

#[local] Instance option_AtomicWaker A : AtomicWaker (option A) A := {
  aw_new := None;
  aw_register _ a := Some a;
  aw_take w := (w, None);
}.

#[local] Instance option_AtomicWakerLaws A : AtomicWakerLaws (option A) A.
Proof. refine {| aw_slot w := w |}; try done. intros w. by exists None. Defined.

#[local] Instance flag_Spinlock : Spinlock := {
  spin_lock b := if b then OutOfFuel else Ret true;
  spin_unlock _ := false;
}.

#[local] Instance flag_SpinlockLaws : SpinlockLaws.
Proof. by split. Qed.
