(* ===== verification/GlobalAlloc.v ===== *)
(** * The [GlobalAlloc] interface (kernel/src/allocator/mod.rs)

    [core::alloc::Layout] as the allocators use it, [align_up], the trait
    [GlobalAlloc] as a class of operations, and the contract its
    implementations promise to the kernel ([AllocContract]).  The client's
    theorem at the end is proved against the contract only: whatever sequence
    of allocations and deallocations the kernel issues, no operation panics
    and the live blocks stay aligned, inside the heap and disjoint. *)

From S2P Require Import Prelude Sync.
Open Scope Z_scope.
Open Scope rust_scope.

(** ** [core::alloc::Layout] *)

Record Layout : Type := mkLayout { lsize : Z; lalign : Z }.

Definition isize_max : Z := 2 ^ 63 - 1.

(** [Layout::from_size_align]: a power of two, and a size that does not
    overflow [isize] when rounded up to it. *)
Definition from_size_align (size align : Z) : option Layout :=
  if is_power_of_two align && (size <=? isize_max + 1 - align)
  then Some (mkLayout size align) else None.

(** [Layout::align_to] and [Layout::pad_to_align]. *)
Definition align_to (l : Layout) (align : Z) : option Layout :=
  from_size_align (lsize l) (Z.max (lalign l) align).
Definition pad_to_align (l : Layout) : Layout :=
  mkLayout (round_up (lsize l) (lalign l)) (lalign l).

(** What a [Layout] value guarantees, with the non-zero size that
    [GlobalAlloc::alloc] asks of its caller. *)
Definition layout_ok (l : Layout) : Prop :=
  0 < lsize l ∧ from_size_align (lsize l) (lalign l) = Some l.

#[export] Instance layout_ok_dec l : Decision (layout_ok l).
Proof.
  refine (cast_if (decide ((0 <? lsize l) && (is_power_of_two (lalign l)
    && (lsize l <=? isize_max + 1 - lalign l)) = true)));
    abstract (unfold layout_ok, from_size_align in *; destruct l; simpl in *;
      repeat split_guard; rewrite ?andb_true_iff, ?Z.ltb_lt in *; naive_solver).
Defined.

Lemma layout_ok_inv l :
  layout_ok l →
  ∃ k, 0 ≤ k ≤ 62 ∧ lalign l = 2 ^ k ∧ 0 < lsize l ∧ lsize l + 2 ^ k ≤ 2 ^ 63.
Proof.
  intros [Hs Hl]. unfold from_size_align in Hl. split_guard; [|done].
  apply andb_true_iff in Heqb as [Hp Hle].
  apply is_power_of_two_spec in Hp as (k & Hk & Ha).
  apply Z.leb_le in Hle. unfold isize_max in Hle. rewrite Ha in Hle.
  exists k. split_and!; [done| |done|done|lia].
  destruct (decide (k ≤ 62)); [done|].
  pose proof (Z.pow_le_mono_r 2 63 k). lia.
Qed.

(** ** [align_up] *)

Definition align_up (addr align : Z) : outcome Z :=
  t ← addr +[64] align;
  t ← t -[64] 1;
  m ← align -[64] 1;
  Ret (Z.land t (unot 64 m)).

Lemma align_up_round_up addr k :
  0 ≤ k ≤ 63 → 0 ≤ addr → addr + 2 ^ k < 2 ^ 64 →
  align_up addr (2 ^ k) = Ret (round_up addr (2 ^ k)).
Proof.
  intros Hk Ha Hov. unfold align_up.
  pose proof (Z.pow_pos_nonneg 2 k). pose proof (Z.pow_le_mono_r 2 k 63).
  rewrite checked_ok by (split; lia). simpl.
  rewrite checked_ok by (split; lia). simpl.
  rewrite checked_ok by (split; lia). simpl.
  rewrite land_clear_low by (unfold in_width; lia).
  f_equal. unfold round_up.
  pose proof (Z.div_mod (addr + 2 ^ k - 1) (2 ^ k)). lia.
Qed.

(** The checked additions of [align_up] panic close to the end of the
    address space, even where the rounded address itself would fit. *)
Lemma align_up_overflow addr align :
  2 ^ 64 ≤ addr + align → align_up addr align = Panic ArithmeticOverflow.
Proof. intros H. unfold align_up. by rewrite (checked_overflow 64 (addr + align)) by done. Qed.

(** ** The trait and its contract *)

Class GlobalAlloc (A : Type) := {
  ga_alloc : A → Layout → outcome (Z * A);      (* 0 is the null pointer *)
  ga_dealloc : A → Z → Layout → outcome A;
}.

(** A block the kernel holds: the address [alloc] returned and its layout. *)
Record block : Type := Block { b_ptr : Z; b_layout : Layout }.

Definition b_range (b : block) : range := (b_ptr b, lsize (b_layout b)).

(** The safety of a heap: every live block is aligned and inside [[lo, hi)],
    and no two of them overlap. *)
Definition blocks_safe (lo hi : Z) (live : list block) : Prop :=
  Forall (λ b, b_ptr b mod lalign (b_layout b) = 0 ∧ within lo hi (b_range b)) live
  ∧ separated (b_range <$> live).

#[export] Instance blocks_safe_Permutation lo hi : Proper ((≡ₚ) ==> iff) (blocks_safe lo hi).
Proof. intros l k Hp. unfold blocks_safe. by rewrite Hp. Qed.

Class AllocContract (A : Type) `{GlobalAlloc A} (lo hi : Z) := {
  ac_layout : Layout → Prop;    (* the layouts the implementation accepts *)
  ac_inv : A → list block → Prop;
  ac_safe a live : ac_inv a live → blocks_safe lo hi live;
  ac_alloc a live l :
    ac_inv a live → layout_ok l → ac_layout l →
    returns (ga_alloc a l) (λ '(p, a'),
      (p = 0 ∧ ac_inv a' live) ∨ (p ≠ 0 ∧ ac_inv a' (Block p l :: live)));
  ac_dealloc a live b live' :
    ac_inv a live → live ≡ₚ b :: live' →
    returns (ga_dealloc a (b_ptr b) (b_layout b)) (λ a', ac_inv a' live');
}.
Arguments ac_layout {A _} lo hi {_} l.
Arguments ac_inv {A _} lo hi {_} a live.
Arguments ac_safe {A _} lo hi {_} a live.
Arguments ac_alloc {A _} lo hi {_} a live l.
Arguments ac_dealloc {A _} lo hi {_} a live b live'.

(** ** A client: any sequence of requests *)

Inductive request : Type :=
| RAlloc (l : Layout)
| RDealloc (i : nat).   (* the [i]-th live block; ignored when there is none *)

Section client.
Context {A : Type} `{GlobalAlloc A}.

Definition serve (st : A * list block) (r : request) : outcome (A * list block) :=
  let '(a, live) := st in
  match r with
  | RAlloc l =>
      '(p, a') ← ga_alloc a l;
      Ret (a', if p =? 0 then live else Block p l :: live)
  | RDealloc i =>
      match live !! i with
      | Some b => a' ← ga_dealloc a (b_ptr b) (b_layout b);
                  Ret (a', delete i live)
      | None => Ret (a, live)
      end
  end.

Fixpoint serve_all (st : A * list block) (rs : list request) : outcome (A * list block) :=
  match rs with
  | [] => Ret st
  | r :: rs => st' ← serve st r; serve_all st' rs
  end.

Definition request_ok (r : request) : Prop :=
  match r with RAlloc l => layout_ok l | RDealloc _ => True end.

Context {lo hi : Z} `{!AllocContract A lo hi}.

(** The request has a layout, and one the implementation accepts. *)
Definition request_accepted (r : request) : Prop :=
  request_ok r ∧ match r with RAlloc l => ac_layout lo hi l | RDealloc _ => True end.

Lemma serve_contract st r :
  ac_inv lo hi st.1 st.2 → request_accepted r →
  returns (serve st r) (λ st', ac_inv lo hi st'.1 st'.2).
Proof.
  destruct st as [a live]; simpl. intros Hinv [Hr Hacc]. destruct r as [l|i]; simpl in *.
  - eapply returns_bind; [by apply (ac_alloc lo hi)|]. intros [p a'] Hp.
    apply returns_Ret. simpl. destruct (Z.eqb_spec p 0); naive_solver.
  - destruct (live !! i) as [b|] eqn:Hb; [|by apply returns_Ret].
    eapply returns_bind.
    { apply (ac_dealloc lo hi _ _ _ (delete i live) Hinv). by apply delete_Permutation. }
    intros a' ?. by apply returns_Ret.
Qed.

Lemma serve_all_contract rs st :
  ac_inv lo hi st.1 st.2 → Forall request_accepted rs →
  returns (serve_all st rs) (λ st', ac_inv lo hi st'.1 st'.2).
Proof.
  revert st. induction rs as [|r rs IH]; intros st Hinv Hrs; simpl.
  { by apply returns_Ret. }
  apply Forall_cons in Hrs as [Hr Hrs].
  eapply returns_bind; [by apply serve_contract|]. intros st' ?. by apply IH.
Qed.

Lemma serve_all_safe rs st :
  ac_inv lo hi st.1 st.2 → Forall request_accepted rs →
  returns (serve_all st rs) (λ st', blocks_safe lo hi st'.2).
Proof.
  intros ??. eapply returns_mono; [by apply serve_all_contract|].
  intros st' Hst. exact (ac_safe lo hi _ _ Hst).
Qed.
End client.

(** ** [Locked]: an allocator behind a spin lock *)

Section locked.
Context {A : Type} `{Spinlock} `{GlobalAlloc A}.

Record Locked : Type := mkLocked { inner : A; held : bool }.

Definition locked_new (a : A) : Locked := mkLocked a false.

Definition lock (l : Locked) : outcome Locked := b ← spin_lock (held l); Ret (mkLocked (inner l) b).

(** The guard is dropped. *)
Definition unlock (l : Locked) : Locked := mkLocked (inner l) (spin_unlock (held l)).

(** The methods of [Locked<A>] lock, and work on the allocator; a panic
    leaves the lock held. *)
#[export] Instance locked_GlobalAlloc : GlobalAlloc Locked := {
  ga_alloc l layout :=
    l ← lock l; '(p, a) ← ga_alloc (inner l) layout; Ret (p, unlock (mkLocked a (held l)));
  ga_dealloc l p layout :=
    l ← lock l; a ← ga_dealloc (inner l) p layout; Ret (unlock (mkLocked a (held l)));
}.

Context `{!SpinlockLaws} {lo hi : Z} `{!AllocContract A lo hi}.

Definition locked_inv (l : Locked) (live : list block) : Prop := held l = false ∧ ac_inv lo hi (inner l) live.

Lemma lock_free l : held l = false → lock l = Ret (mkLocked (inner l) true).
Proof. unfold lock. intros ->. by rewrite spin_lock_free. Qed.

(** A call from inside of a call, as of an interrupt that allocates while the
    interrupted code does, never returns. *)
Lemma locked_alloc_reentrant l layout : held l = true → ga_alloc l layout = OutOfFuel.
Proof. intros Hh. cbn [ga_alloc locked_GlobalAlloc]. unfold lock. by rewrite Hh, spin_lock_held. Qed.

Lemma locked_alloc l live layout :
  locked_inv l live → layout_ok layout → ac_layout lo hi layout →
  returns (ga_alloc l layout) (λ '(p, l'),
    (p = 0 ∧ locked_inv l' live) ∨ (p ≠ 0 ∧ locked_inv l' (Block p layout :: live))).
Proof.
  intros [Hh Hi] Hl Ha. cbn [ga_alloc locked_GlobalAlloc]. rewrite lock_free by done. rewrite bind_Ret. cbn [inner held].
  eapply returns_bind; [by apply (ac_alloc lo hi)|]. intros [p a] Hp. apply returns_Ret. unfold locked_inv, unlock.
  cbn [inner held]. rewrite spin_unlock_frees. naive_solver.
Qed.

Lemma locked_dealloc l live b live' :
  locked_inv l live → live ≡ₚ b :: live' → returns (ga_dealloc l (b_ptr b) (b_layout b)) (λ l', locked_inv l' live').
Proof.
  intros [Hh Hi] Hp. cbn [ga_dealloc locked_GlobalAlloc]. rewrite lock_free by done. rewrite bind_Ret. cbn [inner held].
  eapply returns_bind; [by apply (ac_dealloc lo hi _ _ _ live' Hi)|]. intros a Ha. apply returns_Ret.
  split; [apply spin_unlock_frees|done].
Qed.

(** What the allocator promises, it promises behind its lock. *)
#[export] Instance locked_AllocContract : AllocContract Locked lo hi := {
  ac_layout := ac_layout lo hi;
  ac_inv := locked_inv;
  ac_safe l live Hl := ac_safe lo hi (inner l) live (proj2 Hl);
  ac_alloc := locked_alloc;
  ac_dealloc := locked_dealloc;
}.
End locked.
Arguments Locked : clear implicits.

(** ** [Dummy]: no allocation succeeds *)

Inductive Dummy : Type := mkDummy.

#[export] Instance dummy_GlobalAlloc : GlobalAlloc Dummy := {
  ga_alloc d _ := Ret (0, d);
  ga_dealloc _ _ _ := Panic ExplicitPanic;
}.

(** It keeps the contract of a heap of any size: nothing is ever live. *)
#[export, refine] Instance dummy_AllocContract lo hi : AllocContract Dummy lo hi := {
  ac_layout _ := True;
  ac_inv _ live := live = [];
}.
Proof.
  - intros a live ->. split; [constructor|exact I].
  - intros a live l -> _ _. apply returns_Ret. by left.
  - intros a live b live' -> Hp. by apply Permutation_nil_cons in Hp.
Defined.

(** The heap of the kernel. *)
Definition HEAP_START : Z := 0x444444440000.
Definition HEAP_SIZE : Z := 15 * 1024 * 1024.
