(* ===== verification/BumpAllocator.v ===== *)
(** * The bump allocator (kernel/src/allocator/bump.rs), the kernel's
    [#[global_allocator]].

    The state is the struct [BumpAllocator]; [alloc] and [dealloc] are the two
    trait methods.  The lock around the state is a spin lock held for the
    whole method, so a call is one step.  The allocator keeps no list of its
    blocks: that the blocks the kernel holds are disjoint rests on the counter
    [allocations], which [bump_inv] ties to the number of live blocks. *)

From S2P Require Import Prelude Sync GlobalAlloc.
Open Scope Z_scope.
Open Scope rust_scope.

Record BumpAllocator : Type := mkBump {
  heap_start : Z;
  heap_end : Z;
  next : Z;
  allocations : Z;
}.

Definition new : BumpAllocator := mkBump 0 0 0 0.

Definition init (b : BumpAllocator) (start size : Z) : BumpAllocator :=
  mkBump start (saturating_add 64 start size) start (allocations b).

Definition alloc (b : BumpAllocator) (l : Layout) : outcome (Z * BumpAllocator) :=
  alloc_start ← align_up (next b) (lalign l);
  match checked_opt 64 (alloc_start + lsize l) with
  | None => Ret (0, b)
  | Some alloc_end =>
      if heap_end b <? alloc_end then Ret (0, b)
      else n ← allocations b +[64] 1;
           Ret (alloc_start, mkBump (heap_start b) (heap_end b) alloc_end n)
  end.

Definition dealloc (b : BumpAllocator) (ptr : Z) (l : Layout) : outcome BumpAllocator :=
  n ← allocations b -[64] 1;
  Ret (mkBump (heap_start b) (heap_end b)
              (if n =? 0 then heap_start b else next b) n).

#[export] Instance bump_GlobalAlloc : GlobalAlloc BumpAllocator := {
  ga_alloc := alloc;
  ga_dealloc := dealloc;
}.

(** ** Invariant *)

Section invariant.
Context {lo hi : Z} (Hlo : 0 < lo) (Hlohi : lo ≤ hi) (Hhi : hi < 2 ^ 63).

Definition bump_inv (b : BumpAllocator) (live : list block) : Prop :=
  heap_start b = lo ∧ heap_end b = hi ∧ lo ≤ next b ≤ hi ∧
  allocations b = zlen live ∧
  (* each block takes at least a byte of [[lo, next)] *)
  zlen live ≤ next b - lo ∧
  (live = [] → next b = lo) ∧
  blocks_safe lo (next b) live.

Lemma blocks_safe_widen hi1 hi2 live :
  hi1 ≤ hi2 → blocks_safe lo hi1 live → blocks_safe lo hi2 live.
Proof.
  intros Hle [Hin Hsep]. split; [|done].
  eapply Forall_impl; [exact Hin|]. unfold within. simpl. intros b ?. lia.
Qed.

Lemma bump_inv_safe b live : bump_inv b live → blocks_safe lo hi live.
Proof.
  intros (_ & _ & Hn & _ & _ & _ & Hs). eapply blocks_safe_widen; [|done]. lia.
Qed.

Lemma init_inv b : allocations b = 0 → bump_inv (init b lo (hi - lo)) [].
Proof.
  intros Hb. unfold bump_inv, init, saturating_add, uint_max. simpl.
  rewrite Hb, Z.min_r by lia. split_and!; try done; try lia.
  unfold zlen. simpl. lia.
Qed.

(** The two results of [alloc], from the arithmetic of the code. *)
Lemma alloc_result b live l :
  bump_inv b live → layout_ok l →
  let p := round_up (next b) (lalign l) in
  alloc b l =
    Ret (if hi <? p + lsize l then (0, b)
         else (p, mkBump lo hi (p + lsize l) (allocations b + 1))).
Proof.
  intros (Hs & He & Hn & Ha & Hc & _ & _) Hl p.
  apply layout_ok_inv in Hl as (k & Hk & Hal & Hsz & Hmax).
  pose proof (Z.pow_le_mono_r 2 k 62). pose proof (Z.pow_pos_nonneg 2 k).
  destruct (round_up_spec (next b) (lalign l)) as [Hp _]; [lia|]. fold p in Hp.
  unfold alloc. rewrite Hal, align_up_round_up, <- Hal by lia. fold p. simpl.
  rewrite (proj2 (checked_opt_Some 64 (p + lsize l) _))
    by (unfold in_width; split; [done|lia]).
  rewrite He. split_guard; [done|].
  rewrite checked_ok by (unfold in_width; pose proof (zlen_nonneg live); lia).
  simpl. by rewrite Hs.
Qed.

(** A block placed at or after [next] is clear of all the live blocks. *)
Lemma live_apart_next b live p n :
  bump_inv b live → next b ≤ p → Forall (apart (p, n)) (b_range <$> live).
Proof.
  intros (_ & _ & _ & _ & _ & _ & [Hin _]) Hp. apply Forall_fmap.
  eapply Forall_impl; [exact Hin|]. unfold within, apart, r_end, b_range. simpl.
  intros x ?. lia.
Qed.

Lemma alloc_inv b live l :
  bump_inv b live → layout_ok l →
  returns (alloc b l) (λ '(p, b'),
    (p = 0 ∧ bump_inv b' live) ∨ (p ≠ 0 ∧ bump_inv b' (Block p l :: live))).
Proof.
  intros Hinv Hl. rewrite (alloc_result _ _ _ Hinv Hl). apply returns_Ret.
  apply layout_ok_inv in Hl as (k & Hk & Hal & Hsz & Hmax).
  pose proof (Z.pow_pos_nonneg 2 k).
  destruct (round_up_spec (next b) (lalign l)) as [Hp Hmod]; [lia|].
  set (p := round_up (next b) (lalign l)) in *.
  pose proof Hinv as (Hs & He & Hn & Ha & Hc & Hr & [Hin Hsep]).
  split_guard; [by left|]. right. split; [lia|].
  unfold bump_inv. simpl. rewrite zlen_cons. split_and!; try done; try lia.
  split.
  - apply Forall_cons. unfold within, b_range, r_end. simpl.
    split; [split; [done|lia]|].
    eapply Forall_impl; [exact Hin|]. unfold within, b_range, r_end. simpl.
    intros x ?. lia.
  - simpl. split; [|done]. apply (live_apart_next b live p (lsize l)); [done|lia].
Qed.

Lemma dealloc_inv b live blk live' :
  bump_inv b live → live ≡ₚ blk :: live' →
  returns (dealloc b (b_ptr blk) (b_layout blk)) (λ b', bump_inv b' live').
Proof.
  intros (Hs & He & Hn & Ha & Hc & Hr & [Hin Hsep]) Hp.
  assert (Hz : zlen live = 1 + zlen live')
    by (unfold zlen; rewrite Hp; simpl; lia).
  rewrite Hp in Hin. rewrite Hp in Hsep. simpl in Hsep.
  apply Forall_cons in Hin as [_ Hin]. destruct Hsep as [_ Hsep].
  unfold dealloc. pose proof (zlen_nonneg live').
  rewrite checked_ok by (unfold in_width; lia). apply returns_Ret.
  unfold bump_inv. simpl. split_guard.
  - destruct live'; [|rewrite zlen_cons in *; pose proof (zlen_nonneg live'); lia].
    split_and!; try done; lia.
  - split_and!; try done; try lia. intros ->. unfold zlen in *. simpl in *. lia.
Qed.

#[export] Instance bump_AllocContract : AllocContract BumpAllocator lo hi := {
  ac_layout := λ _, True;
  ac_inv := bump_inv;
  ac_safe := bump_inv_safe;
  ac_alloc := λ b live l Hinv Hl _, alloc_inv b live l Hinv Hl;
  ac_dealloc := dealloc_inv;
}.
End invariant.

(** The allocator as [init_heap] leaves it. *)
Definition kernel_heap : BumpAllocator := init new HEAP_START HEAP_SIZE.

#[export] Instance kernel_AllocContract :
  AllocContract BumpAllocator HEAP_START (HEAP_START + HEAP_SIZE) :=
  bump_AllocContract (lo:=HEAP_START) (hi:=HEAP_START + HEAP_SIZE) eq_refl eq_refl.

Lemma kernel_heap_inv : ac_inv HEAP_START (HEAP_START + HEAP_SIZE) kernel_heap [].
Proof. by apply (init_inv (lo:=HEAP_START) (hi:=HEAP_START + HEAP_SIZE)). Qed.

Lemma kernel_heap_reach rs :
  Forall request_ok rs →
  returns (serve_all (kernel_heap, []) rs) (λ st,
    ac_inv HEAP_START (HEAP_START + HEAP_SIZE) st.1 st.2).
Proof.
  intros Hrs. apply serve_all_contract; [exact kernel_heap_inv|].
  eapply Forall_impl; [exact Hrs|]. intros [l|i] Hr; by split.
Qed.

(** The static, and the last statement of [init_heap] on it. *)
Definition ALLOCATOR : Locked BumpAllocator := locked_new new.
Definition init_static `{Spinlock} (l : Locked BumpAllocator) : outcome (Locked BumpAllocator) :=
  l ← lock l; Ret (unlock (mkLocked (init (inner l) HEAP_START HEAP_SIZE) (held l))).

(** What [kernel_heap_safe] shows of the allocator holds of the static, and
    its lock is free between the calls. *)
Theorem static_heap_safe `{SpinlockLaws} rs :
  Forall request_ok rs →
  returns (heap ← init_static ALLOCATOR; serve_all (heap, []) rs) (λ st,
    held st.1 = false ∧ blocks_safe HEAP_START (HEAP_START + HEAP_SIZE) st.2).
Proof.
  intros Hrs. unfold init_static. rewrite lock_free by done. rewrite !bind_Ret. eapply returns_mono.
  - apply (serve_all_contract (lo:=HEAP_START) (hi:=HEAP_START + HEAP_SIZE)).
    + split; [apply spin_unlock_frees|exact kernel_heap_inv].
    + eapply Forall_impl; [exact Hrs|]. intros [l|i] Hr; by split.
  - intros st [Hh Hi]. split; [exact Hh|exact (ac_safe HEAP_START (HEAP_START + HEAP_SIZE) _ _ Hi)].
Qed.

(** A sample run of the kernel: allocations of several alignments, a free in
    the middle, an allocation that does not fit. *)
Definition sample_requests : list request :=
  [RAlloc (mkLayout 10 8); RAlloc (mkLayout 100 64); RDealloc 0;
   RAlloc (mkLayout (16 * 1024 * 1024) 1); RAlloc (mkLayout 1 1)].

Lemma sample_requests_ok : Forall request_ok sample_requests.
Proof. repeat (constructor; [first [exact I|split; reflexivity]|]). constructor. Qed.

(** C1: Whatever sequence of allocations and deallocations (each with a valid
    layout, each deallocation of a live block) the kernel performs on the heap
    [init_heap] sets up, no call panics, and after it the live blocks are
    aligned as requested, inside [[HEAP_START, HEAP_START + HEAP_SIZE)] and
    pairwise disjoint. *)
Theorem kernel_heap_safe rs :
  Forall request_ok rs →
  returns (serve_all (kernel_heap, []) rs) (λ st,
    blocks_safe HEAP_START (HEAP_START + HEAP_SIZE) st.2).
Proof.
  intros Hrs. eapply returns_mono; [by apply kernel_heap_reach|].
  intros st. apply (ac_safe HEAP_START (HEAP_START + HEAP_SIZE)).
Qed.

Lemma kernel_heap_safe_witness :
  returns (serve_all (kernel_heap, []) sample_requests) (λ st,
    blocks_safe HEAP_START (HEAP_START + HEAP_SIZE) st.2).
Proof. exact (kernel_heap_safe sample_requests sample_requests_ok). Defined.

(** In every state the kernel can reach, [alloc] answers with the lowest
    address at or above [next] that has the requested alignment, and moves
    [next] to the end of the block, when the block ends inside the heap;
    otherwise it answers null and leaves the allocator as it was.  When the
    last live block is freed the whole heap is available again. *)
Theorem kernel_heap_alloc_exact rs l :
  Forall request_ok rs → layout_ok l →
  returns (serve_all (kernel_heap, []) rs) (λ '(b, live),
    (live = [] → next b = HEAP_START) ∧
    ∃ p, next b ≤ p ∧ p mod lalign l = 0 ∧
      (∀ q, next b ≤ q → q mod lalign l = 0 → p ≤ q) ∧
      alloc b l =
        Ret (if p + lsize l <=? HEAP_START + HEAP_SIZE
             then (p, mkBump HEAP_START (HEAP_START + HEAP_SIZE)
                             (p + lsize l) (allocations b + 1))
             else (0, b))).
Proof.
  intros Hrs Hl. eapply returns_mono; [by apply kernel_heap_reach|].
  intros [b live] Hinv. change (bump_inv (lo:=HEAP_START) (hi:=HEAP_START + HEAP_SIZE) b live) in Hinv.
  pose proof Hinv as (_ & _ & _ & _ & _ & Hr & _). split; [exact Hr|].
  assert (Hpos : 0 < lalign l).
  { apply layout_ok_inv in Hl as (k & Hk & -> & _). apply Z.pow_pos_nonneg; lia. }
  exists (round_up (next b) (lalign l)).
  destruct (round_up_spec (next b) (lalign l) Hpos) as [[? ?] ?].
  split_and!; [done|done|intros; by apply round_up_least|].
  erewrite (alloc_result (lo:=HEAP_START) (hi:=HEAP_START + HEAP_SIZE));
    [|reflexivity|reflexivity|exact Hinv|exact Hl].
  by rewrite Z.ltb_antisym; destruct (_ <=? _).
Qed.

Lemma kernel_heap_alloc_exact_witness :
  returns (serve_all (kernel_heap, []) sample_requests) (λ '(b, live),
    (live = [] → next b = HEAP_START) ∧
    ∃ p, next b ≤ p ∧ p mod 16 = 0 ∧
      (∀ q, next b ≤ q → q mod 16 = 0 → p ≤ q) ∧
      alloc b (mkLayout 48 16) =
        Ret (if p + 48 <=? HEAP_START + HEAP_SIZE
             then (p, mkBump HEAP_START (HEAP_START + HEAP_SIZE)
                             (p + 48) (allocations b + 1))
             else (0, b))).
Proof.
  exact (kernel_heap_alloc_exact sample_requests (mkLayout 48 16)
           sample_requests_ok (conj eq_refl eq_refl)).
Defined.
