(* ===== verification/LinkedListAllocator.v ===== *)
(** * The linked-list allocator (kernel/src/allocator/linked_list.rs)

    The free list lives in the free memory itself: a [ListNode] is written at
    the start of each free region.  The model keeps that memory as a finite
    map from addresses to nodes ([mem]) and follows the [next] pointers with a
    cursor, as [find_region] does; [chain] ties the pointers to an abstract
    list of free regions, and [alloc_refines] shows that the pointer code is
    first-fit on that list.  [linked_AllocContract] discharges the contract of
    [GlobalAlloc]. *)

From S2P Require Import Prelude GlobalAlloc.
Open Scope Z_scope.
Open Scope rust_scope.

Record ListNode : Type := mkNode { size : Z; next : option Z }.

(** [mem::size_of::<ListNode>()] and [mem::align_of::<ListNode>()]: a [usize]
    and an optional reference, on x86-64. *)
Definition NODE_SIZE : Z := 16.
Definition NODE_ALIGN : Z := 8.

Record LinkedListAllocator : Type := mkLLA {
  head : ListNode;
  mem : gmap Z ListNode;
}.

Definition new (m : gmap Z ListNode) : LinkedListAllocator := mkLLA (mkNode 0 None) m.

(** [region.end_addr()] for the node at address [addr]. *)
Definition end_addr (addr : Z) (n : ListNode) : outcome Z := addr +[64] size n.

Definition add_free_region (st : LinkedListAllocator) (addr sz : Z)
    : outcome LinkedListAllocator :=
  a ← align_up addr NODE_ALIGN;
  _ ← assert_b (a =? addr);
  _ ← assert_b (NODE_SIZE <=? sz);
  Ret (mkLLA (mkNode (size (head st)) (Some addr))
             (<[addr := mkNode sz (next (head st))]> (mem st))).

Definition init (st : LinkedListAllocator) (start sz : Z) : outcome LinkedListAllocator :=
  add_free_region st start sz.

Definition alloc_from_region (addr : Z) (n : ListNode) (sz align : Z) : outcome (option Z) :=
  alloc_start ← align_up addr align;
  match checked_opt 64 (alloc_start + sz) with
  | None => Ret None
  | Some alloc_end =>
      e ← end_addr addr n;
      if e <? alloc_end then Ret None
      else
        excess_size ← e -[64] alloc_end;
        if (0 <? excess_size) && (excess_size <? NODE_SIZE) then Ret None
        else Ret (Some alloc_start)
  end.

(** The variable [current] of [find_region]: [&mut self.head], or the node at
    an address. *)
Inductive cursor : Type := AtHead | AtNode (a : Z).

(** Following a pointer to no node would read unowned memory; [find_loop_spec]
    shows that it does not happen. *)
Definition get (st : LinkedListAllocator) (c : cursor) : outcome ListNode :=
  match c with
  | AtHead => Ret (head st)
  | AtNode a => unwrap (mem st !! a)
  end.

Definition set_next (st : LinkedListAllocator) (c : cursor) (n : option Z)
    : LinkedListAllocator :=
  match c with
  | AtHead => mkLLA (mkNode (size (head st)) n) (mem st)
  | AtNode a => mkLLA (head st) (alter (λ nd, mkNode (size nd) n) a (mem st))
  end.

(** The [while let] loop: the region found (its address and size), the start
    of the allocation, and the list without the region. *)
Fixpoint find_region_loop (fuel : nat) (st : LinkedListAllocator) (current : cursor)
    (sz align : Z) : outcome (option (range * Z) * LinkedListAllocator) :=
  match fuel with
  | O => OutOfFuel
  | S fuel =>
      cur ← get st current;
      match next cur with
      | None => Ret (None, st)
      | Some r =>
          region ← get st (AtNode r);
          found ← alloc_from_region r region sz align;
          match found with
          | Some alloc_start =>
              let st1 := set_next st (AtNode r) None in
              let st2 := set_next st1 current (next region) in
              Ret (Some ((r, size region), alloc_start), st2)
          | None => find_region_loop fuel st (AtNode r) sz align
          end
      end
  end.

Definition find_region (st : LinkedListAllocator) (sz align : Z)
    : outcome (option (range * Z) * LinkedListAllocator) :=
  find_region_loop (S (base.size (mem st))) st AtHead sz align.

Definition size_align (l : Layout) : outcome (Z * Z) :=
  l ← unwrap (align_to l NODE_ALIGN);
  let l := pad_to_align l in
  Ret (Z.max (lsize l) NODE_SIZE, lalign l).

Definition alloc (st : LinkedListAllocator) (l : Layout) : outcome (Z * LinkedListAllocator) :=
  '(sz, align) ← size_align l;
  '(found, st) ← find_region st sz align;
  match found with
  | Some (region, alloc_start) =>
      alloc_end ← unwrap (checked_opt 64 (alloc_start + sz));
      e ← end_addr region.1 (mkNode region.2 None);
      excess_size ← e -[64] alloc_end;
      st ← (if 0 <? excess_size then add_free_region st alloc_end excess_size else Ret st);
      Ret (alloc_start, st)
  | None => Ret (0, st)
  end.

Definition dealloc (st : LinkedListAllocator) (ptr : Z) (l : Layout)
    : outcome LinkedListAllocator :=
  '(sz, _) ← size_align l;
  add_free_region st ptr sz.

#[export] Instance linked_GlobalAlloc : GlobalAlloc LinkedListAllocator := {
  ga_alloc := alloc;
  ga_dealloc := dealloc;
}.

(** ** The abstract free list and first fit *)

(** Where a request of [sz] bytes aligned to [align] goes in a free region:
    the region must hold it, and what is left after it is nothing or enough
    for a node. *)
Definition fit (r : range) (sz align : Z) : option Z :=
  let s := round_up r.1 align in
  let excess := r_end r - (s + sz) in
  if (0 <=? excess) && ((excess =? 0) || (NODE_SIZE <=? excess)) then Some s else None.

Fixpoint first_fit (fl : list range) (sz align : Z) : option (range * Z * list range) :=
  match fl with
  | [] => None
  | r :: fl =>
      match fit r sz align with
      | Some s => Some (r, s, fl)
      | None => '(r', s, fl') ← first_fit fl sz align; Some (r', s, r :: fl')
      end
  end.

(** Allocation on the abstract list: what is left of the region goes to the
    front of the list; the bytes before the aligned start are lost. *)
Definition list_alloc (fl : list range) (sz align : Z) : Z * list range :=
  match first_fit fl sz align with
  | None => (0, fl)
  | Some (r, s, fl') =>
      (s, if s + sz <? r_end r then (s + sz, r_end r - (s + sz)) :: fl' else fl')
  end.

(** The list of regions the pointers describe. *)
Fixpoint chain (m : gmap Z ListNode) (p : option Z) (fl : list range) : Prop :=
  match fl with
  | [] => p = None
  | r :: fl => p = Some r.1 ∧ ∃ n, m !! r.1 = Some (mkNode r.2 n) ∧ chain m n fl
  end.

Lemma chain_frame m m' p fl :
  (∀ a, a ∈ fl.*1 → m' !! a = m !! a) → chain m p fl → chain m' p fl.
Proof.
  revert p. induction fl as [|r fl IH]; intros p Hm; simpl; [done|].
  intros (-> & n & Hn & Hc). split; [done|]. exists n.
  rewrite Hm by (simpl; set_solver). split; [done|].
  apply IH; [|done]. intros a Ha. apply Hm. simpl. set_solver.
Qed.

Lemma chain_dom m p fl a : chain m p fl → a ∈ fl.*1 → a ∈ dom m.
Proof.
  revert p. induction fl as [|r fl IH]; intros p; simpl; [set_solver|].
  intros (_ & n & Hn & Hc) [->|Ha]%elem_of_cons; [by eapply elem_of_dom_2|eauto].
Qed.

Lemma chain_length m p fl :
  chain m p fl → NoDup fl.*1 → (length fl ≤ base.size m)%nat.
Proof.
  intros Hc Hnd. rewrite <- size_dom, <- (length_fmap (fst : range → Z) fl).
  rewrite <- (size_list_to_set (C:=gset Z)) by done.
  apply subseteq_size. intros a Ha%elem_of_list_to_set. by eapply chain_dom.
Qed.

(** ** The pointer code against the abstract list *)

Section refinement.
Context {lo hi : Z} (Hlo : 0 < lo) (Hlohi : lo ≤ hi) (Hhi : hi < 2 ^ 63).

(** A free region: a node fits at its start, and it is inside the heap. *)
Definition region_ok (r : range) : Prop :=
  r.1 mod NODE_ALIGN = 0 ∧ NODE_SIZE ≤ r.2 ∧ within lo hi r.

(** The size and alignment [size_align] computes for a valid layout. *)
Definition adj_align (l : Layout) : Z := Z.max (lalign l) NODE_ALIGN.
Definition adj_size (l : Layout) : Z := Z.max (round_up (lsize l) (adj_align l)) NODE_SIZE.

Definition request_fits (sz align : Z) : Prop :=
  NODE_SIZE ≤ sz < 2 ^ 63 ∧ sz mod NODE_ALIGN = 0 ∧
  ∃ k, 3 ≤ k ≤ 62 ∧ align = 2 ^ k.

Lemma adj_align_pow2 l :
  layout_ok l → ∃ k, 3 ≤ k ≤ 62 ∧ adj_align l = 2 ^ k ∧ lalign l ≤ 2 ^ k ∧
                     (2 ^ k) mod lalign l = 0.
Proof.
  intros (k & Hk & Ha & _)%layout_ok_inv. unfold adj_align, NODE_ALIGN. rewrite Ha.
  destruct (decide (k ≤ 3)).
  - exists 3. pose proof (Z.pow_le_mono_r 2 k 3). split_and!; [lia|lia|lia|lia|].
    change (2 ^ 3) with (2 ^ 3). apply (mod_pow2_weaken _ k 3); [lia|].
    by rewrite Z.mod_same.
  - exists k. pose proof (Z.pow_le_mono_r 2 3 k).
    split_and!; [lia|lia|lia|lia|]. rewrite Z.mod_same; [done|]. lia.
Qed.

(** The layouts that cannot be rounded. *)
Lemma size_align_none l : layout_ok l → 2 ^ 63 < lsize l + 8 → size_align l = Panic UnwrapFailed.
Proof.
  intros Hl Hbig. destruct (layout_ok_inv l Hl) as (k & Hk & Ha & Hs & Hle).
  assert (Hk3 : k ≤ 2).
  { destruct (Z.le_gt_cases k 2) as [?|Hgt]; [done|]. pose proof (Z.pow_le_mono_r 2 3 k ltac:(lia) ltac:(lia)). lia. }
  assert (Hmax : Z.max (lalign l) NODE_ALIGN = 8).
  { rewrite Ha. pose proof (Z.pow_le_mono_r 2 k 2 ltac:(lia) ltac:(lia)). unfold NODE_ALIGN. lia. }
  unfold size_align, align_to, from_size_align. rewrite Hmax.
  replace (is_power_of_two 8 && (lsize l <=? isize_max + 1 - 8)) with false; [done|].
  symmetry. apply andb_false_intro2, Z.leb_gt. unfold isize_max. lia.
Qed.

(** No layout the kernel can pass makes [size_align] panic, save those within
    8 bytes of [isize::MAX]. *)
Lemma size_align_ok l :
  layout_ok l → lsize l + NODE_ALIGN ≤ 2 ^ 63 →
  size_align l = Ret (adj_size l, adj_align l) ∧ request_fits (adj_size l) (adj_align l).
Proof.
  intros Hl Hmax. destruct (adj_align_pow2 l Hl) as (k & Hk & Ha & Hle & _).
  pose proof (layout_ok_inv l Hl) as (j & Hj & Haj & Hs & Hm).
  assert (Hsum : lsize l + 2 ^ k ≤ 2 ^ 63).
  { unfold adj_align, NODE_ALIGN in *. lia. }
  pose proof (Z.pow_pos_nonneg 2 k). pose proof (Z.pow_le_mono_r 2 3 k).
  destruct (round_up_spec (lsize l) (2 ^ k)) as [Hr Hr0]; [lia|].
  split.
  - unfold size_align, align_to, from_size_align. fold (adj_align l). rewrite Ha.
    rewrite (proj2 (is_power_of_two_spec (2 ^ k))) by (exists k; lia).
    rewrite (proj2 (Z.leb_le _ _)) by (unfold isize_max; lia). simpl.
    unfold pad_to_align, adj_size. simpl. by rewrite Ha.
  - unfold adj_size. rewrite Ha. unfold request_fits, NODE_SIZE, NODE_ALIGN.
    split_and!; [lia|lia| |by exists k].
    destruct (Z.max_spec (round_up (lsize l) (2 ^ k)) 16) as [[_ ->]|[_ ->]]; [done|].
    change 8 with (2 ^ 3). apply (mod_pow2_weaken _ 3 k); [lia|done].
Qed.

(** [alloc_from_region] decides [fit], without overflow. *)
Lemma alloc_from_region_fit r n sz align :
  region_ok r → request_fits sz align →
  alloc_from_region r.1 (mkNode r.2 n) sz align = Ret (fit r sz align).
Proof.
  intros (Hr8 & Hr16 & Hlo1 & _ & Hend) (Hsz & _ & k & Hk & ->).
  pose proof (Z.pow_pos_nonneg 2 k). pose proof (Z.pow_le_mono_r 2 k 62).
  unfold NODE_SIZE, r_end in *.
  destruct (round_up_spec r.1 (2 ^ k)) as [Hs _]; [lia|].
  unfold alloc_from_region, fit, end_addr, r_end, NODE_SIZE. simpl.
  rewrite align_up_round_up by lia. simpl. set (s := round_up r.1 (2 ^ k)) in *.
  unfold checked_opt. destruct (_ && _) eqn:Hov; simpl.
  - rewrite checked_ok by (unfold in_width; lia). simpl.
    destruct (Z.ltb_spec (r.1 + r.2) (s + sz)).
    { by rewrite (proj2 (Z.leb_gt 0 _)) by lia. }
    rewrite checked_ok by (unfold in_width; lia). simpl.
    rewrite (proj2 (Z.leb_le 0 _)) by lia. simpl.
    destruct (Z.eqb_spec (r.1 + r.2 - (s + sz)) 0) as [->|]; [done|]. simpl.
    rewrite (proj2 (Z.ltb_lt 0 _)) by lia. simpl.
    rewrite Z.leb_antisym. by destruct (_ <? 16).
  - by rewrite (proj2 (Z.leb_gt 0 _)) by lia.
Qed.

(** The cursor's own node is not one of the nodes ahead of it. *)
Definition off_chain (c : cursor) (fl : list range) : Prop :=
  match c with AtHead => True | AtNode a => a ∉ fl.*1 end.

(** Unlinking the node after the cursor. *)
Lemma unlink_next st c sz0 r n fl :
  get st c = Ret (mkNode sz0 (Some r.1)) →
  mem st !! r.1 = Some (mkNode r.2 n) → chain (mem st) n fl →
  NoDup (r :: fl).*1 → off_chain c (r :: fl) →
  let st' := set_next (set_next st (AtNode r.1) None) c n in
  get st' c = Ret (mkNode sz0 n) ∧ chain (mem st') n fl ∧
  (c ≠ AtHead → head st' = head st) ∧
  (∀ a, c ≠ AtNode a → a ∉ (r :: fl).*1 → mem st' !! a = mem st !! a).
Proof.
  intros Hget Hr Hc Hnd Hoff. simpl in Hnd. apply NoDup_cons in Hnd as [Hrfl _].
  destruct c as [|b]; simpl in *.
  - injection Hget as Hh. split_and!; [by rewrite Hh| |done|].
    + eapply chain_frame; [|done]. intros a Ha. rewrite lookup_alter_ne; set_solver.
    + intros a _ Ha. rewrite lookup_alter_ne; set_solver.
  - destruct (mem st !! b) as [nd|] eqn:Hb; simpl in Hget; [|done].
    injection Hget as ->. assert (b ≠ r.1) by set_solver.
    split_and!; [| |done|].
    + rewrite lookup_alter_eq, lookup_alter_ne, Hb by done. done.
    + eapply chain_frame; [|done]. intros a Ha.
      rewrite !lookup_alter_ne; set_solver.
    + intros a Hne Ha. rewrite !lookup_alter_ne; set_solver.
Qed.

Lemma find_loop_spec fuel st c sz0 p fl sz align :
  get st c = Ret (mkNode sz0 p) → chain (mem st) p fl →
  NoDup fl.*1 → off_chain c fl → Forall region_ok fl →
  request_fits sz align → (length fl < fuel)%nat →
  match first_fit fl sz align with
  | None => find_region_loop fuel st c sz align = Ret (None, st)
  | Some (r, s, fl') => ∃ st' p',
      find_region_loop fuel st c sz align = Ret (Some (r, s), st') ∧
      get st' c = Ret (mkNode sz0 p') ∧ chain (mem st') p' fl' ∧
      (c ≠ AtHead → head st' = head st) ∧
      (∀ a, c ≠ AtNode a → a ∉ fl.*1 → mem st' !! a = mem st !! a)
  end.
Proof.
  intros Hget Hc Hnd Hoff Hok Hreq.
  revert st c sz0 p Hget Hc Hoff fuel. induction fl as [|r fl IH];
    intros st c sz0 p Hget Hc Hoff [|fuel] Hfuel; simpl in *; try lia.
  { rewrite Hget. simpl. by rewrite Hc. }
  destruct Hc as (-> & n & Hr & Hc). rewrite Hget. simpl. rewrite Hr. simpl.
  apply Forall_cons in Hok as [Hrok Hok].
  rewrite (alloc_from_region_fit r n) by done. simpl.
  destruct (fit r sz align) as [s|].
  { pose proof (unlink_next st c sz0 r n fl Hget Hr Hc Hnd Hoff) as Hu. simpl in Hu.
    exists (set_next (set_next st (AtNode r.1) None) c n), n.
    split; [by destruct r|exact Hu]. }
  apply NoDup_cons in Hnd as [Hrfl Hnd].
  assert (Hgr : get st (AtNode r.1) = Ret (mkNode r.2 n)) by (simpl; by rewrite Hr).
  specialize (IH Hnd Hok st (AtNode r.1) r.2 n Hgr Hc Hrfl fuel ltac:(lia)).
  destruct (first_fit fl sz align) as [[[r' s] fl']|]; simpl; [|done].
  destruct IH as (st' & p' & -> & Hg' & Hc' & Hh' & Hm'). exists st', (Some r.1).
  simpl in Hg'. destruct (mem st' !! r.1) as [nd|] eqn:Hr'; simpl in Hg'; [|done].
  injection Hg' as ->.
  split_and!; [done| |done|by exists p'|intros; by apply Hh'|].
  - destruct c as [|b]; simpl in *.
    + by rewrite Hh'.
    + rewrite Hm' by set_solver. done.
  - intros a Hne Ha. apply Hm'; set_solver.
Qed.

Definition free_list (st : LinkedListAllocator) (fl : list range) : Prop :=
  chain (mem st) (next (head st)) fl.

Lemma fit_inv r sz align s :
  0 < align → fit r sz align = Some s →
  r.1 ≤ s ∧ s mod align = 0 ∧ s + sz ≤ r_end r ∧
  (s + sz = r_end r ∨ NODE_SIZE ≤ r_end r - (s + sz)).
Proof.
  intros Ha. unfold fit. destruct (round_up_spec r.1 align Ha) as [[? _] ?].
  split_guard; [|done]. intros [= <-]. split_and!; [done|done|lia|lia].
Qed.

Lemma first_fit_inv fl sz align r s fl' :
  first_fit fl sz align = Some (r, s, fl') →
  fl ≡ₚ r :: fl' ∧ fit r sz align = Some s.
Proof.
  revert fl'. induction fl as [|x fl IH]; intros fl'; simpl; [done|].
  destruct (fit x sz align) as [s'|] eqn:Hx.
  { intros [= -> -> ->]. by split. }
  destruct (first_fit fl sz align) as [[[y s'] fl'']|]; simpl; [|done].
  intros [= -> -> <-]. destruct (IH fl'' eq_refl) as [-> ?]. split; [|done].
  apply Permutation_swap.
Qed.

Lemma region_ok_pos fl : Forall region_ok fl → Forall (λ r, 0 < r.2) fl.
Proof.
  intros Hfl. eapply Forall_impl; [exact Hfl|].
  unfold region_ok, NODE_SIZE. intros r ?. lia.
Qed.

(** Pushing a region onto the free list. *)
Lemma add_free_region_ok st fl addr sz :
  free_list st fl → region_ok (addr, sz) → addr ∉ fl.*1 →
  returns (add_free_region st addr sz) (λ st', free_list st' ((addr, sz) :: fl)).
Proof.
  intros Hfl (H8 & H16 & Hlo1 & _ & Hend) Hnin. unfold r_end in Hend. simpl in *.
  unfold add_free_region, NODE_ALIGN, NODE_SIZE in *. change 8 with (2 ^ 3) in *.
  rewrite align_up_round_up by lia. rewrite round_up_id by done. simpl.
  rewrite Z.eqb_refl. simpl. rewrite (proj2 (Z.leb_le _ _)) by done. simpl.
  apply returns_Ret. unfold free_list. simpl. split; [done|].
  exists (next (head st)). rewrite lookup_insert_eq. split; [done|].
  eapply chain_frame; [|exact Hfl]. intros a Ha. apply lookup_insert_ne. set_solver.
Qed.

(** A first-fit search on the memory finds what [first_fit] finds. *)
Lemma find_region_ok st fl sz align :
  free_list st fl → Forall region_ok fl → separated fl → request_fits sz align →
  match first_fit fl sz align with
  | None => find_region st sz align = Ret (None, st)
  | Some (r, s, fl') => ∃ st', find_region st sz align = Ret (Some (r, s), st') ∧
                               free_list st' fl'
  end.
Proof.
  intros Hfl Hok Hsep Hreq.
  assert (Hnd : NoDup fl.*1) by (apply separated_NoDup; [by apply region_ok_pos|done]).
  pose proof (chain_length _ _ _ Hfl Hnd) as Hlen.
  pose proof (find_loop_spec (S (base.size (mem st))) st AtHead (size (head st))
    (next (head st)) fl sz align) as Hloop.
  specialize (Hloop ltac:(simpl; by destruct (head st)) Hfl Hnd I Hok Hreq ltac:(lia)).
  unfold find_region.
  destruct (first_fit fl sz align) as [[[r s] fl']|]; [|done].
  destruct Hloop as (st' & p' & -> & Hg & Hc & _). exists st'. split; [done|].
  simpl in Hg. injection Hg as Hg. unfold free_list. by rewrite Hg.
Qed.

Definition accepted (l : Layout) : Prop := lsize l + NODE_ALIGN ≤ 2 ^ 63.

(** What remains of a region after the allocation is a valid region. *)
Lemma remainder_ok r sz align s :
  region_ok r → request_fits sz align → fit r sz align = Some s →
  s + sz < r_end r → region_ok (s + sz, r_end r - (s + sz)).
Proof.
  intros (H8 & H16 & Hlo1 & ? & Hend) (Hsz & Hsz8 & k & Hk & ->) Hfit Hlt.
  apply fit_inv in Hfit as (Hs & Hsa & Hse & Hex); [|apply Z.pow_pos_nonneg; lia].
  unfold region_ok, within, r_end, NODE_SIZE, NODE_ALIGN in *. simpl.
  split_and!; [|lia|lia|lia|lia]. change 8 with (2 ^ 3) in *.
  apply (mod_pow2_weaken _ 3 k) in Hsa; [|lia].
  rewrite Z.add_mod, Hsa, Hsz8 by done. done.
Qed.

(** The pointer code of [alloc] refines first fit on the abstract free list. *)
Lemma alloc_refines_list st fl l :
  free_list st fl → Forall region_ok fl → separated fl →
  layout_ok l → accepted l →
  returns (alloc st l) (λ '(p, st'),
    p = (list_alloc fl (adj_size l) (adj_align l)).1 ∧
    free_list st' (list_alloc fl (adj_size l) (adj_align l)).2).
Proof.
  intros Hfl Hok Hsep Hl Hacc.
  destruct (size_align_ok l Hl Hacc) as [Hsa Hreq]. unfold alloc. rewrite Hsa. simpl.
  pose proof (find_region_ok st fl _ _ Hfl Hok Hsep Hreq) as Hfind.
  unfold list_alloc.
  destruct (first_fit fl (adj_size l) (adj_align l)) as [[[r s] fl']|] eqn:Hff;
    [|rewrite Hfind; by apply returns_Ret].
  destruct Hfind as (st' & -> & Hfl'). simpl.
  destruct (first_fit_inv _ _ _ _ _ _ Hff) as [Hp Hfit].
  rewrite Hp in Hok, Hsep. apply Forall_cons in Hok as [Hrok Hok].
  pose proof Hrok as (_ & _ & Hlo1 & _ & Hend).
  pose proof Hreq as (Hsz & _ & k & Hk & Hal).
  pose proof (fit_inv r (adj_size l) (adj_align l) s ltac:(rewrite Hal; apply Z.pow_pos_nonneg; lia) Hfit)
    as (Hs & _ & Hse & _).
  unfold NODE_SIZE in Hsz.
  rewrite (proj2 (checked_opt_Some 64 _ (s + adj_size l)))
    by (unfold in_width; split; [done|unfold r_end in *; lia]). simpl.
  unfold end_addr. simpl. fold (r_end r).
  rewrite checked_ok by (unfold in_width, r_end in *; lia). simpl.
  rewrite checked_ok by (unfold in_width, r_end in *; lia). simpl.
  destruct (Z.ltb_spec (s + adj_size l) (r_end r)) as [Hlt|Hge].
  - rewrite (proj2 (Z.ltb_lt 0 _)) by lia.
    eapply returns_bind; [|intros st2 Hst2; apply returns_Ret; split; [done|exact Hst2]].
    pose proof (remainder_ok _ _ _ _ Hrok Hreq Hfit Hlt) as Hrem.
    apply add_free_region_ok; [done|done|].
    apply (separated_start (s + adj_size l, r_end r - (s + adj_size l)));
      [simpl; lia|by apply region_ok_pos|].
    eapply separated_sub; [|exact Hsep]. unfold inside, r_end in *. simpl. lia.
  - rewrite (proj2 (Z.ltb_ge 0 _)) by lia. simpl. by apply returns_Ret.
Qed.

(** ** The invariant and the contract *)

Definition reserved (b : block) : range := (b_ptr b, adj_size (b_layout b)).

Definition live_ok (b : block) : Prop :=
  layout_ok (b_layout b) ∧ accepted (b_layout b) ∧
  b_ptr b mod adj_align (b_layout b) = 0 ∧ within lo hi (reserved b).

(** The free regions are valid, the live blocks own what [size_align] reserved
    for them, and all of these ranges are disjoint. *)
Definition ll_inv (st : LinkedListAllocator) (live : list block) : Prop :=
  ∃ fl, free_list st fl ∧ Forall region_ok fl ∧ Forall live_ok live ∧
        separated (fl ++ (reserved <$> live)).

Lemma live_ok_range b :
  live_ok b →
  b_ptr b mod lalign (b_layout b) = 0 ∧ inside (b_range b) (reserved b) ∧
  within lo hi (b_range b).
Proof.
  intros (Hl & Hacc & Hmod & Hw).
  destruct (adj_align_pow2 _ Hl) as (k & Hk & Ha & Hle & Hdiv).
  pose proof (layout_ok_inv _ Hl) as (j & Hj & Haj & Hs & _).
  pose proof (Z.pow_pos_nonneg 2 k). pose proof (Z.pow_pos_nonneg 2 j).
  assert (Hsz : lsize (b_layout b) ≤ adj_size (b_layout b)).
  { unfold adj_size. destruct (round_up_spec (lsize (b_layout b)) (adj_align (b_layout b)));
      lia. }
  unfold inside, within, b_range, reserved, r_end in *. simpl in *.
  split_and!; try lia. rewrite Ha in Hmod. rewrite Haj in *.
  apply Z.mod_divide in Hmod; [|lia]. apply Z.mod_divide in Hdiv; [|lia].
  apply Z.mod_divide; [lia|]. by etransitivity.
Qed.

Lemma ll_inv_safe st live : ll_inv st live → blocks_safe lo hi live.
Proof.
  intros (fl & _ & _ & Hlive & (_ & Hsep & _)%separated_app). split.
  - eapply Forall_impl; [exact Hlive|]. intros b Hb.
    by destruct (live_ok_range b Hb) as (? & _ & ?).
  - eapply (separated_shrink reserved); [|done].
    eapply Forall_impl; [exact Hlive|]. intros b Hb. by apply live_ok_range.
Qed.

Lemma ll_alloc_inv st live l :
  ll_inv st live → layout_ok l → accepted l →
  returns (alloc st l) (λ '(p, st'),
    (p = 0 ∧ ll_inv st' live) ∨ (p ≠ 0 ∧ ll_inv st' (Block p l :: live))).
Proof.
  intros (fl & Hfl & Hok & Hlive & Hsep) Hl Hacc.
  pose proof (proj1 (separated_app _ _) Hsep) as (Hsfl & _ & _).
  destruct (size_align_ok l Hl Hacc) as [_ Hreq].
  eapply returns_mono; [by apply (alloc_refines_list st fl l)|].
  intros [p st'] [-> Hfl']. unfold list_alloc in *.
  destruct (first_fit fl (adj_size l) (adj_align l)) as [[[r s] fl']|] eqn:Hff.
  2: { left. split; [done|]. by exists fl. }
  destruct (first_fit_inv _ _ _ _ _ _ Hff) as [Hp Hfit]. rewrite Hp in Hsep, Hok.
  apply Forall_cons in Hok as [Hrok Hok]. simpl in Hsep.
  pose proof Hrok as (_ & _ & Hlo1 & _ & Hend).
  pose proof Hreq as ([Hsz _] & _ & k & Hk & Hal).
  pose proof (fit_inv r (adj_size l) (adj_align l) s
    ltac:(rewrite Hal; apply Z.pow_pos_nonneg; lia) Hfit) as (Hs & Hmod & Hse & _).
  right. split; [simpl; lia|]. simpl in *. unfold NODE_SIZE in *.
  assert (Hnew : live_ok (Block s l)).
  { unfold live_ok, within, reserved, r_end in *. simpl.
    split_and!; [done|done|done|lia|lia|lia]. }
  assert (Hin : inside (s, adj_size l) r) by (unfold inside, r_end in *; simpl; lia).
  destruct (Z.ltb_spec (s + adj_size l) (r_end r)) as [Hlt|Hge].
  - exists ((s + adj_size l, r_end r - (s + adj_size l)) :: fl').
    split_and!; [done| |by constructor|].
    { constructor; [|done]. by eapply remainder_ok. }
    simpl. rewrite <- Permutation_middle.
    apply (separated_split r); [|exact Hin| |exact Hsep].
    + unfold inside, r_end in *. simpl. lia.
    + unfold apart, r_end in *. simpl. lia.
  - exists fl'. split_and!; [done|done|by constructor|].
    simpl. rewrite <- Permutation_middle. by apply (separated_sub r).
Qed.

Lemma ll_dealloc_inv st live b live' :
  ll_inv st live → live ≡ₚ b :: live' →
  returns (dealloc st (b_ptr b) (b_layout b)) (λ st', ll_inv st' live').
Proof.
  intros (fl & Hfl & Hok & Hlive & Hsep) Hp. rewrite Hp in Hlive, Hsep.
  apply Forall_cons in Hlive as [(Hl & Hacc & Hmod & Hw) Hlive].
  simpl in Hsep. rewrite <- Permutation_middle in Hsep.
  destruct (size_align_ok _ Hl Hacc) as [Hsa Hreq].
  pose proof Hreq as ([Hsz _] & _ & k & Hk & Hal).
  assert (Hrok : region_ok (reserved b)).
  { unfold region_ok, reserved, NODE_ALIGN, NODE_SIZE in *. simpl in *.
    split_and!; [|lia|done]. rewrite Hal in Hmod.
    change 8 with (2 ^ 3). apply (mod_pow2_weaken _ 3 k); [lia|done]. }
  unfold dealloc. rewrite Hsa. simpl.
  eapply returns_mono.
  - apply (add_free_region_ok st fl); [done|exact Hrok|].
    apply (separated_start (reserved b)); [unfold reserved, NODE_SIZE in *; simpl; lia| |].
    + by apply region_ok_pos.
    + split; [|by apply (separated_app fl (reserved <$> live')), (separated_tail (reserved b))].
      destruct Hsep as [Hb _]. by apply Forall_app in Hb as [? _].
  - intros st' Hst'. exists (reserved b :: fl). split_and!; [done|by constructor|done|done].
Qed.

Definition linked_contract : AllocContract LinkedListAllocator lo hi := {|
  ac_layout := accepted;
  ac_inv := ll_inv;
  ac_safe := ll_inv_safe;
  ac_alloc := ll_alloc_inv;
  ac_dealloc := ll_dealloc_inv;
|}.

(** [init] on the bounds of the heap. *)
Lemma init_ll_inv m :
  lo mod NODE_ALIGN = 0 → NODE_SIZE ≤ hi - lo →
  returns (init (new m) lo (hi - lo)) (λ st, ll_inv st []).
Proof.
  intros H8 H16.
  assert (Hrok : region_ok (lo, hi - lo))
    by (unfold region_ok, within, r_end, NODE_SIZE in *; simpl; split_and!; try done; lia).
  eapply returns_mono; [apply (add_free_region_ok _ []); [done|exact Hrok|set_solver]|].
  intros st Hst. exists [(lo, hi - lo)]. split_and!; [done|by constructor|done|].
  simpl. by repeat constructor.
Qed.
End refinement.

(** ** The kernel's heap managed by this allocator *)

Definition linked_heap : outcome LinkedListAllocator := init (new ∅) HEAP_START HEAP_SIZE.

#[export] Instance kernel_linked_contract :
  AllocContract LinkedListAllocator HEAP_START (HEAP_START + HEAP_SIZE) :=
  linked_contract (lo:=HEAP_START) (hi:=HEAP_START + HEAP_SIZE) eq_refl ltac:(done) eq_refl.

Definition linked_accepted (r : request) : Prop :=
  request_accepted (lo:=HEAP_START) (hi:=HEAP_START + HEAP_SIZE)
    (A:=LinkedListAllocator) r.

Lemma linked_heap_reach rs :
  Forall linked_accepted rs →
  returns (st ← linked_heap; serve_all (st, []) rs) (λ st,
    ac_inv HEAP_START (HEAP_START + HEAP_SIZE) st.1 st.2).
Proof.
  intros Hrs. eapply returns_bind.
  { by apply (init_ll_inv (lo:=HEAP_START) (hi:=HEAP_START + HEAP_SIZE)). }
  intros st Hst. by apply serve_all_contract.
Qed.

(** Two live blocks, a freed one, a request with a large alignment (which
    splits the region) and one that does not fit. *)
Definition sample_linked : list request :=
  [RAlloc (mkLayout 10 8); RAlloc (mkLayout 100 1); RDealloc 1;
   RAlloc (mkLayout 50 4096); RAlloc (mkLayout (16 * 1024 * 1024) 1)].

Lemma sample_linked_ok : Forall linked_accepted sample_linked.
Proof.
  repeat (constructor; [split; [first [exact I|split; reflexivity]|first [exact I|done]]|]).
  constructor.
Qed.

(** C2: A sequence of requests on a [LinkedListAllocator] initialised with the
    heap's bounds, each with a valid layout whose size is at least 8 bytes below
    2^63 ([linked_accepted]), runs without a panic (no assertion of
    [add_free_region] fails, no arithmetic overflows, the list walk
    terminates), and the live blocks stay aligned, inside the heap and
    disjoint. The valid layouts that are left out, within 8 bytes of the
    largest size, panic at any time: there is no room to round them to the
    alignment of a list node, which [size_align] expects. *)
Theorem linked_heap_safe rs :
  Forall linked_accepted rs →
  returns (st ← linked_heap; serve_all (st, []) rs) (λ st,
    blocks_safe HEAP_START (HEAP_START + HEAP_SIZE) st.2 ∧
    ∀ l, layout_ok l → 2 ^ 63 < lsize l + 8 → alloc st.1 l = Panic UnwrapFailed).
Proof.
  intros Hrs. eapply returns_mono; [by apply linked_heap_reach|].
  intros st Hst. split; [exact (ac_safe HEAP_START (HEAP_START + HEAP_SIZE) _ _ Hst)|].
  intros l Hl Hbig. unfold alloc. by rewrite size_align_none.
Qed.

Lemma linked_heap_safe_witness :
  returns (st ← linked_heap; serve_all (st, []) sample_linked) (λ st,
    blocks_safe HEAP_START (HEAP_START + HEAP_SIZE) st.2 ∧
    alloc st.1 (mkLayout (2 ^ 63 - 1) 1) = Panic UnwrapFailed).
Proof.
  eapply returns_mono; [exact (linked_heap_safe sample_linked sample_linked_ok)|].
  intros st [Hs Hp]. split; [exact Hs|]. apply Hp; [split; reflexivity|reflexivity].
Defined.

(** C13: In every state the kernel can reach, the nodes in memory form a list
    [fl] of free regions, disjoint from each other and from what the live
    blocks reserve, and [alloc] is first fit on that list: it returns the
    address and leaves in memory the list that [list_alloc] computes. *)
Theorem linked_alloc_first_fit rs l :
  Forall linked_accepted rs → layout_ok l → accepted l →
  returns (st ← linked_heap; serve_all (st, []) rs) (λ '(st, live),
    ∃ fl, free_list st fl ∧ separated (fl ++ (reserved <$> live)) ∧
      returns (alloc st l) (λ '(p, st'),
        p = (list_alloc fl (adj_size l) (adj_align l)).1 ∧
        free_list st' (list_alloc fl (adj_size l) (adj_align l)).2)).
Proof.
  intros Hrs Hl Hacc. eapply returns_mono; [by apply linked_heap_reach|].
  intros [st live] (fl & Hfl & Hok & _ & Hsep). exists fl. split_and!; [done|done|].
  apply separated_app in Hsep as (Hs & _).
  by apply (alloc_refines_list (lo:=HEAP_START) (hi:=HEAP_START + HEAP_SIZE)).
Qed.

Lemma linked_alloc_first_fit_witness :
  returns (st ← linked_heap; serve_all (st, []) sample_linked) (λ '(st, live),
    ∃ fl, free_list st fl ∧ separated (fl ++ (reserved <$> live)) ∧
      returns (alloc st (mkLayout 24 16)) (λ '(p, st'),
        p = (list_alloc fl 32 16).1 ∧ free_list st' (list_alloc fl 32 16).2)).
Proof.
  exact (linked_alloc_first_fit sample_linked (mkLayout 24 16)
           sample_linked_ok (conj eq_refl eq_refl) ltac:(done)).
Defined.
