(* ===== verification/FixedSizeBlock.v ===== *)
(** * The fixed-size block allocator (kernel/src/allocator/fixed_size_block.rs)

    Ten singly linked lists of free blocks, one per entry of [BLOCK_SIZES], in
    front of a fallback heap.  The fallback is the crate
    [linked_list_allocator]: it enters as the class [FallbackHeap], with what
    this code relies on stated in [FallbackContract]. *)

From S2P Require Import Prelude GlobalAlloc BumpAllocator.
Open Scope Z_scope.
Open Scope rust_scope.

(** ** The fallback heap: an interface *)

Class FallbackHeap (F : Type) := {
  fb_empty : F;
  fb_init : F → Z → Z → F;
  allocate_first_fit : F → Layout → option Z * F;
  deallocate : F → Z → Layout → F;
}.

(** The documented behaviour: a successful allocation is a non-null block of
    its own, a failed one and a deallocation leave the other blocks alone. *)
Class FallbackContract (F : Type) `{FallbackHeap F} (lo hi : Z) := {
  fb_inv : F → list block → Prop;
  fb_inv_perm f live live' : live ≡ₚ live' → fb_inv f live → fb_inv f live';
  fb_inv_init : fb_inv (fb_init fb_empty lo (hi - lo)) [];
  fb_safe f live : fb_inv f live → blocks_safe lo hi live;
  fb_alloc f live l o f' :
    fb_inv f live → layout_ok l → allocate_first_fit f l = (o, f') →
    match o with
    | Some p => p ≠ 0 ∧ fb_inv f' (Block p l :: live)
    | None => fb_inv f' live
    end;
  fb_dealloc f b live :
    fb_inv f (b :: live) → fb_inv (deallocate f (b_ptr b) (b_layout b)) live;
}.
Arguments fb_inv {F _} lo hi {_} f live.
Arguments fb_inv_perm {F _} lo hi {_} f live live'.
Arguments fb_inv_init {F _} lo hi {_}.
Arguments fb_safe {F _} lo hi {_} f live.
Arguments fb_alloc {F _} lo hi {_} f live l o f'.
Arguments fb_dealloc {F _} lo hi {_} f b live.

(** ** The allocator *)

Definition BLOCK_SIZES : list Z := [8; 16; 32; 64; 128; 256; 512; 1024; 2048; 4098].

(** [mem::size_of::<ListNode>()], [mem::align_of::<ListNode>()]: one optional
    reference. *)
Definition NODE_SIZE : Z := 8.
Definition NODE_ALIGN : Z := 8.

Definition list_index (l : Layout) : option Z :=
  let required_block_size := Z.max (lsize l) (lalign l) in
  position (λ s, required_block_size <=? s) BLOCK_SIZES.

(** [nodes] is the memory of the free blocks: the [next] field of the
    [ListNode] written at an address. *)
Record FixedSizeBlockAllocator (F : Type) : Type := mkFSB {
  list_heads : list (option Z);
  nodes : gmap Z (option Z);
  fallback_allocator : F;
}.
Arguments mkFSB {F}.
Arguments list_heads {F}.
Arguments nodes {F}.
Arguments fallback_allocator {F}.

Section allocator.
Context {F : Type} `{FallbackHeap F}.
Implicit Types (st : FixedSizeBlockAllocator F).

Definition new (m : gmap Z (option Z)) : FixedSizeBlockAllocator F :=
  mkFSB (replicate (length BLOCK_SIZES) None) m fb_empty.

Definition init st (start size : Z) : FixedSizeBlockAllocator F :=
  mkFSB (list_heads st) (nodes st) (fb_init (fallback_allocator st) start size).

Definition fallback_alloc st (l : Layout) : Z * FixedSizeBlockAllocator F :=
  let '(o, f) := allocate_first_fit (fallback_allocator st) l in
  let st := mkFSB (list_heads st) (nodes st) f in
  match o with Some p => (p, st) | None => (0, st) end.

Definition alloc st (l : Layout) : outcome (Z * FixedSizeBlockAllocator F) :=
  match list_index l with
  | Some i =>
      h ← index (list_heads st) i;
      match h with
      | Some node =>
          nxt ← unwrap (nodes st !! node);
          heads ← store (list_heads st) i nxt;
          Ret (node, mkFSB heads (<[node := None]> (nodes st)) (fallback_allocator st))
      | None =>
          block_size ← index BLOCK_SIZES i;
          let block_align := block_size in
          l' ← unwrap (from_size_align block_size block_align);
          Ret (fallback_alloc st l')
      end
  | None => Ret (fallback_alloc st l)
  end.

Definition dealloc st (ptr : Z) (l : Layout) : outcome (FixedSizeBlockAllocator F) :=
  match list_index l with
  | Some i =>
      h ← index (list_heads st) i;
      bs ← index BLOCK_SIZES i;
      _ ← assert_b (NODE_SIZE <=? bs);
      _ ← assert_b (NODE_ALIGN <=? bs);
      heads ← store (list_heads st) i (Some ptr);
      Ret (mkFSB heads (<[ptr := h]> (nodes st)) (fallback_allocator st))
  | None =>
      p ← (if ptr =? 0 then Panic UnwrapFailed else Ret ptr);
      Ret (mkFSB (list_heads st) (nodes st) (deallocate (fallback_allocator st) p l))
  end.

#[export] Instance fsb_GlobalAlloc : GlobalAlloc (FixedSizeBlockAllocator F) := {
  ga_alloc := alloc;
  ga_dealloc := dealloc;
}.
End allocator.

(** ** Block classes *)

Definition class_size (i : Z) : Z := default 0 (BLOCK_SIZES !! Z.to_nat i).

(** What is asked of the fallback heap on behalf of a layout. *)
Definition class_layout (l : Layout) : Layout :=
  match list_index l with
  | Some i => mkLayout (class_size i) (class_size i)
  | None => l
  end.

Lemma list_index_Some l i :
  list_index l = Some i →
  0 ≤ i < 10 ∧ BLOCK_SIZES !! Z.to_nat i = Some (class_size i) ∧
  lsize l ≤ class_size i ∧ lalign l ≤ class_size i.
Proof.
  intros Hi. apply position_Some in Hi as (Hr & (s & Hs & Hle) & _).
  change (zlen BLOCK_SIZES) with 10 in Hr. unfold class_size. rewrite Hs. simpl.
  apply Z.leb_le in Hle. split; [done|]. split; [done|]. lia.
Qed.

(** The first nine sizes are powers of two, the last one is not. *)
Lemma class_size_cases i :
  0 ≤ i < 10 → (class_size i = 2 ^ (i + 3) ∧ i ≤ 8) ∨ (i = 9 ∧ class_size i = 4098).
Proof.
  intros Hi. assert (i = 0 ∨ i = 1 ∨ i = 2 ∨ i = 3 ∨ i = 4 ∨ i = 5 ∨ i = 6 ∨ i = 7 ∨
    i = 8 ∨ i = 9) as Hc by lia.
  repeat destruct Hc as [->|Hc]; first [left; split; [reflexivity|lia]|subst; by right].
Qed.

Lemma class_layout_valid i :
  0 ≤ i < 10 →
  from_size_align (class_size i) (class_size i) =
    if i =? 9 then None else Some (mkLayout (class_size i) (class_size i)).
Proof.
  intros Hi. assert (i = 0 ∨ i = 1 ∨ i = 2 ∨ i = 3 ∨ i = 4 ∨ i = 5 ∨ i = 6 ∨ i = 7 ∨
    i = 8 ∨ i = 9) as Hc by lia.
  repeat destruct Hc as [->|Hc]; first [reflexivity|subst; reflexivity].
Qed.

(** A block of the class serves the layout. *)
Lemma class_layout_serves l p :
  layout_ok l → layout_ok (class_layout l) →
  p mod lalign (class_layout l) = 0 →
  p mod lalign l = 0 ∧ lsize l ≤ lsize (class_layout l).
Proof.
  unfold class_layout. intros Hl Hc.
  destruct (list_index l) as [i|] eqn:Hi; [|done]. simpl.
  destruct (list_index_Some l i Hi) as (Hr & _ & Hsz & Hal).
  intros Hp. split; [|done]. revert Hp.
  apply layout_ok_inv in Hl as (k & Hk & Ha & _). rewrite Ha in *.
  destruct (class_size_cases i Hr) as [[Hcs _]|[-> Hcs]]; rewrite Hcs in *.
  - intros Hp. apply (mod_pow2_weaken p k (i + 3)); [|done].
    split; [lia|]. apply Z.pow_le_mono_r_iff in Hal; lia.
  - apply layout_ok_inv in Hc as (j & Hj & Hcj & _). simpl in Hcj.
    exfalso. assert (4096 < 2 ^ j < 8192) as [H1 H2] by lia.
    change 4096 with (2 ^ 12) in H1. change 8192 with (2 ^ 13) in H2.
    apply Z.pow_lt_mono_r_iff in H1, H2; lia.
Qed.

(** ** Invariant *)

Section chains.
Implicit Types (m : gmap Z (option Z)) (fr : list (Z * Z)).

(** The free list that starts at [h]. *)
Fixpoint chain m (h : option Z) (l : list Z) : Prop :=
  match l with
  | [] => h = None
  | a :: l => h = Some a ∧ ∃ nxt, m !! a = Some nxt ∧ chain m nxt l
  end.

Lemma chain_insert m h l a o : a ∉ l → chain m h l → chain (<[a := o]> m) h l.
Proof.
  revert h. induction l as [|b l IH]; intros h; simpl; [done|].
  intros Ha%not_elem_of_cons (-> & nxt & Hb & Hc). destruct Ha as [Hab Ha].
  split; [done|]. exists nxt. rewrite lookup_insert_ne by done. split; [done|auto].
Qed.

(** A free block is a class and an address. *)
Definition addrs (i : Z) fr : list Z := (filter (λ x, x.1 = i) fr).*2.

Lemma addrs_cons_eq i a fr : addrs i ((i, a) :: fr) = a :: addrs i fr.
Proof. unfold addrs. by rewrite filter_cons_True. Qed.

Lemma addrs_cons_ne i j a fr : j ≠ i → addrs i ((j, a) :: fr) = addrs i fr.
Proof. intros. unfold addrs. by rewrite filter_cons_False. Qed.

Lemma addrs_elem i a fr : a ∈ addrs i fr ↔ (i, a) ∈ fr.
Proof.
  unfold addrs. rewrite list_elem_of_fmap. setoid_rewrite list_elem_of_filter.
  split; [by intros ([j b] & -> & Heq & ?); simpl in *; subst|]. intros. by exists (i, a).
Qed.

(** The first block of a class taken out of the free blocks. *)
Lemma addrs_take i a l fr :
  addrs i fr = a :: l →
  ∃ fr', fr ≡ₚ (i, a) :: fr' ∧ addrs i fr' = l ∧ ∀ j, j ≠ i → addrs j fr' = addrs j fr.
Proof.
  induction fr as [|[k b] fr IH]; [done|]. destruct (decide (k = i)) as [->|Hk].
  - rewrite addrs_cons_eq. intros [= -> <-]. exists fr.
    split; [done|]. split; [done|]. intros j Hj. by rewrite addrs_cons_ne.
  - rewrite addrs_cons_ne by done. intros (fr' & Hp & Hl & Ho)%IH.
    exists ((k, b) :: fr'). split; [rewrite Hp; apply perm_swap|].
    rewrite addrs_cons_ne by done. split; [done|]. intros j Hj.
    destruct (decide (k = j)) as [->|]; [by rewrite !addrs_cons_eq, Ho|].
    by rewrite !addrs_cons_ne, Ho.
Qed.
End chains.

Section invariant.
Context {F : Type} `{FallbackHeap F} {lo hi : Z} `{!FallbackContract F lo hi}.
Context (Hlo : 0 < lo).
Implicit Types (st : FixedSizeBlockAllocator F) (live : list block).

(** What the fallback heap sees of a free block and of a live one. *)
Definition free_block (x : Z * Z) : block := Block x.2 (mkLayout (class_size x.1) (class_size x.1)).
Definition class_block (b : block) : block := Block (b_ptr b) (class_layout (b_layout b)).

(** A layout whose class is not the broken one. *)
Definition fsb_layout (l : Layout) : Prop := list_index l ≠ Some 9.

Definition fsb_inv st live : Prop :=
  ∃ fr : list (Z * Z),
    length (list_heads st) = 10%nat ∧
    Forall (λ x, 0 ≤ x.1 < 9) fr ∧
    (∀ i, 0 ≤ i < 10 → ∃ h, list_heads st !! Z.to_nat i = Some h ∧ chain (nodes st) h (addrs i fr)) ∧
    Forall (λ b, layout_ok (b_layout b) ∧ fsb_layout (b_layout b)) live ∧
    fb_inv lo hi (fallback_allocator st) ((free_block <$> fr) ++ (class_block <$> live)).

Lemma class_layout_ok l : layout_ok l → fsb_layout l → layout_ok (class_layout l).
Proof.
  unfold class_layout, fsb_layout. intros Hl H9. destruct (list_index l) as [i|] eqn:Hi; [|done].
  destruct (list_index_Some l i Hi) as (Hr & _ & Hsz & _).
  split; simpl; [destruct Hl; lia|]. rewrite class_layout_valid by done.
  destruct (Z.eqb_spec i 9); [congruence|done].
Qed.

Lemma fsb_inv_safe st live : fsb_inv st live → blocks_safe lo hi live.
Proof.
  intros (fr & _ & _ & _ & Hlive & [Hin Hsep]%(fb_safe lo hi)).
  apply Forall_app in Hin as [_ Hin]. rewrite fmap_app in Hsep.
  apply separated_app in Hsep as (_ & Hsep & _).
  assert (Hb : Forall (λ b, b_ptr b mod lalign (b_layout b) = 0 ∧
    within lo hi (b_range b) ∧ inside (b_range b) (b_range (class_block b))) live).
  { rewrite Forall_forall in Hlive. rewrite Forall_forall in Hin. rewrite Forall_forall.
    intros b Hb. destruct (Hlive b Hb) as [Hok H9].
    destruct (Hin (class_block b)) as [Hal Hw]; [by apply list_elem_of_fmap_2|].
    destruct (class_layout_serves (b_layout b) (b_ptr b)) as [Ha Hs];
      [done|by apply class_layout_ok|done|].
    split; [done|]. unfold within, inside, r_end, b_range, class_block in *. simpl in *.
    destruct Hok. lia. }
  split.
  - eapply Forall_impl; [exact Hb|]. naive_solver.
  - rewrite <- list_fmap_compose in Hsep. eapply separated_shrink; [|exact Hsep].
    eapply Forall_impl; [exact Hb|]. naive_solver.
Qed.

(** The address of a block handed to the client is no free block. *)
Lemma live_not_free fr b rest :
  blocks_safe lo hi ((free_block <$> fr) ++ b :: rest) → Forall (λ x, 0 ≤ x.1 < 9) fr →
  0 < lsize (b_layout b) → b_ptr b ∉ fr.*2.
Proof.
  intros [_ Hsep] Hfr Hb (x & Heq & Hx)%list_elem_of_fmap.
  rewrite fmap_app in Hsep. apply separated_app in Hsep as (_ & _ & Hap).
  rewrite Forall_fmap in Hap. rewrite Forall_fmap in Hap. rewrite Forall_forall in Hap.
  specialize (Hap x Hx). simpl in Hap. apply Forall_cons in Hap as [Hap _].
  rewrite Forall_forall in Hfr. specialize (Hfr x Hx). simpl in Hfr.
  unfold apart, r_end, b_range in Hap. simpl in Hap.
  destruct (class_size_cases x.1) as [[Hc _]|[]]; [lia| |lia].
  rewrite Hc in Hap. pose proof (Z.pow_pos_nonneg 2 (x.1 + 3)). lia.
Qed.

Lemma fresh_fallback st live l p f' :
  fsb_inv st live → layout_ok l → fsb_layout l → p ≠ 0 →
  (∀ fr, fb_inv lo hi (fallback_allocator st) ((free_block <$> fr) ++ (class_block <$> live)) →
     fb_inv lo hi f' (Block p (class_layout l) :: (free_block <$> fr) ++ (class_block <$> live))) →
  fsb_inv (mkFSB (list_heads st) (nodes st) f') (Block p l :: live).
Proof.
  intros (fr & Hlen & Hfr & Hch & Hlive & Hfb) Hl H9 Hp Hf. exists fr. simpl.
  split_and!; try done.
  - by constructor.
  - eapply fb_inv_perm; [|by apply Hf]. simpl. by rewrite Permutation_middle.
Qed.

Lemma fallback_alloc_inv st live l l' :
  fsb_inv st live → layout_ok l → fsb_layout l → l' = class_layout l →
  let '(p, st') := fallback_alloc st l' in
  (p = 0 ∧ fsb_inv st' live) ∨ (p ≠ 0 ∧ fsb_inv st' (Block p l :: live)).
Proof.
  intros Hinv Hl H9 ->. unfold fallback_alloc.
  destruct (allocate_first_fit _ _) as [[p|] f'] eqn:Ha.
  - assert (Hf := λ live Hi, fb_alloc lo hi _ live _ _ _ Hi (class_layout_ok l Hl H9) Ha).
    simpl in Hf. destruct (decide (p = 0)) as [->|Hp].
    { destruct Hinv as (fr & _ & _ & _ & _ & Hfb). by destruct (Hf _ Hfb). }
    right. split; [done|]. apply fresh_fallback; [done..|]. intros fr Hfb. by apply Hf.
  - left. split; [done|]. destruct Hinv as (fr & ? & ? & ? & ? & Hfb). exists fr. simpl.
    split_and!; try done. by apply (fb_alloc lo hi _ _ _ _ _ Hfb (class_layout_ok l Hl H9) Ha).
Qed.

Lemma class_size_pos i : 0 ≤ i < 10 → 8 ≤ class_size i.
Proof.
  intros Hi. destruct (class_size_cases i Hi) as [[-> _]|[_ ->]]; [|lia].
  change 8 with (2 ^ 3). apply Z.pow_le_mono_r; lia.
Qed.

Lemma addrs_not_elem i a fr : a ∉ fr.*2 → a ∉ addrs i fr.
Proof.
  intros Ha Hi%addrs_elem. apply Ha, list_elem_of_fmap. by exists (i, a).
Qed.

(** The heads and nodes once the free list of class [i] has become [l'] and
    the memory at [a] has been written. *)
Lemma chains_store (heads : list (option Z)) m fr fr' i h a o :
  length heads = 10%nat → 0 ≤ i < 10 →
  (∀ j, 0 ≤ j < 10 → ∃ h, heads !! Z.to_nat j = Some h ∧ chain m h (addrs j fr)) →
  a ∉ fr.*2 ∨ a ∉ fr'.*2 →
  (∀ j, j ≠ i → addrs j fr' = addrs j fr) →
  chain (<[a := o]> m) h (addrs i fr') →
  ∀ j, 0 ≤ j < 10 → ∃ h', <[Z.to_nat i := h]> heads !! Z.to_nat j = Some h' ∧
    chain (<[a := o]> m) h' (addrs j fr').
Proof.
  intros Hlen Hi Hch Ha Ho Hnew j Hj. destruct (decide (j = i)) as [->|Hne].
  - exists h. split; [|done]. apply list_lookup_insert_eq. lia.
  - rewrite list_lookup_insert_ne by lia. destruct (Hch j Hj) as (h' & Hh & Hc).
    exists h'. split; [done|]. rewrite Ho by done. apply chain_insert; [|done].
    destruct Ha as [Ha|Ha]; [by apply addrs_not_elem|].
    rewrite <- Ho by done. by apply addrs_not_elem.
Qed.

Lemma fsb_alloc_inv st live l :
  fsb_inv st live → layout_ok l → fsb_layout l →
  returns (alloc st l) (λ '(p, st'),
    (p = 0 ∧ fsb_inv st' live) ∨ (p ≠ 0 ∧ fsb_inv st' (Block p l :: live))).
Proof.
  intros Hinv Hl H9. unfold alloc. destruct (list_index l) as [i|] eqn:Hi.
  2: { apply returns_Ret. apply fallback_alloc_inv; [done..|]. unfold class_layout. by rewrite Hi. }
  destruct (list_index_Some l i Hi) as (Hr & Hbs & _).
  pose proof Hinv as (fr & Hlen & Hfr & Hch & Hlive & Hfb).
  destruct (Hch i Hr) as (h & Hh & Hc). unfold index. rewrite Hh. simpl.
  destruct h as [node|].
  - destruct (addrs i fr) as [|a rest] eqn:Had; simpl in Hc; [done|].
    destruct Hc as ([= ->] & nxt & Hn & Hc). rewrite Hn. simpl.
    rewrite store_ok by (unfold zlen; lia). simpl. apply returns_Ret. right.
    destruct (addrs_take i a rest fr Had) as (fr' & Hp & Hr' & Ho).
    assert (Hfb' : fb_inv lo hi (fallback_allocator st)
      ((free_block <$> fr') ++ (class_block <$> Block a l :: live))).
    { eapply fb_inv_perm; [|exact Hfb]. rewrite Hp. simpl.
      replace (free_block (i, a)) with (class_block (Block a l)); [by rewrite Permutation_middle|].
      unfold class_block, class_layout, free_block. simpl. by rewrite Hi. }
    rewrite Hp in Hfr. apply Forall_cons in Hfr as [_ Hfr].
    pose proof (fb_safe lo hi _ _ Hfb') as Hs.
    assert (Ha : a ∉ fr'.*2).
    { apply (live_not_free _ _ _ Hs); [done|]. simpl. unfold class_layout. rewrite Hi. simpl.
      pose proof (class_size_pos i Hr). lia. }
    split.
    { destruct Hs as [Hs _]. apply Forall_app in Hs as [_ Hs]. apply Forall_cons in Hs as [[_ [Hs _]] _].
      simpl in Hs. lia. }
    exists fr'. simpl. split_and!; try done; [by rewrite length_insert| |by constructor].
    eapply chains_store; [done|done|done|by right|done|]. rewrite Hr'.
    apply chain_insert; [|done]. rewrite <- Hr'. by apply addrs_not_elem.
  - rewrite Hbs. simpl. rewrite class_layout_valid by done.
    destruct (Z.eqb_spec i 9) as [->|]; [done|]. simpl. apply returns_Ret.
    apply fallback_alloc_inv; [done..|]. unfold class_layout. by rewrite Hi.
Qed.

Lemma fsb_dealloc_inv st live b live' :
  fsb_inv st live → live ≡ₚ b :: live' →
  returns (dealloc st (b_ptr b) (b_layout b)) (λ st', fsb_inv st' live').
Proof.
  intros (fr & Hlen & Hfr & Hch & Hlive & Hfb) Hp. rewrite Hp in Hlive.
  apply Forall_cons in Hlive as [[Hb H9] Hlive].
  assert (Hfb' : fb_inv lo hi (fallback_allocator st)
    ((free_block <$> fr) ++ class_block b :: (class_block <$> live'))).
  { eapply fb_inv_perm; [|exact Hfb]. by rewrite Hp. }
  pose proof (fb_safe lo hi _ _ Hfb') as Hs. unfold dealloc.
  destruct (list_index (b_layout b)) as [i|] eqn:Hi.
  - destruct (list_index_Some _ i Hi) as (Hr & Hbs & _).
    destruct (Hch i Hr) as (h & Hh & Hc). unfold index. rewrite Hh. simpl. rewrite Hbs. simpl.
    pose proof (class_size_pos i Hr). unfold NODE_SIZE, NODE_ALIGN.
    rewrite (proj2 (Z.leb_le 8 _)) by done. simpl.
    rewrite store_ok by (unfold zlen; lia). simpl. apply returns_Ret.
    assert (Ha : b_ptr b ∉ fr.*2).
    { apply (live_not_free _ (class_block b) _ Hs); [done|]. simpl. unfold class_layout.
      rewrite Hi. simpl. lia. }
    exists ((i, b_ptr b) :: fr). simpl. split_and!; try done; [by rewrite length_insert| | |].
    + constructor; [|done]. simpl. unfold fsb_layout in H9. assert (i ≠ 9) by congruence. lia.
    + eapply chains_store; [done|done|done|by left| |].
      * intros j Hj. by rewrite addrs_cons_ne.
      * rewrite addrs_cons_eq. simpl. split; [done|]. exists h.
        rewrite lookup_insert_eq. split; [done|]. apply chain_insert; [|done]. by apply addrs_not_elem.
    + eapply fb_inv_perm; [|exact Hfb']. rewrite Permutation_middle. simpl.
      replace (free_block (i, b_ptr b)) with (class_block b); [done|].
      unfold class_block, class_layout, free_block. simpl. by rewrite Hi.
  - destruct (Z.eqb_spec (b_ptr b) 0) as [H0|].
    { destruct Hs as [Hs _]. apply Forall_app in Hs as [_ Hs].
      apply Forall_cons in Hs as [[_ [Hs _]] _]. simpl in Hs. lia. }
    simpl. apply returns_Ret. exists fr. simpl. split_and!; try done.
    assert (Hcb : class_block b = b).
    { unfold class_block, class_layout. rewrite Hi. by destruct b. }
    rewrite Hcb in Hfb'. apply (fb_dealloc lo hi _ b). eapply fb_inv_perm; [|exact Hfb'].
    by rewrite Permutation_middle.
Qed.

#[export] Instance fsb_AllocContract : AllocContract (FixedSizeBlockAllocator F) lo hi := {
  ac_layout := fsb_layout;
  ac_inv := fsb_inv;
  ac_safe := fsb_inv_safe;
  ac_alloc := fsb_alloc_inv;
  ac_dealloc := fsb_dealloc_inv;
}.

Lemma fsb_init_inv m : fsb_inv (init (new m) lo (hi - lo)) [].
Proof.
  exists []. simpl. split_and!; try done; [|by apply (fb_inv_init lo hi)].
  intros i Hi. exists None. split; [|done].
  change [None; None; None; None; None; None; None; None; None; None]
    with (replicate 10 (@None Z)). apply lookup_replicate_2. lia.
Qed.
End invariant.

(** ** A concrete fallback heap, for the sample runs: the bump allocator *)

Definition bump_first_fit (f : BumpAllocator) (l : Layout) : option Z * BumpAllocator :=
  match BumpAllocator.alloc f l with
  | Ret (p, f') => (if p =? 0 then None else Some p, f')
  | _ => (None, f)
  end.
Definition bump_deallocate (f : BumpAllocator) (p : Z) (l : Layout) : BumpAllocator :=
  match BumpAllocator.dealloc f p l with Ret f' => f' | _ => f end.

#[local] Instance bump_FallbackHeap : FallbackHeap BumpAllocator := {
  fb_empty := BumpAllocator.new;
  fb_init := BumpAllocator.init;
  allocate_first_fit := bump_first_fit;
  deallocate := bump_deallocate;
}.

Section bump_fallback.
Context {lo hi : Z} (Hlo : 0 < lo) (Hlohi : lo ≤ hi) (Hhi : hi < 2 ^ 63).

Lemma bump_inv_perm f live live' :
  live ≡ₚ live' → bump_inv (lo:=lo) (hi:=hi) f live → bump_inv (lo:=lo) (hi:=hi) f live'.
Proof.
  intros Hp (? & ? & ? & Ha & Hc & Hr & Hs). unfold bump_inv, zlen in *.
  rewrite Hp in Ha. rewrite Hp in Hc. rewrite Hp in Hs. split_and!; try done; try lia.
  intros ->. apply Hr. by apply Permutation_nil_r.
Qed.

Lemma bump_first_fit_inv f live l o f' :
  bump_inv (lo:=lo) (hi:=hi) f live → layout_ok l → bump_first_fit f l = (o, f') →
  match o with
  | Some p => p ≠ 0 ∧ bump_inv (lo:=lo) (hi:=hi) f' (Block p l :: live)
  | None => bump_inv (lo:=lo) (hi:=hi) f' live
  end.
Proof.
  intros Hinv Hl. unfold bump_first_fit.
  destruct (BumpAllocator.alloc_inv Hlo Hhi _ _ _ Hinv Hl) as ([p f1] & -> & Hp).
  destruct (Z.eqb_spec p 0); intros [= <- <-]; naive_solver.
Qed.

Lemma bump_deallocate_inv f b live :
  bump_inv (lo:=lo) (hi:=hi) f (b :: live) →
  bump_inv (lo:=lo) (hi:=hi) (bump_deallocate f (b_ptr b) (b_layout b)) live.
Proof.
  intros Hinv. unfold bump_deallocate.
  by destruct (BumpAllocator.dealloc_inv Hlo Hhi _ _ b live Hinv) as (f1 & -> & ?).
Qed.

#[local] Instance bump_FallbackContract : FallbackContract BumpAllocator lo hi := {
  fb_inv := bump_inv (lo:=lo) (hi:=hi);
  fb_inv_perm := bump_inv_perm;
  fb_inv_init := BumpAllocator.init_inv Hlohi Hhi BumpAllocator.new eq_refl;
  fb_safe := bump_inv_safe;
  fb_alloc := bump_first_fit_inv;
  fb_dealloc := bump_deallocate_inv;
}.
End bump_fallback.

(** ** Properties *)

(** The allocator as [init] leaves it, over any contents of the memory. *)
Definition fresh {F : Type} `{FallbackHeap F} (lo hi : Z) (m : gmap Z (option Z)) :
  FixedSizeBlockAllocator F := init (new m) lo (hi - lo).

(** Valid requests outside the class of 4098 bytes. *)
Definition small_request (r : request) : Prop :=
  request_ok r ∧ match r with RAlloc l => fsb_layout l | RDealloc _ => True end.

Lemma fresh_reach {F : Type} `{FallbackHeap F} {lo hi : Z} `{!FallbackContract F lo hi}
    (Hlo : 0 < lo) m rs :
  Forall small_request rs →
  returns (serve_all (fresh lo hi m, []) rs) (λ st, fsb_inv (lo:=lo) (hi:=hi) st.1 st.2).
Proof.
  intros Hrs. pose proof (fsb_AllocContract (lo:=lo) (hi:=hi) Hlo) as Hc.
  apply (serve_all_contract (lo:=lo) (hi:=hi) (AllocContract0:=fsb_AllocContract Hlo)); [|exact Hrs].
  apply fsb_init_inv.
Qed.

Definition fsb_sample : list request :=
  [RAlloc (mkLayout 24 8); RAlloc (mkLayout 5000 4096); RDealloc 1; RAlloc (mkLayout 17 4)].

Lemma fsb_sample_ok : Forall small_request fsb_sample.
Proof. repeat (constructor; [split; [first [exact I|split; reflexivity]|done]|]). constructor. Qed.

(** C3: Over any fallback heap that keeps the contract of its crate, and for
    any sequence of allocations and deallocations whose layouts are not of the
    last block class, no call panics, and the live blocks are aligned as their
    layouts ask, inside the heap and pairwise disjoint, although the allocator
    hands out whole blocks of a class, rounds alignments up to the block size
    and keeps its free lists inside the freed blocks. *)
Theorem fixed_size_block_safe (F : Type) `{FallbackHeap F} (lo hi : Z)
    `{!FallbackContract F lo hi} m rs :
  0 < lo → Forall small_request rs →
  returns (serve_all (fresh (F:=F) lo hi m, []) rs) (λ st, blocks_safe lo hi st.2).
Proof.
  intros Hlo Hrs. eapply returns_mono; [by apply fresh_reach|].
  intros st. apply fsb_inv_safe.
Qed.

Lemma fixed_size_block_safe_witness :
  returns (serve_all (fresh (F:=BumpAllocator) 4096 65536 ∅, []) fsb_sample)
    (λ st, blocks_safe 4096 65536 st.2).
Proof.
  exact (@fixed_size_block_safe BumpAllocator bump_FallbackHeap 4096 65536
    (bump_FallbackContract (lo:=4096) (hi:=65536) eq_refl ltac:(discriminate) eq_refl)
    ∅ fsb_sample eq_refl fsb_sample_ok).
Defined.

(** The last entry of [BLOCK_SIZES] is 4098, not 4096: in every state the
    kernel can reach, an allocation that needs between 2049 and 4098 bytes
    (by size or by alignment) panics in [from_size_align(4098, 4098).unwrap()],
    since no block of that class can ever have been freed. *)
Theorem page_class_panics (F : Type) `{FallbackHeap F} (lo hi : Z)
    `{!FallbackContract F lo hi} m rs l :
  0 < lo → Forall small_request rs → 2048 < Z.max (lsize l) (lalign l) ≤ 4098 →
  returns (serve_all (fresh (F:=F) lo hi m, []) rs) (λ st, alloc st.1 l = Panic UnwrapFailed).
Proof.
  intros Hlo Hrs Hl. eapply returns_mono; [by apply fresh_reach|].
  intros [st live] (fr & Hlen & Hfr & Hch & _). simpl in *.
  assert (Hi : list_index l = Some 9).
  { unfold list_index. set (n := Z.max _ _) in *. simpl.
    rewrite !(proj2 (Z.leb_gt _ _)) by lia. by rewrite (proj2 (Z.leb_le n 4098)) by lia. }
  destruct (Hch 9) as (h & Hh & Hc); [lia|].
  destruct (addrs 9 fr) as [|a rest] eqn:Ha.
  - simpl in Hc. subst h. unfold alloc. rewrite Hi. unfold index. by rewrite Hh.
  - assert (Hin : a ∈ addrs 9 fr) by (rewrite Ha; left). apply addrs_elem in Hin.
    rewrite Forall_forall in Hfr. specialize (Hfr _ Hin). simpl in Hfr. lia.
Qed.

Lemma page_class_panics_witness :
  returns (serve_all (fresh (F:=BumpAllocator) 4096 65536 ∅, []) fsb_sample)
    (λ st, alloc st.1 (mkLayout 4096 4096) = Panic UnwrapFailed).
Proof.
  pose proof (bump_FallbackContract (lo:=4096) (hi:=65536) eq_refl ltac:(discriminate) eq_refl) as Hc.
  apply (page_class_panics BumpAllocator 4096 65536 ∅ fsb_sample (mkLayout 4096 4096));
    [done|exact fsb_sample_ok|done].
Defined.

(** The free lists are last-in first-out and classes are shared: the next
    allocation of any layout of the class of a freed block answers with that
    block, without a call to the fallback heap, and restores every list. *)
Theorem dealloc_then_alloc_reuses {F : Type} `{FallbackHeap F}
    (st st' : FixedSizeBlockAllocator F) p l l' i :
  length (list_heads st) = 10%nat → list_index l = Some i → list_index l' = Some i →
  dealloc st p l = Ret st' →
  alloc st' l' = Ret (p, mkFSB (list_heads st) (<[p := None]> (nodes st)) (fallback_allocator st)).
Proof.
  intros Hlen Hi Hi'. unfold dealloc, alloc. rewrite Hi, Hi'.
  destruct (list_index_Some l i Hi) as (Hr & Hbs & _).
  intros Hd. inv_ret. apply index_inv in Hr0.
  match goal with H : store _ _ _ = Ret _ |- _ => apply store_inv in H as [-> Hlt] end. simpl.
  unfold index. rewrite list_lookup_insert_eq by lia. simpl.
  rewrite lookup_insert_eq. simpl. rewrite store_ok by (rewrite zlen_insert; done). simpl.
  rewrite list_insert_insert_eq, list_insert_id by done. by rewrite insert_insert_eq.
Qed.

Lemma dealloc_then_alloc_reuses_witness :
  let st := new (F:=BumpAllocator) ∅ in
  ∃ st', dealloc st 4096 (mkLayout 24 8) = Ret st' ∧
    alloc st' (mkLayout 32 4) =
      Ret (4096, mkFSB (list_heads st) (<[4096 := None]> (nodes st)) (fallback_allocator st)).
Proof.
  eexists. split; [reflexivity|].
  eapply (dealloc_then_alloc_reuses (new ∅) _ 4096 (mkLayout 24 8) (mkLayout 32 4) 2);
    reflexivity.
Defined.
