(* ===== verification/Arch.v ===== *)
(** * The [x86_64] crate as the kernel uses it: an interface

    Addresses, pages and frames of the crate [x86_64] enter the development as
    the class [X86]; what the code relies on (documented behaviour of the
    crate) is the class [X86Laws].  [amd64] is a concrete instance, for the
    sample runs. *)

From S2P Require Import Prelude.
Open Scope Z_scope.
Open Scope rust_scope.

(** Bits 48..63 repeat bit 47. *)
Definition canonical (a : Z) : Prop := 0 ≤ a < 2 ^ 47 ∨ 2 ^ 64 - 2 ^ 47 ≤ a < 2 ^ 64.

#[export] Instance canonical_dec a : Decision (canonical a).
Proof. unfold canonical. apply _. Defined.

Class X86 := {
  virt_new : Z → outcome Z;               (* VirtAddr::new *)
  virt_add : Z → Z → outcome Z;           (* VirtAddr + u64 *)
  virt_sub : Z → Z → outcome Z;           (* VirtAddr - u64 *)
  phys_new : Z → outcome Z;               (* PhysAddr::new *)
  containing_address : Z → Z;             (* Page:: and PhysFrame:: *)
  PRESENT : Z; WRITABLE : Z; USER_ACCESSIBLE : Z; NO_CACHE : Z;
}.

Class X86Laws `{X86} : Prop := {
  virt_new_ok a : canonical a → virt_new a = Ret a;
  virt_add_ok a n : canonical a → 0 ≤ n → canonical (a + n) → virt_add a n = Ret (a + n);
  virt_sub_ok a n : canonical a → 0 ≤ n → canonical (a - n) → virt_sub a n = Ret (a - n);
  phys_new_ok a : in_width 52 a → phys_new a = Ret a;
  containing_address_eq a : 0 ≤ a → containing_address a = a - a mod 4096;
}.

(** [Page::range_inclusive(a, b)]: the pages from [a] to [b]. *)
Definition page_range_inclusive (a b : Z) : list Z :=
  (λ i, a + 4096 * i) <$> seqZ 0 ((b - a) / 4096 + 1).

Definition page_aligned (a : Z) : Prop := a mod 4096 = 0.

Lemma containing_address_aligned `{X86Laws} a :
  0 ≤ a → page_aligned a → containing_address a = a.
Proof. unfold page_aligned. intros ? Ha. rewrite containing_address_eq, Ha by done. lia. Qed.

Lemma page_aligned_step a i : page_aligned a → page_aligned (a + 4096 * i).
Proof. unfold page_aligned. intros Ha. by rewrite Z.mul_comm, Z.mod_add. Qed.

(** ** Physical addresses and checked pages *)

Class X86Phys := {
  phys_add : Z → Z → outcome Z;            (* PhysAddr + u64 *)
  phys_sub : Z → Z → outcome Z;            (* PhysAddr - u64 *)
  from_start_address : Z → option Z;       (* Page:: and PhysFrame::, Err is None *)
}.

Class X86PhysLaws `{X86Phys} : Prop := {
  phys_add_ok a n : 0 ≤ a → 0 ≤ n → in_width 52 (a + n) → phys_add a n = Ret (a + n);
  phys_sub_ok a n : in_width 52 a → 0 ≤ n ≤ a → phys_sub a n = Ret (a - n);
  from_start_aligned a : 0 ≤ a → page_aligned a → from_start_address a = Some a;
}.

(** ** A concrete instance *)

Definition check_canonical (a : Z) : outcome Z :=
  if decide (canonical a) then Ret a else Panic ExplicitPanic.

#[local] Instance amd64 : X86 := {
  virt_new := check_canonical;
  virt_add a n := check_canonical (a + n);
  virt_sub a n := check_canonical (a - n);
  phys_new a := if decide (0 ≤ a < 2 ^ 52) then Ret a else Panic ExplicitPanic;
  containing_address a := a - a mod 4096;
  PRESENT := 1; WRITABLE := 2; USER_ACCESSIBLE := 4; NO_CACHE := 16;
}.

#[local] Instance amd64_laws : X86Laws.
Proof.
  split; simpl; unfold check_canonical, in_width; intros; try done; by rewrite decide_True.
Qed.

Definition check_phys (a : Z) : outcome Z :=
  if decide (0 ≤ a < 2 ^ 52) then Ret a else Panic ExplicitPanic.

#[local] Instance amd64_phys : X86Phys := {
  phys_add a n := check_phys (a + n);
  phys_sub a n := check_phys (a - n);
  from_start_address a := if decide (a mod 4096 = 0) then Some a else None;
}.

#[local] Instance amd64_phys_laws : X86PhysLaws.
Proof.
  split; simpl; unfold check_phys, in_width, page_aligned; intros; try done; rewrite decide_True; (done || lia).
Qed.
