(* ===== verification/FrameAllocator.v ===== *)
(** * Physical frames (kernel/src/memory.rs)

    The trait [FrameAllocator] as a class with the contract its clients rely
    on, and its two implementations: [BootInfoFrameAllocator], over the memory
    map of the boot loader, and [EmptyFrameAllocator]. *)

From S2P Require Import Prelude Arch.
Open Scope Z_scope.
Open Scope rust_scope.

(** ** The trait *)

Class FrameAllocator (F : Type) := {
  allocate_frame : F → outcome (option Z * F);
}.

(** [fa_frames f]: the frames [f] has left, in the order it hands them out;
    [fa_inv f n]: it can be asked [n] more times. *)
Class FrameContract (F : Type) `{FrameAllocator F} := {
  fa_inv : F → Z → Prop;
  fa_frames : F → list Z;
  fa_inv_le f n n' : n' ≤ n → fa_inv f n → fa_inv f n';
  fa_good f n : fa_inv f n → NoDup (fa_frames f) ∧ Forall page_aligned (fa_frames f);
  fa_allocate f n :
    fa_inv f n → 0 < n →
    ∃ f', allocate_frame f = Ret (head (fa_frames f), f') ∧
          fa_frames f' = tail (fa_frames f) ∧ fa_inv f' (n - 1);
}.

(** [n] calls in a row. *)
Fixpoint allocate_frames {F} `{FrameAllocator F} (f : F) (n : nat) : outcome (list (option Z) * F) :=
  match n with
  | O => Ret ([], f)
  | S n => '(o, f) ← allocate_frame f;
           '(os, f) ← allocate_frames f n;
           Ret (o :: os, f)
  end.

Lemma allocate_frames_contract {F} `{FrameContract F} (n : nat) (f : F) k :
  fa_inv f k → Z.of_nat n ≤ k →
  ∃ f', allocate_frames f n = Ret ((λ i, fa_frames f !! i) <$> seq 0 n, f') ∧
        fa_frames f' = drop n (fa_frames f) ∧ fa_inv f' (k - Z.of_nat n).
Proof.
  revert f k. induction n as [|n IH]; intros f k Hf Hn; cbn [allocate_frames].
  { exists f. split; [done|]. split; [by rewrite drop_0|]. by rewrite Z.sub_0_r. }
  destruct (fa_allocate f k Hf) as (f1 & Ha & Hf1 & Hi1); [lia|].
  rewrite Ha, bind_Ret. destruct (IH f1 (k - 1) Hi1) as (f2 & Ho & Hf2 & Hi2); [lia|].
  rewrite Ho, bind_Ret. exists f2. split; [|split].
  - f_equal. f_equal. simpl. rewrite <- fmap_S_seq, <- list_fmap_compose. f_equal.
    + by destruct (fa_frames f).
    + apply list_fmap_ext. intros i ? _. simpl. rewrite Hf1. by destruct (fa_frames f).
  - rewrite Hf2, Hf1. destruct (fa_frames f); simpl; [by rewrite drop_nil|done].
  - replace (k - Z.of_nat (S n)) with (k - 1 - Z.of_nat n) by lia. done.
Qed.

(** ** The memory map *)

Section memory_map.
(** [bootloader_api]'s [MemoryRegionKind]. *)
Context {MemoryRegionKind : Type} `{EqDecision MemoryRegionKind} (Usable : MemoryRegionKind).

Record MemoryRegion : Type := mkRegion {
  region_start : Z; region_end : Z; kind : MemoryRegionKind
}.

(** [(a..b).step_by(4096)]. *)
Definition step_by_page (a b : Z) : list Z :=
  (λ i, a + 4096 * i) <$> seqZ 0 (div_ceil (b - a) 4096).

Record BootInfoFrameAllocator : Type := mkBoot {
  memory_map : list MemoryRegion;
  next : Z;
}.

Definition init (memory_map : list MemoryRegion) : BootInfoFrameAllocator := mkBoot memory_map 0.

(** The iterator up to its last adaptor, which [nth_frame] applies. *)
Definition usable_frames (f : BootInfoFrameAllocator) : list Z :=
  let regions := memory_map f in
  let usable_regions := filter (λ r, kind r = Usable) regions in
  let addr_ranges := (λ r, (region_start r, region_end r)) <$> usable_regions in
  addr_ranges ≫= (λ r, step_by_page r.1 r.2).

Context `{X86}.

(** [nth] runs the closure of [map] on every item it passes. *)
Fixpoint nth_frame (addrs : list Z) (n : nat) : outcome (option Z) :=
  match addrs, n with
  | [], _ => Ret None
  | a :: addrs, n =>
      addr ← phys_new a;
      let frame := containing_address addr in
      match n with O => Ret (Some frame) | S n => nth_frame addrs n end
  end.

Definition boot_allocate_frame (f : BootInfoFrameAllocator) :
    outcome (option Z * BootInfoFrameAllocator) :=
  frame ← nth_frame (usable_frames f) (Z.to_nat (next f));
  n ← next f +[64] 1;
  Ret (frame, mkBoot (memory_map f) n).

#[export] Instance boot_FrameAllocator : FrameAllocator BootInfoFrameAllocator := {
  allocate_frame := boot_allocate_frame;
}.

(** ** Correctness *)

(** What the boot loader documents of its map: page-aligned regions of
    physical memory that do not overlap. *)
Definition map_valid (regions : list MemoryRegion) : Prop :=
  Forall (λ r, page_aligned (region_start r) ∧ page_aligned (region_end r) ∧
    0 ≤ region_start r ≤ region_end r ∧ region_end r < 2 ^ 52) regions ∧
  separated ((λ r, (region_start r, region_end r - region_start r)) <$> regions).

Lemma elem_step_by_page a b x :
  page_aligned a → page_aligned b →
  x ∈ step_by_page a b ↔ page_aligned x ∧ a ≤ x ∧ x + 4096 ≤ b.
Proof.
  unfold page_aligned, step_by_page, div_ceil. intros Ha Hb. rewrite list_elem_of_fmap.
  setoid_rewrite elem_of_seqZ.
  assert (Hd : b - a = 4096 * ((b - a + 4096 - 1) / 4096)).
  { pose proof (Z.div_mod a 4096 ltac:(lia)). pose proof (Z.div_mod b 4096 ltac:(lia)).
    replace (b - a + 4096 - 1) with (4095 + (b / 4096 - a / 4096) * 4096) by lia.
    rewrite Z.div_add by lia. change (4095 / 4096) with 0. lia. }
  split.
  - intros (i & -> & Hi). split; [by apply page_aligned_step|]. lia.
  - intros (Hx & Hax & Hxb). exists ((x - a) / 4096).
    assert (x - a = 4096 * ((x - a) / 4096)); [|lia].
    apply Z.div_exact; [lia|]. by rewrite Zminus_mod, Hx, Ha.
Qed.

Lemma separated_step_by_page a b : separated ((λ x, (x, 4096)) <$> step_by_page a b).
Proof.
  unfold step_by_page. generalize (div_ceil (b - a) 4096) as n. intros n.
  assert (Hg : ∀ k s, separated ((λ x, (x, 4096)) <$> ((λ i, a + 4096 * i) <$> seqZ s (Z.of_nat k)))).
  { induction k as [|k IH]; intros s; [done|]. rewrite seqZ_cons by lia.
    replace (Z.pred (Z.of_nat (S k))) with (Z.of_nat k) by lia. simpl. split; [|apply IH].
    rewrite Forall_forall. intros r (x & -> & Hx)%list_elem_of_fmap.
    apply list_elem_of_fmap in Hx as (i & -> & Hi%elem_of_seqZ).
    left. unfold r_end. simpl. lia. }
  destruct (decide (0 ≤ n)).
  - replace n with (Z.of_nat (Z.to_nat n)) by lia. apply Hg.
  - by rewrite seqZ_nil by lia.
Qed.

Lemma elem_usable_frames f x :
  map_valid (memory_map f) →
  x ∈ usable_frames f ↔ page_aligned x ∧
    ∃ r, r ∈ memory_map f ∧ kind r = Usable ∧ region_start r ≤ x ∧ x + 4096 ≤ region_end r.
Proof.
  intros [Hv _]. rewrite Forall_forall in Hv. unfold usable_frames. rewrite list_elem_of_bind.
  split.
  - intros (p & Hx & Hp). apply list_elem_of_fmap in Hp as (r & -> & Hp).
    apply list_elem_of_filter in Hp as [Hk Hr]. destruct (Hv r Hr) as (? & ? & _).
    apply elem_step_by_page in Hx as (? & ? & ?); [|done..]. split; [done|]. by exists r.
  - intros (Ha & r & Hr & Hk & Hx). destruct (Hv r Hr) as (? & ? & _).
    exists (region_start r, region_end r). split; [by apply elem_step_by_page|].
    apply list_elem_of_fmap. exists r. split; [done|]. by apply list_elem_of_filter.
Qed.

Lemma separated_usable_frames f :
  map_valid (memory_map f) → separated ((λ x, (x, 4096)) <$> usable_frames f).
Proof.
  intros [Hv Hs]. unfold usable_frames. revert Hv Hs.
  generalize (memory_map f) as rs. induction rs as [|r rs IH]; [done|].
  intros [Hr Hv]%Forall_cons. simpl. intros [Hap Hs].
  destruct (decide (kind r = Usable)) as [Hk|Hk].
  2: { rewrite filter_cons_False by done. by apply IH. }
  rewrite filter_cons_True by done. simpl. rewrite fmap_app. apply separated_app.
  split; [apply separated_step_by_page|]. split; [by apply IH|].
  rewrite Forall_forall. intros p (x & -> & Hx)%list_elem_of_fmap.
  rewrite Forall_forall. intros q (y & -> & Hy)%list_elem_of_fmap.
  apply list_elem_of_bind in Hy as (p & Hy & Hp).
  apply list_elem_of_fmap in Hp as (r' & -> & Hr').
  apply list_elem_of_filter in Hr' as [_ Hr']. rewrite Forall_forall in Hv.
  destruct (Hv r' Hr') as (? & ? & _), Hr as (? & ? & _).
  apply elem_step_by_page in Hx as (_ & ? & ?); [|done..].
  apply elem_step_by_page in Hy as (_ & ? & ?); [|done..].
  rewrite Forall_fmap in Hap. rewrite Forall_forall in Hap. specialize (Hap r' Hr').
  unfold apart, r_end in *. simpl in *. lia.
Qed.

Lemma usable_frames_width f :
  map_valid (memory_map f) → Forall (λ a, in_width 52 a ∧ page_aligned a) (usable_frames f).
Proof.
  intros Hv. rewrite Forall_forall. intros x (Hx & r & Hr & _ & ? & ?)%elem_usable_frames; [|done].
  destruct Hv as [Hv _]. rewrite Forall_forall in Hv. destruct (Hv r Hr) as (? & ? & ? & ?).
  unfold in_width. split; [lia|done].
Qed.

Lemma nth_frame_lookup `{!X86Laws} addrs n :
  Forall (λ a, in_width 52 a ∧ page_aligned a) addrs → nth_frame addrs n = Ret (addrs !! n).
Proof.
  intros Ha. revert n. induction Ha as [|a addrs [Hw Hp] Ha IH]; intros n; [by destruct n|].
  cbn [nth_frame]. rewrite phys_new_ok, bind_Ret by done. destruct n; simpl; [|by apply IH].
  destruct Hw. by rewrite containing_address_aligned.
Qed.

Definition boot_inv (f : BootInfoFrameAllocator) (n : Z) : Prop :=
  map_valid (memory_map f) ∧ 0 ≤ next f ∧ next f + n < 2 ^ 64.
Definition boot_frames (f : BootInfoFrameAllocator) : list Z :=
  drop (Z.to_nat (next f)) (usable_frames f).

Lemma boot_inv_le f n n' : n' ≤ n → boot_inv f n → boot_inv f n'.
Proof. unfold boot_inv. intros ? (? & ? & ?). split_and!; [done|done|lia]. Qed.

Lemma boot_good f n : boot_inv f n → NoDup (boot_frames f) ∧ Forall page_aligned (boot_frames f).
Proof.
  intros (Hv & _ & _). unfold boot_frames. split.
  - eapply sublist_NoDup; [|apply sublist_drop].
    assert (Hpos : Forall (λ r : range, 0 < r.2) ((λ x, (x, 4096)) <$> usable_frames f)).
    { rewrite Forall_fmap, Forall_forall. intros x _. simpl. lia. }
    pose proof (separated_NoDup _ Hpos (separated_usable_frames f Hv)) as Hn.
    rewrite <- list_fmap_compose in Hn.
    by rewrite (list_fmap_ext _ id), list_fmap_id in Hn.
  - apply Forall_drop. eapply Forall_impl; [by apply usable_frames_width|]. naive_solver.
Qed.

Lemma boot_allocate `{!X86Laws} f n :
  boot_inv f n → 0 < n →
  ∃ f', boot_allocate_frame f = Ret (head (boot_frames f), f') ∧
        boot_frames f' = tail (boot_frames f) ∧ boot_inv f' (n - 1).
Proof.
  intros (Hv & Hn0 & Hn) Hpos. unfold boot_allocate_frame.
  rewrite nth_frame_lookup, bind_Ret by by apply usable_frames_width.
  rewrite checked_ok, bind_Ret by (unfold in_width; lia). eexists. split; [|split].
  - f_equal. f_equal. unfold boot_frames. by rewrite head_lookup, lookup_drop, Nat.add_0_r.
  - unfold boot_frames, usable_frames. simpl.
    rewrite tail_drop. f_equal. lia.
  - unfold boot_inv. simpl. split_and!; [done|lia|lia].
Qed.

#[export] Instance boot_FrameContract `{!X86Laws} : FrameContract BootInfoFrameAllocator := {
  fa_inv := boot_inv;
  fa_frames := boot_frames;
  fa_inv_le := boot_inv_le;
  fa_good := boot_good;
  fa_allocate := boot_allocate;
}.
End memory_map.

(** [EmptyFrameAllocator]: always [None]. *)
Inductive EmptyFrameAllocator : Type := Empty.

#[export] Instance empty_FrameAllocator : FrameAllocator EmptyFrameAllocator := {
  allocate_frame f := Ret (None, f);
}.

(** C20: Over a valid memory map, [n] calls of [allocate_frame] never panic and
    answer, in order, with the frames of [usable_frames] and then with [None];
    those frames are pairwise disjoint (no frame is handed out twice), and they
    are exactly the pages that lie inside a usable region. *)
Theorem allocate_frames_exact {K : Type} `{EqDecision K} (Usable : K) `{X86Laws}
    (regions : list (MemoryRegion (MemoryRegionKind:=K))) (n : nat) :
  map_valid regions → Z.of_nat n < 2 ^ 64 →
  let _ := boot_FrameAllocator Usable in
  let frames := usable_frames Usable (init regions) in
  returns (allocate_frames (init regions) n) (λ '(os, _),
    os = (λ i, frames !! i) <$> seq 0 n) ∧
  separated ((λ a, (a, 4096)) <$> frames) ∧
  (∀ a, a ∈ frames ↔ page_aligned a ∧
     ∃ r, r ∈ regions ∧ kind r = Usable ∧ region_start r ≤ a ∧ a + 4096 ≤ region_end r).
Proof.
  intros Hv Hn I frames. split; [|split].
  - destruct (allocate_frames_contract (F:=BootInfoFrameAllocator)
      (H0:=boot_FrameContract Usable) n (init regions) (2 ^ 64 - 1)) as (f' & Ha & _).
    { unfold fa_inv. simpl. unfold boot_inv. simpl. split_and!; [done|done|lia]. }
    { lia. }
    unfold I. rewrite Ha. by apply returns_Ret.
  - by apply separated_usable_frames.
  - intros a. by apply elem_usable_frames.
Qed.

(** A map with two usable regions around a reserved one. *)
Definition sample_map : list (MemoryRegion (MemoryRegionKind:=bool)) :=
  [mkRegion 0x1000 0x3000 true; mkRegion 0x3000 0x8000 false; mkRegion 0x9000 0xa000 true].

Lemma sample_map_valid : map_valid sample_map.
Proof.
  split.
  - repeat (constructor; [split_and!; first [reflexivity|discriminate]|]). constructor.
  - repeat (split; [repeat (constructor; [left; discriminate|]); constructor|]). exact I.
Qed.

Lemma allocate_frames_exact_witness :
  let _ := boot_FrameAllocator (H:=amd64) true in
  let frames := usable_frames true (init sample_map) in
  frames = [0x1000; 0x2000; 0x9000] ∧
  (returns (allocate_frames (init sample_map) 4) (λ '(os, _),
    os = (λ i, frames !! i) <$> seq 0 4) ∧
  separated ((λ a, (a, 4096)) <$> frames) ∧
  (∀ a, a ∈ frames ↔ page_aligned a ∧
     ∃ r, r ∈ sample_map ∧ kind r = true ∧ region_start r ≤ a ∧ a + 4096 ≤ region_end r)).
Proof.
  split; [reflexivity|].
  exact (allocate_frames_exact (H0:=amd64_laws) true sample_map 4 sample_map_valid eq_refl).
Defined.
