(* ===== verification/Paging.v ===== *)
(** * Virtual memory (kernel/src/allocator/mod.rs, and [init_ramdisk] of
    kernel/src/main.rs)

    Mapping of fresh pages at ever increasing virtual addresses
    ([alloc_pages], [alloc_pages_user]), their release, the heap and the RAM
    disk.  The page tables are the crate's [Mapper]: a class of operations and
    the laws the kernel relies on.  The two [static mut NEXT_VIRT] counters
    are the record [Statics]. *)

From S2P Require Import Prelude GlobalAlloc BumpAllocator Arch FrameAllocator.
Open Scope Z_scope.
Open Scope rust_scope.

(** ** The trait [Mapper<Size4KiB>] *)

(** [map_to page frame flags allocator] may ask the allocator for frames for
    page tables; its result keeps the state the allocator is left in. *)
Class Mapper (M : Type) := {
  MapToError : Type;
  FrameAllocationFailed : MapToError;
  UnmapError : Type;
  map_to {F : Type} `{FrameAllocator F} :
    M → Z → Z → Z → F → outcome ((MapToError + unit) * M * F);
  unmap : M → Z → (UnmapError + Z) * M;
}.

(** [page_map m]: the 4 KiB pages that are mapped, with frame and flags;
    [huge m p]: the page lies in a huge page.  Mapping a free page needs at
    most three page tables. *)
Class MapperLaws (M : Type) `{Mapper M} := {
  page_map : M → gmap Z (Z * Z);
  huge : M → Z → Prop;
  map_to_ok {F : Type} `{FrameContract F} m p fr fl (f : F) n :
    fa_inv f n → 3 ≤ n → (3 ≤ length (fa_frames f))%nat →
    page_map m !! p = None → ¬ huge m p →
    ∃ m' f' k, map_to m p fr fl f = Ret (inr (), m', f') ∧
      page_map m' = <[p := (fr, fl)]> (page_map m) ∧ (∀ q, huge m' q → huge m q) ∧
      (k ≤ 3)%nat ∧ fa_frames f' = drop k (fa_frames f) ∧ fa_inv f' (n - 3);
  unmap_mapped m p fr fl :
    page_map m !! p = Some (fr, fl) →
    ∃ m', unmap m p = (inr fr, m') ∧ page_map m' = delete p (page_map m);
  unmap_unmapped m p :
    page_map m !! p = None →
    ∃ e m', unmap m p = (inl e, m') ∧ page_map m' = page_map m;
}.

(** [Result::expect]. *)
Definition expect {E A : Type} (r : E + A) : outcome A :=
  match r with inr a => Ret a | inl _ => Panic UnwrapFailed end.

(** ** The code *)

Record Statics : Type := mkStatics {
  NEXT_VIRT : Z;        (* of [alloc_pages] *)
  NEXT_VIRT_USER : Z;   (* of [alloc_pages_user] *)
}.

Definition statics0 : Statics := mkStatics 0xffff900000000000 0xffffffff90000000.

Section paging.
Context `{X86} {M : Type} `{Mapper M} {F : Type} `{FrameAllocator F}.
Implicit Types (m : M) (f : F) (st : Statics).

(** The [for] loop of [alloc_pages] and of [alloc_pages_user], which differ in
    [flags]; [n] iterations from [i]. *)
Fixpoint alloc_loop (base flags i : Z) (n : nat) m f : outcome (M * F) :=
  match n with
  | O => Ret (m, f)
  | S n =>
      off ← i *[64] 4096;
      addr ← base +[64] off;
      virt ← virt_new addr;
      '(o, f) ← allocate_frame f;
      phys ← unwrap o;
      '(r, m, f) ← map_to m (containing_address virt) phys flags f;
      _ ← expect r;
      alloc_loop base flags (i + 1) n m f
  end.

Definition alloc_pages st m f (num_pages : Z) : outcome (option Z * Statics * M * F) :=
  let base := NEXT_VIRT st in
  size ← num_pages *[64] 4096;
  nxt ← NEXT_VIRT st +[64] size;
  let st := mkStatics nxt (NEXT_VIRT_USER st) in
  '(m, f) ← alloc_loop base (Z.lor PRESENT WRITABLE) 0 (Z.to_nat num_pages) m f;
  r ← virt_new base;
  Ret (Some r, st, m, f).

Definition alloc_pages_user st m f (num_pages : Z) : outcome (option Z * Statics * M * F) :=
  let base := NEXT_VIRT_USER st in
  size ← num_pages *[64] 4096;
  nxt ← NEXT_VIRT_USER st +[64] size;
  let st := mkStatics (NEXT_VIRT st) nxt in
  '(m, f) ← alloc_loop base (Z.lor (Z.lor PRESENT WRITABLE) USER_ACCESSIBLE) 0
              (Z.to_nat num_pages) m f;
  r ← virt_new base;
  Ret (Some r, st, m, f).

Definition alloc st m f (num_bytes : Z) : outcome (option Z * Statics * M * F) :=
  if num_bytes =? 0 then Ret (None, st, m, f)
  else alloc_pages st m f (Z.max (div_ceil num_bytes 4096) 2).

Definition alloc_user st m f (num_bytes : Z) : outcome (option Z * Statics * M * F) :=
  if num_bytes =? 0 then Ret (None, st, m, f)
  else alloc_pages_user st m f (Z.max (div_ceil num_bytes 4096) 2).

Fixpoint free_loop (virt_addr i : Z) (n : nat) m : outcome ((UnmapError + unit) * M) :=
  match n with
  | O => Ret (inr (), m)
  | S n =>
      off ← i *[64] 4096;
      virt ← virt_add virt_addr off;
      let page := containing_address virt in
      match unmap m page with
      | (inl e, m) => Ret (inl e, m)
      | (inr _, m) => free_loop virt_addr (i + 1) n m
      end
  end.

Definition free m (virt_addr num_bytes : Z) : outcome ((UnmapError + unit) * M) :=
  if (virt_addr =? 0) || (num_bytes =? 0) then Ret (inr (), m)
  else free_loop virt_addr 0 (Z.to_nat (div_ceil num_bytes 4096)) m.

Definition map_page m (virt_addr phys_addr flags : Z) : outcome ((MapToError + unit) * M) :=
  va ← virt_new virt_addr;
  let page := containing_address va in
  pa ← phys_new phys_addr;
  let frame := containing_address pa in
  '(r, m, _) ← map_to m page frame flags Empty;
  Ret (r, m).

Definition unmap_page m (virt_addr : Z) : outcome ((UnmapError + unit) * M) :=
  va ← virt_new virt_addr;
  match unmap m (containing_address va) with
  | (inl e, m) => Ret (inl e, m)
  | (inr _, m) => Ret (inr (), m)
  end.

(** [init_heap]: its loop leaves by [?] on the first error. *)
Fixpoint heap_loop (pages : list Z) m f : outcome ((MapToError + unit) * M * F) :=
  match pages with
  | [] => Ret (inr (), m, f)
  | page :: pages =>
      '(o, f) ← allocate_frame f;
      match o with
      | None => Ret (inl FrameAllocationFailed, m, f)
      | Some frame =>
          '(r, m, f) ← map_to m page frame (Z.lor PRESENT WRITABLE) f;
          match r with
          | inl e => Ret (inl e, m, f)
          | inr _ => heap_loop pages m f
          end
      end
  end.

Definition init_heap (b : BumpAllocator) m f :
    outcome ((MapToError + unit) * BumpAllocator * M * F) :=
  heap_start ← virt_new HEAP_START;
  t ← virt_add heap_start HEAP_SIZE;
  heap_end ← virt_sub t 1;
  let page_range := page_range_inclusive (containing_address heap_start)
                                         (containing_address heap_end) in
  '(r, m, f) ← heap_loop page_range m f;
  match r with
  | inl e => Ret (inl e, b, m, f)
  | inr _ => Ret (inr (), BumpAllocator.init b HEAP_START HEAP_SIZE, m, f)
  end.

(** [init_ramdisk] up to the copy of the disk image. *)
Fixpoint ramdisk_loop (pages : list Z) m f : outcome (M * F) :=
  match pages with
  | [] => Ret (m, f)
  | page :: pages =>
      '(o, f) ← allocate_frame f;
      frame ← unwrap o;
      '(r, m, f) ← map_to m page frame (Z.lor WRITABLE PRESENT) f;
      _ ← expect r;
      ramdisk_loop pages m f
  end.

Definition init_ramdisk m f (mib : Z) : outcome (Z * M * F) :=
  start ← virt_new 0x500000000000;
  k ← mib *[64] 1024;
  size ← k *[64] 1024;
  end_ ← virt_add start size;
  '(m, f) ← ramdisk_loop (page_range_inclusive (containing_address start)
                                                (containing_address end_)) m f;
  Ret (start, m, f).
End paging.

(** ** Page maps *)

(** Consecutive pages from [base] mapped to the frames [frs], and unmapped. *)
Fixpoint map_pages (base : Z) (frs : list Z) (fl : Z) (pm : gmap Z (Z * Z)) : gmap Z (Z * Z) :=
  match frs with
  | [] => pm
  | fr :: frs => map_pages (base + 4096) frs fl (<[base := (fr, fl)]> pm)
  end.

Fixpoint unmap_pages (base : Z) (n : nat) (pm : gmap Z (Z * Z)) : gmap Z (Z * Z) :=
  match n with
  | O => pm
  | S n => unmap_pages (base + 4096) n (delete base pm)
  end.

Lemma map_pages_below base frs fl pm p :
  p < base → map_pages base frs fl pm !! p = pm !! p.
Proof.
  revert base pm. induction frs as [|fr frs IH]; intros base pm Hp; simpl; [done|].
  rewrite IH by lia. rewrite lookup_insert_ne by lia. done.
Qed.

Lemma map_pages_lookup base frs fl pm (i : nat) fr :
  frs !! i = Some fr → map_pages base frs fl pm !! (base + 4096 * Z.of_nat i) = Some (fr, fl).
Proof.
  revert base pm i. induction frs as [|x frs IH]; intros base pm [|i] Hi; simpl in *; try done.
  - simplify_eq. rewrite Z.add_0_r, map_pages_below by lia. by rewrite lookup_insert_eq.
  - rewrite <- (IH (base + 4096) (<[base:=(x, fl)]> pm) i Hi). f_equal. lia.
Qed.

Lemma map_pages_outside base frs fl pm p :
  (∀ i, 0 ≤ i < zlen frs → p ≠ base + 4096 * i) → map_pages base frs fl pm !! p = pm !! p.
Proof.
  revert base pm. induction frs as [|fr frs IH]; intros base pm Hp; [done|]. cbn [map_pages].
  rewrite zlen_cons in Hp. pose proof (zlen_nonneg frs). rewrite IH.
  - apply lookup_insert_ne. specialize (Hp 0). lia.
  - intros i Hi. specialize (Hp (i + 1)). lia.
Qed.

Lemma map_pages_insert base frs fl pm p e :
  p < base →
  map_pages base frs fl (<[p := e]> pm) = <[p := e]> (map_pages base frs fl pm).
Proof.
  revert base pm. induction frs as [|fr frs IH]; intros base pm Hp; simpl; [done|].
  rewrite <- IH by lia. f_equal. apply insert_insert_ne. lia.
Qed.

Lemma delete_map_pages base frs fl pm p :
  p < base → delete p (map_pages base frs fl pm) = map_pages base frs fl (delete p pm).
Proof.
  revert base pm. induction frs as [|fr frs IH]; intros base pm Hp; simpl; [done|].
  rewrite IH by lia. f_equal. apply delete_insert_ne. lia.
Qed.

(** Unmapping the first pages of a fresh region leaves the others. *)
Lemma unmap_map_pages base frs1 frs2 fl pm :
  (∀ i, 0 ≤ i < zlen frs1 → pm !! (base + 4096 * i) = None) →
  unmap_pages base (length frs1) (map_pages base (frs1 ++ frs2) fl pm) =
    map_pages (base + 4096 * zlen frs1) frs2 fl pm.
Proof.
  revert base pm. induction frs1 as [|fr frs1 IH]; intros base pm Hn; simpl.
  { unfold zlen. simpl. f_equal. lia. }
  rewrite delete_map_pages by lia. rewrite delete_insert_id.
  2: { specialize (Hn 0). rewrite Z.add_0_r in Hn. apply Hn. rewrite zlen_cons.
       pose proof (zlen_nonneg frs1). lia. }
  rewrite IH.
  - f_equal. rewrite zlen_cons. lia.
  - intros i Hi. replace (base + 4096 + 4096 * i) with (base + 4096 * (i + 1)) by lia.
    apply Hn. rewrite zlen_cons. lia.
Qed.

(** ** What the loops do *)

Section laws.
Context `{X86Laws} {M : Type} `{MapperLaws M} {F : Type} `{FrameContract F}.
Implicit Types (m : M) (f : F) (st : Statics).

(** [n] pages from [base] are free and outside huge pages. *)
Definition fresh_range m (base n : Z) : Prop :=
  ∀ i, 0 ≤ i < n → page_map m !! (base + 4096 * i) = None ∧ ¬ huge m (base + 4096 * i).

(** Frames for [n] pages and for the page tables they may need. *)
Definition frames_for f (n : Z) : Prop :=
  fa_inv f (4 * n) ∧ 4 * n ≤ zlen (fa_frames f).

(** [n] page addresses from [base] that the crate accepts. *)
Definition region_ok (base n : Z) : Prop :=
  page_aligned base ∧ 0 ≤ base ∧ base + 4096 * n < 2 ^ 64 ∧
  (∀ i, 0 ≤ i < n → canonical (base + 4096 * i)).

Lemma region_ok_split base n k :
  0 ≤ n → 0 ≤ k → region_ok base (n + k) → region_ok base n ∧ region_ok (base + 4096 * n) k.
Proof.
  intros Hn Hk (Hal & Hb & He & Hc). split; split_and!; try (done || lia).
  - intros i Hi. apply Hc. lia.
  - by apply page_aligned_step.
  - intros i Hi. replace (base + 4096 * n + 4096 * i) with (base + 4096 * (n + i)) by lia. apply Hc. lia.
Qed.

Lemma fresh_range_split m base n k :
  0 ≤ n → 0 ≤ k → fresh_range m base (n + k) → fresh_range m base n ∧ fresh_range m (base + 4096 * n) k.
Proof.
  intros Hn Hk Hf. split; intros i Hi; [apply Hf; lia|].
  replace (base + 4096 * n + 4096 * i) with (base + 4096 * (n + i)) by lia. apply Hf. lia.
Qed.

(** What lies behind newly mapped pages stays free. *)
Lemma fresh_range_behind m m' base frs fl k :
  page_map m' = map_pages base frs fl (page_map m) → (∀ q, huge m' q → huge m q) →
  fresh_range m (base + 4096 * zlen frs) k → fresh_range m' (base + 4096 * zlen frs) k.
Proof.
  intros Hpm Hh Hf i Hi. destruct (Hf i Hi) as [Hn Hnh]. split; [|by intros ?%Hh].
  rewrite Hpm, map_pages_outside; [done|]. intros j Hj. lia.
Qed.

(** One frame and one mapping. *)
Lemma map_fresh_page m f n p fl :
  0 < n → frames_for f n → page_map m !! p = None → ¬ huge m p →
  ∃ fr f1 m' f', allocate_frame f = Ret (Some fr, f1) ∧
    map_to m p fr fl f1 = Ret (inr (), m', f') ∧
    page_map m' = <[p := (fr, fl)]> (page_map m) ∧ (∀ q, huge m' q → huge m q) ∧
    frames_for f' (n - 1) ∧ sublist (fr :: fa_frames f') (fa_frames f).
Proof.
  intros Hn [Hi Hlen] Hp Hh. destruct (fa_allocate f _ Hi) as (f1 & Ha & Hf1 & Hi1); [lia|].
  destruct (fa_frames f) as [|fr rest] eqn:Hf; [unfold zlen in Hlen; simpl in Hlen; lia|].
  simpl in *. rewrite zlen_cons in Hlen. unfold zlen in Hlen.
  destruct (map_to_ok m p fr fl f1 _ Hi1) as (m' & f' & k & Hm & Hpm & Hh' & Hk & Hf' & Hi');
    [lia|rewrite Hf1; lia|done|done|].
  exists fr, f1, m', f'. split_and!; try done.
  - split; [eapply fa_inv_le; [|exact Hi']; lia|]. unfold zlen. rewrite Hf', length_drop, Hf1. lia.
  - rewrite Hf', Hf1. apply sublist_skip, sublist_drop.
Qed.

Lemma fresh_range_map m m' base fr fl n i :
  page_map m' = <[base + 4096 * i := (fr, fl)]> (page_map m) → (∀ q, huge m' q → huge m q) →
  (∀ j, i ≤ j < i + n → page_map m !! (base + 4096 * j) = None ∧ ¬ huge m (base + 4096 * j)) →
  ∀ j, i + 1 ≤ j < i + n →
    page_map m' !! (base + 4096 * j) = None ∧ ¬ huge m' (base + 4096 * j).
Proof.
  intros Hpm Hh Hfr j Hj. destruct (Hfr j) as [Hn Hnh]; [lia|].
  rewrite Hpm, lookup_insert_ne by lia. split; [done|]. by intros ?%Hh.
Qed.

Lemma alloc_loop_maps base fl (n : nat) i m f k :
  0 ≤ i → 0 ≤ k → region_ok base (i + Z.of_nat n) → frames_for f (Z.of_nat n + k) →
  (∀ j, i ≤ j < i + Z.of_nat n →
     page_map m !! (base + 4096 * j) = None ∧ ¬ huge m (base + 4096 * j)) →
  ∃ m' f' frs, alloc_loop base fl i n m f = Ret (m', f') ∧ length frs = n ∧
    page_map m' = map_pages (base + 4096 * i) frs fl (page_map m) ∧
    sublist (frs ++ fa_frames f') (fa_frames f) ∧
    frames_for f' k ∧ (∀ q, huge m' q → huge m q).
Proof.
  revert i m f. induction n as [|n IH]; intros i m f Hi0 Hk Hreg Hf Hfr; cbn [alloc_loop].
  { exists m, f, []. by split_and!. }
  pose proof Hreg as (Hal & Hb & Hend & Hcan).
  rewrite checked_ok, bind_Ret by (unfold in_width; lia).
  rewrite checked_ok, bind_Ret by (unfold in_width; lia).
  replace (base + i * 4096) with (base + 4096 * i) by lia.
  rewrite virt_new_ok, bind_Ret by (apply Hcan; lia).
  rewrite containing_address_aligned by (lia || by apply page_aligned_step).
  destruct (Hfr i) as [Hnone Hnh]; [lia|].
  destruct (map_fresh_page m f (Z.of_nat (S n) + k) (base + 4096 * i) fl)
    as (fr & f1 & m1 & f2 & Ha & Hm & Hpm & Hh & Hf2 & Hsub); [lia|done..|].
  rewrite Ha, bind_Ret. simpl unwrap. rewrite bind_Ret, Hm, bind_Ret. simpl expect.
  rewrite bind_Ret.
  destruct (IH (i + 1) m1 f2) as (m' & f' & frs & Hl & Hlen & Hpm' & Hsub' & Hk' & Hh').
  - lia.
  - done.
  - by replace (i + 1 + Z.of_nat n) with (i + Z.of_nat (S n)) by lia.
  - by replace (Z.of_nat n + k) with (Z.of_nat (S n) + k - 1) by lia.
  - intros j Hj. eapply fresh_range_map; [exact Hpm|exact Hh|exact Hfr|lia].
  - exists m', f', (fr :: frs). rewrite Hl. split_and!; [done|simpl; lia| | |done|naive_solver].
    + rewrite Hpm', Hpm. simpl. f_equal. lia.
    + simpl. etransitivity; [by apply sublist_skip|exact Hsub].
Qed.

(** The page allocator over a fresh region, for either set of flags; [k] more
    pages can be mapped after it. *)
Lemma alloc_pages_region_more m f base fl n k :
  0 ≤ n → 0 ≤ k → region_ok base n → frames_for f (n + k) → fresh_range m base n →
  ∃ m' f' frs, alloc_loop base fl 0 (Z.to_nat n) m f = Ret (m', f') ∧ zlen frs = n ∧
    page_map m' = map_pages base frs fl (page_map m) ∧
    sublist (frs ++ fa_frames f') (fa_frames f) ∧
    frames_for f' k ∧ (∀ q, huge m' q → huge m q).
Proof.
  intros Hn Hk Hreg Hf Hfr.
  destruct (alloc_loop_maps base fl (Z.to_nat n) 0 m f k) as (m' & f' & frs & ? & Hlen & Hpm & ? & ? & ?);
    rewrite ?Z2Nat.id, ?Z.add_0_l by done; try done.
  exists m', f', frs. split_and!; [done|unfold zlen; lia| |done..].
  by rewrite Z.mul_0_r, Z.add_0_r in Hpm.
Qed.

Lemma alloc_pages_region m f base fl n :
  0 ≤ n → region_ok base n → frames_for f n → fresh_range m base n →
  ∃ m' f' frs, alloc_loop base fl 0 (Z.to_nat n) m f = Ret (m', f') ∧ zlen frs = n ∧
    page_map m' = map_pages base frs fl (page_map m) ∧
    sublist (frs ++ fa_frames f') (fa_frames f).
Proof.
  intros Hn Hreg Hf Hfr.
  destruct (alloc_pages_region_more m f base fl n 0) as (m' & f' & frs & ? & ? & ? & ? & _);
    [done|done|done|by rewrite Z.add_0_r|done|]. by exists m', f', frs.
Qed.

(** The loop of the RAM disk: like the heap's, with [k] pages to spare. *)
Lemma ramdisk_loop_maps pages m f k :
  NoDup pages → 0 ≤ k → frames_for f (zlen pages + k) →
  Forall (λ p, page_map m !! p = None ∧ ¬ huge m p) pages →
  ∃ m' f', ramdisk_loop pages m f = Ret (m', f') ∧
    (∀ p, p ∈ pages → ∃ fr, page_map m' !! p = Some (fr, Z.lor WRITABLE PRESENT)) ∧
    (∀ p, p ∉ pages → page_map m' !! p = page_map m !! p) ∧
    frames_for f' k ∧ (∀ q, huge m' q → huge m q).
Proof.
  revert m f. induction pages as [|p pages IH]; intros m f Hnd Hk Hf Hfr; cbn [ramdisk_loop].
  { exists m, f. split_and!; [done|by intros ? ?%not_elem_of_nil|done|done|done]. }
  apply NoDup_cons in Hnd as [Hnot Hnd]. apply Forall_cons in Hfr as [[Hn Hnh] Hfr].
  rewrite zlen_cons in Hf. pose proof (zlen_nonneg pages).
  destruct (map_fresh_page m f (1 + zlen pages + k) p (Z.lor WRITABLE PRESENT))
    as (fr & f1 & m1 & f2 & Ha & Hm & Hpm & Hh & Hf2 & Hsub); [lia|done..|].
  rewrite Ha, bind_Ret. cbn [unwrap]. rewrite bind_Ret, Hm, bind_Ret. cbn [expect]. rewrite bind_Ret.
  destruct (IH m1 f2) as (m' & f' & Hl & Hin & Hout & Hk' & Hh'); [done|done| | |].
  - by replace (1 + zlen pages + k - 1) with (zlen pages + k) in Hf2 by lia.
  - rewrite Forall_forall in Hfr. rewrite Forall_forall. intros q Hq.
    destruct (Hfr q Hq). rewrite Hpm, lookup_insert_ne by congruence. split; [done|]. by intros ?%Hh.
  - exists m', f'. rewrite Hl. split_and!; [done| | |done|naive_solver].
    + intros q [->|Hq]%elem_of_cons; [|by apply Hin]. exists fr. by rewrite Hout, Hpm, lookup_insert_eq by done.
    + intros q [Hq Hq']%not_elem_of_cons. by rewrite Hout, Hpm, lookup_insert_ne by done.
Qed.

Lemma free_loop_unmaps base (n : nat) i m :
  0 ≤ i → region_ok base (i + Z.of_nat n) →
  (∀ j, i ≤ j < i + Z.of_nat n → is_Some (page_map m !! (base + 4096 * j))) →
  ∃ m', free_loop base i n m = Ret (inr (), m') ∧
    page_map m' = unmap_pages (base + 4096 * i) n (page_map m).
Proof.
  revert i m. induction n as [|n IH]; intros i m Hi0 Hreg Hmap; cbn [free_loop].
  { by exists m. }
  pose proof Hreg as (Hal & Hb & Hend & Hcan).
  rewrite checked_ok, bind_Ret by (unfold in_width; lia).
  replace (i * 4096) with (4096 * i) by lia.
  rewrite virt_add_ok, bind_Ret by
    (lia || (apply Hcan; lia) || (specialize (Hcan 0); rewrite Z.add_0_r in Hcan; apply Hcan; lia)).
  rewrite containing_address_aligned by (lia || by apply page_aligned_step).
  destruct (Hmap i) as [[fr fl] Hm]; [lia|].
  destruct (unmap_mapped m _ _ _ Hm) as (m1 & -> & Hpm).
  destruct (IH (i + 1) m1) as (m' & Hl & Hpm').
  - lia.
  - by replace (i + 1 + Z.of_nat n) with (i + Z.of_nat (S n)) by lia.
  - intros j Hj. rewrite Hpm, lookup_delete_ne by lia. apply Hmap. lia.
  - exists m'. rewrite Hl. split; [done|]. rewrite Hpm', Hpm. simpl. f_equal. lia.
Qed.

Lemma heap_loop_maps pages m f k :
  NoDup pages → 0 ≤ k → frames_for f (zlen pages + k) →
  Forall (λ p, page_map m !! p = None ∧ ¬ huge m p) pages →
  ∃ m' f', heap_loop pages m f = Ret (inr (), m', f') ∧
    (∀ p, p ∈ pages → ∃ fr, page_map m' !! p = Some (fr, Z.lor PRESENT WRITABLE) ∧
                            fr ∈ fa_frames f) ∧
    (∀ p, p ∉ pages → page_map m' !! p = page_map m !! p) ∧
    sublist (fa_frames f') (fa_frames f) ∧ frames_for f' k ∧ (∀ q, huge m' q → huge m q).
Proof.
  revert m f. induction pages as [|p pages IH]; intros m f Hnd Hk Hf Hfr; cbn [heap_loop].
  { exists m, f. split_and!; [done|by intros ? ?%not_elem_of_nil|done..]. }
  apply NoDup_cons in Hnd as [Hnot Hnd]. apply Forall_cons in Hfr as [[Hn Hnh] Hfr].
  rewrite zlen_cons in Hf. pose proof (zlen_nonneg pages).
  destruct (map_fresh_page m f (1 + zlen pages + k) p (Z.lor PRESENT WRITABLE))
    as (fr & f1 & m1 & f2 & Ha & Hm & Hpm & Hh & Hf2 & Hsub); [lia|done..|].
  rewrite Ha, bind_Ret, Hm, bind_Ret.
  destruct (IH m1 f2) as (m' & f' & Hl & Hin & Hout & Hsub' & Hk' & Hh'); [done|done| | |].
  - by replace (1 + zlen pages + k - 1) with (zlen pages + k) in Hf2 by lia.
  - rewrite Forall_forall in Hfr. rewrite Forall_forall. intros q Hq.
    destruct (Hfr q Hq). rewrite Hpm, lookup_insert_ne by congruence. split; [done|]. by intros ?%Hh.
  - exists m', f'. rewrite Hl. assert (Hs2 : sublist (fa_frames f2) (fa_frames f)).
    { etransitivity; [apply sublist_cons; reflexivity|exact Hsub]. }
    split_and!; [done| | |by etransitivity|done|naive_solver].
    + intros q [->|Hq]%elem_of_cons.
      * exists fr. rewrite Hout, Hpm, lookup_insert_eq by done. split; [done|].
        eapply elem_of_sublist; [|exact Hsub]. left.
      * destruct (Hin q Hq) as (fr' & ? & ?). exists fr'. split; [done|]. by eapply elem_of_sublist.
    + intros q [Hq Hq']%not_elem_of_cons. by rewrite Hout, Hpm, lookup_insert_ne by done.
Qed.

(** [alloc] over a fresh region. *)
Lemma paging_alloc_result st m f num_bytes :
  let n := Z.max (div_ceil num_bytes 4096) 2 in
  0 < num_bytes → region_ok (NEXT_VIRT st) n → frames_for f n → fresh_range m (NEXT_VIRT st) n →
  ∃ m' f' frs,
    alloc st m f num_bytes =
      Ret (Some (NEXT_VIRT st), mkStatics (NEXT_VIRT st + 4096 * n) (NEXT_VIRT_USER st), m', f') ∧
    zlen frs = n ∧ NoDup (frs ++ fa_frames f') ∧
    page_map m' = map_pages (NEXT_VIRT st) frs (Z.lor PRESENT WRITABLE) (page_map m).
Proof.
  intros n Hnb Hreg Hf Hfr. pose proof Hreg as (Hal & Hb & Hend & Hcan).
  assert (Hn : 2 ≤ n) by (unfold n; lia).
  unfold alloc, alloc_pages. rewrite (proj2 (Z.eqb_neq _ _)) by lia. fold n.
  rewrite checked_ok, bind_Ret by (unfold in_width; lia).
  rewrite checked_ok, bind_Ret by (unfold in_width; lia).
  destruct (alloc_pages_region m f (NEXT_VIRT st) (Z.lor PRESENT WRITABLE) n)
    as (m' & f' & frs & -> & Hlen & Hpm & Hsub); [lia|done..|]. rewrite bind_Ret.
  rewrite virt_new_ok, bind_Ret by
    (specialize (Hcan 0); rewrite Z.add_0_r in Hcan; apply Hcan; lia).
  exists m', f', frs. split_and!; [by rewrite Z.mul_comm|done| |done].
  eapply sublist_NoDup; [|exact Hsub]. apply (fa_good f _ (proj1 Hf)).
Qed.
End laws.

(** ** A concrete mapper, for the sample runs: the page map alone *)

Inductive sample_error : Type := NoFrame | AlreadyMapped | NotMapped.

#[local] Instance sample_Mapper : Mapper (gmap Z (Z * Z)) := {
  MapToError := sample_error;
  FrameAllocationFailed := NoFrame;
  UnmapError := sample_error;
  map_to F _ m p fr fl f :=
    match m !! p with
    | Some _ => Ret (inl AlreadyMapped, m, f)
    | None => Ret (inr (), <[p := (fr, fl)]> m, f)
    end;
  unmap m p := match m !! p with Some (fr, _) => (inr fr, delete p m) | None => (inl NotMapped, m) end;
}.

#[local] Instance sample_MapperLaws : MapperLaws (gmap Z (Z * Z)).
Proof.
  refine {| page_map m := m; huge m p := False |}.
  - intros F ? ? m p fr fl f n Hi Hn Hlen Hp _. exists (<[p := (fr, fl)]> m), f, 0%nat. simpl.
    rewrite Hp. split_and!; try done; [lia|]. eapply fa_inv_le; [|exact Hi]. lia.
  - intros m p fr fl Hp. exists (delete p m). simpl. by rewrite Hp.
  - intros m p Hp. exists NotMapped, m. simpl. by rewrite Hp.
Defined.

(** Memory maps of one usable region of [n] pages. *)
Definition one_region (n : Z) : list (MemoryRegion (MemoryRegionKind:=bool)) :=
  [mkRegion 0x100000 (0x100000 + 4096 * n) true].
Definition sample_frames : BootInfoFrameAllocator (MemoryRegionKind:=bool) := init (one_region 16000).

#[local] Instance sample_FA : FrameAllocator (BootInfoFrameAllocator (MemoryRegionKind:=bool)) :=
  boot_FrameAllocator (H:=amd64) true.
#[local] Instance sample_FC : FrameContract (BootInfoFrameAllocator (MemoryRegionKind:=bool)) :=
  boot_FrameContract (H:=amd64) (H0:=amd64_laws) true.

Lemma one_region_frames_for N n : 0 ≤ n → 4 * n ≤ N ≤ 10 ^ 9 → frames_for (init (one_region N)) n.
Proof.
  intros Hn HN. split.
  - cbn. unfold boot_inv. cbn. split_and!; [|done|lia]. split.
    + constructor; [|constructor]. cbn. unfold page_aligned. split_and!; [done| |lia|lia|lia].
      replace (1048576 + 4096 * N) with ((256 + N) * 4096) by lia. by apply Z.mod_mul.
    + cbn. by split; [constructor|].
  - change (fa_frames (init (one_region N))) with (step_by_page 0x100000 (0x100000 + 4096 * N) ++ []).
    rewrite app_nil_r. unfold zlen, step_by_page, div_ceil. rewrite length_fmap, length_seqZ.
    Z.to_euclidean_division_equations; lia.
Qed.

Lemma sample_frames_for n : 0 ≤ n ≤ 4000 → frames_for sample_frames n.
Proof. intros Hn. apply one_region_frames_for; lia. Qed.

Lemma empty_fresh base n : fresh_range (∅ : gmap Z (Z * Z)) base n.
Proof.
  intros i _. split; [|intros []].
  change ((∅ : gmap Z (Z * Z)) !! (base + 4096 * i) = None). apply lookup_empty.
Qed.

Lemma kernel_area_ok : region_ok (NEXT_VIRT statics0) 2.
Proof.
  split_and!; [done|done|done|]. intros i Hi. right. simpl. lia.
Qed.

(** ** Properties *)

(** C17: Where the region at [NEXT_VIRT] is free and there are frames for the
    pages and their page tables, [alloc] returns the start of the region and
    moves [NEXT_VIRT] past it; exactly [max(2, ceil(num_bytes / 4096))]
    consecutive pages have been mapped, writable and present, each to a frame
    of its own that the frame allocator will not hand out again; every other
    mapping is as before. *)
Theorem alloc_maps_fresh_pages `{X86Laws} {M} `{MapperLaws M} {F} `{FrameContract F}
    (st : Statics) (m : M) (f : F) num_bytes :
  let n := Z.max (div_ceil num_bytes 4096) 2 in
  0 < num_bytes → region_ok (NEXT_VIRT st) n → frames_for f n → fresh_range m (NEXT_VIRT st) n →
  returns (alloc st m f num_bytes) (λ '(r, st', m', f'),
    r = Some (NEXT_VIRT st) ∧ NEXT_VIRT st' = NEXT_VIRT st + 4096 * n ∧
    NEXT_VIRT_USER st' = NEXT_VIRT_USER st ∧
    ∃ frs, zlen frs = n ∧ NoDup (frs ++ fa_frames f') ∧
      page_map m' = map_pages (NEXT_VIRT st) frs (Z.lor PRESENT WRITABLE) (page_map m)).
Proof.
  intros n Hnb Hreg Hf Hfr.
  destruct (paging_alloc_result st m f num_bytes) as (m' & f' & frs & -> & ? & ? & ?); [done..|].
  apply returns_Ret. simpl. split_and!; [done..|]. by exists frs.
Qed.

Lemma alloc_maps_fresh_pages_witness :
  let m : gmap Z (Z * Z) := ∅ in
  returns (alloc (H:=amd64) statics0 m sample_frames 5000) (λ '(r, st', m', f'),
    r = Some (NEXT_VIRT statics0) ∧
    NEXT_VIRT st' = NEXT_VIRT statics0 + 4096 * Z.max (div_ceil 5000 4096) 2 ∧
    NEXT_VIRT_USER st' = NEXT_VIRT_USER statics0 ∧
    ∃ frs, zlen frs = Z.max (div_ceil 5000 4096) 2 ∧ NoDup (frs ++ fa_frames f') ∧
      page_map m' = map_pages (NEXT_VIRT statics0) frs (Z.lor (PRESENT (X86:=amd64)) (WRITABLE (X86:=amd64))) (page_map m)).
Proof.
  apply (alloc_maps_fresh_pages (H:=amd64) (H0:=amd64_laws) statics0 (∅ : gmap Z (Z * Z))
           sample_frames 5000).
  - done.
  - exact kernel_area_ok.
  - apply sample_frames_for. split; discriminate.
  - apply empty_fresh.
Defined.

(** C18: Freeing what [alloc] returned, with the size it was asked for,
    succeeds and restores the page map exactly when more than a page was asked
    for; for a size of at most 4096 bytes [alloc] has mapped two pages and
    [free] unmaps one, so that the second one stays mapped for ever. *)
Theorem alloc_then_free `{X86Laws} {M} `{MapperLaws M} {F} `{FrameContract F}
    (st : Statics) (m : M) (f : F) num_bytes :
  let base := NEXT_VIRT st in
  let n := Z.max (div_ceil num_bytes 4096) 2 in
  0 < num_bytes → 0 < base → region_ok base n → frames_for f n → fresh_range m base n →
  returns ('(r, st', m', f') ← alloc st m f num_bytes;
           virt ← unwrap r;
           free m' virt num_bytes) (λ '(res, m''),
    res = inr () ∧
    if 4096 <? num_bytes then page_map m'' = page_map m
    else ∃ fr, page_map m'' = <[base + 4096 := (fr, Z.lor PRESENT WRITABLE)]> (page_map m)).
Proof.
  intros base n Hnb Hb0 Hreg Hf Hfr.
  destruct (paging_alloc_result st m f num_bytes) as (m' & f' & frs & -> & Hlen & _ & Hpm); [done..|].
  rewrite bind_Ret. simpl unwrap. rewrite bind_Ret. unfold free.
  rewrite (proj2 (Z.eqb_neq _ 0)) by (fold base; lia).
  rewrite (proj2 (Z.eqb_neq num_bytes 0)) by lia. simpl orb. cbv iota.
  fold base n in Hpm, Hlen |- *. set (k := div_ceil num_bytes 4096) in *.
  assert (Hk : 1 ≤ k ∧ (4096 < num_bytes ↔ 2 ≤ k)).
  { unfold k, div_ceil. pose proof (Z.div_mod (num_bytes + 4096 - 1) 4096 ltac:(lia)).
    pose proof (Z.mod_pos_bound (num_bytes + 4096 - 1) 4096). lia. }
  pose proof Hlen as Hlen0. unfold zlen in Hlen0.
  rewrite <- (take_drop (Z.to_nat k) frs) in Hpm, Hlen.
  set (frs1 := take _ frs) in *. set (frs2 := drop _ frs) in *.
  assert (Hl1 : length frs1 = Z.to_nat k).
  { unfold frs1. rewrite length_take. lia. }
  rewrite zlen_app in Hlen. unfold zlen in Hlen.
  destruct (free_loop_unmaps base (Z.to_nat k) 0 m') as (m'' & Hl & Hpm'').
  - done.
  - destruct Hreg as (? & ? & ? & Hcan). split_and!; [done|done|lia|]. intros i Hi. apply Hcan. lia.
  - intros j Hj. destruct (lookup_lt_is_Some_2 (frs1 ++ frs2) (Z.to_nat j)) as [fr Hfrj].
    { rewrite length_app. lia. }
    exists (fr, Z.lor PRESENT WRITABLE). rewrite Hpm, <- (map_pages_lookup base _ (Z.lor PRESENT WRITABLE) (page_map m) _ _ Hfrj).
    f_equal. lia.
  - rewrite Hl. apply returns_Ret. split; [done|].
    rewrite Z.mul_0_r, Z.add_0_r, Hpm, <- Hl1, unmap_map_pages in Hpm''.
    2: { intros i Hi. apply Hfr. unfold zlen in Hi. lia. }
    destruct (Z.ltb_spec 4096 num_bytes).
    + destruct frs2; [done|simpl in Hlen; lia].
    + destruct frs2 as [|fr [|? ?]]; simpl in Hlen; [lia| |lia].
      exists fr. rewrite Hpm''. simpl. f_equal. unfold zlen. lia.
Qed.

Lemma alloc_then_free_witness :
  let m : gmap Z (Z * Z) := ∅ in
  returns ('(r, st', m', f') ← alloc (H:=amd64) statics0 m sample_frames 100;
           virt ← unwrap r;
           free (H:=amd64) m' virt 100) (λ '(res, m''),
    res = inr () ∧ ∃ fr, page_map m'' =
      <[NEXT_VIRT statics0 + 4096 := (fr, Z.lor (PRESENT (X86:=amd64)) (WRITABLE (X86:=amd64)))]> (page_map m)).
Proof.
  apply (alloc_then_free (H:=amd64) (H0:=amd64_laws) statics0 (∅ : gmap Z (Z * Z))
           sample_frames 100).
  - done.
  - done.
  - exact kernel_area_ok.
  - apply sample_frames_for. split; discriminate.
  - apply empty_fresh.
Defined.

(** ** The heap *)

Lemma NoDup_page_range a b : NoDup (page_range_inclusive a b).
Proof.
  apply NoDup_fmap_2; [intros i j ?; lia|]. apply NoDup_seqZ.
Qed.

Lemma elem_page_range a b p :
  page_aligned a → page_aligned b → a ≤ b →
  p ∈ page_range_inclusive a b ↔ page_aligned p ∧ a ≤ p ≤ b.
Proof.
  unfold page_range_inclusive, page_aligned. intros Ha Hb Hab.
  rewrite list_elem_of_fmap. setoid_rewrite elem_of_seqZ.
  assert (Hd : b - a = 4096 * ((b - a) / 4096)).
  { apply Z.div_exact; [lia|]. by rewrite Zminus_mod, Ha, Hb. }
  split.
  - intros (i & -> & Hi). split; [by apply page_aligned_step|lia].
  - intros (Hp & Hr). exists ((p - a) / 4096).
    assert (p - a = 4096 * ((p - a) / 4096)); [|lia].
    apply Z.div_exact; [lia|]. by rewrite Zminus_mod, Ha, Hp.
Qed.

Definition heap_pages : list Z := page_range_inclusive HEAP_START (HEAP_START + HEAP_SIZE - 4096).

Lemma zlen_heap_pages : zlen heap_pages = 3840.
Proof.
  unfold zlen, heap_pages, page_range_inclusive. by rewrite length_fmap, length_seqZ.
Qed.

Section heap_laws.
Context `{X86Laws} {M : Type} `{MapperLaws M} {F : Type} `{FrameContract F}.

Lemma init_heap_more (m : M) (f : F) k :
  0 ≤ k → frames_for f (3840 + k) → Forall (λ p, page_map m !! p = None ∧ ¬ huge m p) heap_pages →
  ∃ m' f', init_heap BumpAllocator.new m f = Ret (inr (), kernel_heap, m', f') ∧
    (∀ p, p ∈ heap_pages → ∃ fr, page_map m' !! p = Some (fr, Z.lor PRESENT WRITABLE) ∧ fr ∈ fa_frames f) ∧
    (∀ p, p ∉ heap_pages → page_map m' !! p = page_map m !! p) ∧
    frames_for f' k ∧ (∀ q, huge m' q → huge m q).
Proof.
  intros Hk Hf Hfr. unfold init_heap.
  rewrite virt_new_ok, bind_Ret by (left; by split).
  rewrite virt_add_ok, bind_Ret by (done || (left; by split)).
  rewrite virt_sub_ok, bind_Ret by (done || (left; by split)).
  rewrite !containing_address_eq by done.
  change (page_range_inclusive _ _) with heap_pages.
  destruct (heap_loop_maps heap_pages m f k) as (m' & f' & Hl & Hin & Hout & _ & Hk' & Hh);
    [apply NoDup_page_range|done|by rewrite zlen_heap_pages|done|].
  rewrite Hl, bind_Ret. by exists m', f'.
Qed.

(** The page of an address of the heap. *)
Lemma heap_page a : HEAP_START ≤ a < HEAP_START + HEAP_SIZE → a - a mod 4096 ∈ heap_pages.
Proof.
  intros Ha. unfold heap_pages. rewrite elem_page_range by done.
  unfold page_aligned. pose proof (Z.div_mod a 4096 ltac:(lia)).
  pose proof (Z.mod_pos_bound a 4096 ltac:(lia)).
  unfold HEAP_START, HEAP_SIZE in *. split; [|lia].
  replace (a - a mod 4096) with (a / 4096 * 4096) by lia. apply Z.mod_mul. lia.
Qed.
End heap_laws.

(** C19: On a machine with frames for the heap and its page tables, and nothing
    mapped there, [init_heap] succeeds: every address of the heap lies in a
    page mapped present and writable to a frame of the frame allocator, no
    mapping elsewhere changes, and the global allocator is left in the state
    the theorems on the heap start from. *)
Theorem init_heap_maps_heap `{X86Laws} {M} `{MapperLaws M} {F} `{FrameContract F} (m : M) (f : F) :
  frames_for f 3840 →
  Forall (λ p, page_map m !! p = None ∧ ¬ huge m p) heap_pages →
  returns (init_heap BumpAllocator.new m f) (λ '(r, b, m', f'),
    r = inr () ∧ b = kernel_heap ∧
    (∀ a, HEAP_START ≤ a < HEAP_START + HEAP_SIZE →
       ∃ fr, page_map m' !! (a - a mod 4096) = Some (fr, Z.lor PRESENT WRITABLE) ∧
             fr ∈ fa_frames f) ∧
    (∀ p, p ∉ heap_pages → page_map m' !! p = page_map m !! p)).
Proof.
  intros Hf Hfr. destruct (init_heap_more m f 0) as (m' & f' & -> & Hin & Hout & _); [done|by rewrite Z.add_0_r|done|].
  apply returns_Ret. split_and!; [done|done| |done]. intros a Ha. by apply Hin, heap_page.
Qed.

Lemma init_heap_maps_heap_witness :
  let m : gmap Z (Z * Z) := ∅ in
  returns (init_heap (H:=amd64) BumpAllocator.new m sample_frames) (λ '(r, b, m', f'),
    r = inr () ∧ b = kernel_heap ∧
    (∀ a, HEAP_START ≤ a < HEAP_START + HEAP_SIZE →
       ∃ fr, page_map m' !! (a - a mod 4096) =
               Some (fr, Z.lor (PRESENT (X86:=amd64)) (WRITABLE (X86:=amd64))) ∧
             fr ∈ fa_frames sample_frames) ∧
    (∀ p, p ∉ heap_pages → page_map m' !! p = page_map m !! p)).
Proof.
  apply (init_heap_maps_heap (H:=amd64) (H0:=amd64_laws) (∅ : gmap Z (Z * Z)) sample_frames).
  - apply sample_frames_for. split; discriminate.
  - apply Forall_forall. intros p _. destruct (empty_fresh p 1 0) as [Hn Hh]; [by split|].
    rewrite Z.mul_0_r, Z.add_0_r in Hn. split; [exact Hn|intros []].
Defined.
