(* ===== verification/Ustar.v ===== *)
(** * The RAM disk's USTAR archive (kernel/src/drivers/ustar.rs)

    The iterator over the files and the search by name, as the code walks the
    byte slice; a header is seen through [entry_at], and both walks are shown
    to follow the same chain of headers.  Bytes are [Z] values below 256;
    [str::from_utf8] is the validator [from_utf8]. *)

From S2P Require Import Prelude.
Open Scope Z_scope.
Open Scope rust_scope.

(** ** [core::str::from_utf8]

    The automaton of well-formed UTF-8: [expect] is the ranges the next bytes
    of the current character must be in. *)

Definition cont : Z * Z := (0x80, 0xBF).

Definition utf8_start (b : Z) : option (list (Z * Z)) :=
  if b <? 0x80 then Some []
  else if b <? 0xC2 then None
  else if b <? 0xE0 then Some [cont]
  else if b =? 0xE0 then Some [(0xA0, 0xBF); cont]
  else if b =? 0xED then Some [(0x80, 0x9F); cont]
  else if b <? 0xF0 then Some [cont; cont]
  else if b =? 0xF0 then Some [(0x90, 0xBF); cont; cont]
  else if b <? 0xF4 then Some [cont; cont; cont]
  else if b =? 0xF4 then Some [(0x80, 0x8F); cont; cont]
  else None.

Fixpoint utf8_from (expect : list (Z * Z)) (bs : list Z) : bool :=
  match bs, expect with
  | [], [] => true
  | [], _ :: _ => false
  | b :: bs, (lo, hi) :: expect => (lo <=? b) && (b <=? hi) && utf8_from expect bs
  | b :: bs, [] => match utf8_start b with Some e => utf8_from e bs | None => false end
  end.

(** A [&str] is the bytes it was checked to be. *)
Definition from_utf8 (bs : list Z) : option (list Z) :=
  if utf8_from [] bs then Some bs else None.

(** ** Files *)

Definition BLOCK_SIZE : Z := 512.
Definition USTAR_SIGNATURE_OFFSET : Z := 257.
Definition FILE_SIZE_OFFSET : Z := 0x7c.
Definition FILE_SIZE_LENGTH : Z := 11.
Definition HEADER_SIZE : Z := 512.

(** [b"ustar"]. *)
Definition SIGNATURE : list Z := [0x75; 0x73; 0x74; 0x61; 0x72].

Record USTarFile : Type := mkFile {
  filename : list Z;
  data : list Z;
  size : Z;
}.

Definition get_size (f : USTarFile) : Z := size f.
Definition get_name (f : USTarFile) : list Z := filename f.
Definition read_all (f : USTarFile) : list Z := data f.

Definition read (f : USTarFile) (offset bytes : Z) : outcome (list Z) :=
  e ← offset +[64] bytes; slice (data f) offset e.

Definition read_to_end (f : USTarFile) (offset : Z) : outcome (list Z) :=
  e ← get_size f -[64] 1; slice (data f) offset e.

(** [u8::is_ascii_digit]. *)
Definition is_ascii_digit (b : Z) : bool := (0x30 <=? b) && (b <=? 0x39).

Fixpoint oct_loop (result : Z) (octal_bytes : list Z) : outcome Z :=
  match octal_bytes with
  | [] => Ret result
  | byte :: bytes =>
      if is_ascii_digit byte then
        r ← result *[64] 8;
        d ← byte -[8] 0x30;
        r ← r +[64] d;
        oct_loop r bytes
      else Ret result
  end.
Definition oct2bin (octal_bytes : list Z) : outcome Z := oct_loop 0 octal_bytes.

(** ** The iterator *)

Record USTarFileIterator : Type := mkIter { idata : list Z; ptr : Z }.

Definition next (it : USTarFileIterator) : outcome (option USTarFile * USTarFileIterator) :=
  let d := idata it in
  let p := ptr it in
  if zlen d <=? p then Ret (None, it) else
  h ← p +[64] HEADER_SIZE;
  if zlen d <? h then Ret (None, it) else
  s0 ← p +[64] USTAR_SIGNATURE_OFFSET;
  s1 ← s0 +[64] 5;
  if zlen d <? s1 then Ret (None, it) else
  signature ← slice d s0 s1;
  if negb (bool_decide (signature = SIGNATURE)) then Ret (None, it) else
  f0 ← p +[64] FILE_SIZE_OFFSET;
  f1 ← f0 +[64] FILE_SIZE_LENGTH;
  match get_slice d f0 f1 with
  | None => Ret (None, it)
  | Some size_slice =>
      filesize ← oct2bin size_slice;
      n1 ← p +[64] 100;
      name_field ← slice d p n1;
      let name_len := default 100 (position (λ b, b =? 0) name_field) in
      name_slice ← slice name_field 0 name_len;
      data_start ← p +[64] HEADER_SIZE;
      data_end ← data_start +[64] filesize;
      if zlen d <? data_end then Ret (None, it) else
      file_data ← slice d data_start data_end;
      match from_utf8 name_slice with
      | None => Ret (None, mkIter d (zlen d))
      | Some name =>
          blocks_needed ← (if filesize =? 0 then Ret 0 else
                             t ← filesize +[64] BLOCK_SIZE;
                             t ← t -[64] 1;
                             Ret (t / BLOCK_SIZE));
          t ← blocks_needed +[64] 1;
          t ← t *[64] BLOCK_SIZE;
          match checked_opt 64 (p + t) with
          | Some next_ptr => Ret (Some (mkFile name file_data filesize), mkIter d next_ptr)
          | None => Ret (Some (mkFile name file_data filesize), mkIter d (zlen d))
          end
      end
  end.

(** A [for] loop over the iterator. *)
Fixpoint collect (fuel : nat) (it : USTarFileIterator) : outcome (list USTarFile) :=
  match fuel with
  | O => OutOfFuel
  | S fuel =>
      '(o, it) ← next it;
      match o with
      | None => Ret []
      | Some f => fs ← collect fuel it; Ret (f :: fs)
      end
  end.

Definition files (d : list Z) : USTarFileIterator := mkIter d 0.

(** ** The search by name *)

Fixpoint read_file_loop (fuel : nat) (d name : list Z) (p : Z) : outcome (option USTarFile) :=
  match fuel with
  | O => OutOfFuel
  | S fuel =>
      h ← p +[64] HEADER_SIZE;
      if negb (h <=? zlen d) then Ret None else
      s0 ← p +[64] USTAR_SIGNATURE_OFFSET;
      s1 ← s0 +[64] 5;
      signature ← slice d s0 s1;
      if negb (bool_decide (signature = SIGNATURE)) then Ret None else
      f0 ← p +[64] FILE_SIZE_OFFSET;
      f1 ← f0 +[64] FILE_SIZE_LENGTH;
      match get_slice d f0 f1 with
      | None => Ret None
      | Some size_slice =>
          filesize ← oct2bin size_slice;
          n1 ← p +[64] 100;
          name_field ← slice d p n1;
          let name_len := default 100 (position (λ b, b =? 0) name_field) in
          header_name ← slice name_field 0 name_len;
          found ← (if bool_decide (header_name = name) then
                     data_start ← p +[64] HEADER_SIZE;
                     data_end ← data_start +[64] filesize;
                     if data_end <=? zlen d then
                       file_data ← slice d data_start data_end;
                       n ← unwrap (from_utf8 header_name);
                       Ret (Some (mkFile n file_data filesize))
                     else Ret None
                   else Ret None);
          match found with
          | Some f => Ret (Some f)
          | None =>
              blocks_needed ← (if filesize =? 0 then Ret 0 else
                                 t ← filesize +[64] BLOCK_SIZE;
                                 t ← t -[64] 1;
                                 Ret (t / BLOCK_SIZE));
              t ← blocks_needed +[64] 1;
              t ← t *[64] BLOCK_SIZE;
              match checked_opt 64 (p + t) with
              | None => Ret None
              | Some next_ptr =>
                  if zlen d <? next_ptr then Ret None
                  else read_file_loop fuel d name next_ptr
              end
          end
      end
  end.

(** Each round moves [HEADER_SIZE] bytes at least. *)
Definition walk_fuel (d : list Z) : nat := S (length d).

Definition read_file (d name : list Z) : outcome (option USTarFile) :=
  read_file_loop (walk_fuel d) d name 0.

(** ** The header behind a position *)

Fixpoint until_zero (bs : list Z) : list Z :=
  match bs with [] => [] | b :: bs => if b =? 0 then [] else b :: until_zero bs end.

Fixpoint octal (acc : Z) (bs : list Z) : Z :=
  match bs with
  | [] => acc
  | b :: bs => if is_ascii_digit b then octal (acc * 8 + (b - 0x30)) bs else acc
  end.

(** Name and size of the header at the start of [rest]. *)
Definition entry_at (rest : list Z) : option (list Z * Z) :=
  if (HEADER_SIZE <=? zlen rest) && bool_decide (sub_list rest 257 262 = SIGNATURE)
  then Some (until_zero (sub_list rest 0 100), octal 0 (sub_list rest 124 135))
  else None.

(** The distance to the next header. *)
Definition stride (sz : Z) : Z := (div_ceil sz 512 + 1) * 512.

Lemma octal_bound acc bs :
  0 ≤ acc → acc ≤ octal acc bs ∧ octal acc bs < (acc + 2) * 8 ^ zlen bs.
Proof.
  revert acc. induction bs as [|b bs IH]; intros acc Hacc.
  { simpl. change (8 ^ zlen []) with 1. lia. }
  rewrite zlen_cons, Z.pow_add_r, Z.pow_1_r by (lia || apply zlen_nonneg).
  pose proof (zlen_nonneg bs). pose proof (Z.pow_pos_nonneg 8 (zlen bs)). simpl.
  unfold is_ascii_digit. split_guard; [|nia]. apply andb_true_iff in Heqb0 as [?%Z.leb_le ?%Z.leb_le].
  destruct (IH (acc * 8 + (b - 48))) as [? Hlt]; [lia|]. split; [lia|]. nia.
Qed.

Lemma oct_loop_octal acc bs :
  0 ≤ acc → (acc + 2) * 8 ^ zlen bs ≤ 2 ^ 64 → oct_loop acc bs = Ret (octal acc bs).
Proof.
  revert acc. induction bs as [|b bs IH]; intros acc Hacc Hb; [done|].
  rewrite zlen_cons, Z.pow_add_r, Z.pow_1_r in Hb by (lia || apply zlen_nonneg).
  pose proof (zlen_nonneg bs). pose proof (Z.pow_pos_nonneg 8 (zlen bs)). cbn [oct_loop octal].
  unfold is_ascii_digit. split_guard; [|done].
  apply andb_true_iff in Heqb0 as [?%Z.leb_le ?%Z.leb_le].
  do 3 checked_step.
  apply IH; nia.
Qed.

Lemma until_zero_slice bs :
  slice bs 0 (default (zlen bs) (position (λ b, b =? 0) bs)) = Ret (until_zero bs).
Proof.
  assert (Hg : 0 ≤ default (zlen bs) (position (λ b, b =? 0) bs) ≤ zlen bs ∧
    sub_list bs 0 (default (zlen bs) (position (λ b, b =? 0) bs)) = until_zero bs).
  { unfold sub_list. rewrite Z.sub_0_r. simpl. rewrite drop_0.
    induction bs as [|b bs [Hr IH]]; [done|]. rewrite zlen_cons. simpl.
    pose proof (zlen_nonneg bs). destruct (b =? 0); [simpl; split; [lia|done]|].
    destruct (position _ bs) as [k|]; simpl in *.
    - split; [lia|]. rewrite Z2Nat.inj_succ by lia. simpl. by rewrite IH.
    - split; [lia|]. replace (Z.to_nat (1 + zlen bs)) with (S (Z.to_nat (zlen bs))) by lia.
      simpl. by rewrite IH. }
  destruct Hg as [Hr <-]. apply slice_ok; lia.
Qed.

Lemma sub_list_drop {A} (l : list A) p a b :
  0 ≤ p → 0 ≤ a → sub_list l (p + a) (p + b) = sub_list (drop (Z.to_nat p) l) a b.
Proof. intros. unfold sub_list. rewrite drop_drop. f_equal; [lia|]. f_equal. lia. Qed.

Lemma zlen_drop {A} (l : list A) p : 0 ≤ p ≤ zlen l → zlen (drop (Z.to_nat p) l) = zlen l - p.
Proof. unfold zlen. rewrite length_drop. lia. Qed.

(** ** The two walks, header by header *)

Lemma entry_at_inv rest nm sz :
  entry_at rest = Some (nm, sz) → 512 ≤ zlen rest ∧ 0 ≤ sz < 2 ^ 34.
Proof.
  unfold entry_at, HEADER_SIZE. split_guard; [|done]. intros [= <- <-].
  apply andb_true_iff in Heqb as [Hle%Z.leb_le _]. split; [done|].
  destruct (octal_bound 0 (sub_list rest 124 135)) as [H0 H1]; [done|].
  rewrite zlen_sub_list in H1 by lia. change (2 ^ 34) with ((0 + 2) * 8 ^ (135 - 124)). lia.
Qed.

(** What both walks compute between the signature and the name. *)
Lemma header_steps {B} d p (k : Z → list Z → outcome B) (none : outcome B) :
  0 ≤ p → p + 512 ≤ zlen d → zlen d < 2 ^ 63 →
  (f0 ← p +[64] FILE_SIZE_OFFSET;
   f1 ← f0 +[64] FILE_SIZE_LENGTH;
   match get_slice d f0 f1 with
   | None => none
   | Some size_slice =>
       filesize ← oct2bin size_slice;
       n1 ← p +[64] 100;
       name_field ← slice d p n1;
       let name_len := default 100 (position (λ b, b =? 0) name_field) in
       name ← slice name_field 0 name_len;
       k filesize name
   end) =
  k (octal 0 (sub_list (drop (Z.to_nat p) d) 124 135))
    (until_zero (sub_list (drop (Z.to_nat p) d) 0 100)).
Proof.
  intros Hp Hd Hlen. unfold FILE_SIZE_OFFSET, FILE_SIZE_LENGTH. do 2 checked_step.
  rewrite get_slice_ok by lia.
  replace (p + 124 + 11) with (p + 135) by lia. rewrite sub_list_drop by lia.
  set (rest := drop _ d). assert (Hr : 512 ≤ zlen rest) by (unfold rest; rewrite zlen_drop; lia).
  unfold oct2bin. rewrite oct_loop_octal, bind_Ret.
  2: done.
  2: { rewrite zlen_sub_list by lia. discriminate. }
  checked_step. rewrite slice_ok, bind_Ret by lia.
  assert (Hnf : sub_list d p (p + 100) = sub_list rest 0 100).
  { unfold rest. rewrite <- sub_list_drop by lia. by rewrite Z.add_0_r. }
  rewrite Hnf. set (name_field := sub_list rest 0 100).
  assert (Hz : zlen name_field = 100) by (unfold name_field; rewrite zlen_sub_list; lia).
  cbv zeta. rewrite <- Hz. by rewrite until_zero_slice, bind_Ret.
Qed.

Lemma signature_step (d : list Z) p :
  0 ≤ p → p + 512 ≤ zlen d →
  slice d (p + 257) (p + 257 + 5) =
    Ret (sub_list (drop (Z.to_nat p) d) 257 262).
Proof.
  intros Hp Hd. rewrite slice_ok by lia.
  rewrite <- Z.add_assoc. by rewrite sub_list_drop by lia.
Qed.

Lemma blocks_step {B} sz (k : Z → outcome B) :
  0 ≤ sz < 2 ^ 34 →
  (blocks_needed ← (if sz =? 0 then Ret 0 else
                      t ← sz +[64] BLOCK_SIZE;
                      t ← t -[64] 1;
                      Ret (t / BLOCK_SIZE));
   t ← blocks_needed +[64] 1;
   t ← t *[64] BLOCK_SIZE;
   k t) = k (stride sz).
Proof.
  intros Hsz. unfold BLOCK_SIZE, stride, div_ceil.
  pose proof (Z.div_mod (sz + 512 - 1) 512 ltac:(lia)).
  pose proof (Z.mod_pos_bound (sz + 512 - 1) 512 ltac:(lia)).
  destruct (Z.eqb_spec sz 0) as [->|].
  - rewrite bind_Ret. do 2 checked_step. done.
  - assert (Hb : (t ← sz +[64] 512; t ← t -[64] 1; Ret (t / 512)) = Ret ((sz + 512 - 1) / 512)).
    { do 2 checked_step. done. }
    rewrite Hb, bind_Ret. do 2 checked_step. done.
Qed.

Lemma stride_bounds sz : 0 ≤ sz < 2 ^ 34 → 512 + sz ≤ stride sz < 1024 + sz.
Proof.
  intros Hsz. unfold stride, div_ceil.
  pose proof (Z.div_mod (sz + 512 - 1) 512 ltac:(lia)).
  pose proof (Z.mod_pos_bound (sz + 512 - 1) 512 ltac:(lia)). lia.
Qed.

(** One call of the iterator. *)
Lemma next_spec d p :
  zlen d < 2 ^ 63 → 0 ≤ p ≤ zlen d + 1024 →
  let rest := drop (Z.to_nat p) d in
  next (mkIter d p) = Ret
    match entry_at rest with
    | None => (None, mkIter d p)
    | Some (nm, sz) =>
        if 512 + sz <=? zlen rest then
          if utf8_from [] nm
          then (Some (mkFile nm (sub_list rest 512 (512 + sz)) sz), mkIter d (p + stride sz))
          else (None, mkIter d (zlen d))
        else (None, mkIter d p)
    end.
Proof.
  intros Hlen Hp rest. unfold next, HEADER_SIZE, USTAR_SIGNATURE_OFFSET. cbn [idata ptr].
  destruct (Z.leb_spec (zlen d) p) as [Hend|Hend].
  { assert (Hr : rest = []) by (apply drop_ge; unfold zlen in Hend; lia). rewrite Hr. done. }
  checked_step.
  assert (Hzr : zlen rest = zlen d - p) by (apply zlen_drop; lia).
  destruct (Z.ltb_spec (zlen d) (p + 512)) as [Hh|Hh].
  { unfold entry_at, HEADER_SIZE. rewrite (proj2 (Z.leb_gt _ _)) by lia. done. }
  do 2 checked_step.
  rewrite (proj2 (Z.ltb_ge _ _)) by lia.
  rewrite signature_step, bind_Ret by lia. fold rest.
  destruct (entry_at rest) as [[nm sz]|] eqn:He.
  2: { unfold entry_at, HEADER_SIZE in He. rewrite (proj2 (Z.leb_le _ _)) in He by lia. simpl in He.
       by destruct (bool_decide _). }
  pose proof (entry_at_inv _ _ _ He) as [_ Hsz].
  unfold entry_at, HEADER_SIZE in He. rewrite (proj2 (Z.leb_le _ _)) in He by lia. simpl in He.
  destruct (bool_decide (sub_list rest 257 262 = SIGNATURE)); [|done]. injection He as Hnm Hsz'.
  simpl negb. cbv iota. rewrite header_steps by lia. fold rest. rewrite Hnm, Hsz'.
  rewrite bind_Ret. checked_step. rewrite Hzr.
  replace (512 + sz <=? zlen d - p) with (negb (zlen d <? p + 512 + sz)) by lia.
  destruct (Z.ltb_spec (zlen d) (p + 512 + sz)) as [Hbig|Hbig]; [done|]. simpl negb. cbv iota.
  rewrite slice_ok, bind_Ret by lia. rewrite <- Z.add_assoc, sub_list_drop by lia. fold rest.
  unfold from_utf8. destruct (utf8_from [] nm); [|done].
  rewrite blocks_step by done. pose proof (stride_bounds sz Hsz).
  by rewrite (proj2 (checked_opt_Some 64 (p + stride sz) _)) by (unfold in_width; split; [done|lia]).
Qed.

(** One round of the search. *)
Lemma read_file_loop_spec fuel d name p :
  zlen d < 2 ^ 63 → 0 ≤ p ≤ zlen d → utf8_from [] name = true →
  let rest := drop (Z.to_nat p) d in
  read_file_loop (S fuel) d name p =
    match entry_at rest with
    | None => Ret None
    | Some (nm, sz) =>
        if bool_decide (nm = name) && (512 + sz <=? zlen rest)
        then Ret (Some (mkFile nm (sub_list rest 512 (512 + sz)) sz))
        else if zlen rest <? stride sz then Ret None
        else read_file_loop fuel d name (p + stride sz)
    end.
Proof.
  intros Hlen Hp Hname rest. cbn [read_file_loop].
  unfold HEADER_SIZE, USTAR_SIGNATURE_OFFSET.
  assert (Hzr : zlen rest = zlen d - p) by (apply zlen_drop; lia).
  checked_step.
  destruct (Z.leb_spec (p + 512) (zlen d)) as [Hh|Hh].
  2: { unfold entry_at, HEADER_SIZE. rewrite (proj2 (Z.leb_gt 512 (zlen rest))) by lia. done. }
  simpl negb. cbv iota. do 2 checked_step.
  rewrite signature_step, bind_Ret by lia. fold rest.
  destruct (entry_at rest) as [[nm sz]|] eqn:He.
  2: { unfold entry_at, HEADER_SIZE in He. rewrite (proj2 (Z.leb_le _ _)) in He by lia. simpl in He.
       by destruct (bool_decide _). }
  pose proof (entry_at_inv _ _ _ He) as [_ Hsz].
  unfold entry_at, HEADER_SIZE in He. rewrite (proj2 (Z.leb_le _ _)) in He by lia. simpl in He.
  destruct (bool_decide (sub_list rest 257 262 = SIGNATURE)); [|done]. injection He as Hnm Hsz'.
  simpl negb. cbv iota. rewrite header_steps by lia. fold rest. rewrite Hnm, Hsz'.
  pose proof (stride_bounds sz Hsz).
  assert (Htail : (zlen rest <? stride sz) = (zlen d <? p + stride sz))
    by (apply eq_true_iff_eq; rewrite !Z.ltb_lt; lia).
  rewrite Htail.
  destruct (bool_decide_reflect (nm = name)) as [->|Hne].
  - rewrite bind_Ret. checked_step.
    replace (p + 512 + sz <=? zlen d) with (512 + sz <=? zlen rest)
      by (apply eq_true_iff_eq; rewrite !Z.leb_le; lia).
    destruct (Z.leb_spec (512 + sz) (zlen rest)) as [Hfit|Hfit]; simpl andb; cbv iota.
    + rewrite slice_ok, bind_Ret by lia. rewrite <- Z.add_assoc, sub_list_drop by lia. fold rest.
      unfold from_utf8. by rewrite Hname.
    + rewrite bind_Ret. rewrite blocks_step by done.
      by rewrite (proj2 (checked_opt_Some 64 (p + stride sz) _)) by (unfold in_width; split; [done|lia]).
  - simpl andb. cbv iota. rewrite bind_Ret, blocks_step by done.
    by rewrite (proj2 (checked_opt_Some 64 (p + stride sz) _)) by (unfold in_width; split; [done|lia]).
Qed.

(** ** What the walks return *)

Definition file_at (rest nm : list Z) (sz : Z) : USTarFile :=
  mkFile nm (sub_list rest 512 (512 + sz)) sz.

Fixpoint listing (fuel : nat) (rest : list Z) : list USTarFile :=
  match fuel with
  | O => []
  | S fuel =>
      match entry_at rest with
      | Some (nm, sz) =>
          if (512 + sz <=? zlen rest) && utf8_from [] nm
          then file_at rest nm sz :: listing fuel (drop (Z.to_nat (stride sz)) rest)
          else []
      | None => []
      end
  end.

Fixpoint search (fuel : nat) (name rest : list Z) : option USTarFile :=
  match fuel with
  | O => None
  | S fuel =>
      match entry_at rest with
      | Some (nm, sz) =>
          if bool_decide (nm = name) && (512 + sz <=? zlen rest) then Some (file_at rest nm sz)
          else if zlen rest <? stride sz then None
          else search fuel name (drop (Z.to_nat (stride sz)) rest)
      | None => None
      end
  end.

Lemma drop_stride (d : list Z) p s :
  0 ≤ p → 0 ≤ s → drop (Z.to_nat (p + s)) d = drop (Z.to_nat s) (drop (Z.to_nat p) d).
Proof. intros. rewrite drop_drop. f_equal. lia. Qed.

Lemma collect_listing fuel d p :
  zlen d < 2 ^ 63 → 0 ≤ p ≤ zlen d + 1024 → (length (drop (Z.to_nat p) d) < fuel)%nat →
  collect fuel (mkIter d p) = Ret (listing fuel (drop (Z.to_nat p) d)).
Proof.
  revert p. induction fuel as [|fuel IH]; intros p Hlen Hp Hfuel; [lia|].
  cbn [collect listing]. rewrite next_spec, bind_Ret by done.
  destruct (entry_at _) as [[nm sz]|] eqn:He; [|done].
  destruct (entry_at_inv _ _ _ He) as [H512 Hsz]. pose proof (stride_bounds sz Hsz).
  destruct (Z.leb_spec (512 + sz) (zlen (drop (Z.to_nat p) d))) as [Hfit|]; [|done].
  destruct (utf8_from [] nm); [|done]. simpl andb. cbv iota.
  assert (Hzr : zlen (drop (Z.to_nat p) d) = zlen d - p).
  { apply zlen_drop. unfold zlen in *. rewrite length_drop in *. lia. }
  rewrite IH, bind_Ret, drop_stride by
    (lia || (rewrite drop_stride, length_drop by lia; unfold zlen in *; lia)).
  done.
Qed.

Lemma read_file_search fuel d name p :
  zlen d < 2 ^ 63 → 0 ≤ p ≤ zlen d → utf8_from [] name = true →
  (length (drop (Z.to_nat p) d) < fuel)%nat →
  read_file_loop fuel d name p = Ret (search fuel name (drop (Z.to_nat p) d)).
Proof.
  revert p. induction fuel as [|fuel IH]; intros p Hlen Hp Hname Hfuel; [lia|].
  rewrite read_file_loop_spec by done. cbn [search].
  destruct (entry_at _) as [[nm sz]|] eqn:He; [|done].
  destruct (entry_at_inv _ _ _ He) as [H512 Hsz]. pose proof (stride_bounds sz Hsz).
  destruct (_ && _); [done|]. assert (Hzr := zlen_drop d p Hp).
  destruct (Z.ltb_spec (zlen (drop (Z.to_nat p) d)) (stride sz)); [done|].
  rewrite IH, drop_stride by
    (done || lia || (rewrite drop_stride, length_drop by lia; unfold zlen in *; lia)).
  done.
Qed.

(** A file is a range of the archive with a valid name. *)
Definition file_ok (d : list Z) (f : USTarFile) : Prop :=
  utf8_from [] (filename f) = true ∧ zlen (data f) = size f ∧
  ∃ p, 512 ≤ p ∧ p + size f ≤ zlen d ∧ data f = sub_list d p (p + size f).

Lemma file_at_ok (d : list Z) p nm sz :
  0 ≤ p ≤ zlen d → 0 ≤ sz → 512 + sz ≤ zlen (drop (Z.to_nat p) d) → utf8_from [] nm = true →
  file_ok d (file_at (drop (Z.to_nat p) d) nm sz).
Proof.
  intros Hp Hsz Hfit Hnm. pose proof (zlen_drop d p Hp). split; [done|]. simpl. split.
  - rewrite zlen_sub_list; lia.
  - exists (p + 512). split_and!; [lia|lia|].
    rewrite <- Z.add_assoc, sub_list_drop by lia. done.
Qed.

Lemma listing_ok fuel d p : 0 ≤ p → Forall (file_ok d) (listing fuel (drop (Z.to_nat p) d)).
Proof.
  revert p. induction fuel as [|fuel IH]; intros p Hp; simpl; [done|].
  destruct (entry_at _) as [[nm sz]|] eqn:He; [|done].
  destruct (entry_at_inv _ _ _ He) as [H512 Hsz]. pose proof (stride_bounds sz Hsz).
  destruct (_ && _) eqn:Hb; [|done]. apply andb_true_iff in Hb as [Hfit%Z.leb_le Hnm].
  assert (p ≤ zlen d) by (unfold zlen in *; rewrite length_drop in *; lia).
  constructor; [by apply file_at_ok; try lia|]. rewrite <- drop_stride by lia. apply IH. lia.
Qed.

Lemma search_ok fuel name d p f :
  0 ≤ p → utf8_from [] name = true →
  search fuel name (drop (Z.to_nat p) d) = Some f → file_ok d f ∧ filename f = name.
Proof.
  revert p. induction fuel as [|fuel IH]; intros p Hp Hname; simpl; [done|].
  destruct (entry_at _) as [[nm sz]|] eqn:He; [|done].
  destruct (entry_at_inv _ _ _ He) as [H512 Hsz]. pose proof (stride_bounds sz Hsz).
  assert (p ≤ zlen d) by (unfold zlen in *; rewrite length_drop in *; lia).
  destruct (_ && _) eqn:Hb.
  { apply andb_true_iff in Hb as [->%bool_decide_eq_true Hfit%Z.leb_le].
    intros [= <-]. split; [by apply file_at_ok; try lia|done]. }
  split_guard; [done|]. rewrite <- drop_stride by lia. apply IH; [lia|done].
Qed.

Lemma listing_search fuel name rest f :
  head (filter (λ f, filename f = name) (listing fuel rest)) = Some f →
  search fuel name rest = Some f.
Proof.
  revert rest. induction fuel as [|fuel IH]; intros rest; simpl; [done|].
  destruct (entry_at rest) as [[nm sz]|] eqn:He; [|done].
  destruct (entry_at_inv _ _ _ He) as [H512 Hsz]. pose proof (stride_bounds sz Hsz).
  destruct (Z.leb_spec (512 + sz) (zlen rest)); simpl; [|done].
  destruct (utf8_from [] nm); [|done]. rewrite andb_true_r, filter_cons. simpl.
  destruct (decide (nm = name)) as [->|Hne].
  { rewrite bool_decide_eq_true_2 by done. by intros [= <-]. }
  rewrite bool_decide_eq_false_2 by done. intros Hh%IH.
  destruct (Z.ltb_spec (zlen rest) (stride sz)) as [Hlt|]; [|done].
  rewrite drop_ge in Hh by (unfold zlen in Hlt; lia).
  exfalso. clear -Hh. by destruct fuel.
Qed.

(** C16: On any slice, whatever its bytes, listing the files and looking up a
    (valid UTF-8) name terminate without a panic, although offsets and sizes
    come from the archive; every file they give has a valid name and its data
    is a range of the archive of exactly its size. *)
Theorem ustar_walks_total (d name : list Z) :
  zlen d < 2 ^ 63 → utf8_from [] name = true →
  returns (collect (walk_fuel d) (files d)) (Forall (file_ok d)) ∧
  returns (read_file d name) (λ o, ∀ f, o = Some f → file_ok d f ∧ filename f = name).
Proof.
  intros Hlen Hname. pose proof (zlen_nonneg d). unfold files, read_file. split.
  - rewrite collect_listing; [|done|lia|unfold walk_fuel; simpl; rewrite drop_0; lia].
    apply returns_Ret, listing_ok. done.
  - rewrite read_file_search; [|done|lia|done|unfold walk_fuel; simpl; rewrite drop_0; lia].
    apply returns_Ret. intros f. by apply search_ok.
Qed.

Lemma ustar_walks_total_witness :
  let d := [1; 2; 3] in
  returns (collect (walk_fuel d) (files d)) (Forall (file_ok d)) ∧
  returns (read_file d [0x61]) (λ o, ∀ f, o = Some f → file_ok d f ∧ filename f = [0x61]).
Proof. exact (ustar_walks_total [1; 2; 3] [0x61] eq_refl eq_refl). Defined.

(** C15: The search agrees with the iterator: the first file of the listing
    with a name is the file [read_file] finds under that name. *)
Theorem read_file_finds_first (d name : list Z) (fs : list USTarFile) (f : USTarFile) :
  zlen d < 2 ^ 63 → collect (walk_fuel d) (files d) = Ret fs →
  head (filter (λ f, filename f = name) fs) = Some f →
  read_file d name = Ret (Some f).
Proof.
  intros Hlen Hfs Hf. pose proof (zlen_nonneg d). unfold files, read_file in *.
  assert (Hfuel : (length (drop (Z.to_nat 0) d) < walk_fuel d)%nat)
    by (unfold walk_fuel; simpl; rewrite drop_0; lia).
  rewrite collect_listing in Hfs by (done || lia). injection Hfs as <-.
  assert (Hname : utf8_from [] name = true).
  { pose proof (listing_ok (walk_fuel d) d 0 ltac:(done)) as Hok. rewrite Forall_forall in Hok.
    apply head_Some_elem_of, list_elem_of_filter in Hf as [<- Hin].
    by apply Hok in Hin as (? & _). }
  rewrite read_file_search by (done || lia). f_equal. by apply listing_search.
Qed.

(** ** An archive, as a [tar] program writes it

    The reference the iterator is checked against: a header of 512 bytes per
    file, the contents padded to 512, two zero blocks at the end. *)

Definition zeros (n : Z) : list Z := replicate (Z.to_nat n) 0.

Fixpoint oct_digits (k : nat) (n : Z) : list Z :=
  match k with
  | O => []
  | S k => oct_digits k (n / 8) ++ [0x30 + n mod 8]
  end.

Definition header (name : list Z) (sz : Z) : list Z :=
  name ++ zeros (100 - zlen name) ++ zeros 24 ++ oct_digits 11 sz ++ zeros 122 ++
  SIGNATURE ++ zeros 250.

Definition encode (e : list Z * list Z) : list Z :=
  header e.1 (zlen e.2) ++ e.2 ++ zeros (stride (zlen e.2) - 512 - zlen e.2).

Definition archive (es : list (list Z * list Z)) : list Z := (es ≫= encode) ++ zeros 1024.

(** A name the header can hold, contents whose size eleven octal digits hold. *)
Definition entry_ok (e : list Z * list Z) : Prop :=
  utf8_from [] e.1 = true ∧ Forall (λ b, b ≠ 0) e.1 ∧ zlen e.1 ≤ 100 ∧ zlen e.2 < 8 ^ 11.

Definition entry_file (e : list Z * list Z) : USTarFile := mkFile e.1 e.2 (zlen e.2).

Lemma sub_list_middle {A} (l1 l2 l3 : list A) a b :
  a = zlen l1 → b = zlen l1 + zlen l2 → sub_list (l1 ++ l2 ++ l3) a b = l2.
Proof.
  intros -> ->. pose proof (zlen_nonneg l1). pose proof (zlen_nonneg l2).
  rewrite sub_list_app_r by lia. rewrite sub_list_app_l by lia.
  rewrite Z.sub_diag, Z.add_simpl_l. apply sub_list_full.
Qed.

Lemma zlen_zeros n : 0 ≤ n → zlen (zeros n) = n.
Proof. intros. unfold zlen, zeros. rewrite length_replicate. lia. Qed.

Lemma zlen_oct_digits k n : zlen (oct_digits k n) = Z.of_nat k.
Proof.
  revert n. induction k as [|k IH]; intros n; [done|]. simpl. rewrite zlen_app, IH.
  change (zlen _) with 1 at 1. lia.
Qed.

Lemma octal_digits k acc n tl :
  octal acc (oct_digits k n ++ tl) = octal (acc * 8 ^ Z.of_nat k + n mod 8 ^ Z.of_nat k) tl.
Proof.
  revert acc n tl. induction k as [|k IH]; intros acc n tl.
  { simpl. f_equal. rewrite Z.mod_1_r. lia. }
  cbn [oct_digits]. rewrite <- app_assoc, IH. simpl app. cbn [octal].
  pose proof (Z.mod_pos_bound n 8 ltac:(lia)). unfold is_ascii_digit.
  rewrite (proj2 (Z.leb_le 48 _)), (proj2 (Z.leb_le _ 57)) by lia. simpl andb. cbv iota.
  f_equal. rewrite Nat2Z.inj_succ, Z.pow_succ_r by lia.
  rewrite (Z.rem_mul_r n 8) by (lia || apply Z.pow_pos_nonneg; lia). lia.
Qed.

Lemma until_zero_app l tl : Forall (λ b, b ≠ 0) l → until_zero (l ++ 0 :: tl) = l.
Proof.
  induction 1 as [|b l Hb Hl IH]; simpl; [done|]. rewrite IH.
  by rewrite (proj2 (Z.eqb_neq _ _)).
Qed.

Lemma until_zero_all l : Forall (λ b, b ≠ 0) l → until_zero l = l.
Proof.
  induction 1 as [|b l Hb Hl IH]; simpl; [done|]. rewrite IH. by rewrite (proj2 (Z.eqb_neq _ _)).
Qed.

Lemma zlen_header name sz : zlen name ≤ 100 → zlen (header name sz) = 512.
Proof.
  intros Hn. unfold header. rewrite !zlen_app, zlen_oct_digits, !zlen_zeros by lia.
  change (zlen SIGNATURE) with 5. lia.
Qed.

Lemma entry_at_header name sz tl :
  Forall (λ b, b ≠ 0) name → zlen name ≤ 100 → 0 ≤ sz < 8 ^ 11 →
  entry_at (header name sz ++ tl) = Some (name, sz).
Proof.
  intros Hname Hn Hsz. unfold entry_at, HEADER_SIZE. rewrite zlen_app, zlen_header by done.
  pose proof (zlen_nonneg tl). pose proof (zlen_nonneg name).
  rewrite (proj2 (Z.leb_le _ _)) by lia. simpl andb.
  assert (Hf : zlen (name ++ zeros (100 - zlen name)) = 100)
    by (rewrite zlen_app, zlen_zeros by lia; lia).
  assert (Hs : sub_list (header name sz ++ tl) 257 262 = SIGNATURE).
  { unfold header. rewrite <- !app_assoc.
    rewrite (app_assoc name), (app_assoc (_ ++ _)), (app_assoc (_ ++ _)), (app_assoc (_ ++ _)).
    apply sub_list_middle; rewrite !zlen_app, zlen_oct_digits, !zlen_zeros by lia;
      change (zlen SIGNATURE) with 5; lia. }
  rewrite Hs, bool_decide_eq_true_2 by done. f_equal. f_equal.
  - unfold header. rewrite <- !app_assoc. rewrite (app_assoc name).
    match goal with |- until_zero (sub_list ?l _ _) = _ => change l with ([] ++ l) end.
    rewrite (sub_list_middle [] (name ++ zeros (100 - zlen name))); [|done|by rewrite Hf].
    destruct (decide (zlen name = 100)) as [->|].
    { rewrite app_nil_r. by apply until_zero_all. }
    unfold zeros. replace (Z.to_nat (100 - zlen name)) with (S (Z.to_nat (99 - zlen name))) by lia.
    by apply until_zero_app.
  - unfold header. rewrite <- !app_assoc. rewrite (app_assoc name), (app_assoc (_ ++ _)).
    rewrite (sub_list_middle _ (oct_digits 11 sz));
      [|rewrite !zlen_app, !zlen_zeros by lia; lia
       |rewrite !zlen_app, zlen_oct_digits, !zlen_zeros by lia; lia].
    rewrite <- (app_nil_r (oct_digits 11 sz)), octal_digits. simpl octal.
    change (Z.of_nat 11) with 11. rewrite Z.mod_small by done. lia.
Qed.

Lemma zlen_encode e : entry_ok e → zlen (encode e) = stride (zlen e.2).
Proof.
  intros (_ & _ & Hn & Hs). unfold encode. rewrite !zlen_app, zlen_header by done.
  pose proof (zlen_nonneg e.2). pose proof (stride_bounds (zlen e.2)).
  rewrite zlen_zeros; lia.
Qed.

Lemma listing_archive fuel es :
  Forall entry_ok es → (length es < fuel)%nat →
  listing fuel (archive es) = entry_file <$> es.
Proof.
  revert fuel. induction es as [|e es IH]; intros fuel Hes Hfuel;
    (destruct fuel as [|fuel]; [lia|]); cbn [listing].
  { change (entry_at (archive [])) with (@None (list Z * Z)). done. }
  apply Forall_cons in Hes as [He Hes]. pose proof He as (Hu & Hz & Hn & Hs).
  assert (Har : archive (e :: es) = encode e ++ archive es).
  { unfold archive. simpl. by rewrite <- app_assoc. }
  pose proof (zlen_nonneg e.2). pose proof (stride_bounds (zlen e.2)).
  rewrite Har. unfold encode. rewrite <- !app_assoc.
  rewrite entry_at_header by (done || split; done).
  rewrite !zlen_app, zlen_header, zlen_zeros by (done || lia).
  pose proof (zlen_nonneg (archive es)). rewrite (proj2 (Z.leb_le _ _)) by lia.
  rewrite Hu. simpl andb. cbv iota. rewrite fmap_cons. f_equal.
  - unfold file_at, entry_file. f_equal. apply sub_list_middle; rewrite zlen_header by done; lia.
  - rewrite <- (IH fuel); [|done|simpl in Hfuel; lia]. f_equal.
    pose proof (zlen_encode e He) as Hl. unfold zlen in Hl at 1.
    rewrite (app_assoc e.2), (app_assoc (header _ _)). fold (encode e).
    apply drop_app_length'. lia.
Qed.

Lemma length_archive es : Forall entry_ok es → (length es ≤ length (archive es))%nat.
Proof.
  induction 1 as [|e es He Hes IH]; [simpl; lia|].
  assert (Har : archive (e :: es) = encode e ++ archive es).
  { unfold archive. simpl. by rewrite <- app_assoc. }
  rewrite Har, length_app. pose proof (zlen_encode e He) as Hl. unfold zlen in Hl at 1.
  pose proof (zlen_nonneg e.2). pose proof (stride_bounds (zlen e.2)).
  destruct He as (_ & _ & _ & ?). simpl. lia.
Qed.

Lemma archive_files es :
  Forall entry_ok es → zlen (archive es) < 2 ^ 63 →
  collect (walk_fuel (archive es)) (files (archive es)) = Ret (entry_file <$> es).
Proof.
  intros Hes Hlen. pose proof (zlen_nonneg (archive es)). pose proof (length_archive es Hes).
  unfold files. rewrite collect_listing; [|done|lia|].
  - change (Z.to_nat 0) with 0%nat. rewrite drop_0. rewrite listing_archive; [done|done|unfold walk_fuel; lia].
  - unfold walk_fuel. simpl. rewrite drop_0. lia.
Qed.

(** Looking up a name gives the first file of the archive that has it. *)
Lemma read_file_archive es name e :
  Forall entry_ok es → zlen (archive es) < 2 ^ 63 → utf8_from [] name = true →
  head (filter (λ e, e.1 = name) es) = Some e → read_file (archive es) name = Ret (Some (entry_file e)).
Proof.
  intros Hes Hlen Hname Hhead. pose proof (zlen_nonneg (archive es)). pose proof (length_archive es Hes).
  unfold read_file.
  rewrite read_file_search; [|done|lia|done|unfold walk_fuel; simpl; rewrite drop_0; lia].
  simpl drop. rewrite drop_0. rewrite (listing_search _ _ _ (entry_file e)); [done|].
  rewrite listing_archive by (done || unfold walk_fuel; lia). clear -Hhead.
  induction es as [|x es IH]; [done|].
  rewrite fmap_cons, !filter_cons in *. cbn [entry_file filename] in *.
  destruct (decide (x.1 = name)); [|by apply IH]. cbn in Hhead |- *. by injection Hhead as ->.
Qed.

Lemma search_archive_none fuel name es :
  Forall entry_ok es → name ∉ es.*1 → search fuel name (archive es) = None.
Proof.
  revert fuel. induction es as [|e es IH]; intros fuel Hes Hn; (destruct fuel as [|fuel]; [done|]); cbn [search].
  { change (entry_at (archive [])) with (@None (list Z * Z)). done. }
  apply Forall_cons in Hes as [He Hes]. rewrite fmap_cons, not_elem_of_cons in Hn. destruct Hn as [Hne Hn].
  pose proof He as (Hu & Hz & Hl & Hs).
  assert (Har : archive (e :: es) = encode e ++ archive es).
  { unfold archive. simpl. by rewrite <- app_assoc. }
  pose proof (zlen_encode e He) as Hlen. pose proof (zlen_nonneg e.2).
  assert (Hent : entry_at (archive (e :: es)) = Some (e.1, zlen e.2)).
  { rewrite Har. unfold encode. rewrite <- !app_assoc. by rewrite entry_at_header by (done || split; done). }
  rewrite Hent, bool_decide_eq_false_2 by congruence. cbn [andb].
  destruct (_ <? _); [done|]. rewrite Har. unfold zlen in Hlen at 1. rewrite drop_app_length' by lia. by apply IH.
Qed.

(** A name that no file of the archive has. *)
Lemma read_file_archive_none es name :
  Forall entry_ok es → zlen (archive es) < 2 ^ 63 → utf8_from [] name = true → name ∉ es.*1 →
  read_file (archive es) name = Ret None.
Proof.
  intros Hes Hlen Hname Hn. pose proof (zlen_nonneg (archive es)). unfold read_file.
  rewrite read_file_search; [|done|lia|done|unfold walk_fuel; simpl; rewrite drop_0; lia].
  simpl drop. by rewrite drop_0, search_archive_none.
Qed.

(** C14: Round trip: of an archive written with any list of files (valid names
    of at most 100 bytes, contents below 8 GiB), the iterator lists exactly
    those files, in order, with their contents and sizes. *)
Theorem archive_round_trip (es : list (list Z * list Z)) :
  Forall entry_ok es → zlen (archive es) < 2 ^ 63 →
  collect (walk_fuel (archive es)) (files (archive es)) = Ret (entry_file <$> es).
Proof. exact (archive_files es). Qed.

Definition sample_entries : list (list Z * list Z) := [([0x61], [1; 2; 3]); ([0x62; 0x63], [])].

Lemma sample_entries_ok : Forall entry_ok sample_entries.
Proof.
  repeat (constructor; [split_and!; [done|by repeat constructor|done|done]|]). constructor.
Qed.

Lemma archive_round_trip_witness :
  collect (walk_fuel (archive sample_entries)) (files (archive sample_entries)) =
    Ret [mkFile [0x61] [1; 2; 3] 3; mkFile [0x62; 0x63] [] 0].
Proof.
  exact (archive_round_trip sample_entries sample_entries_ok ltac:(vm_compute; reflexivity)).
Defined.

Lemma read_file_finds_first_witness :
  read_file (archive sample_entries) [0x62; 0x63] = Ret (Some (mkFile [0x62; 0x63] [] 0)).
Proof.
  apply (read_file_finds_first (archive sample_entries) [0x62; 0x63] (entry_file <$> sample_entries)).
  - vm_compute. reflexivity.
  - apply archive_files; [exact sample_entries_ok|vm_compute; reflexivity].
  - reflexivity.
Defined.

(** [read_to_end] stops one byte short: of a file of [size] bytes it gives
    the bytes from [offset] to the last but one, and on an empty file the
    subtraction [size - 1] panics. *)
Theorem read_to_end_drops_last_byte (f : USTarFile) offset :
  zlen (data f) = size f → size f < 2 ^ 63 → 0 ≤ offset →
  read_to_end f offset =
    if size f =? 0 then Panic ArithmeticOverflow
    else if offset <=? size f - 1 then Ret (sub_list (data f) offset (size f - 1))
    else Panic IndexOutOfBounds.
Proof.
  intros Hsz Hlen Hoff. pose proof (zlen_nonneg (data f)). unfold read_to_end, get_size.
  destruct (Z.eqb_spec (size f) 0) as [->|]; [done|]. checked_step. unfold slice.
  rewrite (proj2 (Z.leb_le (size f - 1) _)) by lia. rewrite andb_true_r. done.
Qed.

Lemma read_to_end_drops_last_byte_witness :
  read_to_end (mkFile [0x61] [7; 8; 9] 3) 0 = Ret [7; 8].
Proof. apply (read_to_end_drops_last_byte (mkFile [0x61] [7; 8; 9] 3) 0); done. Defined.

(** An archive whose first name is not UTF-8: the listing is empty, yet the
    search skips that header and finds the second file. *)
Lemma listing_stops_search_skips :
  let d := archive [([0xff], []); ([0x61], [5])] in
  collect (walk_fuel d) (files d) = Ret [] ∧
  read_file d [0x61] = Ret (Some (mkFile [0x61] [5] 1)).
Proof. vm_compute. done. Qed.
