(* ===== verification/Hardware.v ===== *)
(** * Device registers: an interface, and the monad of the drivers

    Memory-mapped registers ([read_volatile], [write_volatile],
    [volatile_load], [volatile_store]), I/O ports ([in], [out]) and
    model-specific registers are the class [Hardware]: what a register answers and how a write changes the
    machine is outside of the program.  [io H A] is a computation of the kernel
    over such a machine: it threads the machine's state and may panic.

    A memory-mapped register is at a virtual address.  [Mmio] is how an access
    to one gets to the machine: [flat], where every address is mapped, is what
    the theorems on one driver use; [KernelMain] has the accesses that go
    through the page tables, where one to a page that is not mapped is a fault. *)

From S2P Require Import Prelude.
Open Scope Z_scope.

Class Hardware (H : Type) := {
  mmio_read : Z → Z → H → Z * H;           (* width in bytes, address *)
  mmio_write : Z → Z → Z → H → H;
  port_in : Z → Z → H → Z * H;             (* width in bytes, port *)
  port_out : Z → Z → Z → H → H;
  msr_read : Z → H → Z * H;
  msr_write : Z → Z → H → H;
}.

Class Mmio (H : Type) := {
  mmio_load : Z → Z → H → outcome (Z * H);
  mmio_store : Z → Z → Z → H → outcome H;
}.

#[export] Instance flat {H} `{Hardware H} : Mmio H := {
  mmio_load w a h := Ret (mmio_read w a h);
  mmio_store w a v h := Ret (mmio_write w a v h);
}.

Definition io (H A : Type) : Type := H → outcome (A * H).

#[export] Instance io_ret {H} : MRet (io H) := λ A a h, Ret (a, h).
#[export] Instance io_bind {H} : MBind (io H) := λ A B f m h,
  match m h with
  | Ret (a, h) => f a h
  | Panic r => Panic r
  | OutOfFuel => OutOfFuel
  end.

Section io.
Context {H : Type}.

Definition ret {A} (a : A) : io H A := λ h, Ret (a, h).
Definition lift {A} (m : outcome A) : io H A := λ h, a ← m; Ret (a, h).

Lemma io_bind_Ret {A B} (m : io H A) (f : A → io H B) h a h' :
  m h = Ret (a, h') → (m ≫= f) h = f a h'.
Proof. intros Hm. unfold mbind, io_bind. by rewrite Hm. Qed.

Lemma io_bind_ret {A B} (a : A) (f : A → io H B) h : (ret a ≫= f) h = f a h.
Proof. reflexivity. Qed.

Lemma io_bind_lift {A B} (a : A) (f : A → io H B) h : (lift (Ret a) ≫= f) h = f a h.
Proof. reflexivity. Qed.

Lemma io_bind_assoc {A B C} (m : io H A) (f : A → io H B) (g : B → io H C) h :
  ((m ≫= f) ≫= g) h = (m ≫= λ a, f a ≫= g) h.
Proof. unfold mbind, io_bind. by destruct (m h) as [[a h1]| |]. Qed.

(** A computation that ends took each of its steps to an end. *)
Lemma io_bind_inv {A B} (m : io H A) (f : A → io H B) h b h' :
  (m ≫= f) h = Ret (b, h') → ∃ a h1, m h = Ret (a, h1) ∧ f a h1 = Ret (b, h').
Proof. unfold mbind, io_bind. destruct (m h) as [[a h1]| |]; [|done..]. intros E. by exists a, h1. Qed.

Lemma lift_inv {A} (m : outcome A) h a h' : lift m h = Ret (a, h') → m = Ret a ∧ h' = h.
Proof. unfold lift. destruct m; cbn; [|done..]. intros E. by simplify_eq. Qed.

Section mmio.
Context {MM : Mmio H}.
Definition read8 (a : Z) : io H Z := mmio_load 1 a.
Definition read16 (a : Z) : io H Z := mmio_load 2 a.
Definition read32 (a : Z) : io H Z := mmio_load 4 a.
Definition write32 (a v : Z) : io H unit := λ h, h ← mmio_store 4 a v h; Ret ((), h).
End mmio.

Context `{Hardware H}.

Definition in8 (p : Z) : io H Z := λ h, Ret (port_in 1 p h).
Definition in16 (p : Z) : io H Z := λ h, Ret (port_in 2 p h).
Definition in32 (p : Z) : io H Z := λ h, Ret (port_in 4 p h).
Definition out8 (p v : Z) : io H unit := λ h, Ret ((), port_out 1 p v h).
Definition out16 (p v : Z) : io H unit := λ h, Ret ((), port_out 2 p v h).
Definition out32 (p v : Z) : io H unit := λ h, Ret ((), port_out 4 p v h).
Definition rdmsr (r : Z) : io H Z := λ h, Ret (msr_read r h).
Definition wrmsr (r v : Z) : io H unit := λ h, Ret ((), msr_write r v h).
End io.

(** [m] never panics: it ends with a value and a state that satisfy [P]. *)
Definition io_returns {H A} (m : io H A) (h : H) (P : A → H → Prop) : Prop :=
  ∃ a h', m h = Ret (a, h') ∧ P a h'.

Lemma io_returns_bind {H A B} (m : io H A) (f : A → io H B) h P Q :
  io_returns m h P → (∀ a h', P a h' → io_returns (f a) h' Q) → io_returns (m ≫= f) h Q.
Proof.
  intros (a & h' & Hm & Hp) Hf. destruct (Hf a h' Hp) as (b & h'' & Hb & Hq).
  exists b, h''. split; [|done]. by rewrite (io_bind_Ret _ _ _ _ _ Hm).
Qed.

Lemma io_returns_ret {H A} (a : A) (h : H) (P : A → H → Prop) : P a h → io_returns (ret a) h P.
Proof. intros Hp. by exists a, h. Qed.

(** One step whose result is known. *)
Lemma io_returns_step {H A B} (m : io H A) (f : A → io H B) h a h' P :
  m h = Ret (a, h') → io_returns (f a) h' P → io_returns (m ≫= f) h P.
Proof. intros Hm (b & h'' & Hb & Hp). exists b, h''. split; [|done]. by rewrite (io_bind_Ret _ _ _ _ _ Hm). Qed.

Lemma io_returns_lift {H A} (o : outcome A) (h : H) (P : A → H → Prop) : returns o (λ a, P a h) → io_returns (lift o) h P.
Proof. intros (a & -> & Ha). by exists a, h. Qed.

Lemma io_returns_mono {H A} (op : io H A) (h : H) (P Q : A → H → Prop) :
  io_returns op h P → (∀ a h', P a h' → Q a h') → io_returns op h Q.
Proof. intros (a & h' & E & HP) HQ. exists a, h'. split; [done|]. by apply HQ. Qed.

(** Evaluate the checked operation at the head of an [io] computation. *)
Ltac io_checked :=
  match goal with
  | |- context [@mbind _ io_bind _ _ ?f (lift (checked ?w ?r)) ?h] =>
      rewrite (checked_ok w r) by (unfold in_width; first [lia|nia]); rewrite io_bind_lift
  end.
