(* ===== verification/Pci.v ===== *)
(** * PCI configuration space (kernel/src/pci.rs)

    Configuration registers through the ECAM window or through the ports
    0xCF8/0xCFC, sub-word accesses, base address registers, the bus scan.
    [ECAM_BASE], a [static mut] that [init_pcie_from_acpi] sets once, is the
    first argument of the operations. *)

From S2P Require Import Prelude Hardware.
Open Scope Z_scope.
Open Scope rust_scope.

Definition PCI_CMD_OFFSET : Z := 0x04.
Definition PCI_CMD_BUS_MASTER : Z := Z.shiftl 1 2.
Definition PCI_CMD_MEMORY_ENABLE : Z := Z.shiftl 1 0.

Record PCIDevice : Type := mkPCI {
  vendor_id : Z; device_id : Z; class_code : Z; subclass : Z;
  bus : Z; slot : Z; func : Z;
}.

(** The two ways to name a register. *)
Definition ecam_address (ecam bus slot func offset : Z) : outcome Z :=
  a ← ecam +[64] Z.shiftl bus 20;
  a ← a +[64] Z.shiftl slot 15;
  a ← a +[64] Z.shiftl func 12;
  a +[64] offset.

Definition port_address (bus slot func offset : Z) : Z :=
  Z.lor (Z.lor (Z.lor (Z.lor (shl 32 1 31) (shl 32 bus 16)) (shl 32 slot 11)) (shl 32 func 8))
        (Z.land offset 0xFC).

Section pci.
Context {H : Type} `{Hardware H} {MM : Mmio H}.

Definition ecam_read32 (ecam bus slot func offset : Z) : io H (option Z) :=
  if ecam =? 0 then ret None
  else addr ← lift (ecam_address ecam bus slot func offset);
       v ← read32 addr; ret (Some v).

Definition read_config (ecam : Z) (d : PCIDevice) (offset : Z) : io H Z :=
  if negb (ecam =? 0) then
    addr ← lift (ecam_address ecam (bus d) (slot d) (func d) offset);
    read32 addr
  else
    let address := port_address (bus d) (slot d) (func d) offset in
    _ ← out32 0xCF8 address;
    in32 0xCFC.

Definition write_config (ecam : Z) (d : PCIDevice) (offset value : Z) : io H unit :=
  if negb (ecam =? 0) then
    addr ← lift (ecam_address ecam (bus d) (slot d) (func d) offset);
    write32 addr value
  else
    let address := port_address (bus d) (slot d) (func d) offset in
    _ ← out32 0xCF8 address;
    out32 0xCFC value.

Definition read_config32 (ecam bus slot func offset : Z) : io H Z :=
  o ← ecam_read32 ecam bus slot func offset;
  match o with
  | Some val => ret val
  | None =>
      let address := port_address bus slot func offset in
      _ ← out32 0xCF8 address;
      in32 0xCFC
  end.

Definition read_config_u16 (ecam : Z) (d : PCIDevice) (offset : Z) : io H Z :=
  v ← read_config ecam d (Z.land offset (unot 16 3));
  ret (wrap 16 (Z.shiftr v (Z.land offset 3 * 8))).

Definition read_config_u8 (ecam : Z) (d : PCIDevice) (offset : Z) : io H Z :=
  v ← read_config ecam d (Z.land offset (unot 16 3));
  ret (wrap 8 (Z.shiftr v (Z.land offset 3 * 8))).

(** [(old & !(ones << shift)) | ((value as u32) << shift)]. *)
Definition merge (ones old value shift : Z) : Z :=
  let mask := unot 32 (shl 32 ones shift) in
  Z.lor (Z.land old mask) (shl 32 value shift).

Definition write_config_u16 (ecam : Z) (d : PCIDevice) (offset value : Z) : io H unit :=
  let aligned := Z.land offset (unot 16 3) in
  let shift := Z.land offset 3 * 8 in
  old ← read_config ecam d aligned;
  write_config ecam d aligned (merge 0xFFFF old value shift).

Definition write_config_u8 (ecam : Z) (d : PCIDevice) (offset value : Z) : io H unit :=
  let aligned := Z.land offset (unot 16 3) in
  let shift := Z.land offset 3 * 8 in
  old ← read_config ecam d aligned;
  write_config ecam d aligned (merge 0xFF old value shift).

Definition read_bar (ecam : Z) (d : PCIDevice) (bar : Z) : io H (option (Z * bool * bool)) :=
  if 5 <? bar then ret None
  else
    let offset := 0x10 + bar * 4 in
    low ← read_config ecam d offset;
    ret (Some (low, Z.land low 0x1 =? 0,
               (Z.land low 0x1 =? 0) && (Z.land (Z.shiftr low 1) 0x3 =? 0x2))).

Definition bar_address (ecam : Z) (d : PCIDevice) (bar : Z) : io H (option Z) :=
  o ← read_bar ecam d bar;
  match o with
  | None => ret None
  | Some (low, is_mem, is_64) =>
      if negb is_mem then ret (Some (Z.land low 0xFFFFFFFC))
      else if (is_64 : bool) then
        let low_masked := Z.land low 0xFFFFFFF0 in
        high ← read_config ecam d (0x10 + bar * 4 + 4);
        ret (Some (Z.lor (Z.shiftl high 32) low_masked))
      else ret (Some (Z.land low 0xFFFFFFF0))
  end.

Definition probe_bar_size (ecam : Z) (d : PCIDevice) (bar : Z) : io H (option Z) :=
  if 5 <? bar then ret None
  else
    let offset := 0x10 + bar * 4 in
    orig_low ← read_config ecam d offset;
    _ ← write_config ecam d offset 0xFFFFFFFF;
    masked_low ← read_config ecam d offset;
    _ ← write_config ecam d offset orig_low;
    o ← read_bar ecam d bar;
    match o with
    | None => ret None
    | Some (_, is_mem, is_64) =>
        if negb is_mem then
          let mask := Z.land masked_low 0xFFFFFFFC in
          if mask =? 0 then ret None
          else size ← lift (unot 32 mask +[32] 1); ret (Some size)
        else if (is_64 : bool) then
          orig_high ← read_config ecam d (offset + 4);
          _ ← write_config ecam d (offset + 4) 0xFFFFFFFF;
          masked_high ← read_config ecam d (offset + 4);
          _ ← write_config ecam d (offset + 4) orig_high;
          let full_mask := Z.lor (Z.shiftl masked_high 32) (Z.land masked_low 0xFFFFFFF0) in
          if full_mask =? 0 then ret None
          else size ← lift (unot 64 full_mask +[64] 1); ret (Some size)
        else
          let mask := Z.land masked_low 0xFFFFFFF0 in
          if mask =? 0 then ret None
          else size ← lift (unot 32 mask +[32] 1); ret (Some size)
    end.

(** A [u8] offset. *)
Definition read_pci (ecam : Z) (d : PCIDevice) (offset : Z) : io H Z := read_config ecam d offset.
Definition write_pci (ecam : Z) (d : PCIDevice) (offset value : Z) : io H unit :=
  write_config ecam d offset value.
Definition read_pci_config (ecam : Z) (d : PCIDevice) (offset : Z) : io H Z := read_config ecam d offset.
Definition write_pci_config (ecam : Z) (d : PCIDevice) (offset value : Z) : io H unit :=
  write_config ecam d offset value.

Definition from_bsf (ecam bus slot func : Z) : io H (option PCIDevice) :=
  vendor_device ← read_config32 ecam bus slot func 0x0;
  let vendor_id := Z.land vendor_device 0xFFFF in
  if vendor_id =? 0xFFFF then ret None
  else
    let device_id := Z.land (Z.shiftr vendor_device 16) 0xFFFF in
    class_reg ← read_config32 ecam bus slot func 0x8;
    let class_code := Z.land (Z.shiftr class_reg 24) 0xFF in
    let subclass := Z.land (Z.shiftr class_reg 16) 0xFF in
    ret (Some (mkPCI vendor_id device_id class_code subclass bus slot func)).

Definition prog_if (ecam : Z) (d : PCIDevice) : io H Z :=
  v ← read_config ecam d 0x08; ret (Z.land (Z.shiftr v 8) 0xFF).

Definition enable_bus_master (ecam : Z) (d : PCIDevice) : io H bool :=
  cmd ← read_config_u16 ecam d PCI_CMD_OFFSET;
  let cmd := Z.lor cmd PCI_CMD_MEMORY_ENABLE in
  let cmd := Z.lor cmd PCI_CMD_BUS_MASTER in
  _ ← write_config_u16 ecam d PCI_CMD_OFFSET cmd;
  verify ← read_config_u16 ecam d PCI_CMD_OFFSET;
  ret (negb (Z.land verify PCI_CMD_BUS_MASTER =? 0)).

(** The three nested loops of [scan_pci_bus]. *)
Fixpoint scan_funcs (ecam bus slot : Z) (funcs : list Z) : io H (list PCIDevice) :=
  match funcs with
  | [] => ret []
  | func :: funcs =>
      o ← from_bsf ecam bus slot func;
      match o with
      | None => scan_funcs ecam bus slot funcs
      | Some dev =>
          stop ← (if func =? 0 then
                    v ← read_config32 ecam bus slot 0 0x0;
                    ret (Z.land v (Z.shiftl 1 7) =? 0)
                  else ret false);
          if (stop : bool) then ret [dev]
          else devs ← scan_funcs ecam bus slot funcs; ret (dev :: devs)
      end
  end.

Fixpoint scan_slots (ecam bus : Z) (slots : list Z) : io H (list PCIDevice) :=
  match slots with
  | [] => ret []
  | slot :: slots =>
      devs ← scan_funcs ecam bus slot (seqZ 0 8);
      more ← scan_slots ecam bus slots;
      ret (devs ++ more)
  end.

Fixpoint scan_buses (ecam : Z) (buses : list Z) : io H (list PCIDevice) :=
  match buses with
  | [] => ret []
  | bus :: buses =>
      devs ← scan_slots ecam bus (seqZ 0 32);
      more ← scan_buses ecam buses;
      ret (devs ++ more)
  end.

Definition scan_pci_bus (ecam : Z) : io H (list PCIDevice) := scan_buses ecam (seqZ 0 256).
End pci.

(** ** The configuration space behind the accesses *)

(** A register by its place in the ECAM window. *)
Definition key (bus slot func reg : Z) : Z := bus * 2 ^ 20 + slot * 2 ^ 15 + func * 2 ^ 12 + reg.

(** [config h]: the registers of every function; [cfg_write c k v]: the
    registers after a write of [v] to register [k], which is up to the device.
    Where there is a mapped window ([ecam] is not 0) an access to it is an access to
    the register; the port pair reaches the first 256 bytes, and selecting a
    register changes none. *)
Class ConfigSpace (H : Type) `{Hardware H} {MM : Mmio H} (ecam : Z) := {
  config : H → Z → Z;
  cfg_write : (Z → Z) → Z → Z → (Z → Z);
  window_ok : 0 ≤ ecam ∧ ecam + 2 ^ 28 ≤ 2 ^ 64;
  window_read h k : 0 < ecam → 0 ≤ k < 2 ^ 28 →
    ∃ h', mmio_load 4 (ecam + k) h = Ret (config h k, h') ∧ config h' = config h;
  window_write h k v : 0 < ecam → 0 ≤ k < 2 ^ 28 →
    ∃ h', mmio_store 4 (ecam + k) v h = Ret h' ∧ config h' = cfg_write (config h) k v;
  port_read h b s f r : 0 ≤ b < 256 → 0 ≤ s < 32 → 0 ≤ f < 8 → 0 ≤ r < 256 → r mod 4 = 0 →
    ∃ h', port_in 4 0xCFC (port_out 4 0xCF8 (2 ^ 31 + b * 2 ^ 16 + s * 2 ^ 11 + f * 2 ^ 8 + r) h) =
            (config h (key b s f r), h') ∧ config h' = config h;
  port_write h b s f r v : 0 ≤ b < 256 → 0 ≤ s < 32 → 0 ≤ f < 8 → 0 ≤ r < 256 → r mod 4 = 0 →
    config (port_out 4 0xCFC v
      (port_out 4 0xCF8 (2 ^ 31 + b * 2 ^ 16 + s * 2 ^ 11 + f * 2 ^ 8 + r) h)) =
    cfg_write (config h) (key b s f r) v;
}.
Arguments config {H _ _} ecam {_} h _.
Arguments cfg_write {H _ _} ecam {_} c _ _ _.

(** The ranges the code's [u8] fields are given ([slot] and [func] come from
    the bounds of the scan), and a dword register. *)
Definition bdf_ok (b s f : Z) : Prop := 0 ≤ b < 256 ∧ 0 ≤ s < 32 ∧ 0 ≤ f < 8.
Definition dev_ok (d : PCIDevice) : Prop := bdf_ok (bus d) (slot d) (func d).
Definition reg_ok (r : Z) : Prop := 0 ≤ r < 256 ∧ r mod 4 = 0.

Definition dkey (d : PCIDevice) (r : Z) : Z := key (bus d) (slot d) (func d) r.

Lemma key_range b s f r : bdf_ok b s f → 0 ≤ r < 256 → 0 ≤ key b s f r < 2 ^ 28.
Proof. unfold bdf_ok, key. lia. Qed.

Lemma ecam_address_key ecam b s f r :
  0 ≤ ecam → ecam + 2 ^ 28 ≤ 2 ^ 64 → bdf_ok b s f → 0 ≤ r < 256 →
  ecam_address ecam b s f r = Ret (ecam + key b s f r).
Proof.
  unfold bdf_ok, key, ecam_address. intros H0 H1 H2 H3. rewrite !Z.shiftl_mul_pow2 by lia.
  do 3 checked_step. rewrite checked_ok by (unfold in_width; lia). f_equal. lia.
Qed.

Lemma port_address_sum b s f r :
  bdf_ok b s f → reg_ok r →
  port_address b s f r = 2 ^ 31 + b * 2 ^ 16 + s * 2 ^ 11 + f * 2 ^ 8 + r.
Proof.
  intros (Hb & Hs & Hf) [Hr Hr4].
  assert (Hsh : ∀ x n, 0 ≤ n → 0 ≤ x * 2 ^ n < 2 ^ 32 → shl 32 x n = Z.shiftl x n).
  { intros x n Hn Hx. unfold shl. apply in_width_wrap. by rewrite Z.shiftl_mul_pow2. }
  unfold port_address. rewrite !Hsh by lia.
  assert (Hand : Z.land r 0xFC = r).
  { change 0xFC with (unot 8 (2 ^ 2 - 1)). rewrite land_clear_low by (unfold in_width; lia).
    change (2 ^ 2) with 4. lia. }
  rewrite Hand, <- !Z.lor_assoc. (* from the low bits up *)
  rewrite (Z.lor_comm (Z.shiftl f 8)), lor_shiftl_add by (lia || (unfold in_width; lia)).
  rewrite (Z.lor_comm (Z.shiftl s 11)), lor_shiftl_add by (lia || (unfold in_width; lia)).
  rewrite (Z.lor_comm (Z.shiftl b 16)), lor_shiftl_add by (lia || (unfold in_width; lia)).
  rewrite (Z.lor_comm (Z.shiftl 1 31)), lor_shiftl_add by (lia || (unfold in_width; lia)).
  lia.
Qed.

Section config_space.
Context {H : Type} `{Hardware H} {MM : Mmio H} {ecam : Z} `{!ConfigSpace H ecam}.
Implicit Types (h : H) (d : PCIDevice).

Lemma port_access b s f r h :
  bdf_ok b s f → reg_ok r →
  ∃ h', (_ ← out32 0xCF8 (2 ^ 31 + b * 2 ^ 16 + s * 2 ^ 11 + f * 2 ^ 8 + r); in32 0xCFC) h =
          Ret (config ecam h (key b s f r), h') ∧ config ecam h' = config ecam h.
Proof.
  intros (? & ? & ?) [? ?]. destruct (port_read h b s f r) as (h' & Hm & Hc); [done..|].
  exists h'. split; [|done]. unfold mbind, io_bind, out32, in32. by rewrite Hm.
Qed.

(** The three register accesses. *)
Lemma read_config_spec d r h :
  dev_ok d → reg_ok r →
  ∃ h', read_config ecam d r h = Ret (config ecam h (dkey d r), h') ∧ config ecam h' = config ecam h.
Proof.
  intros Hd Hr. pose proof window_ok as [Hw0 Hw1]. unfold read_config.
  pose proof (key_range (bus d) (slot d) (func d) r Hd (proj1 Hr)).
  destruct (Z.eqb_spec ecam 0) as [He|He]; cbn [negb].
  - rewrite port_address_sum by done. by apply port_access.
  - rewrite ecam_address_key by (done || apply Hr). rewrite io_bind_lift. unfold read32.
    destruct (window_read h (dkey d r)) as (h' & Hm & ?); [lia|done|]. unfold dkey in Hm. rewrite Hm. by exists h'.
Qed.

Lemma write_config_spec d r v h :
  dev_ok d → reg_ok r →
  ∃ h', write_config ecam d r v h = Ret ((), h') ∧
        config ecam h' = cfg_write ecam (config ecam h) (dkey d r) v.
Proof.
  intros Hd Hr. pose proof window_ok as [Hw0 Hw1]. unfold write_config.
  pose proof (key_range (bus d) (slot d) (func d) r Hd (proj1 Hr)).
  destruct (Z.eqb_spec ecam 0) as [He|He]; cbn [negb].
  - rewrite port_address_sum by done. eexists. split; [reflexivity|].
    destruct Hd as (? & ? & ?), Hr. by apply port_write.
  - rewrite ecam_address_key by (done || apply Hr). rewrite io_bind_lift. unfold write32.
    destruct (window_write h (dkey d r) v) as (h' & Hm & Hc); [lia|done|]. unfold dkey in Hm. rewrite Hm. by exists h'.
Qed.

Lemma read_config32_spec b s f r h :
  bdf_ok b s f → reg_ok r →
  ∃ h', read_config32 ecam b s f r h = Ret (config ecam h (key b s f r), h') ∧
        config ecam h' = config ecam h.
Proof.
  intros Hd Hr. pose proof window_ok as [Hw0 Hw1]. unfold read_config32, ecam_read32.
  pose proof (key_range b s f r Hd (proj1 Hr)).
  destruct (Z.eqb_spec ecam 0) as [He|He].
  - rewrite io_bind_ret. rewrite port_address_sum by done. by apply port_access.
  - rewrite ecam_address_key by (done || apply Hr).
    destruct (window_read h (key b s f r)) as (h' & Hm & ?); [lia|done|]. exists h'.
    split; [|done]. unfold mbind, io_bind, lift, read32, ret, mbind, outcome_bind. by rewrite Hm.
Qed.
End config_space.

(** Run a register access at the head of an [io] computation. *)
Ltac cfg_step lem :=
  let h := fresh "h" in let E := fresh "E" in let Hc := fresh "Hc" in
  match goal with
  | |- context [(?m ≫= ?f) ?h0] =>
      edestruct lem as (h & E & Hc); [..|rewrite (io_bind_Ret _ _ _ _ _ E)]
  end.

(** ** Bytes and half-words of a register *)

Lemma merge_testbit w old v s i :
  0 ≤ s → 0 < w → s + w ≤ 32 → in_width w v → 0 ≤ i < 32 →
  Z.testbit (merge (2 ^ w - 1) old v s) i =
    if (s <=? i) && (i <? s + w) then Z.testbit v (i - s) else Z.testbit old i.
Proof.
  intros Hs Hw Hsw Hv Hi. unfold merge. rewrite Z.lor_spec, Z.land_spec.
  rewrite unot_testbit by (try done; apply wrap_in_width; lia).
  rewrite !shl_testbit by done.
  replace (2 ^ w - 1) with (Z.ones w) by (rewrite Z.ones_equiv; lia).
  destruct (Z.leb_spec s i); simpl; [|by rewrite andb_true_r, orb_false_r].
  destruct (Z.ltb_spec i (s + w)).
  - rewrite Z.ones_spec_low by lia. by rewrite andb_false_r.
  - rewrite Z.ones_spec_high by lia. rewrite (testbit_above w v) by (done || lia).
    by rewrite andb_true_r, orb_false_r.
Qed.

Lemma merge_in_width w old v s : 0 ≤ s → in_width 32 old → in_width 32 (merge (2 ^ w - 1) old v s).
Proof.
  intros Hs Hold. unfold merge. apply in_width_lor; [lia| |apply wrap_in_width; lia].
  rewrite Z.land_comm. apply in_width_land_r; [|done].
  unfold unot. pose proof (wrap_in_width 32 (Z.shiftl (2 ^ w - 1) s) ltac:(lia)) as [_ Hlt].
  unfold shl. lia.
Qed.

(** The [w]-bit lane at bit [s] of a register. *)
Definition lane (w old s : Z) : Z := wrap w (Z.shiftr old s).

Lemma lane_merge w old v s :
  0 ≤ s → 0 < w → s + w ≤ 32 → in_width w v → lane w (merge (2 ^ w - 1) old v s) s = v.
Proof.
  intros Hs Hw Hsw Hv. apply (in_width_ext w); [by apply wrap_in_width; lia|done|].
  intros i Hi. unfold lane. rewrite wrap_testbit, Z.shiftr_spec, merge_testbit by (done || lia).
  rewrite (proj2 (Z.leb_le _ _)), (proj2 (Z.ltb_lt _ _)) by lia. simpl. f_equal. lia.
Qed.

Lemma lane_merge_other w old v s t :
  0 ≤ s → 0 ≤ t → 0 < w → s + w ≤ 32 → t + w ≤ 32 → in_width w v →
  t + w ≤ s ∨ s + w ≤ t →
  lane w (merge (2 ^ w - 1) old v s) t = lane w old t.
Proof.
  intros Hs Ht Hw Hsw Htw Hv Hst. apply (in_width_ext w); [by apply wrap_in_width; lia..|].
  intros i Hi. unfold lane.
  rewrite !wrap_testbit, !Z.shiftr_spec, merge_testbit by (done || lia).
  destruct (Z.leb_spec s (i + t)), (Z.ltb_spec (i + t) (s + w)); simpl; try done. lia.
Qed.

Lemma land_3 o : Z.land o 3 = o mod 4.
Proof. change 3 with (2 ^ 2 - 1). rewrite land_low_mask by done. done. Qed.

Lemma land_align o : 0 ≤ o < 256 → Z.land o (unot 16 3) = o - o mod 4.
Proof.
  intros. change (unot 16 3) with (unot 16 (2 ^ 2 - 1)).
  rewrite land_clear_low by (unfold in_width; lia). done.
Qed.

Lemma aligned_reg_ok o : 0 ≤ o < 256 → reg_ok (o - o mod 4).
Proof.
  intros. pose proof (Z.mod_pos_bound o 4 ltac:(lia)). pose proof (Z.div_mod o 4 ltac:(lia)).
  split; [lia|]. replace (o - o mod 4) with (o / 4 * 4) by lia. apply Z.mod_mul. lia.
Qed.

Section subword.
Context {H : Type} `{Hardware H} {MM : Mmio H} {ecam : Z} `{!ConfigSpace H ecam}.
Implicit Types (h : H) (d : PCIDevice).

(** The lane at byte offset [o]. *)
Definition lane_at (w : Z) h d (o : Z) : Z := lane w (config ecam h (dkey d (o - o mod 4))) (o mod 4 * 8).

(** A register that keeps what is written to it. *)
Definition plain_register (k : Z) : Prop :=
  ∀ c v k', cfg_write ecam c k v k' = if k' =? k then v else c k'.

Lemma read_config_u16_spec d o h :
  dev_ok d → 0 ≤ o < 256 →
  ∃ h', read_config_u16 ecam d o h = Ret (lane_at 16 h d o, h') ∧ config ecam h' = config ecam h.
Proof.
  intros Hd Ho. unfold read_config_u16. rewrite land_align, land_3 by done.
  destruct (read_config_spec d (o - o mod 4) h Hd (aligned_reg_ok o Ho)) as (h' & E & Hc).
  rewrite (io_bind_Ret _ _ _ _ _ E). by exists h'.
Qed.

Lemma read_config_u8_spec d o h :
  dev_ok d → 0 ≤ o < 256 →
  ∃ h', read_config_u8 ecam d o h = Ret (lane_at 8 h d o, h') ∧ config ecam h' = config ecam h.
Proof.
  intros Hd Ho. unfold read_config_u8. rewrite land_align, land_3 by done.
  destruct (read_config_spec d (o - o mod 4) h Hd (aligned_reg_ok o Ho)) as (h' & E & Hc).
  rewrite (io_bind_Ret _ _ _ _ _ E). by exists h'.
Qed.

(** The read-modify-write both sub-word writes perform. *)
Lemma subword_write_spec w d o v h :
  dev_ok d → 0 ≤ o < 256 →
  ∃ h', (old ← read_config ecam d (Z.land o (unot 16 3));
         write_config ecam d (Z.land o (unot 16 3)) (merge (2 ^ w - 1) old v (Z.land o 3 * 8))) h =
          Ret ((), h') ∧
        config ecam h' = cfg_write ecam (config ecam h) (dkey d (o - o mod 4))
          (merge (2 ^ w - 1) (config ecam h (dkey d (o - o mod 4))) v (o mod 4 * 8)).
Proof.
  intros Hd Ho. rewrite land_align, land_3 by done. pose proof (aligned_reg_ok o Ho) as Hr.
  destruct (read_config_spec d _ h Hd Hr) as (h1 & E & Hc). rewrite (io_bind_Ret _ _ _ _ _ E).
  destruct (write_config_spec d (o - o mod 4)
    (merge (2 ^ w - 1) (config ecam h (dkey d (o - o mod 4))) v (o mod 4 * 8)) h1 Hd Hr) as (h2 & -> & Hc2).
  exists h2. by rewrite Hc2, Hc.
Qed.

Lemma dkey_inj d r r' : dkey d r = dkey d r' → r = r'.
Proof. unfold dkey, key. lia. Qed.

Lemma subword_write_lanes w d o v h h' :
  (w = 8 ∨ w = 16) → 0 ≤ o < 256 → o mod (w / 8) = 0 → in_width w v →
  plain_register (dkey d (o - o mod 4)) →
  config ecam h' = cfg_write ecam (config ecam h) (dkey d (o - o mod 4))
    (merge (2 ^ w - 1) (config ecam h (dkey d (o - o mod 4))) v (o mod 4 * 8)) →
  ∀ o', 0 ≤ o' < 256 → o' mod (w / 8) = 0 →
    lane_at w h' d o' = if o' =? o then v else lane_at w h d o'.
Proof.
  intros Hw Ho Hal Hv Hp Hc o' Ho' Hal'. unfold lane_at. rewrite Hc, Hp.
  pose proof (Z.mod_pos_bound o 4 ltac:(lia)). pose proof (Z.mod_pos_bound o' 4 ltac:(lia)).
  assert (o mod 4 * 8 + w ≤ 32 ∧ o' mod 4 * 8 + w ≤ 32 ∧ 0 < w) as (? & ? & ?).
  { destruct Hw as [-> | ->]; [lia|]. change (16 / 8) with 2 in *. clear -Hal Hal'.
    Z.to_euclidean_division_equations; lia. }
  destruct (Z.eqb_spec o' o) as [->|Hne].
  { rewrite Z.eqb_refl. by apply lane_merge; try lia. }
  destruct (Z.eqb_spec (dkey d (o' - o' mod 4)) (dkey d (o - o mod 4))) as [Hk|]; [|done].
  apply dkey_inj in Hk. rewrite Hk. apply lane_merge_other; try lia; [done|].
  destruct Hw as [-> | ->]; [lia|]. change (16 / 8) with 2 in *. clear -Hal Hal' Hk Hne.
  Z.to_euclidean_division_equations; lia.
Qed.
End subword.

(** ** Base address registers *)

(** The address part of a register that decodes [2^n] bytes: the low [n] bits
    of what is written are dropped. *)
Definition keep_high (n v : Z) : Z := v / 2 ^ n * 2 ^ n.

Lemma keep_high_ones n : 0 ≤ n ≤ 32 → keep_high n 0xFFFFFFFF = 2 ^ 32 - 2 ^ n.
Proof.
  intros Hn. unfold keep_high. change 0xFFFFFFFF with (2 ^ 32 - 1).
  assert (Hp : 0 < 2 ^ n) by (apply Z.pow_pos_nonneg; lia).
  assert (H32 : 2 ^ 32 = 2 ^ (32 - n) * 2 ^ n) by (rewrite <- Z.pow_add_r by lia; f_equal; lia).
  replace (2 ^ 32 - 1) with (2 ^ n - 1 + (2 ^ (32 - n) - 1) * 2 ^ n) by lia.
  rewrite Z.div_add, Z.div_small by lia. lia.
Qed.

Lemma keep_high_flags n v fl :
  0 ≤ n → v mod 2 ^ n = fl → keep_high n v + fl = v.
Proof. intros. unfold keep_high. pose proof (Z.div_mod v (2 ^ n) ltac:(apply Z.pow_nonzero; lia)). lia. Qed.

Lemma land_F0 v : in_width 32 v → Z.land v 0xFFFFFFF0 = v - v mod 16.
Proof. intros. change 0xFFFFFFF0 with (unot 32 (2 ^ 4 - 1)). by rewrite land_clear_low. Qed.

(** The mask the probe reads back, cleared of its flags. *)
Lemma probe_mask n fl :
  4 ≤ n ≤ 32 → 0 ≤ fl < 16 →
  Z.land (keep_high n 0xFFFFFFFF + fl) 0xFFFFFFF0 = 2 ^ 32 - 2 ^ n.
Proof.
  intros Hn Hfl. rewrite keep_high_ones by lia.
  assert (Hd : 2 ^ 32 - 2 ^ n = 16 * (2 ^ 28 - 2 ^ (n - 4))).
  { replace (2 ^ n) with (2 ^ 4 * 2 ^ (n - 4)) by (rewrite <- Z.pow_add_r by lia; f_equal; lia).
    change (2 ^ 32) with (16 * 2 ^ 28). change (2 ^ 4) with 16. lia. }
  assert (0 ≤ 2 ^ 32 - 2 ^ n) by (pose proof (Z.pow_le_mono_r 2 n 32); lia).
  assert (16 ≤ 2 ^ n) by (change 16 with (2 ^ 4); apply Z.pow_le_mono_r; lia).
  rewrite land_F0 by (unfold in_width; lia).
  rewrite Hd, (Z.mul_comm 16), Z.add_comm, Z.mod_add, Z.mod_small by lia. lia.
Qed.

Section bars.
Context {H : Type} `{Hardware H} {MM : Mmio H} {ecam : Z} `{!ConfigSpace H ecam}.
Implicit Types (h : H) (d : PCIDevice).

(** The register [k] decodes [2^n] bytes, its low bits read as [fl]. *)
Definition bar_register (k n fl : Z) : Prop :=
  0 ≤ fl < 16 ∧
  ∀ c v k', cfg_write ecam c k v k' = if k' =? k then keep_high n v + fl else c k'.

(** Write all ones, read back, write the old value: the mask of the register,
    and the registers as they were. *)
Lemma probe_register d r h n fl :
  dev_ok d → reg_ok r → bar_register (dkey d r) n fl → 0 ≤ n →
  config ecam h (dkey d r) mod 2 ^ n = fl →
  ∃ h1 h2 h3 h4,
    read_config ecam d r h = Ret (config ecam h (dkey d r), h1) ∧
    write_config ecam d r 0xFFFFFFFF h1 = Ret ((), h2) ∧
    read_config ecam d r h2 = Ret (keep_high n 0xFFFFFFFF + fl, h3) ∧
    write_config ecam d r (config ecam h (dkey d r)) h3 = Ret ((), h4) ∧
    ∀ k, config ecam h4 k = config ecam h k.
Proof.
  intros Hd Hr [Hfl Hb] Hn Hold.
  destruct (read_config_spec d r h Hd Hr) as (h1 & E1 & C1).
  destruct (write_config_spec d r 0xFFFFFFFF h1 Hd Hr) as (h2 & E2 & C2).
  destruct (read_config_spec d r h2 Hd Hr) as (h3 & E3 & C3).
  destruct (write_config_spec d r (config ecam h (dkey d r)) h3 Hd Hr) as (h4 & E4 & C4).
  exists h1, h2, h3, h4. split_and!; [done|done| |done|].
  - rewrite E3, C2, Hb, Z.eqb_refl. done.
  - intros k. rewrite C4, Hb. destruct (Z.eqb_spec k (dkey d r)) as [->|].
    + by apply keep_high_flags.
    + rewrite C3, C2, Hb, C1. by rewrite (proj2 (Z.eqb_neq _ _)).
Qed.

Lemma bar_reg_ok bar : 0 ≤ bar ≤ 5 → reg_ok (0x10 + bar * 4).
Proof.
  intros. split; [lia|]. replace (16 + bar * 4) with ((4 + bar) * 4) by lia. apply Z.mod_mul. lia.
Qed.

Lemma pow_pred_32 n : 4 ≤ n ≤ 31 → unot 32 (2 ^ 32 - 2 ^ n) + 1 = 2 ^ n ∧ 2 ^ 32 - 2 ^ n ≠ 0 ∧ 0 < 2 ^ n < 2 ^ 32.
Proof.
  intros. unfold unot. pose proof (Z.pow_lt_mono_r 2 n 32). pose proof (Z.pow_pos_nonneg 2 n). lia.
Qed.

(** A 32-bit memory register. *)
Lemma probe_bar_size_32 d bar h n fl :
  dev_ok d → 0 ≤ bar ≤ 5 → 4 ≤ n ≤ 31 →
  let k := dkey d (0x10 + bar * 4) in
  bar_register k n fl → config ecam h k mod 2 ^ n = fl →
  Z.land (config ecam h k) 1 = 0 → Z.land (Z.shiftr (config ecam h k) 1) 3 ≠ 2 →
  io_returns (probe_bar_size ecam d bar) h (λ o h',
    o = Some (2 ^ n) ∧ ∀ k, config ecam h' k = config ecam h k).
Proof.
  intros Hd Hbar Hn k Hb Hold Hmem H64. pose proof (bar_reg_ok bar Hbar) as Hr.
  destruct (probe_register d _ h n fl Hd Hr Hb ltac:(lia) Hold)
    as (h1 & h2 & h3 & h4 & E1 & E2 & E3 & E4 & C4).
  unfold io_returns, probe_bar_size. rewrite (proj2 (Z.ltb_ge 5 bar)) by lia. cbv zeta.
  rewrite (io_bind_Ret _ _ _ _ _ E1), (io_bind_Ret _ _ _ _ _ E2), (io_bind_Ret _ _ _ _ _ E3).
  rewrite (io_bind_Ret _ _ _ _ _ E4).
  destruct (read_config_spec d _ h4 Hd Hr) as (h5 & E5 & C5).
  assert (Eb : read_bar ecam d bar h4 = Ret (Some (config ecam h k, true, false), h5)).
  { unfold read_bar. rewrite (proj2 (Z.ltb_ge 5 bar)) by lia. cbv zeta.
    rewrite (io_bind_Ret _ _ _ _ _ E5). unfold ret. rewrite C4. fold k. rewrite Hmem.
    by rewrite (proj2 (Z.eqb_neq _ 2)). }
  rewrite (io_bind_Ret _ _ _ _ _ Eb). cbn [negb].
  rewrite probe_mask by (destruct Hb; lia).
  destruct (pow_pred_32 n Hn) as (Hs & Hnz & Hlt).
  rewrite (proj2 (Z.eqb_neq _ 0)) by done. rewrite Hs. io_checked.
  exists (Some (2 ^ n)), h5. split; [done|]. split; [done|]. intros k'. by rewrite C5, C4.
Qed.

Lemma full_mask_64 n fl :
  4 ≤ n < 64 → 0 ≤ fl < 16 →
  Z.lor (Z.shiftl (keep_high (Z.max 32 n - 32) 0xFFFFFFFF + 0) 32)
        (Z.land (keep_high (Z.min n 32) 0xFFFFFFFF + fl) 0xFFFFFFF0) = 2 ^ 64 - 2 ^ n.
Proof.
  intros Hn Hfl. rewrite probe_mask, keep_high_ones by lia.
  assert (1 ≤ 2 ^ Z.min n 32 ≤ 2 ^ 32).
  { split; [pose proof (Z.pow_pos_nonneg 2 (Z.min n 32)); lia|apply Z.pow_le_mono_r; lia]. }
  rewrite Z.lor_comm, lor_shiftl_add by (lia || (unfold in_width; lia)).
  destruct (decide (n ≤ 32)).
  - rewrite Z.min_l, Z.max_l by lia. change (2 ^ 32 - 2 ^ (32 - 32)) with (2 ^ 32 - 1). lia.
  - rewrite Z.min_r, Z.max_r by lia.
    replace (2 ^ n) with (2 ^ (n - 32) * 2 ^ 32) by (rewrite <- Z.pow_add_r by lia; f_equal; lia).
    lia.
Qed.

(** A 64-bit memory register: the low half keeps its flags, the high half is
    the next register. *)
Lemma probe_bar_size_64 d bar h n fl :
  dev_ok d → 0 ≤ bar ≤ 4 → 4 ≤ n < 64 →
  let k := dkey d (0x10 + bar * 4) in
  let k4 := dkey d (0x10 + bar * 4 + 4) in
  bar_register k (Z.min n 32) fl → config ecam h k mod 2 ^ Z.min n 32 = fl →
  bar_register k4 (Z.max 32 n - 32) 0 → config ecam h k4 mod 2 ^ (Z.max 32 n - 32) = 0 →
  Z.land (config ecam h k) 1 = 0 → Z.land (Z.shiftr (config ecam h k) 1) 3 = 2 →
  io_returns (probe_bar_size ecam d bar) h (λ o h',
    o = Some (2 ^ n) ∧ ∀ k, config ecam h' k = config ecam h k).
Proof.
  intros Hd Hbar Hn k k4 Hb Hold Hb4 Hold4 Hmem H64.
  pose proof (bar_reg_ok bar ltac:(lia)) as Hr. pose proof (bar_reg_ok (bar + 1) ltac:(lia)) as Hr4.
  replace (16 + (bar + 1) * 4) with (16 + bar * 4 + 4) in Hr4 by lia.
  destruct (probe_register d _ h _ fl Hd Hr Hb ltac:(lia) Hold)
    as (h1 & h2 & h3 & h4 & E1 & E2 & E3 & E4 & C4).
  unfold io_returns, probe_bar_size. rewrite (proj2 (Z.ltb_ge 5 bar)) by lia. cbv zeta.
  rewrite (io_bind_Ret _ _ _ _ _ E1), (io_bind_Ret _ _ _ _ _ E2), (io_bind_Ret _ _ _ _ _ E3).
  rewrite (io_bind_Ret _ _ _ _ _ E4).
  destruct (read_config_spec d _ h4 Hd Hr) as (h5 & E5 & C5).
  assert (Eb : read_bar ecam d bar h4 = Ret (Some (config ecam h k, true, true), h5)).
  { unfold read_bar. rewrite (proj2 (Z.ltb_ge 5 bar)) by lia. cbv zeta.
    rewrite (io_bind_Ret _ _ _ _ _ E5). unfold ret. rewrite C4. fold k. rewrite Hmem.
    by rewrite (proj2 (Z.eqb_eq _ 2)). }
  rewrite (io_bind_Ret _ _ _ _ _ Eb). cbn [negb].
  assert (C45 : ∀ k, config ecam h5 k = config ecam h k) by (intros; by rewrite C5, C4).
  destruct (probe_register d _ h5 _ 0 Hd Hr4 Hb4 ltac:(lia) ltac:(by rewrite C45))
    as (g1 & g2 & g3 & g4 & F1 & F2 & F3 & F4 & G4).
  rewrite (io_bind_Ret _ _ _ _ _ F1), (io_bind_Ret _ _ _ _ _ F2), (io_bind_Ret _ _ _ _ _ F3).
  rewrite (io_bind_Ret _ _ _ _ _ F4), full_mask_64 by (destruct Hb; lia).
  pose proof (Z.pow_lt_mono_r 2 n 64). pose proof (Z.pow_pos_nonneg 2 n).
  rewrite (proj2 (Z.eqb_neq _ 0)) by lia.
  replace (unot 64 (2 ^ 64 - 2 ^ n) + 1) with (2 ^ n) by (unfold unot; lia). io_checked.
  exists (Some (2 ^ n)), g4. split; [done|]. split; [done|]. intros k'. by rewrite G4, C45.
Qed.
End bars.

(** ** The scan *)

Lemma testbit_land_pow2 v n : 0 ≤ n → (Z.land v (Z.shiftl 1 n) =? 0) = negb (Z.testbit v n).
Proof.
  intros Hn. rewrite Z.shiftl_1_l. apply eq_true_iff_eq. rewrite Z.eqb_eq. split.
  - intros H0. apply (f_equal (λ z, Z.testbit z n)) in H0.
    rewrite Z.land_spec, Z.pow2_bits_true, andb_true_r, Z.testbit_0_l in H0 by done. by rewrite H0.
  - intros Hb. apply Z.bits_inj'. intros i Hi.
    rewrite Z.land_spec, Z.testbit_0_l, Z.pow2_bits_eqb by done.
    destruct (Z.eqb_spec n i) as [<-|]; [|by rewrite andb_false_r].
    by destruct (Z.testbit v n).
Qed.

(** The device the registers of a function describe. *)
Definition device_at (c : Z → Z) (b s f : Z) : option PCIDevice :=
  let vd := c (key b s f 0) in
  let cl := c (key b s f 8) in
  if Z.land vd 0xFFFF =? 0xFFFF then None
  else Some (mkPCI (Z.land vd 0xFFFF) (Z.land (Z.shiftr vd 16) 0xFFFF)
              (Z.land (Z.shiftr cl 24) 0xFF) (Z.land (Z.shiftr cl 16) 0xFF) b s f).

(** What the scan takes for a multi-function device: function 0 is absent, or
    bit 7 of its vendor id is set. *)
Definition scans_all (c : Z → Z) (b s : Z) : bool :=
  match device_at c b s 0 with
  | None => true
  | Some _ => Z.testbit (c (key b s 0 0)) 7
  end.

Definition found (c : Z → Z) (b s : Z) : list PCIDevice :=
  omap (device_at c b s) (if scans_all c b s then seqZ 0 8 else [0]).

(** Every function the scan lists. *)
Definition all_found (c : Z → Z) : list PCIDevice := seqZ 0 256 ≫= λ b, seqZ 0 32 ≫= found c b.

Lemma all_found_ok c : Forall dev_ok (all_found c).
Proof.
  rewrite Forall_forall. intros d Hd. unfold all_found in Hd.
  apply list_elem_of_bind in Hd as (b & Hd & ?%elem_of_seqZ). apply list_elem_of_bind in Hd as (s & Hd & ?%elem_of_seqZ).
  unfold found in Hd. apply list_elem_of_omap in Hd as (f & Hf & Hd). unfold device_at in Hd.
  destruct (_ =? _); [done|]. injection Hd as <-. unfold dev_ok, bdf_ok. cbn [bus slot func].
  assert (0 ≤ f < 8); [|lia]. destruct (scans_all c b s); [apply elem_of_seqZ in Hf; lia|].
  apply list_elem_of_singleton in Hf. lia.
Qed.

Section scan.
Context {H : Type} `{Hardware H} {MM : Mmio H} {ecam : Z} `{!ConfigSpace H ecam}.
Implicit Types (h : H).

(** [m] reads registers only and answers [a]. *)
Definition reads {A} (m : io H A) (c : Z → Z) (a : A) : Prop :=
  ∀ h, config ecam h = c → ∃ h', m h = Ret (a, h') ∧ config ecam h' = c.

Lemma reads_ret {A} (a : A) c : reads (ret a) c a.
Proof. intros h Hc. by exists h. Qed.

Lemma reads_bind {A B} (m : io H A) (f : A → io H B) c a b :
  reads m c a → reads (f a) c b → reads (m ≫= f) c b.
Proof.
  intros Hm Hf h Hc. destruct (Hm h Hc) as (h1 & E1 & C1). destruct (Hf h1 C1) as (h2 & E2 & C2).
  exists h2. by rewrite (io_bind_Ret _ _ _ _ _ E1).
Qed.

Lemma reads_config32 b s f r c :
  bdf_ok b s f → reg_ok r → reads (read_config32 ecam b s f r) c (c (key b s f r)).
Proof. intros Hb Hr h <-. by apply read_config32_spec. Qed.

Lemma reads_from_bsf b s f c : bdf_ok b s f → reads (from_bsf ecam b s f) c (device_at c b s f).
Proof.
  intros Hb. unfold from_bsf, device_at.
  eapply reads_bind; [by apply reads_config32|]. cbv zeta.
  destruct (_ =? _); [apply reads_ret|].
  eapply reads_bind; [by apply reads_config32|]. apply reads_ret.
Qed.

Lemma reads_funcs_rest b s c fs :
  0 ≤ b < 256 → 0 ≤ s < 32 → Forall (λ f, 0 < f < 8) fs →
  reads (scan_funcs ecam b s fs) c (omap (device_at c b s) fs).
Proof.
  intros Hb Hs. induction 1 as [|f fs Hf Hfs IH]; [apply reads_ret|]. cbn [scan_funcs].
  eapply reads_bind; [apply reads_from_bsf; unfold bdf_ok; lia|]. simpl omap.
  destruct (device_at c b s f) as [d|]; [|exact IH].
  eapply reads_bind; [rewrite (proj2 (Z.eqb_neq f 0)) by lia; apply reads_ret|]. cbv iota.
  eapply reads_bind; [exact IH|]. apply reads_ret.
Qed.

Lemma reads_funcs b s c :
  0 ≤ b < 256 → 0 ≤ s < 32 → reads (scan_funcs ecam b s (seqZ 0 8)) c (found c b s).
Proof.
  intros Hb Hs. unfold found, scans_all. rewrite seqZ_cons by lia. cbn [scan_funcs].
  assert (Hrest : reads (scan_funcs ecam b s (seqZ (Z.succ 0) (Z.pred 8))) c
    (omap (device_at c b s) (seqZ (Z.succ 0) (Z.pred 8)))).
  { apply reads_funcs_rest; [done..|]. rewrite Forall_forall. intros f ?%elem_of_seqZ. lia. }
  eapply reads_bind; [apply reads_from_bsf; unfold bdf_ok; lia|].
  destruct (device_at c b s 0) as [d|] eqn:Hd.
  - eapply (reads_bind _ _ _ (negb (Z.testbit (c (key b s 0 0)) 7))).
    + eapply reads_bind; [apply reads_config32; [unfold bdf_ok; lia|done]|].
      rewrite testbit_land_pow2 by done. apply reads_ret.
    + destruct (Z.testbit _ _); cbn [negb].
      * eapply reads_bind; [exact Hrest|]. simpl omap. rewrite Hd. apply reads_ret.
      * simpl. rewrite Hd. apply reads_ret.
  - simpl omap. rewrite Hd. exact Hrest.
Qed.

Lemma reads_slots b c ss :
  0 ≤ b < 256 → Forall (λ s, 0 ≤ s < 32) ss →
  reads (scan_slots ecam b ss) c (ss ≫= found c b).
Proof.
  intros Hb. induction 1 as [|s ss Hs Hss IH]; [apply reads_ret|]. cbn [scan_slots].
  eapply reads_bind; [by apply reads_funcs|]. eapply reads_bind; [exact IH|]. apply reads_ret.
Qed.

Lemma reads_buses c bs :
  Forall (λ b, 0 ≤ b < 256) bs →
  reads (scan_buses ecam bs) c (bs ≫= λ b, seqZ 0 32 ≫= found c b).
Proof.
  induction 1 as [|b bs Hb Hbs IH]; [apply reads_ret|]. cbn [scan_buses].
  eapply reads_bind.
  { apply reads_slots; [done|]. rewrite Forall_forall. intros s ?%elem_of_seqZ. lia. }
  eapply reads_bind; [exact IH|]. apply reads_ret.
Qed.

Lemma reads_scan c : reads (scan_pci_bus ecam) c (all_found c).
Proof. apply reads_buses. rewrite Forall_forall. intros b ?%elem_of_seqZ. lia. Qed.
End scan.

Lemma found_bdf c b s d : d ∈ found c b s → bus d = b ∧ slot d = s.
Proof.
  unfold found. rewrite list_elem_of_omap. intros (f & _ & Hd). unfold device_at in Hd.
  destruct (_ =? _); [done|]. by injection Hd as <-.
Qed.

(** ** A concrete machine: a latch for the port pair, and registers that take
    a write by the rule [wr] *)

Record sample_bus : Type := mkBus { latch : Z; regs : Z → Z }.

(** The register a port address selects. *)
Definition decode (a : Z) : Z :=
  key (a / 2 ^ 16 mod 2 ^ 8) (a / 2 ^ 11 mod 2 ^ 5) (a / 2 ^ 8 mod 2 ^ 3) (a mod 2 ^ 8).

#[local] Instance sample_bus_hw (wr : (Z → Z) → Z → Z → (Z → Z)) (ecam : Z) : Hardware sample_bus := {
  mmio_read w a h := (regs h (a - ecam), h);
  mmio_write w a v h := mkBus (latch h) (wr (regs h) (a - ecam) v);
  port_in w p h := (regs h (decode (latch h)), h);
  port_out w p v h :=
    if p =? 0xCF8 then mkBus v (regs h) else mkBus (latch h) (wr (regs h) (decode (latch h)) v);
  msr_read r h := (0, h);
  msr_write r v h := h;
}.

Lemma decode_sum b s f r :
  bdf_ok b s f → 0 ≤ r < 256 →
  decode (2 ^ 31 + b * 2 ^ 16 + s * 2 ^ 11 + f * 2 ^ 8 + r) = key b s f r.
Proof.
  unfold bdf_ok. intros (Hb & Hs & Hf) Hr. unfold decode.
  set (a := _ + r).
  assert (Ha : a = r + (f + (s + (b + 2 ^ 15) * 2 ^ 5) * 2 ^ 3) * 2 ^ 8) by (unfold a; lia).
  assert (H8 : a / 2 ^ 8 = f + (s + (b + 2 ^ 15) * 2 ^ 5) * 2 ^ 3)
    by (rewrite Ha, Z.div_add, Z.div_small by lia; lia).
  assert (H11 : a / 2 ^ 11 = s + (b + 2 ^ 15) * 2 ^ 5).
  { change (2 ^ 11) with (2 ^ 8 * 2 ^ 3). rewrite <- Z.div_div, H8, Z.div_add, Z.div_small by lia. lia. }
  assert (H16 : a / 2 ^ 16 = b + 2 ^ 15).
  { change (2 ^ 16) with (2 ^ 11 * 2 ^ 5). rewrite <- Z.div_div, H11, Z.div_add, Z.div_small by lia. lia. }
  rewrite H8, H11, H16. f_equal.
  - change (2 ^ 15) with (2 ^ 7 * 2 ^ 8). rewrite Z.mod_add, Z.mod_small by lia. lia.
  - rewrite Z.mod_add, Z.mod_small by lia. lia.
  - rewrite Z.mod_add, Z.mod_small by lia. lia.
  - rewrite Ha, Z.mod_add, Z.mod_small by lia. lia.
Qed.

#[local] Instance sample_bus_space wr ecam :
  0 ≤ ecam ∧ ecam + 2 ^ 28 ≤ 2 ^ 64 → @ConfigSpace sample_bus (sample_bus_hw wr ecam) (@flat _ (sample_bus_hw wr ecam)) ecam.
Proof.
  intros Hw. refine (@Build_ConfigSpace sample_bus (sample_bus_hw wr ecam) (@flat _ (sample_bus_hw wr ecam)) ecam regs wr Hw _ _ _ _).
  - intros h k _ _. exists h. simpl. by replace (ecam + k - ecam) with k by lia.
  - intros h k v _ _. eexists. split; [reflexivity|]. simpl. by replace (ecam + k - ecam) with k by lia.
  - intros h b s f r ? ? ? ? ?. eexists. simpl port_out. simpl port_in.
    rewrite decode_sum by (unfold bdf_ok; lia). split; reflexivity.
  - intros h b s f r v ? ? ? ? ?. simpl. by rewrite decode_sum by (unfold bdf_ok; lia).
Defined.

(** The rules of the sample runs: every register plain; one register a BAR. *)
Definition store_at (c : Z → Z) (k v : Z) : Z → Z := λ k', if k' =? k then v else c k'.
Definition bar_at (bar n fl : Z) (c : Z → Z) (k v : Z) : Z → Z :=
  λ k', if k' =? k then keep_high n v + fl else c k'.

Definition sample_dev : PCIDevice := mkPCI 0x10ec 0x8139 2 0 0 3 0.

Lemma ports_ok : 0 ≤ 0 ∧ 0 + 2 ^ 28 ≤ 2 ^ 64.
Proof. lia. Qed.

Lemma window_sample_ok : 0 ≤ 0xB0000000 ∧ 0xB0000000 + 2 ^ 28 ≤ 2 ^ 64.
Proof. lia. Qed.

(** ** Properties *)

(** C21: Through the ECAM window and through the ports alike (whatever
    [ECAM_BASE] is), [read_config] answers with the addressed register of the
    addressed function and changes none, [write_config] writes exactly that
    register; and no two (bus, slot, function, register) quadruples share an
    address. *)
Theorem config_access_correct {H : Type} `{Hardware H} {MM : Mmio H} (ecam : Z) `{!ConfigSpace H ecam}
    (h : H) (d : PCIDevice) (r v : Z) :
  dev_ok d → reg_ok r →
  io_returns (read_config ecam d r) h (λ x h',
    x = config ecam h (dkey d r) ∧ config ecam h' = config ecam h) ∧
  io_returns (write_config ecam d r v) h (λ _ h',
    config ecam h' = cfg_write ecam (config ecam h) (dkey d r) v) ∧
  (∀ d' r', dev_ok d' → reg_ok r' → dkey d' r' = dkey d r →
     bus d' = bus d ∧ slot d' = slot d ∧ func d' = func d ∧ r' = r).
Proof.
  intros Hd Hr. split; [|split].
  - destruct (read_config_spec d r h Hd Hr) as (h' & E & C). by exists (config ecam h (dkey d r)), h'.
  - destruct (write_config_spec d r v h Hd Hr) as (h' & E & C). by exists (), h'.
  - unfold dev_ok, bdf_ok, reg_ok, dkey, key in *. intros d' r' Hd' Hr' He. lia.
Qed.

Lemma config_access_correct_witness :
  let hw := sample_bus_hw store_at 0 in
  let h := mkBus 0 (λ k, k) in
  ∃ h', read_config 0 sample_dev 8 h = Ret (dkey sample_dev 8, h').
Proof.
  destruct (@config_access_correct sample_bus (sample_bus_hw store_at 0) _ 0
    (sample_bus_space store_at 0 ports_ok) (mkBus 0 (λ k, k)) sample_dev 8 0
    ltac:(unfold dev_ok, bdf_ok; simpl; lia) ltac:(unfold reg_ok; split; [lia|reflexivity]))
    as ((x & h' & E & -> & _) & _). exists h'. exact E.
Defined.

(** C22: On registers that keep what is written, a 16-bit (8-bit) write at any
    naturally aligned offset is read back by a 16-bit (8-bit) read of that
    offset and of no other: every other half-word (byte) of the device keeps
    its value. *)
Theorem subword_write_read {H : Type} `{Hardware H} {MM : Mmio H} (ecam : Z) `{!ConfigSpace H ecam}
    (h : H) (d : PCIDevice) (o o' v : Z) :
  dev_ok d → 0 ≤ o < 256 → 0 ≤ o' < 256 → plain_register (ecam:=ecam) (dkey d (o - o mod 4)) →
  (o mod 2 = 0 → o' mod 2 = 0 → in_width 16 v →
     io_returns (old ← read_config_u16 ecam d o'; _ ← write_config_u16 ecam d o v;
                 new ← read_config_u16 ecam d o'; ret (old, new)) h (λ '(old, new) _,
       new = if o' =? o then v else old)) ∧
  (in_width 8 v →
     io_returns (old ← read_config_u8 ecam d o'; _ ← write_config_u8 ecam d o v;
                 new ← read_config_u8 ecam d o'; ret (old, new)) h (λ '(old, new) _,
       new = if o' =? o then v else old)).
Proof.
  intros Hd Ho Ho' Hp. split.
  - intros Hal Hal' Hv. destruct (read_config_u16_spec d o' h Hd Ho') as (h1 & E1 & C1).
    destruct (subword_write_spec 16 d o v h1 Hd Ho) as (h2 & E2 & C2).
    destruct (read_config_u16_spec d o' h2 Hd Ho') as (h3 & E3 & C3).
    eexists _, h3. rewrite (io_bind_Ret _ _ _ _ _ E1), (io_bind_Ret _ _ _ _ _ E2).
    rewrite (io_bind_Ret _ _ _ _ _ E3). split; [reflexivity|].
    rewrite (subword_write_lanes 16 d o v h1 h2) by (done || by right).
    unfold lane_at. by rewrite C1.
  - intros Hv. destruct (read_config_u8_spec d o' h Hd Ho') as (h1 & E1 & C1).
    destruct (subword_write_spec 8 d o v h1 Hd Ho) as (h2 & E2 & C2).
    destruct (read_config_u8_spec d o' h2 Hd Ho') as (h3 & E3 & C3).
    eexists _, h3. rewrite (io_bind_Ret _ _ _ _ _ E1), (io_bind_Ret _ _ _ _ _ E2).
    rewrite (io_bind_Ret _ _ _ _ _ E3). split; [reflexivity|].
    rewrite (subword_write_lanes 8 d o v h1 h2) by (done || apply Z.mod_1_r || by left).
    unfold lane_at. by rewrite C1.
Qed.

Lemma subword_write_read_witness :
  let hw := sample_bus_hw store_at 0xB0000000 in
  let h := mkBus 0 (λ k, 0x12345678) in
  io_returns (old ← read_config_u16 0xB0000000 sample_dev 6; _ ← write_config_u16 0xB0000000 sample_dev 4 0xBEEF;
              new ← read_config_u16 0xB0000000 sample_dev 6; ret (old, new)) h (λ '(old, new) _, new = old).
Proof.
  apply (@subword_write_read sample_bus (sample_bus_hw store_at 0xB0000000) _ 0xB0000000
    (sample_bus_space store_at 0xB0000000 window_sample_ok) (mkBus 0 (λ k, 0x12345678)) sample_dev 4 6 0xBEEF);
    first [reflexivity|intros c x k'; reflexivity|unfold dev_ok, bdf_ok, in_width; simpl; lia].
Defined.

(** C23: [probe_bar_size] of a memory base address register that decodes [2^n]
    bytes (32-bit: [4 ≤ n ≤ 31]; 64-bit, over two registers: [4 ≤ n < 64])
    answers [2^n], and leaves every register of the machine as it was. *)
Theorem probe_bar_size_correct {H : Type} `{Hardware H} {MM : Mmio H} (ecam : Z) `{!ConfigSpace H ecam}
    (h : H) (d : PCIDevice) (bar n fl : Z) :
  let k := dkey d (0x10 + bar * 4) in
  let k4 := dkey d (0x10 + bar * 4 + 4) in
  let is_64 := Z.land (Z.shiftr (config ecam h k) 1) 3 =? 2 in
  dev_ok d → Z.land (config ecam h k) 1 = 0 →
  (if is_64 then 0 ≤ bar ≤ 4 ∧ 4 ≤ n < 64 else 0 ≤ bar ≤ 5 ∧ 4 ≤ n ≤ 31) →
  bar_register (ecam:=ecam) k (Z.min n 32) fl → config ecam h k mod 2 ^ Z.min n 32 = fl →
  (is_64 = true → bar_register (ecam:=ecam) k4 (Z.max 32 n - 32) 0 ∧
                  config ecam h k4 mod 2 ^ (Z.max 32 n - 32) = 0) →
  io_returns (probe_bar_size ecam d bar) h (λ o h',
    o = Some (2 ^ n) ∧ ∀ k, config ecam h' k = config ecam h k).
Proof.
  intros k k4 is_64 Hd Hmem Hn Hb Hold H4. unfold is_64 in *.
  destruct (Z.eqb_spec (Z.land (Z.shiftr (config ecam h k) 1) 3) 2) as [H64|H64].
  - destruct Hn, (H4 eq_refl). by apply (probe_bar_size_64 d bar h n fl).
  - destruct Hn. rewrite Z.min_l in * by lia. by apply (probe_bar_size_32 d bar h n fl).
Qed.

Lemma probe_bar_size_correct_witness :
  let hw := sample_bus_hw (bar_at (dkey sample_dev 0x14) 12 0) 0 in
  let h := mkBus 0 (store_at (λ k, 0) (dkey sample_dev 0x14) 0xFEB00000) in
  ∃ h', probe_bar_size 0 sample_dev 1 h = Ret (Some 4096, h').
Proof.
  destruct (@probe_bar_size_correct sample_bus (sample_bus_hw (bar_at (dkey sample_dev 0x14) 12 0) 0) _ 0
    (sample_bus_space (bar_at (dkey sample_dev 0x14) 12 0) 0 ports_ok)
    (mkBus 0 (store_at (λ k, 0) (dkey sample_dev 0x14) 0xFEB00000)) sample_dev 1 12 0)
    as (o & h' & E & -> & _).
  - unfold dev_ok, bdf_ok. simpl. lia.
  - reflexivity.
  - simpl. lia.
  - split; [lia|]. intros c v k'. reflexivity.
  - reflexivity.
  - discriminate.
  - exists h'. exact E.
Defined.

(** C24: [scan_pci_bus] lists, in bus, slot and function order, the functions
    whose vendor id is not 0xFFFF; but of a slot with a function 0 it looks at
    the others when bit 7 of the vendor id of function 0 is set, and not when
    the header type says that the device has several functions: where that bit
    is clear, functions 1 to 7 are never listed. *)
Theorem scan_pci_bus_exact {H : Type} `{Hardware H} {MM : Mmio H} (ecam : Z) `{!ConfigSpace H ecam} (h : H) :
  let c := config ecam h in
  io_returns (scan_pci_bus ecam) h (λ devs h',
    config ecam h' = c ∧
    devs = all_found c ∧
    (∀ b s f d, d ∈ devs → bus d = b → slot d = s → func d = f →
       0 < f → device_at c b s 0 = None ∨ Z.testbit (c (key b s 0 0)) 7 = true)).
Proof.
  intros c. destruct (reads_scan (ecam:=ecam) c h) as (h' & E & C); [done|].
  eexists _, h'. split; [exact E|]. split; [done|]. split; [done|].
  intros b s f d (b' & Hd & Hb')%list_elem_of_bind Hb Hs Hf Hpos.
  apply list_elem_of_bind in Hd as (s' & Hd & Hs'). pose proof (found_bdf _ _ _ _ Hd) as [Eb Es].
  rewrite Hb in Eb. rewrite Hs in Es. subst b' s'. unfold found, scans_all in Hd.
  destruct (device_at c b s 0) as [d0|] eqn:Hf0; [right|by left].
  destruct (Z.testbit (c (key b s 0 0)) 7); [done|]. simpl in Hd. rewrite Hf0 in Hd.
  apply list_elem_of_singleton in Hd as ->. unfold device_at in Hf0.
  destruct (_ =? _); [done|]. injection Hf0 as <-. simpl in Hf. lia.
Qed.

Definition bus_master_write (cmd : Z) : Z := Z.lor cmd 5.

(** On a device that keeps its command register, [enable_bus_master]
    answers true with bits 0 and 2 of the command register set and every other
    bit of the register as it was: [PCI_CMD_MEMORY_ENABLE] is bit 0, which
    enables I/O space, so memory space (bit 1) is not enabled by it. *)
Theorem enable_bus_master_exact {H : Type} `{Hardware H} {MM : Mmio H} (ecam : Z) `{!ConfigSpace H ecam}
    (h : H) (d : PCIDevice) :
  dev_ok d → plain_register (ecam:=ecam) (dkey d 4) → in_width 32 (config ecam h (dkey d 4)) →
  io_returns (enable_bus_master ecam d) h (λ ok h',
    ok = true ∧ (∀ k, k ≠ dkey d 4 → config ecam h' k = config ecam h k) ∧
    config ecam h' (dkey d 4) = bus_master_write (config ecam h (dkey d 4))).
Proof.
  intros Hd Hp Hw. set (cmd0 := config ecam h (dkey d 4)) in *.
  destruct (read_config_u16_spec d 4 h Hd ltac:(lia)) as (h1 & E1 & C1).
  set (v := Z.lor (Z.lor (lane_at (ecam:=ecam) 16 h d 4) PCI_CMD_MEMORY_ENABLE) PCI_CMD_BUS_MASTER).
  destruct (subword_write_spec 16 d 4 v h1 Hd ltac:(lia)) as (h2 & E2 & C2).
  destruct (read_config_u16_spec d 4 h2 Hd ltac:(lia)) as (h3 & E3 & C3).
  assert (Hlow : in_width 16 (lane_at (ecam:=ecam) 16 h d 4)) by (apply wrap_in_width; lia).
  assert (Hv : in_width 16 v).
  { unfold v. apply in_width_lor; [lia|apply in_width_lor; [lia|done|done]|done]. }
  change (4 - 4 mod 4) with 4 in C2. change (4 mod 4 * 8) with 0 in C2.
  rewrite C1 in C2. fold cmd0 in C2.
  assert (Hm : config ecam h2 (dkey d 4) = merge (2 ^ 16 - 1) cmd0 v 0)
    by (rewrite C2, Hp, Z.eqb_refl; done).
  unfold enable_bus_master, PCI_CMD_OFFSET. eexists _, h3.
  rewrite (io_bind_Ret _ _ _ _ _ E1). fold v. rewrite (io_bind_Ret _ _ _ _ _ E2).
  rewrite (io_bind_Ret _ _ _ _ _ E3). split; [reflexivity|]. split; [|split].
  - unfold lane_at. change (4 - 4 mod 4) with 4. change (4 mod 4 * 8) with 0.
    rewrite Hm, lane_merge by (lia || done).
    unfold PCI_CMD_BUS_MASTER at 1. rewrite testbit_land_pow2 by lia. unfold v.
    rewrite Z.lor_spec. change (Z.testbit PCI_CMD_BUS_MASTER 2) with true. by rewrite orb_true_r.
  - intros k Hk. rewrite C3, C2, Hp. by rewrite (proj2 (Z.eqb_neq _ _)).
  - rewrite C3, Hm. apply (in_width_ext 32); [by apply merge_in_width| |].
    { unfold bus_master_write. by apply in_width_lor. }
    intros i Hi. rewrite merge_testbit by (lia || done). unfold bus_master_write. rewrite Z.lor_spec.
    rewrite (proj2 (Z.leb_le 0 i)) by lia. cbn [andb]. change (0 + 16) with 16. destruct (Z.ltb_spec i 16).
    + rewrite Z.sub_0_r. unfold v. rewrite !Z.lor_spec. unfold lane_at, lane.
      change (4 - 4 mod 4) with 4. change (4 mod 4 * 8) with 0. fold cmd0.
      rewrite wrap_testbit, Z.shiftr_0_r by lia. rewrite <- orb_assoc. f_equal.
      rewrite <- Z.lor_spec. done.
    + rewrite (testbit_above 3 5 i) by (done || lia). by rewrite orb_false_r.
Qed.

Lemma enable_bus_master_exact_witness :
  let hw := sample_bus_hw store_at 0 in
  let h := mkBus 0 (λ k, 0x02100000) in
  ∃ h', enable_bus_master 0 sample_dev h = Ret (true, h').
Proof.
  destruct (@enable_bus_master_exact sample_bus (sample_bus_hw store_at 0) _ 0
    (sample_bus_space store_at 0 ports_ok) (mkBus 0 (λ k, 0x02100000)) sample_dev)
    as (x & h' & E & -> & _).
  - unfold dev_ok, bdf_ok. simpl. lia.
  - intros c v k'. reflexivity.
  - split; simpl; lia.
  - exists h'. exact E.
Defined.
