(* ===== verification/Apic.v ===== *)
(** * Interrupt controllers (kernel/src/apic.rs, and their set-up in
    [kernel_main])

    The local APIC, the I/O APIC behind its index and data registers, the
    redirection entries [RedTbl], and the loop of [kernel_main] that points
    the 24 entries at the vectors from 50 on.  [PMO], the offset of the
    mapping of physical memory, is a parameter. *)

From S2P Require Import Prelude Hardware Arch.
Open Scope Z_scope.
Open Scope rust_scope.

(** ** Redirection entries *)

Record RedTbl : Type := mkRed {
  vector : Z;
  delivery_mode : Z;
  destination_mode : bool;
  delivery_status : bool;
  pin_polarity : bool;
  remote_irr : bool;
  trigger_mode : bool;
  mask : bool;
  destination : Z;
}.

Definition red_new (n : Z) : RedTbl :=
  let c := n in
  let vector := wrap 8 (Z.land c 0xff) in
  let c := Z.shiftr c 8 in
  let delivery_mode := wrap 8 (Z.land c 3) in
  let c := Z.shiftr c 2 in
  let destination_mode := negb (Z.land c 1 =? 0) in
  let c := Z.shiftr c 1 in
  let delivery_status := negb (Z.land c 1 =? 0) in
  let c := Z.shiftr c 1 in
  let pin_polarity := negb (Z.land c 1 =? 0) in
  let c := Z.shiftr c 1 in
  let remote_irr := negb (Z.land c 1 =? 0) in
  let c := Z.shiftr c 1 in
  let trigger_mode := negb (Z.land c 1 =? 0) in
  let c := Z.shiftr c 1 in
  let mask := negb (Z.land c 1 =? 0) in
  let destination := wrap 8 (Z.shiftr n 56) in
  mkRed vector delivery_mode destination_mode delivery_status pin_polarity remote_irr
        trigger_mode mask destination.

Definition bit (b : bool) : Z := if b then 1 else 0.

Definition red_store (e : RedTbl) : outcome Z :=
  let r := 0 in
  r ← r +[64] shl 64 (destination e) 56;
  r ← r +[64] vector e;
  r ← r +[64] shl 64 (delivery_mode e) 8;
  r ← r +[64] shl 64 (bit (destination_mode e)) 10;
  r ← r +[64] shl 64 (bit (delivery_status e)) 11;
  r ← r +[64] shl 64 (bit (pin_polarity e)) 12;
  r ← r +[64] shl 64 (bit (remote_irr e)) 13;
  r ← r +[64] shl 64 (bit (trigger_mode e)) 14;
  r ← r +[64] shl 64 (bit (mask e)) 15;
  Ret r.

(** ** The devices *)

Record LocalApic : Type := mkLapic { lapic_address : Z }.
Record IoApic : Type := mkIoapic { virt_address : Z; global_system_int : Z; id : Z }.

(** [OnceCell::get_or_init]: the contents of the cell and the reference it gives. *)
Definition get_or_init {A} (cell : option A) (a : A) : A * option A :=
  match cell with Some x => (x, cell) | None => (a, Some a) end.

(** [cpuid]: the crate's reader over the instruction, leaf and sub-leaf to
    the four registers.  The instruction is an argument. *)
Record CpuIdResult : Type := mkCpuIdResult { eax : Z; ebx : Z; ecx : Z; edx : Z }.

Definition cpuid (cpuid_count : Z → Z → CpuIdResult) : option (Z → Z → CpuIdResult) :=
  Some (λ a c, let result := cpuid_count a c in mkCpuIdResult (eax result) (ebx result) (ecx result) (edx result)).

Section apic.
Context {X : X86} {H : Type} `{Hardware H} {MM : Mmio H} (PMO : Z).

Definition lapic_read (l : LocalApic) (reg : Z) : io H Z :=
  a ← lift (lapic_address l +[64] reg); read32 a.
Definition lapic_write (l : LocalApic) (reg value : Z) : io H unit :=
  a ← lift (lapic_address l +[64] reg); write32 a value.

(** The writes of [disable_pic], each followed by one to port 0x80. *)
Definition pic_writes : list (Z * Z) :=
  [(0x20, 0x11); (0xA0, 0x11); (0x21, 0xf0); (0xA1, 0xf8); (0x21, 0x4); (0xA1, 0x2);
   (0x21, 0x1); (0xA1, 0x1); (0x21, 0xff); (0xA1, 0xff)].

Fixpoint write_and_wait (ws : list (Z * Z)) : io H unit :=
  match ws with
  | [] => ret ()
  | (p, v) :: ws => _ ← out8 p v; _ ← out8 0x80 0; write_and_wait ws
  end.

Definition disable_pic : io H unit := write_and_wait pic_writes.

Definition lapic_init (LAPIC : option LocalApic) (local_apic_address : Z) :
    io H (LocalApic * option LocalApic) :=
  _ ← disable_pic;
  a ← lift (local_apic_address +[64] PMO);
  virtaddr ← lift (virt_new a);
  let '(r, cell) := get_or_init LAPIC (mkLapic virtaddr) in
  m ← rdmsr 0x1B;
  _ ← wrmsr 0x1B (Z.lor m (Z.shiftl 1 11));
  v ← lapic_read r 0xF0;
  _ ← lapic_write r 0xF0 (Z.lor v 0x1FF);
  ret (r, cell).

Definition lapic_id (l : LocalApic) : io H Z := lapic_read l 0x20.
Definition lapic_version (l : LocalApic) : io H Z := lapic_read l 0x30.

Definition icr (l : LocalApic) : io H Z :=
  hi ← lapic_read l 0x310;
  lo ← lapic_read l 0x300;
  ret (Z.lor (shl 64 hi 32) lo).

Definition PENDING : Z := Z.shiftl 1 12.

(** The busy loop on the delivery status. *)
Fixpoint wait_not_pending (fuel : nat) (l : LocalApic) : io H unit :=
  match fuel with
  | O => λ _, OutOfFuel
  | S fuel =>
      v ← lapic_read l 0x300;
      if Z.land v PENDING =? PENDING then wait_not_pending fuel l else ret ()
  end.

Definition set_icr (fuel : nat) (l : LocalApic) (value : Z) : io H unit :=
  _ ← wait_not_pending fuel l;
  _ ← lapic_write l 0x310 (wrap 32 (Z.shiftr value 32));
  _ ← lapic_write l 0x300 (wrap 32 value);
  wait_not_pending fuel l.

Definition ipi (fuel : nat) (l : LocalApic) (apic_id : Z) : io H unit :=
  set_icr fuel l (Z.lor 0x4040 (shl 64 apic_id 56)).
Definition ipi_nmi (fuel : nat) (l : LocalApic) (apic_id : Z) : io H unit :=
  set_icr fuel l (Z.lor (Z.lor (shl 64 apic_id 56) (Z.shiftl 1 14)) (Z.shiftl 4 8)).

Definition eoi (l : LocalApic) : io H unit := lapic_write l 0xB0 0.
Definition esr (l : LocalApic) : io H Z := _ ← lapic_write l 0x280 0; lapic_read l 0x280.
Definition set_lvt_timer (l : LocalApic) (value : Z) : io H unit := lapic_write l 0x320 value.
Definition set_init_count (l : LocalApic) (n : Z) : io H unit := lapic_write l 0x380 n.
Definition set_div_conf (l : LocalApic) (d : Z) : io H unit := lapic_write l 0x3E0 d.
Definition set_lvt_error (l : LocalApic) (e : Z) : io H unit := lapic_write l 0x370 e.
Definition setup_error_int (l : LocalApic) : io H unit := set_lvt_error l 49.

Definition set_sel (a : IoApic) (reg : Z) : io H unit := write32 (virt_address a) reg.
Definition ioapic_read (a : IoApic) (reg : Z) : io H Z :=
  _ ← set_sel a reg;
  sec ← lift (virt_add (virt_address a) 0x10);
  read32 sec.
Definition ioapic_write (a : IoApic) (reg value : Z) : io H unit :=
  _ ← set_sel a reg;
  sec ← lift (virt_add (virt_address a) 0x10);
  write32 sec value.

Definition redtlb_index (index : Z) : outcome Z := i ← 2 *[32] index; 0x10 +[32] i.

Definition read_redtlb (a : IoApic) (index : Z) : io H Z :=
  i ← lift (redtlb_index index);
  low ← ioapic_read a i;
  j ← lift (i +[32] 1);
  high ← ioapic_read a j;
  lift (shl 64 high 32 +[64] low).

Definition write_redtlb (a : IoApic) (index redtlb : Z) : io H unit :=
  i ← lift (redtlb_index index);
  _ ← ioapic_write a i (Z.land redtlb 0xffff);
  j ← lift (i +[32] 1);
  ioapic_write a j (wrap 32 (Z.shiftr redtlb 32)).

(** The timer and the redirection loop of [kernel_main]. *)
Definition start_timer (l : LocalApic) (freq : Z) : io H unit :=
  _ ← set_div_conf l 0xb;
  _ ← set_lvt_timer l (Z.shiftl 1 17 + 48);
  set_init_count l freq.

Definition with_vector (e : RedTbl) (v : Z) : RedTbl :=
  mkRed v (delivery_mode e) (destination_mode e) (delivery_status e) (pin_polarity e)
        (remote_irr e) (trigger_mode e) (mask e) (destination e).

Definition route_one (a : IoApic) (i : Z) : io H unit :=
  n ← read_redtlb a i;
  v ← lift (50 +[32] i);
  let red := with_vector (red_new n) (wrap 8 v) in
  stored ← lift (red_store red);
  write_redtlb a i stored.

Fixpoint route_all (a : IoApic) (ixs : list Z) : io H unit :=
  match ixs with
  | [] => ret ()
  | i :: ixs => _ ← route_one a i; route_all a ixs
  end.

Definition route_irqs (a : IoApic) : io H unit := route_all a (seqZ 0 24).

(** The crate's description of an I/O APIC, and [IoApic::init] on the cell
    [IO_APIC_0]: the closure is not run where the cell is full. *)
Record IoApicInfo : Type := mkIoApicInfo { info_id : Z; address : Z; global_system_interrupt_base : Z }.

Definition ioapic_init (IO_APIC_0 : option IoApic) (info : IoApicInfo) : outcome (IoApic * option IoApic) :=
  match IO_APIC_0 with
  | Some a => Ret (a, IO_APIC_0)
  | None =>
      pa ← phys_new (address info);
      a ← pa +[64] PMO;
      v ← virt_new a;
      Ret (get_or_init IO_APIC_0 (mkIoapic v (global_system_interrupt_base info) (info_id info)))
  end.

(** The loop of [kernel_main] over the I/O APICs. *)
Fixpoint init_ioapics (IO_APIC_0 : option IoApic) (infos : list IoApicInfo) : io H (option IoApic) :=
  match infos with
  | [] => ret IO_APIC_0
  | info :: infos =>
      '(a, cell) ← lift (ioapic_init IO_APIC_0 info);
      _ ← route_irqs a;
      init_ioapics cell infos
  end.
End apic.

(** ** Redirection entries, as numbers *)

Definition red_ok (e : RedTbl) : Prop :=
  in_width 8 (vector e) ∧ in_width 2 (delivery_mode e) ∧ in_width 8 (destination e).

Definition red_value (e : RedTbl) : Z :=
  vector e + 2 ^ 8 * (delivery_mode e + 4 * (bit (destination_mode e) + 2 * (bit (delivery_status e)
  + 2 * (bit (pin_polarity e) + 2 * (bit (remote_irr e) + 2 * (bit (trigger_mode e)
  + 2 * bit (mask e))))))) + 2 ^ 56 * destination e.

Lemma bit_range b : 0 ≤ bit b ≤ 1.
Proof. destruct b; simpl; lia. Qed.

Lemma shl_mul w x n : 0 ≤ n → 0 ≤ x * 2 ^ n < 2 ^ w → shl w x n = x * 2 ^ n.
Proof. intros. unfold shl, wrap. rewrite Z.shiftl_mul_pow2 by done. by apply Z.mod_small. Qed.

Lemma red_store_value e : red_ok e → red_store e = Ret (red_value e).
Proof.
  destruct e as [v dm b1 b2 b3 b4 b5 b6 dst]. unfold red_ok, in_width, red_store, red_value. simpl.
  intros (Hv & Hdm & Hdst).
  pose proof (bit_range b1). pose proof (bit_range b2). pose proof (bit_range b3).
  pose proof (bit_range b4). pose proof (bit_range b5). pose proof (bit_range b6).
  rewrite !shl_mul by lia. do 9 checked_step. f_equal. lia.
Qed.

(** The fields by division. *)
Lemma land_1_bit c : bit (negb (Z.land c 1 =? 0)) = c mod 2.
Proof.
  change 1 with (2 ^ 1 - 1) at 1. rewrite land_low_mask by done. change (2 ^ 1) with 2.
  pose proof (Z.mod_pos_bound c 2 ltac:(lia)). destruct (Z.eqb_spec (c mod 2) 0); simpl; lia.
Qed.

Lemma bit_inj b c : bit b = bit c → b = c.
Proof. by destruct b, c. Qed.

Definition red_bits (n : Z) : list Z :=
  [n / 2 ^ 10 mod 2; n / 2 ^ 11 mod 2; n / 2 ^ 12 mod 2; n / 2 ^ 13 mod 2; n / 2 ^ 14 mod 2;
   n / 2 ^ 15 mod 2].

Lemma red_new_fields n :
  in_width 64 n →
  vector (red_new n) = n mod 2 ^ 8 ∧ delivery_mode (red_new n) = n / 2 ^ 8 mod 4 ∧
  bit <$> [destination_mode (red_new n); delivery_status (red_new n); pin_polarity (red_new n);
           remote_irr (red_new n); trigger_mode (red_new n); mask (red_new n)] = red_bits n ∧
  destination (red_new n) = n / 2 ^ 56.
Proof.
  intros [Hn0 Hn]. unfold red_new. cbn [vector delivery_mode destination_mode delivery_status
    pin_polarity remote_irr trigger_mode mask destination fmap list_fmap].
  rewrite !land_1_bit, !Z.shiftr_shiftr by lia. rewrite !Z.shiftr_div_pow2 by lia.
  change 255 with (2 ^ 8 - 1). change 3 with (2 ^ 2 - 1). rewrite !land_low_mask by lia.
  pose proof (Z.mod_pos_bound n (2 ^ 8) ltac:(lia)).
  pose proof (Z.mod_pos_bound (n / 2 ^ 8) 4 ltac:(lia)).
  split_and!.
  - apply in_width_wrap. done.
  - apply in_width_wrap. change (2 ^ 2) with 4. unfold in_width. lia.
  - reflexivity.
  - apply in_width_wrap. split; [apply Z.div_pos; lia|]. apply Z.div_lt_upper_bound; lia.
Qed.

Lemma red_new_ok n : in_width 64 n → red_ok (red_new n).
Proof.
  intros Hn. destruct (red_new_fields n Hn) as (Hv & Hdm & _ & Hd). unfold red_ok, in_width.
  rewrite Hv, Hdm, Hd. destruct Hn. pose proof (Z.mod_pos_bound n (2 ^ 8) ltac:(lia)).
  pose proof (Z.mod_pos_bound (n / 2 ^ 8) 4 ltac:(lia)).
  pose proof (Z.div_pos n (2 ^ 56) ltac:(lia) ltac:(lia)).
  pose proof (Z.div_lt_upper_bound n (2 ^ 56) (2 ^ 8) ltac:(lia) ltac:(lia)). lia.
Qed.

Lemma split_mod n a b : 0 < a → 0 < b → n mod (a * b) = n mod a + a * (n / a mod b).
Proof. intros. apply Z.rem_mul_r; lia. Qed.

(** What survives of a 64-bit word: bits 0 to 15 and 56 to 63. *)
Lemma red_value_new n : in_width 64 n → red_value (red_new n) = n mod 2 ^ 16 + 2 ^ 56 * (n / 2 ^ 56).
Proof.
  intros Hn. destruct (red_new_fields n Hn) as (Hv & Hdm & Hb & Hd). unfold red_value.
  revert Hv Hdm Hb Hd. generalize (red_new n). intros e Hv Hdm Hb Hd.
  simpl fmap in Hb. unfold red_bits in Hb. injection Hb as B1 B2 B3 B4 B5 B6.
  rewrite Hv, Hdm, B1, B2, B3, B4, B5, B6, Hd. f_equal.
  change (2 ^ 16) with (2 ^ 8 * (4 * (2 * (2 * (2 * (2 * (2 * 2))))))).
  rewrite !split_mod by lia.
  change (2 ^ 10) with (2 ^ 8 * 4). change (2 ^ 11) with (2 ^ 8 * 4 * 2).
  change (2 ^ 12) with (2 ^ 8 * 4 * 2 * 2). change (2 ^ 13) with (2 ^ 8 * 4 * 2 * 2 * 2).
  change (2 ^ 14) with (2 ^ 8 * 4 * 2 * 2 * 2 * 2).
  change (2 ^ 15) with (2 ^ 8 * 4 * 2 * 2 * 2 * 2 * 2).
  rewrite <- !Z.div_div by lia. lia.
Qed.

Lemma red_new_value e : red_ok e → red_new (red_value e) = e.
Proof.
  intros Hok. pose proof Hok as (Hv & Hdm & Hdst). unfold in_width in *.
  assert (Hr : ∀ b, 0 ≤ bit b ≤ 1) by apply bit_range.
  pose proof (Hr (destination_mode e)). pose proof (Hr (delivery_status e)).
  pose proof (Hr (pin_polarity e)). pose proof (Hr (remote_irr e)).
  pose proof (Hr (trigger_mode e)). pose proof (Hr (mask e)).
  assert (Hw : in_width 64 (red_value e)) by (unfold in_width, red_value; lia).
  destruct (red_new_fields _ Hw) as (Fv & Fdm & Fb & Fd).
  revert Fv Fdm Fb Fd. generalize (red_new (red_value e)). intros e' Fv Fdm Fb Fd.
  assert (Hq : ∀ x y a, 0 < a → 0 ≤ x < a → (x + a * y) / a = y ∧ (x + a * y) mod a = x).
  { intros x y a Ha Hx. rewrite (Z.mul_comm a), Z.div_add, Z.mod_add, Z.div_small, Z.mod_small by lia.
    lia. }
  simpl fmap in Fb. unfold red_bits in Fb. injection Fb as B1 B2 B3 B4 B5 B6.
  assert (E8 : red_value e / 2 ^ 8 = delivery_mode e + 4 * (bit (destination_mode e)
    + 2 * (bit (delivery_status e) + 2 * (bit (pin_polarity e) + 2 * (bit (remote_irr e)
    + 2 * (bit (trigger_mode e) + 2 * (bit (mask e) + 2 * (2 ^ 40 * destination e))))))) ∧
    red_value e mod 2 ^ 8 = vector e).
  { unfold red_value. rewrite <- Z.add_assoc.
    match goal with |- (_ + ?t) / _ = _ ∧ _ =>
      replace t with (2 ^ 8 * (delivery_mode e + 4 * (bit (destination_mode e)
        + 2 * (bit (delivery_status e) + 2 * (bit (pin_polarity e) + 2 * (bit (remote_irr e)
        + 2 * (bit (trigger_mode e) + 2 * (bit (mask e) + 2 * (2 ^ 40 * destination e))))))))) by lia end.
    by apply Hq. }
  destruct E8 as [E8 E0].
  assert (Hdd : ∀ a b, 0 < a → 0 < b → red_value e / (a * b) = red_value e / a / b)
    by (intros; symmetry; apply Z.div_div; lia).
  change (2 ^ 10) with (2 ^ 8 * 4) in *. change (2 ^ 11) with (2 ^ 8 * 4 * 2) in *.
  change (2 ^ 12) with (2 ^ 8 * 4 * 2 * 2) in *. change (2 ^ 13) with (2 ^ 8 * 4 * 2 * 2 * 2) in *.
  change (2 ^ 14) with (2 ^ 8 * 4 * 2 * 2 * 2 * 2) in *.
  change (2 ^ 15) with (2 ^ 8 * 4 * 2 * 2 * 2 * 2 * 2) in *.
  change (2 ^ 56) with (2 ^ 8 * 4 * 2 * 2 * 2 * 2 * 2 * 2 * 2 ^ 40) in Fd.
  rewrite !Hdd, E8 in * by lia.
  repeat match goal with
  | H : context [(?x + ?a * ?y) / ?a] |- _ => rewrite (proj1 (Hq x y a ltac:(lia) ltac:(lia))) in H
  end.
  repeat match goal with
  | H : context [(?x + ?a * ?y) mod ?a] |- _ => rewrite (proj2 (Hq x y a ltac:(lia) ltac:(lia))) in H
  end.
  rewrite Z.mul_comm, Z.div_mul in Fd by lia. rewrite E0 in Fv. clear E0 E8 Hw Hdd.
  destruct e', e; simpl in *.
  apply bit_inj in B1, B2, B3, B4, B5, B6. by subst.
Qed.

(** ** The I/O APIC behind its two registers *)

(** [iregs h]: the registers; a write takes the bits that are not
    [read_only].  The documentation of the device makes the vector, the mask
    bit 16 and the mode bits writable. *)
Class IoApicDevice (H : Type) `{Hardware H} {MM : Mmio H} (a : IoApic) := {
  iregs : H → Z → Z;
  iregs_width h r : in_width 32 (iregs h r);
  address_ok : canonical (virt_address a) ∧ canonical (virt_address a + 16);
  read_only : Z → Z → bool;
  vector_writable i j : 0 ≤ i < 24 → 0 ≤ j < 8 ∨ j = 16 → read_only (0x10 + 2 * i) j = false;
  ioapic_rd h r : 0 ≤ r < 0x40 →
    ∃ h1 h', mmio_store 4 (virt_address a) r h = Ret h1 ∧
      mmio_load 4 (virt_address a + 16) h1 = Ret (iregs h r, h') ∧
      ∀ r', iregs h' r' = iregs h r';
  ioapic_wr h r x : 0x10 ≤ r < 0x40 → in_width 32 x →
    ∃ h1 h', mmio_store 4 (virt_address a) r h = Ret h1 ∧
      mmio_store 4 (virt_address a + 16) x h1 = Ret h' ∧
      ∀ r' j, Z.testbit (iregs h' r') j =
        if (r' =? r) && negb (read_only r j) then Z.testbit x j else Z.testbit (iregs h r') j;
}.
Arguments iregs {H _ _} a {_} h _.
Arguments read_only {H _ _} a {_} _ _.

(** What [route_one] stores for vector [v] over the old low and high words. *)
Definition routed_low (v lo : Z) : Z := v + 2 ^ 8 * (lo / 2 ^ 8 mod 2 ^ 8).
Definition routed_high (hi : Z) : Z := 2 ^ 24 * (hi / 2 ^ 24).

Lemma routed_value lo hi v :
  in_width 32 lo → in_width 32 hi → in_width 8 v →
  let n := hi * 2 ^ 32 + lo in
  red_store (with_vector (red_new n) v) = Ret (routed_low v lo + 2 ^ 32 * routed_high hi).
Proof.
  intros Hlo Hhi Hv n. unfold in_width in Hlo, Hhi, Hv.
  assert (Hn : in_width 64 n) by (unfold in_width, n; lia).
  pose proof (red_new_ok n Hn) as Hok. pose proof (red_value_new n Hn) as Hval.
  destruct (red_new_fields n Hn) as (Hvec & _ & _ & _).
  revert Hok Hval Hvec. generalize (red_new n). intros e Hok Hval Hvec.
  rewrite red_store_value by (unfold red_ok, in_width in *; simpl; tauto). f_equal.
  assert (Hw : red_value (with_vector e v) = red_value e - vector e + v)
    by (unfold red_value; simpl; lia).
  rewrite Hw, Hval, Hvec. unfold routed_low, routed_high.
  assert (H8 : n mod 2 ^ 8 = lo mod 2 ^ 8).
  { unfold n. change (2 ^ 32) with (2 ^ 24 * 2 ^ 8). rewrite Z.mul_assoc, Z.add_comm.
    by rewrite Z.mod_add by lia. }
  assert (H16 : n mod 2 ^ 16 = lo mod 2 ^ 16).
  { unfold n. change (2 ^ 32) with (2 ^ 16 * 2 ^ 16). rewrite Z.mul_assoc, Z.add_comm.
    by rewrite Z.mod_add by lia. }
  assert (H56 : n / 2 ^ 56 = hi / 2 ^ 24).
  { change (2 ^ 56) with (2 ^ 32 * 2 ^ 24). rewrite <- Z.div_div by lia. f_equal.
    unfold n. rewrite Z.add_comm, Z.div_add, Z.div_small by lia. lia. }
  rewrite H8, H16, H56. change (2 ^ 16) with (2 ^ 8 * 2 ^ 8). rewrite split_mod by lia.
  change (2 ^ 56) with (2 ^ 32 * 2 ^ 24). lia.
Qed.

Lemma routed_low_bits v lo j :
  in_width 8 v → 0 ≤ j →
  Z.testbit (routed_low v lo) j = if j <? 8 then Z.testbit v j
                                  else if j <? 16 then Z.testbit lo j else false.
Proof.
  intros Hv Hj. unfold routed_low. rewrite (Z.mul_comm (2 ^ 8)), <- lor_shiftl_add by (done || lia).
  rewrite Z.lor_spec, Z.shiftl_spec by done. destruct (Z.ltb_spec j 8).
  - rewrite (Z.testbit_neg_r _ (j - 8)) by lia. apply orb_false_r.
  - rewrite (testbit_above 8 v) by (done || lia). simpl. destruct (Z.ltb_spec j 16).
    + rewrite Z.mod_pow2_bits_low, <- Z.shiftr_div_pow2, Z.shiftr_spec by lia. f_equal. lia.
    + rewrite Z.mod_pow2_bits_high by lia. done.
Qed.

Lemma routed_high_bits hi j :
  0 ≤ j → Z.testbit (routed_high hi) j = if j <? 24 then false else Z.testbit hi j.
Proof.
  intros Hj. unfold routed_high. rewrite Z.mul_comm, <- Z.shiftl_mul_pow2, Z.shiftl_spec by lia.
  destruct (Z.ltb_spec j 24); [by rewrite Z.testbit_neg_r by lia|].
  rewrite <- Z.shiftr_div_pow2, Z.shiftr_spec by lia. f_equal. lia.
Qed.

Section routing.
Context {X : X86} {XL : X86Laws} {H : Type} `{Hardware H} {MM : Mmio H} (a : IoApic) `{!IoApicDevice H a}.
Implicit Types (h : H).

Lemma ioapic_read_spec r h :
  0 ≤ r < 0x40 →
  ∃ h', ioapic_read a r h = Ret (iregs a h r, h') ∧ ∀ r', iregs a h' r' = iregs a h r'.
Proof.
  intros Hr. destruct address_ok as [Hc Hc16]. destruct (ioapic_rd h r Hr) as (h1 & h' & Hw & Hm & Hs).
  exists h'. split; [|done]. unfold ioapic_read, set_sel.
  rewrite (io_bind_Ret _ _ _ () h1) by (unfold write32; by rewrite Hw).
  rewrite virt_add_ok by done. rewrite io_bind_lift. exact Hm.
Qed.

Lemma ioapic_write_spec r x h :
  0x10 ≤ r < 0x40 → in_width 32 x →
  ∃ h', ioapic_write a r x h = Ret ((), h') ∧ ∀ r' j, Z.testbit (iregs a h' r') j =
    if (r' =? r) && negb (read_only a r j) then Z.testbit x j else Z.testbit (iregs a h r') j.
Proof.
  intros Hr Hx. destruct address_ok as [Hc Hc16]. destruct (ioapic_wr h r x Hr Hx) as (h1 & h' & Hw & Hm & Hs).
  exists h'. split; [|done]. unfold ioapic_write, set_sel.
  rewrite (io_bind_Ret _ _ _ () h1) by (unfold write32; by rewrite Hw).
  rewrite virt_add_ok by done. rewrite io_bind_lift. unfold write32. by rewrite Hm.
Qed.

Lemma redtlb_index_ok i : 0 ≤ i < 24 → redtlb_index i = Ret (0x10 + 2 * i).
Proof. intros. unfold redtlb_index. checked_step. by rewrite checked_ok by (unfold in_width; lia). Qed.

Lemma read_redtlb_spec i h :
  0 ≤ i < 24 →
  ∃ h', read_redtlb a i h =
          Ret (iregs a h (0x10 + 2 * i + 1) * 2 ^ 32 + iregs a h (0x10 + 2 * i), h') ∧
        ∀ r', iregs a h' r' = iregs a h r'.
Proof.
  intros Hi. unfold read_redtlb. rewrite redtlb_index_ok, io_bind_lift by done.
  destruct (ioapic_read_spec (0x10 + 2 * i) h) as (h1 & E1 & C1); [lia|].
  rewrite (io_bind_Ret _ _ _ _ _ E1). io_checked.
  destruct (ioapic_read_spec (0x10 + 2 * i + 1) h1) as (h2 & E2 & C2); [lia|].
  rewrite (io_bind_Ret _ _ _ _ _ E2), C1.
  pose proof (iregs_width h (0x10 + 2 * i)) as [? ?].
  pose proof (iregs_width h (0x10 + 2 * i + 1)) as [? ?].
  rewrite shl_mul by lia. rewrite checked_ok by (unfold in_width; lia).
  exists h2. split; [done|]. intros r'. by rewrite C2, C1.
Qed.

Lemma write_redtlb_spec i x h lo hi :
  0 ≤ i < 24 → x = lo + 2 ^ 32 * hi → in_width 16 lo → in_width 32 hi →
  ∃ h', write_redtlb a i x h = Ret ((), h') ∧ ∀ r j, Z.testbit (iregs a h' r) j =
    if (r =? 0x10 + 2 * i) && negb (read_only a r j) then Z.testbit lo j
    else if (r =? 0x10 + 2 * i + 1) && negb (read_only a r j) then Z.testbit hi j
    else Z.testbit (iregs a h r) j.
Proof.
  intros Hi -> Hlo Hhi. unfold write_redtlb. rewrite redtlb_index_ok, io_bind_lift by done.
  assert (Hl : Z.land (lo + 2 ^ 32 * hi) 0xffff = lo).
  { change 0xffff with (2 ^ 16 - 1). rewrite land_low_mask by lia.
    change (2 ^ 32) with (2 ^ 16 * 2 ^ 16). rewrite <- Z.mul_assoc, Z.mul_comm.
    rewrite Z.mod_add by lia. by apply Z.mod_small. }
  assert (Hh : wrap 32 (Z.shiftr (lo + 2 ^ 32 * hi) 32) = hi).
  { rewrite Z.shiftr_div_pow2, Z.mul_comm, Z.div_add, Z.div_small by (unfold in_width in *; lia).
    by apply in_width_wrap. }
  rewrite Hl, Hh.
  destruct (ioapic_write_spec (0x10 + 2 * i) lo h) as (h1 & E1 & C1);
    [lia|by apply (in_width_mono 16)|].
  rewrite (io_bind_Ret _ _ _ _ _ E1). io_checked.
  destruct (ioapic_write_spec (0x10 + 2 * i + 1) hi h1) as (h2 & E2 & C2); [lia|done|].
  exists h2. split; [done|]. intros r j. rewrite C2, C1.
  destruct (Z.eqb_spec r (0x10 + 2 * i + 1)) as [->|]; simpl.
  - rewrite (proj2 (Z.eqb_neq _ (0x10 + 2 * i))) by lia. done.
  - by destruct (Z.eqb_spec r (0x10 + 2 * i)) as [->|]; simpl.
Qed.

(** Entry [i] of [h'] is the entry of [h] routed to vector [50 + i]. *)
Definition routed h h' (i : Z) : Prop :=
  let lo := 0x10 + 2 * i in
  (∀ j, 0 ≤ j < 8 → Z.testbit (iregs a h' lo) j = Z.testbit (50 + i) j) ∧
  (∀ j, 8 ≤ j < 16 → Z.testbit (iregs a h' lo) j = Z.testbit (iregs a h lo) j) ∧
  Z.testbit (iregs a h' lo) 16 = false ∧
  (∀ j, 24 ≤ j < 32 → Z.testbit (iregs a h' (lo + 1)) j = Z.testbit (iregs a h (lo + 1)) j).

Lemma route_one_spec i h :
  0 ≤ i < 24 →
  ∃ h', route_one a i h = Ret ((), h') ∧ routed h h' i ∧
    ∀ r j, r ≠ 0x10 + 2 * i → r ≠ 0x10 + 2 * i + 1 →
      Z.testbit (iregs a h' r) j = Z.testbit (iregs a h r) j.
Proof.
  intros Hi. unfold route_one. destruct (read_redtlb_spec i h Hi) as (h1 & E1 & C1).
  rewrite (io_bind_Ret _ _ _ _ _ E1). io_checked.
  rewrite (in_width_wrap 8) by (unfold in_width; lia). cbv zeta.
  set (lo := iregs a h (0x10 + 2 * i)). set (hi := iregs a h (0x10 + 2 * i + 1)).
  assert (Hlo : in_width 32 lo) by apply iregs_width.
  assert (Hhi : in_width 32 hi) by apply iregs_width.
  assert (Hv : in_width 8 (50 + i)) by (unfold in_width; lia).
  rewrite routed_value, io_bind_lift by done.
  destruct (write_redtlb_spec i _ h1 (routed_low (50 + i) lo) (routed_high hi) Hi eq_refl)
    as (h2 & E2 & C2).
  { unfold in_width, routed_low in *. pose proof (Z.mod_pos_bound (lo / 2 ^ 8) (2 ^ 8) ltac:(lia)). lia. }
  { unfold in_width, routed_high in *. pose proof (Z.div_mod hi (2 ^ 24) ltac:(lia)).
    pose proof (Z.mod_pos_bound hi (2 ^ 24) ltac:(lia)).
    pose proof (Z.div_pos hi (2 ^ 24) ltac:(lia) ltac:(lia)). lia. }
  exists h2. split; [done|]. split.
  - split_and!.
    + intros j Hj. rewrite C2, Z.eqb_refl, vector_writable by (done || by left). cbn [negb andb].
      rewrite routed_low_bits by (done || lia). by rewrite (proj2 (Z.ltb_lt j 8)) by lia.
    + intros j Hj. rewrite C2, Z.eqb_refl. cbn [negb andb]. rewrite (proj2 (Z.eqb_neq _ (_ + 1))) by lia. cbn [negb andb].
      rewrite C1. destruct (read_only a (0x10 + 2 * i) j); cbn [negb andb]; [done|].
      rewrite routed_low_bits by (done || lia).
      by rewrite (proj2 (Z.ltb_ge j 8)), (proj2 (Z.ltb_lt j 16)) by lia.
    + rewrite C2, Z.eqb_refl, vector_writable by (done || by right). cbn [negb andb].
      by rewrite routed_low_bits by done.
    + intros j Hj. rewrite C2, Z.eqb_refl. rewrite (proj2 (Z.eqb_neq _ (0x10 + 2 * i))) by lia. cbn [negb andb].
      rewrite C1. destruct (read_only a (0x10 + 2 * i + 1) j); cbn [negb andb]; [done|].
      rewrite routed_high_bits by lia. by rewrite (proj2 (Z.ltb_ge j 24)) by lia.
  - intros r j Hr1 Hr2. rewrite C2, C1.
    by rewrite (proj2 (Z.eqb_neq r (0x10 + 2 * i))), (proj2 (Z.eqb_neq r (0x10 + 2 * i + 1))).
Qed.

Lemma route_all_spec ixs h :
  NoDup ixs → Forall (λ i, 0 ≤ i < 24) ixs →
  ∃ h', route_all a ixs h = Ret ((), h') ∧ (∀ i, i ∈ ixs → routed h h' i) ∧
    ∀ r j, (∀ i, i ∈ ixs → r ≠ 0x10 + 2 * i ∧ r ≠ 0x10 + 2 * i + 1) →
      Z.testbit (iregs a h' r) j = Z.testbit (iregs a h r) j.
Proof.
  revert h. induction ixs as [|i ixs IH]; intros h Hnd Hr; cbn [route_all].
  { exists h. split_and!; [done|by intros ? ?%not_elem_of_nil|done]. }
  apply NoDup_cons in Hnd as [Hni Hnd]. apply Forall_cons in Hr as [Hi Hr].
  destruct (route_one_spec i h Hi) as (h1 & E1 & R1 & O1). rewrite (io_bind_Ret _ _ _ _ _ E1).
  destruct (IH h1 Hnd Hr) as (h2 & E2 & R2 & O2). exists h2. split; [done|].
  assert (Hkeep : ∀ r j, (∀ k, k ∈ ixs → r ≠ 0x10 + 2 * k ∧ r ≠ 0x10 + 2 * k + 1) →
    Z.testbit (iregs a h2 r) j = Z.testbit (iregs a h1 r) j) by exact O2.
  split.
  - intros k [->|Hk]%elem_of_cons.
    + assert (Hlo : ∀ k', k' ∈ ixs → 0x10 + 2 * i ≠ 0x10 + 2 * k' ∧ 0x10 + 2 * i ≠ 0x10 + 2 * k' + 1)
        by (intros k' Hk'; assert (k' ≠ i) by congruence; lia).
      assert (Hhi : ∀ k', k' ∈ ixs →
        0x10 + 2 * i + 1 ≠ 0x10 + 2 * k' ∧ 0x10 + 2 * i + 1 ≠ 0x10 + 2 * k' + 1)
        by (intros k' Hk'; assert (k' ≠ i) by congruence; lia).
      destruct R1 as (A & B & C & D). split_and!.
      * intros j Hj. rewrite (Hkeep _ _ Hlo). by apply A.
      * intros j Hj. rewrite (Hkeep _ _ Hlo). by apply B.
      * by rewrite (Hkeep _ _ Hlo).
      * intros j Hj. rewrite (Hkeep _ _ Hhi). by apply D.
    + destruct (R2 k Hk) as (A & B & C & D). assert (k ≠ i) by congruence. split_and!; [done| |done|].
      * intros j Hj. rewrite B by done. apply O1; lia.
      * intros j Hj. rewrite D by done. apply O1; lia.
  - intros r j Hout. rewrite O2 by (intros k Hk; apply Hout; by right).
    apply O1; apply Hout; by left.
Qed.
End routing.

(** ** A concrete I/O APIC *)

Record sample_ioapic : Type := mkSampleIo { sel : Z; table : Z → Z }.

#[local] Instance sample_ioapic_hw : Hardware sample_ioapic := {
  mmio_read w p h := (wrap 32 (table h (sel h)), h);
  mmio_write w p v h :=
    if p =? 0xfec00000 then mkSampleIo v (table h)
    else mkSampleIo (sel h) (λ r, if r =? sel h then v else table h r);
  port_in w p h := (0, h);
  port_out w p v h := h;
  msr_read r h := (0, h);
  msr_write r v h := h;
}.

Definition sample_a : IoApic := mkIoapic 0xfec00000 0 0.

#[local] Instance sample_ioapic_device : IoApicDevice sample_ioapic sample_a.
Proof.
  refine {| iregs h r := wrap 32 (table h r); read_only r j := false |}.
  - intros h r. apply wrap_in_width. lia.
  - unfold canonical. simpl. lia.
  - done.
  - intros h r _. do 2 eexists. split; [reflexivity|]. by split.
  - intros h r x _ Hx. do 2 eexists. split; [reflexivity|]. split; [reflexivity|]. intros r' j. simpl. destruct (Z.eqb_spec r' r); simpl; [|done].
    by rewrite in_width_wrap.
Defined.

(** ** Properties *)

(** [RedTbl::store] never overflows on an entry whose fields fit (8, 2 and
    8 bits), and [RedTbl::new] reads the same entry back; the other way
    around, storing what was read from any 64-bit word keeps bits 0 to 15 and
    56 to 63 of it and clears the others. *)
Theorem redtbl_round_trip (e : RedTbl) (n : Z) :
  (red_ok e → returns (red_store e) (λ r, red_new r = e)) ∧
  (in_width 64 n → red_store (red_new n) = Ret (n mod 2 ^ 16 + 2 ^ 56 * (n / 2 ^ 56))).
Proof.
  split.
  - intros He. rewrite red_store_value by done. apply returns_Ret. by apply red_new_value.
  - intros Hn. rewrite red_store_value by by apply red_new_ok. by rewrite red_value_new.
Qed.

Lemma redtbl_round_trip_witness :
  red_store (red_new 0x0300000000018031) = Ret 0x0300000000008031.
Proof.
  destruct (redtbl_round_trip (red_new 0) 0x0300000000018031) as [_ H].
  apply H. unfold in_width. lia.
Defined.

(** C26: After the set-up loop of [kernel_main], every one of the 24
    redirection entries of the I/O APIC delivers vector [50 + i] and is
    unmasked (bit 16 of the register is clear, whatever it was), while its bits
    8 to 15 and its destination are those the firmware left; no step of the
    loop panics. *)
Theorem route_irqs_vectors {X : X86} {XL : X86Laws} {H : Type} `{Hardware H} {MM : Mmio H} (a : IoApic) `{!IoApicDevice H a} (h : H) :
  io_returns (route_irqs a) h (λ _ h', ∀ i, 0 ≤ i < 24 →
    let lo := 0x10 + 2 * i in
    (∀ j, 0 ≤ j < 8 → Z.testbit (iregs a h' lo) j = Z.testbit (50 + i) j) ∧
    (∀ j, 8 ≤ j < 16 → Z.testbit (iregs a h' lo) j = Z.testbit (iregs a h lo) j) ∧
    Z.testbit (iregs a h' lo) 16 = false ∧
    (∀ j, 24 ≤ j < 32 → Z.testbit (iregs a h' (lo + 1)) j = Z.testbit (iregs a h (lo + 1)) j)).
Proof.
  destruct (route_all_spec a (seqZ 0 24) h) as (h' & E & R & _).
  - apply NoDup_seqZ.
  - rewrite Forall_forall. intros i ?%elem_of_seqZ. lia.
  - exists (), h'. split; [exact E|]. intros i Hi. apply R, elem_of_seqZ. lia.
Qed.

Lemma route_irqs_vectors_witness :
  let h := mkSampleIo 0 (λ _, 0x10000) in
  io_returns (route_irqs (X:=amd64) sample_a) h (λ _ h',
    Z.testbit (iregs sample_a h' 0x12) 0 = true ∧ Z.testbit (iregs sample_a h' 0x12) 16 = false).
Proof.
  destruct (@route_irqs_vectors amd64 amd64_laws sample_ioapic sample_ioapic_hw _ sample_a
    sample_ioapic_device (mkSampleIo 0 (λ _, 0x10000))) as (x & h' & E & R).
  exists x, h'. split; [exact E|]. destruct (R 1) as (A & _ & B & _); [lia|].
  split; [exact (A 0 ltac:(lia))|exact B].
Defined.
