(* ===== verification/Executor.v ===== *)
(** * The cooperative executor (kernel/src/executor.rs)

    Tasks by id, the queue of ids to poll, the cached wakers.  A future is
    outside of this file: [poll] is what one call of [Future::poll] does to
    the task and to the rest of the kernel, and the ids it wakes through
    wakers, in order.  [TaskWaker::wake] pushes an id; [expect] panics when
    the queue is full. *)

From S2P Require Import Prelude Sync.
Open Scope Z_scope.

(** [TaskId::new] on the counter [NEXT_ID]: [fetch_add] wraps. *)
Definition new_id (next_id : Z) : Z * Z := (next_id, wrap 64 (next_id + 1)).

(** A task with what its future has become. *)
Record Task (T : Type) : Type := mkTask { task_id : Z; future : T }.
Arguments mkTask {T}.
Arguments task_id {T}.
Arguments future {T}.

(** [Task::new], with the counter it leaves. *)
Definition task_new {T} (next_id : Z) (t : T) : Task T * Z :=
  let '(i, next_id) := new_id next_id in (mkTask i t, next_id).

Section executor.
Context {Q : Type} `{ArrayQueue Q Z} {T World : Type}.

(** [Ready] or [Pending], the task and the world after, the ids woken. *)
Context (poll : T → World → bool * T * World * list Z).

Record Executor : Type := mkExecutor {
  tasks : gmap Z (Task T);
  task_queue : Q;
  waker_cache : gset Z;     (* a cached waker is its task's id *)
}.

Definition new : Executor := mkExecutor ∅ (aq_new 100) ∅.

Definition spawn (e : Executor) (task : Task T) : outcome Executor :=
  let id := task_id task in
  let old := tasks e !! id in
  let e := mkExecutor (<[id := task]> (tasks e)) (task_queue e) (waker_cache e) in
  match old with
  | Some _ => Panic ExplicitPanic
  | None =>
      q ← unwrap (aq_push (task_queue e) id);
      Ret (mkExecutor (tasks e) q (waker_cache e))
  end.

(** [Task::poll]: the future's. *)
Definition task_poll (t : Task T) (w : World) : bool * Task T * World * list Z :=
  let '(ready, f, w, woken) := poll (future t) w in (ready, mkTask (task_id t) f, w, woken).

Definition wake_task (q : Q) (id : Z) : outcome Q := unwrap (aq_push q id).

Fixpoint wake_all (q : Q) (ids : list Z) : outcome Q :=
  match ids with
  | [] => Ret q
  | i :: ids => q ← wake_task q i; wake_all q ids
  end.

(** The body of the [while let] loop for one id taken from the queue. *)
Definition run_one (e : Executor) (w : World) (id : Z) : outcome (Executor * World) :=
  match tasks e !! id with
  | None => Ret (e, w)
  | Some task =>
      let cache := {[ id ]} ∪ waker_cache e in
      let '(ready, task, w, woken) := task_poll task w in
      q ← wake_all (task_queue e) woken;
      if (ready : bool)
      then Ret (mkExecutor (delete id (tasks e)) q (cache ∖ {[ id ]}), w)
      else Ret (mkExecutor (<[id := task]> (tasks e)) q cache, w)
  end.

Fixpoint run_ready_tasks (fuel : nat) (e : Executor) (w : World) : outcome (Executor * World) :=
  match fuel with
  | O => OutOfFuel
  | S fuel =>
      match aq_pop (task_queue e) with
      | (None, q) => Ret (mkExecutor (tasks e) q (waker_cache e), w)
      | (Some id, q) =>
          '(e, w) ← run_one (mkExecutor (tasks e) q (waker_cache e)) w id;
          run_ready_tasks fuel e w
      end
  end.

(** ** Correctness *)

Context `{!ArrayQueueLaws Q Z}.

Lemma wake_all_room q ids :
  zlen (aq_items q) + zlen ids ≤ aq_capacity q →
  ∃ q', wake_all q ids = Ret q' ∧ aq_items q' = aq_items q ++ ids ∧ aq_capacity q' = aq_capacity q.
Proof.
  revert q. induction ids as [|i ids IH]; intros q Hroom; simpl.
  { exists q. by rewrite app_nil_r. }
  rewrite zlen_cons in Hroom. pose proof (zlen_nonneg ids).
  destruct (aq_push_room q i) as (q1 & Hp & Hi & Hc); [lia|]. unfold wake_task. rewrite Hp. simpl.
  destruct (IH q1) as (q2 & -> & Hi2 & Hc2).
  { rewrite Hi, Hc, zlen_app. change (zlen [i]) with 1. lia. }
  exists q2. rewrite Hi2, Hi, Hc2, <- app_assoc. by split_and!.
Qed.

(** A potential that pays for every wake-up of a poll. *)
Definition paid (μ : World → nat) : Prop :=
  ∀ t w r t' w' woken, poll t w = (r, t', w', woken) → (length woken + μ w' ≤ μ w)%nat.

(** The reference: polling first in, first out. [polls q ts w tr ts' w']: with
    the ids [q] due, the tasks [ts] and the world [w], polling until no id is
    due polls the tasks of [tr] in that order ([true]: the task finished) and
    leaves [ts'] and [w']. An id that wakes while a task is polled is due after
    those that were; a finished task is gone, another one keeps its state; an
    id without a task is skipped. *)
Inductive polls : list Z → gmap Z (Task T) → World → list (Z * bool) → gmap Z (Task T) → World → Prop :=
| polls_done ts w : polls [] ts w [] ts w
| polls_gone i q ts w tr ts' w' :
    ts !! i = None → polls q ts w tr ts' w' → polls (i :: q) ts w tr ts' w'
| polls_poll i q ts w t r f w1 woken tr ts' w' :
    ts !! i = Some t → poll (future t) w = (r, f, w1, woken) →
    polls (q ++ woken) (if r : bool then delete i ts else <[i := mkTask (task_id t) f]> ts) w1 tr ts' w' →
    polls (i :: q) ts w ((i, r) :: tr) ts' w'.

(** The tasks polled are tasks there were; those that finish leave, and are not
    polled again; those that are not polled stay as they are. *)
Lemma polls_tasks q ts w tr ts' w' :
  polls q ts w tr ts' w' → ∀ i,
    (i ∈ tr.*1 → i ∈ dom ts) ∧ (i ∈ dom ts' ↔ i ∈ dom ts ∧ (i, true) ∉ tr) ∧
    (i ∉ tr.*1 → ts' !! i = ts !! i).
Proof.
  induction 1 as [ts w|j q ts w tr ts' w' Hn _ IH|j q ts w t r f w1 woken tr ts' w' Ht Hp _ IH]; intros i.
  - cbn. rewrite elem_of_nil. pose proof (not_elem_of_nil (i, true)). tauto.
  - apply IH.
  - destruct (IH i) as (IH1 & IH2 & IH3). assert (Hj : j ∈ dom ts) by (apply elem_of_dom; by eexists).
    cbn [fmap list_fmap fst]. rewrite !elem_of_cons, pair_eq.
    destruct r; [rewrite dom_delete_L, elem_of_difference in IH1, IH2|rewrite dom_insert_L, elem_of_union in IH1, IH2];
      rewrite elem_of_singleton in IH1, IH2.
    + destruct (decide (i = j)) as [->|Hne]; [tauto|]. rewrite lookup_delete_ne in IH3 by done. tauto.
    + destruct (decide (i = j)) as [->|Hne]; [|rewrite lookup_insert_ne in IH3 by done];
        (split; [tauto|split; [|tauto]]); rewrite IH2; intuition congruence.
Qed.

(** Every task that is due is polled. *)
Lemma polls_due q ts w tr ts' w' i :
  polls q ts w tr ts' w' → i ∈ q → i ∈ dom ts → i ∈ tr.*1.
Proof.
  induction 1 as [ts w|j q ts w tr ts' w' Hn _ IH|j q ts w t r f w1 woken tr ts' w' Ht Hp _ IH]; intros Hi Hd.
  - by apply not_elem_of_nil in Hi.
  - apply elem_of_cons in Hi as [->|Hi]; [|by apply IH]. by apply elem_of_dom in Hd as [? ?]; congruence.
  - cbn [fmap list_fmap fst]. rewrite elem_of_cons. destruct (decide (i = j)) as [->|Hne]; [by left|]. right.
    apply elem_of_cons in Hi as [?|Hi]; [done|]. apply IH; [by apply elem_of_app; left|].
    destruct r; [rewrite dom_delete_L|rewrite dom_insert_L]; set_solver.
Qed.

(** One round of the loop. *)
Lemma run_one_spec μ e w id :
  paid μ → zlen (aq_items (task_queue e)) + Z.of_nat (μ w) ≤ aq_capacity (task_queue e) →
  match tasks e !! id with
  | None => run_one e w id = Ret (e, w)
  | Some t => ∃ r f w' woken q,
      poll (future t) w = (r, f, w', woken) ∧ (length woken + μ w' ≤ μ w)%nat ∧
      aq_items q = aq_items (task_queue e) ++ woken ∧ aq_capacity q = aq_capacity (task_queue e) ∧
      run_one e w id = Ret (mkExecutor
        (if r : bool then delete id (tasks e) else <[id := mkTask (task_id t) f]> (tasks e)) q
        (if r then ({[ id ]} ∪ waker_cache e) ∖ {[ id ]} else {[ id ]} ∪ waker_cache e), w')
  end.
Proof.
  intros Hpaid Hroom. unfold run_one. destruct (tasks e !! id) as [t|] eqn:Ht; [|done].
  unfold task_poll. destruct (poll (future t) w) as [[[r f] w'] woken] eqn:Hp.
  pose proof (Hpaid _ _ _ _ _ _ Hp) as Hle.
  destruct (wake_all_room (task_queue e) woken) as (q & -> & Hi & Hc); [unfold zlen in *; lia|].
  exists r, f, w', woken, q. split_and!; try done. by destruct r.
Qed.

(** The loop polls as the reference does, and caches the wakers of the tasks
    it polled and that are not finished. *)
Lemma run_ready_polls μ fuel e w :
  paid μ → zlen (aq_items (task_queue e)) + Z.of_nat (μ w) ≤ aq_capacity (task_queue e) →
  (length (aq_items (task_queue e)) + μ w < fuel)%nat →
  ∃ e' w' tr, run_ready_tasks fuel e w = Ret (e', w') ∧
    polls (aq_items (task_queue e)) (tasks e) w tr (tasks e') w' ∧
    aq_items (task_queue e') = [] ∧ (length tr ≤ length (aq_items (task_queue e)) + μ w)%nat ∧
    ∀ i, i ∈ waker_cache e' ↔ (i ∈ waker_cache e ∨ i ∈ tr.*1) ∧ (i, true) ∉ tr.
Proof.
  intros Hpaid. revert e w. induction fuel as [|fuel IH]; intros e w Hroom Hfuel; [lia|].
  cbn [run_ready_tasks]. destruct (aq_items (task_queue e)) as [|id l] eqn:Hq.
  { destruct (aq_pop_nil _ Hq) as (q & -> & Hi & Hc). eexists _, w, []. split; [reflexivity|].
    split; [apply polls_done|]. split; [done|]. split; [cbn; lia|].
    intros i. cbn. rewrite elem_of_nil. pose proof (not_elem_of_nil (i, true)). tauto. }
  destruct (aq_pop_cons _ _ _ Hq) as (q & -> & Hi & Hc). rewrite zlen_cons in Hroom. simpl in Hfuel.
  set (e1 := mkExecutor (tasks e) q (waker_cache e)).
  pose proof (run_one_spec μ e1 w id Hpaid ltac:(simpl; rewrite Hi, Hc; lia)) as Hone.
  cbn [tasks task_queue waker_cache e1] in Hone. fold e1 in Hone.
  destruct (tasks e !! id) as [t|] eqn:Ht.
  - destruct Hone as (r & f & w1 & woken & q2 & Hp & Hle & Hi2 & Hc2 & E). rewrite E, bind_Ret.
    edestruct IH as (e' & w' & tr & E' & Hpolls & He' & Hlen & Hcache); cycle 2.
    + exists e', w', ((id, r) :: tr). split; [exact E'|]. cbn [task_queue tasks] in Hpolls, Hlen. rewrite Hi2, Hi in Hpolls, Hlen.
      split; [eapply polls_poll; [exact Ht|exact Hp|exact Hpolls]|]. split; [exact He'|]. rewrite length_app in Hlen.
      split; [cbn; lia|]. intros i. destruct (polls_tasks _ _ _ _ _ _ Hpolls i) as (Hd & _ & _).
      cbn [fmap list_fmap fst waker_cache] in Hcache |- *. rewrite Hcache, !elem_of_cons, pair_eq.
      destruct r; [rewrite dom_delete_L in Hd; set_solver|set_solver].
    + cbn [task_queue]. rewrite Hi2, Hc2, Hi, Hc, zlen_app. unfold zlen in *. lia.
    + cbn [task_queue]. rewrite Hi2, Hi, length_app. lia.
  - rewrite Hone, bind_Ret. destruct (IH e1 w) as (e' & w' & tr & E' & Hpolls & He' & Hlen & Hcache).
    + cbn [e1 task_queue]. rewrite Hi, Hc. lia.
    + cbn [e1 task_queue]. rewrite Hi. lia.
    + exists e', w', tr. split; [exact E'|]. cbn [e1 task_queue tasks] in Hpolls, Hlen. rewrite Hi in Hpolls, Hlen.
      split; [by apply polls_gone|]. split; [exact He'|]. split; [cbn; lia|exact Hcache].
Qed.

(** What becomes of a task the run does not reach by its id. *)
Lemma spawn_spec e t :
  tasks e !! task_id t = None → zlen (aq_items (task_queue e)) < aq_capacity (task_queue e) →
  ∃ e', spawn e t = Ret e' ∧ tasks e' = <[task_id t := t]> (tasks e) ∧
    aq_items (task_queue e') = aq_items (task_queue e) ++ [task_id t] ∧
    aq_capacity (task_queue e') = aq_capacity (task_queue e) ∧ waker_cache e' = waker_cache e.
Proof.
  intros Hn Hroom. unfold spawn. rewrite Hn. simpl.
  destruct (aq_push_room (task_queue e) (task_id t) Hroom) as (q & -> & Hi & Hc). simpl.
  eexists. split; [reflexivity|]. by split_and!.
Qed.
End executor.
Arguments Executor : clear implicits.

#[local] Existing Instances list_ArrayQueue list_ArrayQueueLaws.

(** A sample task: it asks to be polled [n] more times, waking itself. *)
Definition sample_poll (t : Z * nat) (w : nat) : bool * (Z * nat) * nat * list Z :=
  match t, w with
  | (i, S n), S w => (false, (i, n), w, [i])
  | (i, S n), O => (false, (i, n), O, [])
  | (i, O), w => (true, (i, O), w, [])
  end.

Definition sample_executor : Executor (list_queue Z) (Z * nat) :=
  mkExecutor {[ 0 := mkTask 0 (0, 2%nat); 1 := mkTask 1 (1, 0%nat) ]} (mkLQ 100 [0; 1]) ∅.

(** ** Properties *)

(** [spawn] of a task whose id is in use panics, and so does a spawn on a
    full queue; otherwise the task is in the map, its id is the last of the
    queue, and nothing else changes. *)
Theorem spawn_exact {Q : Type} `{ArrayQueueLaws Q Z} {T : Type} (e : Executor Q T) (t : Task T) :
  (is_Some (tasks e !! task_id t) → spawn e t = Panic ExplicitPanic) ∧
  (tasks e !! task_id t = None → aq_capacity (task_queue e) ≤ zlen (aq_items (task_queue e)) →
     spawn e t = Panic UnwrapFailed) ∧
  (tasks e !! task_id t = None → zlen (aq_items (task_queue e)) < aq_capacity (task_queue e) →
     returns (spawn e t) (λ e', tasks e' = <[task_id t := t]> (tasks e) ∧
       aq_items (task_queue e') = aq_items (task_queue e) ++ [task_id t] ∧ waker_cache e' = waker_cache e)).
Proof.
  split; [|split].
  - intros [t0 Ht]. unfold spawn. by rewrite Ht.
  - intros Hn Hfull. unfold spawn. rewrite Hn. simpl. by rewrite aq_push_full.
  - intros Hn Hroom. destruct (spawn_spec e t Hn Hroom) as (e' & E & ? & ? & ? & ?).
    exists e'. by split_and!.
Qed.

(** Ids are never shared: a task made by [Task::new] can be spawned as long as
    the queue has room and fewer than 2^64 tasks were made, and that stays so. *)
Theorem fresh_task_spawns {Q : Type} `{ArrayQueueLaws Q Z} {T : Type} (e : Executor Q T) (next_id : Z) (t : T) :
  (∀ i, i ∈ dom (tasks e) → i < next_id) → 0 ≤ next_id < 2 ^ 64 - 1 →
  zlen (aq_items (task_queue e)) < aq_capacity (task_queue e) →
  let '(task, next_id') := task_new next_id t in
  returns (spawn e task) (λ e', tasks e' !! next_id = Some (mkTask next_id t) ∧ (∀ i, i ∈ dom (tasks e') → i < next_id') ∧
    next_id' = next_id + 1).
Proof.
  intros Hids Hn Hroom. unfold task_new, new_id. assert (Hw : wrap 64 (next_id + 1) = next_id + 1) by (apply Z.mod_small; lia).
  rewrite Hw.
  destruct (spawn_spec e (mkTask next_id t)) as (e' & E & Ht & _); [|done|].
  { apply not_elem_of_dom. intros Hin%Hids. cbn in Hin. lia. }
  exists e'. split; [exact E|]. rewrite Ht. split_and!; [by rewrite lookup_insert_eq| |done].
  intros i. rewrite dom_insert_L, elem_of_union, elem_of_singleton. intros [->|Hi%Hids]; cbn; lia.
Qed.

Lemma fresh_task_spawns_witness :
  returns (spawn (new (Q:=list_queue Z) (T:=unit)) (mkTask 5 ())) (λ e', tasks e' !! 5 = Some (mkTask 5 ())).
Proof.
  assert (Hids : ∀ i, i ∈ dom (tasks (new (Q:=list_queue Z) (T:=unit))) → i < 5).
  { cbn [tasks new]. intros i Hi. rewrite dom_empty_L in Hi. by apply not_elem_of_empty in Hi. }
  eapply returns_mono; [exact (fresh_task_spawns (new (Q:=list_queue Z) (T:=unit)) 5 () Hids ltac:(done) eq_refl)|].
  intros e' [Ht _]. exact Ht.
Defined.

(** C30: [run_ready_tasks] ends, and polls what is due in order. Where a
    potential of the world pays for each wake-up a poll makes, and the queue has
    room for it, the run takes at most as many polls as ids queued plus wake-ups
    to come, never finds the queue full, and is the first-in-first-out polling
    of the reference [polls]: it leaves that polling's tasks and world and an
    empty queue, with every task whose id was queued polled. The tasks that a
    poll reported finished, and only those, are gone; a task that was not polled
    is as it was; the cached wakers are those there were and those of the tasks
    polled, less those of the finished tasks. *)
Theorem run_ready_tasks_drains {Q : Type} `{ArrayQueueLaws Q Z} {T World : Type}
    (poll : T → World → bool * T * World * list Z) (μ : World → nat) (e : Executor Q T) (w : World) :
  paid poll μ →
  zlen (aq_items (task_queue e)) + Z.of_nat (μ w) ≤ aq_capacity (task_queue e) →
  returns (run_ready_tasks poll (S (length (aq_items (task_queue e)) + μ w)) e w) (λ '(e', w'),
    aq_items (task_queue e') = [] ∧ ∃ tr,
      polls poll (aq_items (task_queue e)) (tasks e) w tr (tasks e') w' ∧
      (length tr ≤ length (aq_items (task_queue e)) + μ w)%nat ∧
      (∀ i, i ∈ aq_items (task_queue e) → i ∈ dom (tasks e) → i ∈ tr.*1) ∧
      (∀ i, i ∈ dom (tasks e') ↔ i ∈ dom (tasks e) ∧ (i, true) ∉ tr) ∧
      (∀ i, i ∉ tr.*1 → tasks e' !! i = tasks e !! i) ∧
      (∀ i, i ∈ waker_cache e' ↔ (i ∈ waker_cache e ∨ i ∈ tr.*1) ∧ (i, true) ∉ tr)).
Proof.
  intros Hpaid Hroom.
  destruct (run_ready_polls poll μ (S (length (aq_items (task_queue e)) + μ w)) e w Hpaid Hroom)
    as (e' & w' & tr & E & Hp & Hq & Hlen & Hcache); [lia|].
  rewrite E. apply returns_Ret. split; [exact Hq|]. exists tr. split; [exact Hp|]. split; [exact Hlen|].
  split; [intros i; by apply (polls_due poll _ _ _ _ _ _ i Hp)|].
  split; [intros i; apply (polls_tasks poll _ _ _ _ _ _ Hp i)|].
  split; [intros i; apply (polls_tasks poll _ _ _ _ _ _ Hp i)|exact Hcache].
Qed.

(** The two sample tasks are polled four times; the second one is finished first. *)
Lemma run_ready_tasks_drains_witness :
  returns (run_ready_tasks sample_poll 8 sample_executor 5%nat) (λ '(e', w'),
    aq_items (task_queue e') = [] ∧ ∃ tr,
      polls sample_poll [0; 1] (tasks sample_executor) 5%nat tr (tasks e') w' ∧ 0 ∈ tr.*1 ∧ 1 ∈ tr.*1).
Proof.
  eapply returns_mono.
  - refine (run_ready_tasks_drains sample_poll id sample_executor 5%nat _ _).
    + intros [i [|n]] [|w] r t' w' woken [= <- <- <- <-]; simpl; lia.
    + discriminate.
  - intros [e' w'] (Hq & tr & Hp & _ & Hdue & _). split; [exact Hq|]. exists tr. split; [exact Hp|].
    split; apply Hdue; first [apply elem_of_dom; by eexists|by repeat constructor].
Defined.
