(* ===== verification/Keyboard.v ===== *)
(** * Keyboard input (kernel/src/keyboard.rs), with the interrupt that feeds it

    The scancode queue, the waker, [add_scancode] as the interrupt handler
    calls it and [poll_next] as the stream's reader runs it.  The reader is
    the one task [kernel_main] spawns (the command line) on the executor's
    loop; an interrupt may come between any two steps of it while interrupts
    are enabled.  The step relation [step] is that interleaving. *)

From S2P Require Import Prelude Sync.
Open Scope Z_scope.

Section keyboard.
Context {Q : Type} `{ArrayQueue Q Z} {W : Type} `{AtomicWaker W Z}.

(** [SCANCODE_QUEUE], [WAKER], and the executor's queue behind every waker. *)
Record Input : Type := mkInput {
  SCANCODE_QUEUE : option Q;
  WAKER : W;
  task_queue : Q;
}.

(** [WAKER.wake()]: the waker taken, if any, pushes its task. *)
Definition wake (s : Input) : outcome Input :=
  let '(o, w) := aw_take (WAKER s) in
  match o with
  | None => Ret (mkInput (SCANCODE_QUEUE s) w (task_queue s))
  | Some task_id =>
      q ← unwrap (aq_push (task_queue s) task_id);
      Ret (mkInput (SCANCODE_QUEUE s) w q)
  end.

Definition add_scancode (s : Input) (scancode : Z) : outcome Input :=
  match SCANCODE_QUEUE s with
  | Some queue =>
      match aq_push queue scancode with
      | Some queue => wake (mkInput (Some queue) (WAKER s) (task_queue s))
      | None => Ret s
      end
  | None => Panic ExplicitPanic
  end.

Definition scancode_stream_new (s : Input) : outcome Input :=
  match SCANCODE_QUEUE s with
  | None => Ret (mkInput (Some (aq_new 100)) (WAKER s) (task_queue s))
  | Some _ => Panic UnwrapFailed
  end.

(** [poll_next], cut where an interrupt may come: [PollFast] is before the
    first [pop], [PollRegister] before [register], [PollAgain] before the
    second [pop], [PollTake] before [WAKER.take()]. *)
Inductive poll_pc : Type := PollFast | PollRegister | PollAgain | PollTake (scancode : Z).

(** [Poll::Ready(Some(c))], [Poll::Pending], or on to the next point. *)
Inductive poll_res : Type := Ready (scancode : Z) | Pending | Goto (pc : poll_pc).

Definition queue_pop (s : Input) : outcome (option Z * Input) :=
  q ← unwrap (SCANCODE_QUEUE s);
  let '(o, q) := aq_pop q in
  Ret (o, mkInput (Some q) (WAKER s) (task_queue s)).

Definition poll_step (waker : Z) (pc : poll_pc) (s : Input) : outcome (poll_res * Input) :=
  match pc with
  | PollFast =>
      '(o, s) ← queue_pop s;
      match o with
      | Some scancode => Ret (Ready scancode, s)
      | None => Ret (Goto PollRegister, s)
      end
  | PollRegister => Ret (Goto PollAgain, mkInput (SCANCODE_QUEUE s) (aw_register (WAKER s) waker) (task_queue s))
  | PollAgain =>
      '(o, s) ← queue_pop s;
      match o with
      | Some scancode => Ret (Goto (PollTake scancode), s)
      | None => Ret (Pending, s)
      end
  | PollTake scancode =>
      let '(_, w) := aw_take (WAKER s) in
      Ret (Ready scancode, mkInput (SCANCODE_QUEUE s) w (task_queue s))
  end.

(** ** The machine *)

(** The executor between steps: about to take an id, polling the reader, out
    of ids and before [interrupts::disable()], with interrupts off before the
    emptiness test, halted. *)
Inductive cpu : Type := Loop | Polling (pc : poll_pc) | Drained | IdleCheck | Halted | Panicked.

#[global] Instance poll_pc_eq_dec : EqDecision poll_pc.
Proof. solve_decision. Defined.
#[global] Instance cpu_eq_dec : EqDecision cpu.
Proof. solve_decision. Defined.

(** [handled]: the scancodes the reader got, in order; [accepted]: those the
    queue took; both are ghosts. *)
Record machine : Type := mkMachine {
  input : Input; at_ : cpu; handled : list Z; accepted : list Z;
}.

Context (reader : Z).   (* the id of the reader's task *)

(** One step of the executor's thread. *)
Definition cpu_step (m : machine) : option machine :=
  let s := input m in
  match at_ m with
  | Loop =>
      let '(o, q) := aq_pop (task_queue s) in
      let s := mkInput (SCANCODE_QUEUE s) (WAKER s) q in
      match o with
      | Some id =>
          Some (mkMachine s (if id =? reader then Polling PollFast else Loop) (handled m) (accepted m))
      | None => Some (mkMachine s Drained (handled m) (accepted m))     (* the end of run_ready_tasks *)
      end
  | Polling pc =>
      match poll_step reader pc s with
      | Ret (Ready c, s) => Some (mkMachine s (Polling PollFast) (handled m ++ [c]) (accepted m))
      | Ret (Pending, s) => Some (mkMachine s Loop (handled m) (accepted m))
      | Ret (Goto pc, s) => Some (mkMachine s (Polling pc) (handled m) (accepted m))
      | _ => Some (mkMachine s Panicked (handled m) (accepted m))
      end
  | Drained => Some (mkMachine s IdleCheck (handled m) (accepted m))    (* interrupts::disable() *)
  | IdleCheck =>
      if aq_is_empty (task_queue s)
      then Some (mkMachine s Halted (handled m) (accepted m))           (* enable_and_hlt() *)
      else Some (mkMachine s Loop (handled m) (accepted m))             (* interrupts::enable() *)
  | Halted | Panicked => None
  end.

(** The keyboard interrupt: not while interrupts are disabled; it ends a halt. *)
Definition irq (m : machine) (scancode : Z) : option machine :=
  match at_ m with
  | IdleCheck | Panicked => None
  | pc =>
      let taken := match SCANCODE_QUEUE (input m) with
                   | Some q => match aq_push q scancode with Some _ => [scancode] | None => [] end
                   | None => [] end in
      match add_scancode (input m) scancode with
      | Ret s => Some (mkMachine s (match pc with Halted => Loop | _ => pc end)
                                 (handled m) (accepted m ++ taken))
      | _ => Some (mkMachine (input m) Panicked (handled m) (accepted m ++ taken))
      end
  end.

Inductive step : machine → machine → Prop :=
| step_cpu m m' : cpu_step m = Some m' → step m m'
| step_irq m m' c : irq m c = Some m' → step m m'.

Inductive reachable (m0 : machine) : machine → Prop :=
| reach_refl : reachable m0 m0
| reach_step m m' : reachable m0 m → step m m' → reachable m0 m'.

(** The machine as [kernel_main] starts it: the stream created, the reader
    spawned, the executor entered. *)
Definition booted (s : outcome Input) : outcome machine :=
  s ← s;
  s ← scancode_stream_new s;
  q ← unwrap (aq_push (task_queue s) reader);
  Ret (mkMachine (mkInput (SCANCODE_QUEUE s) (WAKER s) q) Loop [] []).

Definition start : outcome machine := booted (Ret (mkInput None aw_new (aq_new 100))).

(** ** The invariant *)

Context `{!ArrayQueueLaws Q Z} `{!AtomicWakerLaws W Z}.

Definition scancodes (s : Input) : list Z :=
  match SCANCODE_QUEUE s with Some q => aq_items q | None => [] end.

(** Scancodes the reader has taken out of the queue and not handled yet. *)
Definition in_flight (c : cpu) : list Z :=
  match c with Polling (PollTake c) => [c] | _ => [] end.

(** Something will make the reader look at the queue again: it is looking, its
    id is queued, or it is registered. *)
Definition due (m : machine) : Prop :=
  reader ∈ aq_items (task_queue (input m)) ∨
  match at_ m with
  | Loop | Drained | IdleCheck | Halted => aw_slot (WAKER (input m)) = Some reader ∧ scancodes (input m) = []
  | Polling PollAgain =>
      aw_slot (WAKER (input m)) = Some reader
  | Polling _ => True
  | Panicked => True
  end.

Definition kbd_inv (m : machine) : Prop :=
  (∃ q, SCANCODE_QUEUE (input m) = Some q ∧ aq_capacity q = 100) ∧
  (aw_slot (WAKER (input m)) = None ∨ aw_slot (WAKER (input m)) = Some reader) ∧
  handled m ++ in_flight (at_ m) ++ scancodes (input m) = accepted m ∧
  (at_ m = Halted → aq_items (task_queue (input m)) = []) ∧
  due m.

Lemma queue_pop_spec s q :
  SCANCODE_QUEUE s = Some q →
  ∃ q', queue_pop s = Ret (head (scancodes s), mkInput (Some q') (WAKER s) (task_queue s)) ∧
    aq_items q' = tail (scancodes s) ∧ aq_capacity q' = aq_capacity q.
Proof.
  intros Hq. unfold queue_pop, scancodes. rewrite Hq. cbn [unwrap]. rewrite bind_Ret.
  destruct (aq_items q) as [|c l] eqn:Hi.
  - destruct (aq_pop_nil q Hi) as (q' & -> & ? & ?). by exists q'.
  - destruct (aq_pop_cons q c l Hi) as (q' & -> & ? & ?). by exists q'.
Qed.

Lemma start_inv m : start = Ret m → kbd_inv m.
Proof.
  destruct (aq_push_room (aq_new 100) reader) as (q & Hp & Hi & Hc).
  { rewrite aq_items_new, aq_capacity_new by done. done. }
  rewrite aq_items_new in Hi. unfold start, booted, scancode_stream_new. simpl. rewrite Hp. simpl.
  intros [= <-]. unfold kbd_inv, due, scancodes. simpl.
  rewrite aw_slot_new, Hi, aq_items_new. split_and!.
  - exists (aq_new 100). split; [done|]. by rewrite aq_capacity_new.
  - by left.
  - done.
  - done.
  - left. simpl. by left.
Qed.

Lemma start_returns : ∃ m, start = Ret m.
Proof.
  destruct (aq_push_room (aq_new 100) reader) as (q & Hp & _).
  { rewrite aq_items_new, aq_capacity_new by done. done. }
  unfold start, booted, scancode_stream_new. simpl. rewrite Hp. simpl. by eexists.
Qed.

Lemma halted_idle m :
  kbd_inv m → at_ m = Halted → scancodes (input m) = [] ∧ aw_slot (WAKER (input m)) = Some reader.
Proof.
  intros (_ & _ & _ & Hempty & Hdue) Hh. unfold due in Hdue. rewrite Hh, Hempty in Hdue by done.
  destruct Hdue as [?%not_elem_of_nil|[??]]; done.
Qed.

(** The waker's call: the waker's task is queued, once. *)
Lemma wake_spec s s' :
  wake s = Ret s' →
  SCANCODE_QUEUE s' = SCANCODE_QUEUE s ∧ aw_slot (WAKER s') = None ∧
  aq_items (task_queue s') = aq_items (task_queue s) ++
    match aw_slot (WAKER s) with Some id => [id] | None => [] end.
Proof.
  unfold wake. destruct (aw_take_slot (WAKER s)) as (w & -> & Hw).
  destruct (aw_slot (WAKER s)) as [id|].
  - destruct (decide (zlen (aq_items (task_queue s)) < aq_capacity (task_queue s))) as [Hr|Hr].
    + destruct (aq_push_room (task_queue s) id Hr) as (q & -> & Hi & _). by intros [= <-].
    + by rewrite aq_push_full by lia.
  - intros [= <-]. simpl. by rewrite app_nil_r.
Qed.

(** What the interrupt handler does to the queues. *)
Lemma add_scancode_spec s q c s' :
  SCANCODE_QUEUE s = Some q → add_scancode s c = Ret s' →
  (aq_push q c = None ∧ s' = s ∧ aq_capacity q ≤ zlen (aq_items q)) ∨
  (∃ q', aq_push q c = Some q' ∧ SCANCODE_QUEUE s' = Some q' ∧ aq_items q' = aq_items q ++ [c] ∧
     aq_capacity q' = aq_capacity q ∧ aw_slot (WAKER s') = None ∧
     aq_items (task_queue s') = aq_items (task_queue s) ++
       match aw_slot (WAKER s) with Some id => [id] | None => [] end).
Proof.
  intros Hq. unfold add_scancode. rewrite Hq.
  destruct (decide (zlen (aq_items q) < aq_capacity q)) as [Hr|Hr].
  - destruct (aq_push_room q c Hr) as (q' & -> & Hi & Hc). intros (Hs & Hw & Ht)%wake_spec.
    right. exists q'. by split_and!.
  - rewrite aq_push_full by lia. intros [= <-]. left. split_and!; [done..|lia].
Qed.

Lemma irq_inv m c m' : kbd_inv m → irq m c = Some m' → at_ m' = Panicked ∨ kbd_inv m'.
Proof.
  intros ((q & Hq & Hcap) & Hslot & Hord & Hempty & Hdue). unfold irq.
  destruct (add_scancode (input m) c) as [s'| |] eqn:Hadd;
    [|destruct (at_ m); intros [= <-]; by left..].
  destruct (add_scancode_spec _ _ _ _ Hq Hadd) as [(Hp & -> & Hfull)|(q' & Hp & Hq' & Hi & Hc & Hw & Ht)];
    rewrite Hq, Hp; intros Hirq; right.
  - (* the queue was full: the scancode is dropped *)
    assert (Hne : scancodes (input m) ≠ []).
    { unfold scancodes. rewrite Hq. intros Hn. rewrite Hn, Hcap in Hfull. done. }
    assert (Hd : reader ∈ aq_items (task_queue (input m)) ∨
      match at_ m with Loop | Drained | IdleCheck | Halted => False | _ => True end).
    { destruct Hdue as [?|Hd]; [by left|]. right. destruct (at_ m); tauto. }
    unfold kbd_inv, due. destruct (at_ m) eqn:Hat; try discriminate Hirq; injection Hirq as <-; simpl in *;
      rewrite app_nil_r; (split; [by exists q|]); (split; [done|]); (split; [done|]).
    + split; [done|]. destruct Hd; [by left|done].
    + split; [done|]. unfold due in Hdue. by rewrite Hat in Hdue.
    + split; [done|]. destruct Hd; [by left|done].
    + split; [done|]. destruct Hd; [by left|done].
  - assert (Hord' : handled m ++ in_flight (at_ m) ++ scancodes s' = accepted m ++ [c]).
    { rewrite <- Hord. unfold scancodes. rewrite Hq, Hq', Hi. by rewrite <- !app_assoc. }
    assert (Hd : reader ∈ aq_items (task_queue s') ∨
      match at_ m with Polling PollAgain | Loop | Drained | IdleCheck | Halted => False | _ => True end).
    { rewrite Ht, elem_of_app. destruct Hdue as [?|Hd]; [by left; left|].
      destruct (at_ m) as [|[]| | | |]; try (by right);
        left; right; (rewrite Hd || rewrite (proj1 Hd)); by left. }
    unfold kbd_inv, due. destruct (at_ m) as [|pc| | | |] eqn:Hat; try discriminate Hirq;
      injection Hirq as <-; simpl in *;
      (split; [exists q'; split; [done|by rewrite Hc]|]); (split; [by left|]); (split; [done|]).
    + split; [done|]. destruct Hd; [by left|done].
    + split; [done|]. destruct Hd; [by left|]. right. by destruct pc.
    + split; [done|]. destruct Hd; [by left|done].
    + split; [done|]. destruct Hd; [by left|done].
Qed.

Lemma poll_inv m pc m' :
  kbd_inv m → at_ m = Polling pc → cpu_step m = Some m' → kbd_inv m' ∧ at_ m' ≠ Panicked.
Proof.
  intros ((q & Hq & Hcap) & Hslot & Hord & Hempty & Hdue) Hat. unfold cpu_step, due in *. rewrite Hat in *.
  destruct (queue_pop_spec _ _ Hq) as (q' & Hpop & Hi & Hc).
  destruct pc; cbn [poll_step].
  - rewrite Hpop, bind_Ret. destruct (scancodes (input m)) as [|c l] eqn:Hsc; simpl in *;
      intros [= <-]; (split; [|done]); unfold kbd_inv, due, scancodes; simpl; rewrite Hi.
    + split_and!; [exists q'; by rewrite Hc|done|done|done|tauto].
    + split_and!; [exists q'; by rewrite Hc|done|by rewrite <- app_assoc|done|tauto].
  - intros [= <-]. split; [|done]. unfold kbd_inv, due, scancodes in *. simpl.
    rewrite aw_slot_register. split_and!; [by exists q|by right|done|done|tauto].
  - rewrite Hpop, bind_Ret. destruct (scancodes (input m)) as [|c l] eqn:Hsc; simpl in *;
      intros [= <-]; (split; [|done]); unfold kbd_inv, due, scancodes; simpl; rewrite Hi.
    + split_and!; [exists q'; by rewrite Hc|done|done|done|tauto].
    + split_and!; [exists q'; by rewrite Hc|done|done|done|tauto].
  - destruct (aw_take_slot (WAKER (input m))) as (w & -> & Hw). intros [= <-]. split; [|done].
    unfold kbd_inv, due, scancodes in *. simpl in *. rewrite Hw.
    split_and!; [by exists q|by left|by rewrite <- app_assoc|done|tauto].
Qed.

Lemma cpu_inv m m' : kbd_inv m → cpu_step m = Some m' → kbd_inv m' ∧ at_ m' ≠ Panicked.
Proof.
  intros Hinv Hstep. destruct (at_ m) as [|pc| | | |] eqn:Hat; [|by eapply poll_inv| | | |];
    pose proof Hinv as ((q & Hq & Hcap) & Hslot & Hord & Hempty & Hdue);
    unfold cpu_step, due in *; rewrite Hat in *; [| | |done|done].
  - destruct (aq_items (task_queue (input m))) as [|i l] eqn:Htq.
    + destruct (aq_pop_nil _ Htq) as (tq & Hp & Hi & Hc). rewrite Hp in Hstep.
      injection Hstep as <-. split; [|done]. unfold kbd_inv, due, scancodes in *. simpl in *. rewrite Hi.
      split_and!; [by exists q|done..|tauto].
    + destruct (aq_pop_cons _ _ _ Htq) as (tq & Hp & Hi & Hc). rewrite Hp in Hstep.
      injection Hstep as <-. unfold kbd_inv, due, scancodes in *. simpl in *. rewrite Hi.
      destruct (Z.eqb_spec i reader) as [->|Hne]; (split; [|done]).
      * split_and!; [by exists q|done|done|done|by right].
      * split_and!; [by exists q|done|done|done|].
        destruct Hdue as [[->|?]%elem_of_cons|?]; [done|by left|by right].
  - injection Hstep as <-. split; [|done]. unfold kbd_inv, due, scancodes in *. simpl in *.
    split_and!; [by exists q|done..|tauto].
  - destruct (aq_is_empty (task_queue (input m))) eqn:He; injection Hstep as <-; (split; [|done]);
      unfold kbd_inv, due, scancodes in *; simpl in *.
    + apply aq_is_empty_items in He. split_and!; [by exists q|done|done|by intros _|tauto].
    + split_and!; [by exists q|done|done|done|tauto].
Qed.

Lemma reachable_inv m0 m :
  start = Ret m0 → reachable m0 m → at_ m = Panicked ∨ kbd_inv m.
Proof.
  intros Hs. induction 1 as [|m m' Hr IH Hstep]; [right; by apply start_inv|].
  destruct IH as [Hp|Hinv].
  - destruct Hstep as [m m' Hc|m m' c Hc]; [unfold cpu_step in Hc|unfold irq in Hc]; by rewrite Hp in Hc.
  - destruct Hstep as [m m' Hc|m m' c Hc]; [right; by eapply cpu_inv|by eapply irq_inv].
Qed.

(** ** The executor's thread alone *)

Fixpoint run (n : nat) (m : machine) : machine :=
  match n with
  | O => m
  | S n => match cpu_step m with Some m' => run n m' | None => m end
  end.

(** With an id in the queue, the way past the idle test leads back to [Loop]. *)
Definition rank (c : cpu) (idle : bool) : nat :=
  match c with
  | Halted | Panicked => 0
  | IdleCheck => if idle then 1 else 4
  | Drained => if idle then 2 else 5
  | Loop => 3
  | Polling PollAgain => 4
  | Polling PollRegister => 5
  | Polling PollFast => 6
  | Polling (PollTake _) => 7
  end.

(** Six steps for a queued id, four for a scancode. *)
Definition work (m : machine) : nat :=
  6 * length (aq_items (task_queue (input m))) + 4 * length (scancodes (input m)) +
  rank (at_ m) (match aq_items (task_queue (input m)) with [] => true | _ => false end).

Lemma cpu_step_work m :
  kbd_inv m → at_ m ≠ Halted → at_ m ≠ Panicked →
  ∃ m', cpu_step m = Some m' ∧ (work m' < work m)%nat ∧ accepted m' = accepted m.
Proof.
  intros ((q & Hq & Hcap) & Hslot & Hord & Hempty & Hdue) Hh Hp.
  unfold cpu_step, work. destruct (at_ m) as [|pc| | | |] eqn:Hat; try done.
  - destruct (aq_items (task_queue (input m))) as [|i l] eqn:Htq.
    + destruct (aq_pop_nil _ Htq) as (tq & -> & Hi & Hc). eexists. split; [reflexivity|].
      unfold scancodes. simpl. rewrite Hi. simpl. split; [lia|done].
    + destruct (aq_pop_cons _ _ _ Htq) as (tq & -> & Hi & Hc). eexists. split; [reflexivity|].
      unfold scancodes. simpl. rewrite Hi. simpl. split; [|done]. destruct (i =? reader); simpl; lia.
  - destruct (queue_pop_spec _ _ Hq) as (q' & Hpop & Hi & Hc). destruct pc; cbn [poll_step].
    + rewrite Hpop, bind_Ret. destruct (scancodes (input m)) as [|c l] eqn:Hsc; simpl in *;
        (eexists; split; [reflexivity|]); simpl; unfold scancodes; simpl; rewrite Hi; simpl; (split; [lia|done]).
    + eexists. split; [reflexivity|]. simpl. unfold scancodes. simpl. split; [lia|done].
    + rewrite Hpop, bind_Ret. destruct (scancodes (input m)) as [|c l] eqn:Hsc; simpl in *;
        (eexists; split; [reflexivity|]); simpl; unfold scancodes; simpl; rewrite Hi; simpl; (split; [lia|done]).
    + destruct (aw_take_slot (WAKER (input m))) as (w & -> & Hw). eexists. split; [reflexivity|].
      simpl. unfold scancodes. simpl. split; [lia|done].
  - eexists. split; [reflexivity|]. simpl. destruct (aq_items (task_queue (input m))); simpl; (split; [lia|done]).
  - pose proof (aq_is_empty_items (task_queue (input m))) as He.
    destruct (aq_is_empty (task_queue (input m))), (aq_items (task_queue (input m))) eqn:Htq;
      (eexists; split; [reflexivity|]); simpl; rewrite Htq; simpl; (split; [|done]); try lia; naive_solver.
Qed.

Lemma run_halts n m :
  kbd_inv m → at_ m ≠ Panicked → (work m ≤ n)%nat →
  kbd_inv (run n m) ∧ at_ (run n m) = Halted ∧ accepted (run n m) = accepted m.
Proof.
  revert m. induction n as [|n IH]; intros m Hinv Hp Hw; destruct (decide (at_ m = Halted)) as [Hh|Hh].
  - done.
  - destruct (cpu_step_work m Hinv Hh Hp) as (m' & _ & Hlt & _). lia.
  - cbn [run]. unfold cpu_step. by rewrite Hh.
  - destruct (cpu_step_work m Hinv Hh Hp) as (m' & Hs & Hlt & Hacc). cbn [run]. rewrite Hs, <- Hacc.
    destruct (cpu_inv m m' Hinv Hs). apply IH; [done..|lia].
Qed.
End keyboard.

#[local] Existing Instances list_ArrayQueue list_ArrayQueueLaws option_AtomicWaker option_AtomicWakerLaws.

(** ** Schedules: a step of the executor, or a scancode *)

Inductive event : Type := Cpu | Irq (scancode : Z).

Section schedule.
Context {Q : Type} `{ArrayQueue Q Z} {W : Type} `{AtomicWaker W Z} (reader : Z).

Fixpoint play (evs : list event) (m : machine (Q:=Q) (W:=W)) : option machine :=
  match evs with
  | [] => Some m
  | Cpu :: evs => m' ← cpu_step reader m; play evs m'
  | Irq c :: evs => m' ← irq m c; play evs m'
  end.

Lemma play_reachable evs m0 m m' :
  reachable reader m0 m → play evs m = Some m' → reachable reader m0 m'.
Proof.
  revert m. induction evs as [|[|c] evs IH]; intros m Hr; simpl; [by intros [= <-]| |].
  - destruct (cpu_step reader m) as [m1|] eqn:Hs; [|done]. apply IH.
    eapply reach_step; [exact Hr|by apply step_cpu].
  - destruct (irq m c) as [m1|] eqn:Hs; [|done]. apply IH.
    eapply reach_step; [exact Hr|by eapply step_irq].
Qed.
End schedule.

(** Each key comes just after the reader has registered. *)
Definition storm_round : list event := [Cpu; Cpu; Irq 0x1e; Cpu; Cpu].
Definition storm : list event := Cpu :: (replicate 100 storm_round ≫= id) ++ [Cpu; Cpu; Irq 0x1e].

Definition list_start : outcome (machine (Q:=list_queue Z) (W:=option Z)) := start 0.

(** ** Properties *)

(** C7: No scancode is lost, reordered or handled twice, and no wake-up is
    missed: in every state the kernel can reach, whatever interrupts came
    between the steps of [poll_next] and of the executor, the scancodes
    handled, the one in flight and those queued are in order exactly those the
    queue accepted; and where the processor halts, the queue is empty and the
    reader registered, so that the next key wakes it. *)
Theorem keyboard_no_lost_wakeup {Q : Type} `{ArrayQueueLaws Q Z} {W : Type} `{AtomicWakerLaws W Z}
    (reader : Z) :
  returns (start (Q:=Q) (W:=W) reader) (λ m0, ∀ m, reachable reader m0 m → at_ m ≠ Panicked →
    handled m ++ in_flight (at_ m) ++ scancodes (input m) = accepted m ∧
    (at_ m = Halted → scancodes (input m) = [] ∧ aw_slot (WAKER (input m)) = Some reader)).
Proof.
  destruct (start_returns (Q:=Q) (W:=W) reader) as (m0 & Hs). exists m0. split; [done|].
  intros m Hr Hp. destruct (reachable_inv reader m0 m Hs Hr) as [|Hinv]; [done|].
  pose proof Hinv as (_ & _ & Hord & _ & _). split; [exact Hord|]. by apply halted_idle.
Qed.

(** C8: From every such state, if no further interrupt comes, the executor
    handles every accepted scancode and halts, in at most six steps for each
    queued task id, four for each queued scancode, and seven more. *)
Theorem keyboard_all_handled {Q : Type} `{ArrayQueueLaws Q Z} {W : Type} `{AtomicWakerLaws W Z}
    (reader : Z) :
  returns (start (Q:=Q) (W:=W) reader) (λ m0, ∀ m, reachable reader m0 m → at_ m ≠ Panicked →
    at_ (run reader (work m) m) = Halted ∧ handled (run reader (work m) m) = accepted m).
Proof.
  destruct (start_returns (Q:=Q) (W:=W) reader) as (m0 & Hs). exists m0. split; [done|].
  intros m Hr Hp. destruct (reachable_inv reader m0 m Hs Hr) as [|Hinv]; [done|].
  destruct (run_halts reader (work m) m Hinv Hp) as (Hi & Hh & Ha); [lia|]. split; [done|].
  pose proof Hi as (_ & _ & Hord & _ & _). destruct (halted_idle reader _ Hi Hh) as [Hsc _].
  by rewrite Hh, Hsc, Ha, !app_nil_r in Hord.
Qed.

(** The executor's queue of 100 ids can overflow, although there is one
    task: a key that comes between [register] and the second [pop] queues the
    reader's id while the same poll goes on and registers again, so that after
    100 such keys within one poll the next wake-up panics. *)
Theorem keyboard_storm_panics :
  returns list_start (λ m0, ∃ m, reachable 0 m0 m ∧ at_ m = Panicked ∧
    length (aq_items (task_queue (input m))) = 100%nat ∧ length (handled m) = 100%nat).
Proof.
  assert (Hp : returns list_start (λ m0, match play 0 storm m0 with
    | Some m => at_ m = Panicked ∧ length (lq_items (task_queue (input m))) = 100%nat ∧
                length (handled m) = 100%nat
    | None => False end)).
  { eexists. split; [reflexivity|]. vm_compute. done. }
  destruct Hp as (m0 & Hs & Hm). exists m0. split; [done|].
  destruct (play 0 storm m0) as [m|] eqn:Hpl; [|done]. exists m.
  split; [|done]. eapply play_reachable; [apply reach_refl|exact Hpl].
Qed.

(** What the test in [sleep_if_idle] is for: a key between the last [pop] and
    [interrupts::disable()] queues the reader, and the executor goes round again
    instead of halting on it. *)
Theorem idle_test_sees_late_key :
  returns list_start (λ m0, ∃ m m', reachable 0 m0 m ∧ at_ m = IdleCheck ∧ aq_items (task_queue (input m)) = [0] ∧
    scancodes (input m) = [0x1e] ∧ cpu_step 0 m = Some m' ∧ at_ m' = Loop).
Proof.
  assert (Hp : returns list_start (λ m0, match play 0 [Cpu; Cpu; Cpu; Cpu; Cpu; Irq 0x1e; Cpu] m0 with
    | Some m => at_ m = IdleCheck ∧ lq_items (task_queue (input m)) = [0] ∧ scancodes (input m) = [0x1e] ∧
        match cpu_step 0 m with Some m' => at_ m' = Loop | None => False end
    | None => False end)).
  { eexists. split; [reflexivity|]. vm_compute. done. }
  destruct Hp as (m0 & Hs & Hm). exists m0. split; [done|].
  destruct (play 0 _ m0) as [m|] eqn:Hpl; [|done]. exists m. destruct Hm as (H1 & H2 & H3 & H4).
  destruct (cpu_step 0 m) as [m'|]; [|done]. exists m'.
  split_and!; [|done..]. eapply play_reachable; [apply reach_refl|exact Hpl].
Qed.

(** An interrupt before [ScancodeStream::new] has run panics. *)
Lemma early_key_panics {Q : Type} `{ArrayQueue Q Z} {W : Type} `{AtomicWaker W Z} w (q : Q) c :
  add_scancode (mkInput (W:=W) None w q) c = Panic ExplicitPanic.
Proof. reflexivity. Qed.
