(* ===== verification/Rtl8139.v ===== *)
(** * The network card (kernel/src/drivers/rtl8139.rs)

    The driver's state, transmission over the four descriptors, reception out
    of the ring [RX_BUF], the interrupt handler.  Registers are I/O ports; the
    ring is memory the card writes, read at [rx_buffer_base].  A packet is the
    address and the length [from_raw_parts] is given. *)

From S2P Require Import Prelude Hardware Arch FrameAllocator Paging Pci.
Open Scope Z_scope.
Open Scope rust_scope.

Definition PCI_VENDOR_ID : Z := 0x10EC.
Definition PCI_DEVICE_ID : Z := 0x8139.
Definition RX_BUF_LEN : Z := 8202.

Inductive PacketError : Type := TXDescBusy | TooLong | BadPacket | BufferEmpty.

Record Rtl8139 : Type := mkRtl {
  mac : list Z;
  tx_current : Z;
  rx_offset : Z;
  ioaddr : Z;
  irq : Z;
}.

Definition with_offset (r : Rtl8139) (o : Z) : Rtl8139 :=
  mkRtl (mac r) (tx_current r) o (ioaddr r) (irq r).
Definition with_tx (r : Rtl8139) (t : Z) : Rtl8139 :=
  mkRtl (mac r) t (rx_offset r) (ioaddr r) (irq r).

Section rtl8139.
Context {H : Type} `{Hardware H} {MM : Mmio H} (PMO rx_buffer_base : Z).

(** [while rst_port.read() != 0 {}]. *)
Fixpoint wait_reset (fuel : nat) (port : Z) : io H unit :=
  match fuel with
  | O => λ _, OutOfFuel
  | S fuel => v ← in8 port; if v =? 0 then ret () else wait_reset fuel port
  end.

Fixpoint read_mac (ioaddr : Z) (ixs : list Z) : io H (list Z) :=
  match ixs with
  | [] => ret []
  | i :: ixs =>
      p ← lift (ioaddr +[16] i);
      b ← in8 p;
      bs ← read_mac ioaddr ixs;
      ret (b :: bs)
  end.

(** [init], the mapping of the first BAR included. *)
Definition init {X : X86} {M : Type} `{Mapper M} (fuel : nat) (ecam : Z) (pci_dev : PCIDevice) (mapper : M) :
    io H (option Rtl8139 * M) :=
  ok ← enable_bus_master ecam pci_dev;
  if negb ok then ret (None, mapper) else
  o ← bar_address ecam pci_dev 0;
  match o with
  | None => ret (None, mapper)
  | Some bar =>
      pa ← lift (phys_new bar);
      let frame := containing_address pa in
      o ← bar_address ecam pci_dev 0;
      match o with
      | None => ret (None, mapper)
      | Some bar =>
          a ← lift (bar +[64] PMO);
          va ← lift (virt_new a);
          '(r, mapper, _) ← lift (map_to mapper (containing_address va) frame (Z.lor NO_CACHE PRESENT) Empty);
          match r with
          | inl _ => ret (None, mapper)
          | inr _ =>
              b ← read_bar ecam pci_dev 0;
              match b with
              | None => ret (None, mapper)
              | Some (low, _, _) =>
                  let ioaddr := Z.land (wrap 16 low) (unot 16 3) in
                  p ← lift (ioaddr +[16] 0x52); _ ← out8 p 0;
                  rst ← lift (ioaddr +[16] 0x37); _ ← out8 rst 0x10;
                  _ ← wait_reset fuel rst;
                  p ← lift (ioaddr +[16] 0x30);
                  base ← lift (wrap 32 rx_buffer_base +[32] wrap 32 PMO);
                  _ ← out32 p base;
                  irq ← read_config_u8 ecam pci_dev 0x3C;
                  p ← lift (ioaddr +[16] 0x3c); _ ← out16 p 5;
                  p ← lift (ioaddr +[16] 0x44); _ ← out32 p (Z.lor 0xf (Z.shiftl 1 7));
                  p ← lift (ioaddr +[16] 0x37); _ ← out8 p 0x0C;
                  mac ← read_mac ioaddr (seqZ 0 6);
                  ret (Some (mkRtl mac 0 0 ioaddr irq), mapper)
              end
          end
      end
  end.

(** [transmit_packet] of the packet at [addr]. *)
Definition transmit_packet (r : Rtl8139) (ioaddr addr len : Z) : io H ((PacketError + unit) * Rtl8139) :=
  if 1792 <? len then ret (inl TooLong, r) else
  let desc := tx_current r in
  tsd_offset ← lift (0x10 +[16] wrap 16 (desc * 4));
  p ← lift (ioaddr +[16] tsd_offset);
  status ← in32 p;
  if Z.land status (Z.shiftl 1 13) =? 0 then ret (inl TXDescBusy, r) else
  tsad_offset ← lift (0x20 +[16] wrap 16 (desc * 4));
  packet_phys_addr ← lift (addr +[64] PMO);
  q ← lift (ioaddr +[16] tsad_offset);
  _ ← out32 q (wrap 32 packet_phys_addr);
  p ← lift (ioaddr +[16] tsd_offset);
  _ ← out32 p len;
  t ← lift (tx_current r +[8] 1);
  ret (inr (), with_tx r (t mod 4)).

Definition update_read_pointer (r : Rtl8139) (ioaddr : Z) : io H unit :=
  p ← lift (ioaddr +[16] 0x38);
  v ← lift (if rx_offset r =? 0 then 8192 -[16] 0x10 else rx_offset r -[16] 0x10);
  out16 p v.

Definition receive_packet (r : Rtl8139) : io H ((PacketError + Z * Z) * Rtl8139) :=
  p ← lift (ioaddr r +[16] 0x37);
  cmd ← in8 p;
  if negb (Z.land cmd 1 =? 0) then ret (inl BufferEmpty, r) else
  header_ptr ← lift (rx_buffer_base +[64] rx_offset r);
  header ← read32 header_ptr;
  let status := Z.land header 0xFFFF in
  let length := Z.land (Z.shiftr header 16) 0xFFFF in
  if Z.land status 1 =? 0 then
    a ← lift (rx_offset r +[16] length);
    a ← lift (a +[16] 4);
    a ← lift (a +[16] 3);
    let r := with_offset r (Z.land a (unot 16 3)) in
    _ ← update_read_pointer r (ioaddr r);
    ret (inl BadPacket, r)
  else
    s ← lift (rx_buffer_base +[64] rx_offset r);
    packet_start ← lift (s +[64] 4);
    packet_length ← lift (length -[16] 4);
    a ← lift (rx_offset r +[16] length);
    a ← lift (a +[16] 4);
    a ← lift (a +[16] 3);
    let o := Z.land a (unot 16 3) in
    let r := with_offset r (if 8192 <=? o then 0 else o) in
    _ ← update_read_pointer r (ioaddr r);
    ret (inr (packet_start, packet_length), r).

Fixpoint handle_receive (fuel : nat) (r : Rtl8139) : io H (list (Z * Z) * Rtl8139) :=
  match fuel with
  | O => λ _, OutOfFuel
  | S fuel =>
      '(res, r) ← receive_packet r;
      match res with
      | inl _ => ret ([], r)
      | inr packet => '(ps, r) ← handle_receive fuel r; ret (packet :: ps, r)
      end
  end.

Definition handle_interrupt (fuel : nat) (r : Rtl8139) : io H (list (Z * Z) * Rtl8139) :=
  p ← lift (ioaddr r +[16] 0x3E);
  isr ← in16 p;
  '(ps, r) ← (if negb (Z.land isr 1 =? 0) then handle_receive fuel r else ret ([], r));
  _ ← out16 p isr;
  ret (ps, r).

(** ** Reception *)

Definition pad4 (n : Z) : Z := round_up n 4.

Lemma land_pad4 a : 0 ≤ a → a + 3 < 2 ^ 16 → Z.land (a + 3) (unot 16 3) = pad4 a.
Proof.
  intros Ha Hlt. change 3 with (2 ^ 2 - 1) at 2. rewrite land_clear_low by (unfold in_width; lia).
  unfold pad4, round_up. change (2 ^ 2) with 4. replace (a + 4 - 1) with (a + 3) by lia.
  pose proof (Z.div_mod (a + 3) 4 ltac:(lia)). lia.
Qed.

(** The state of the driver between calls. *)
Definition rtl_ok (r : Rtl8139) : Prop :=
  0 ≤ tx_current r < 4 ∧ 0 ≤ rx_offset r < 8192 ∧ rx_offset r mod 4 = 0 ∧
  0 ≤ ioaddr r ∧ ioaddr r + 0x52 < 2 ^ 16.

(** The card's answer to [receive_packet]: the command register, the header. *)
Definition rx_header (h : H) (r : Rtl8139) (cmd header : Z) (h2 : H) : Prop :=
  ∃ h1, port_in 1 (ioaddr r + 0x37) h = (cmd, h1) ∧
        mmio_load 4 (rx_buffer_base + rx_offset r) h1 = Ret (header, h2).

Context (Hbase : 0 ≤ rx_buffer_base) (Hbase64 : rx_buffer_base + 2 ^ 17 < 2 ^ 64).

Lemma update_read_pointer_ok r h :
  0 ≤ ioaddr r → ioaddr r + 0x52 < 2 ^ 16 → 0 ≤ rx_offset r < 2 ^ 16 →
  rx_offset r = 0 ∨ 16 ≤ rx_offset r →
  update_read_pointer r (ioaddr r) h =
    Ret ((), port_out 2 (ioaddr r + 0x38) (if rx_offset r =? 0 then 8176 else rx_offset r - 16) h).
Proof.
  intros Hio Hio2 Ho Hcase. unfold update_read_pointer. io_checked.
  destruct (Z.eqb_spec (rx_offset r) 0).
  - reflexivity.
  - rewrite checked_ok by (unfold in_width; lia). reflexivity.
Qed.

Lemma update_read_pointer_underflow r h :
  0 ≤ ioaddr r → ioaddr r + 0x52 < 2 ^ 16 → 0 < rx_offset r < 16 →
  update_read_pointer r (ioaddr r) h = Panic ArithmeticOverflow.
Proof.
  intros Hio Hio2 Ho. unfold update_read_pointer. io_checked.
  rewrite (proj2 (Z.eqb_neq _ 0)) by lia. rewrite checked_underflow by lia. reflexivity.
Qed.

(** The path before the status is tested. *)
Lemma receive_packet_header r h cmd header h2 :
  rtl_ok r → rx_header h r cmd header h2 → Z.land cmd 1 = 0 →
  receive_packet r h =
    (let status := Z.land header 0xFFFF in
     let length := Z.land (Z.shiftr header 16) 0xFFFF in
     if Z.land status 1 =? 0 then
       a ← lift (rx_offset r +[16] length);
       a ← lift (a +[16] 4);
       a ← lift (a +[16] 3);
       let r := with_offset r (Z.land a (unot 16 3)) in
       _ ← update_read_pointer r (ioaddr r);
       ret (inl BadPacket, r)
     else
       s ← lift (rx_buffer_base +[64] rx_offset r);
       packet_start ← lift (s +[64] 4);
       packet_length ← lift (length -[16] 4);
       a ← lift (rx_offset r +[16] length);
       a ← lift (a +[16] 4);
       a ← lift (a +[16] 3);
       let o := Z.land a (unot 16 3) in
       let r := with_offset r (if 8192 <=? o then 0 else o) in
       _ ← update_read_pointer r (ioaddr r);
       ret (inr (packet_start, packet_length), r) : io H _) h2.
Proof.
  intros (Htx & Ho & Hal & Hio & Hio2) (h1 & E1 & E2) Hcmd. unfold receive_packet. io_checked.
  erewrite (io_bind_Ret (in8 (ioaddr r + 0x37))); [|unfold in8; by rewrite E1].
  rewrite Hcmd. cbn [negb Z.eqb]. io_checked.
  erewrite (io_bind_Ret (read32 (rx_buffer_base + rx_offset r))); [|exact E2].
  reflexivity.
Qed.

Lemma pad4_bounds n : n ≤ pad4 n < n + 4 ∧ pad4 n mod 4 = 0.
Proof. apply round_up_spec. lia. Qed.

Definition rx_next (o l : Z) : Z := let n := pad4 (o + l + 4) in if 8192 <=? n then 0 else n.

Lemma receive_good r h cmd header h2 l :
  rtl_ok r → rx_header h r cmd header h2 → Z.land cmd 1 = 0 →
  Z.land (Z.land header 0xFFFF) 1 ≠ 0 → Z.land (Z.shiftr header 16) 0xFFFF = l →
  4 ≤ l → 12 < rx_offset r + l + 4 → rx_offset r + l + 7 < 2 ^ 16 →
  receive_packet r h = Ret ((inr (rx_buffer_base + rx_offset r + 4, l - 4),
      with_offset r (rx_next (rx_offset r) l)),
    port_out 2 (ioaddr r + 0x38)
      (if rx_next (rx_offset r) l =? 0 then 8176 else rx_next (rx_offset r) l - 16) h2).
Proof.
  intros Hok Hhd Hcmd Hst Hl H4 H12 Hlt. rewrite (receive_packet_header r h cmd header h2) by done.
  cbv zeta. rewrite Hl, (proj2 (Z.eqb_neq _ 0)) by done.
  destruct Hok as (Htx & Ho & Hal & Hio & Hio2). do 6 io_checked. rewrite land_pad4 by lia.
  fold (rx_next (rx_offset r) l). destruct (pad4_bounds (rx_offset r + l + 4)) as [Hp Hm].
  pose proof (Z.div_mod (pad4 (rx_offset r + l + 4)) 4 ltac:(lia)).
  erewrite io_bind_Ret; [reflexivity|]. apply (update_read_pointer_ok (with_offset r _)); simpl; try lia.
  - unfold rx_next. destruct (Z.leb_spec 8192 (pad4 (rx_offset r + l + 4))); lia.
  - unfold rx_next. destruct (Z.leb_spec 8192 (pad4 (rx_offset r + l + 4))); lia.
Qed.

Lemma receive_bad r h cmd header h2 l :
  rtl_ok r → rx_header h r cmd header h2 → Z.land cmd 1 = 0 →
  Z.land (Z.land header 0xFFFF) 1 = 0 → Z.land (Z.shiftr header 16) 0xFFFF = l →
  0 ≤ l → rx_offset r + l + 7 < 2 ^ 16 →
  receive_packet r h =
    if rx_offset r + l + 4 <=? 12 then Panic ArithmeticOverflow
    else Ret ((inl BadPacket, with_offset r (pad4 (rx_offset r + l + 4))),
              port_out 2 (ioaddr r + 0x38) (pad4 (rx_offset r + l + 4) - 16) h2).
Proof.
  intros Hok Hhd Hcmd Hst Hl Hl0 Hlt. rewrite (receive_packet_header r h cmd header h2) by done.
  cbv zeta. rewrite Hl, Hst. cbn [Z.eqb].
  destruct Hok as (Htx & Ho & Hal & Hio & Hio2). do 3 io_checked. rewrite land_pad4 by lia.
  destruct (pad4_bounds (rx_offset r + l + 4)) as [Hp Hm].
  pose proof (Z.div_mod (pad4 (rx_offset r + l + 4)) 4 ltac:(lia)).
  destruct (Z.leb_spec (rx_offset r + l + 4) 12).
  - unfold mbind, io_bind. rewrite update_read_pointer_underflow; [done|done|done|]. simpl. lia.
  - erewrite io_bind_Ret; [reflexivity|].
    rewrite (update_read_pointer_ok (with_offset r _)); simpl; try lia.
    by rewrite (proj2 (Z.eqb_neq _ 0)) by lia.
Qed.

(** ** Transmission *)

Lemma transmit_ok r io addr len h status h1 :
  0 ≤ tx_current r < 4 → 0 ≤ io → io + 0x52 < 2 ^ 16 → 0 ≤ addr → 0 ≤ PMO → addr + PMO < 2 ^ 64 →
  0 ≤ len ≤ 1792 → port_in 4 (io + (0x10 + tx_current r * 4)) h = (status, h1) →
  transmit_packet r io addr len h =
    if Z.land status (Z.shiftl 1 13) =? 0 then Ret ((inl TXDescBusy, r), h1)
    else Ret ((inr (), with_tx r ((tx_current r + 1) mod 4)),
           port_out 4 (io + (0x10 + tx_current r * 4)) len
             (port_out 4 (io + (0x20 + tx_current r * 4)) (wrap 32 (addr + PMO)) h1)).
Proof.
  intros Htx Hio Hio2 Ha Hp Hap Hlen Hst. unfold transmit_packet.
  rewrite (proj2 (Z.ltb_ge 1792 len)) by lia. cbv zeta.
  rewrite (in_width_wrap 16) by (unfold in_width; lia). do 2 io_checked.
  erewrite (io_bind_Ret (in32 _)); [|unfold in32; by rewrite Hst].
  destruct (_ =? 0); [done|]. do 3 io_checked.
  unfold mbind at 1, io_bind at 1, out32. rewrite ?io_bind_lift.
  unfold mbind at 1, io_bind at 1. rewrite checked_ok by (unfold in_width; lia).
  reflexivity.
Qed.
End rtl8139.

(** ** A concrete card: constant registers, a log of the port writes *)

Record sample_card : Type := mkCard { card_cmd : Z; card_status : Z; card_header : Z; log : list (Z * Z) }.

#[local] Instance sample_card_hw : Hardware sample_card := {
  mmio_read w a h := (card_header h, h);
  mmio_write w a v h := h;
  port_in w p h := (if w =? 1 then card_cmd h else card_status h, h);
  port_out w p v h := mkCard (card_cmd h) (card_status h) (card_header h) ((p, v) :: log h);
  msr_read r h := (0, h);
  msr_write r v h := h;
}.

Definition sample_rtl : Rtl8139 := mkRtl [] 3 4096 0xC000 11.

Lemma sample_rtl_ok : rtl_ok sample_rtl.
Proof. unfold rtl_ok. simpl. split_and!; (done || lia). Qed.

(** ** Properties *)

(** C32: A packet that was received well (bit 0 of its status set) and whose
    length, CRC included, is [l], at least the 4 bytes of the CRC, and which ends
    more than 8 bytes into the ring and where a 16-bit offset still reaches:
    [receive_packet] gives the [l - 4] bytes
    behind the header, moves to the next multiple of four behind the packet,
    or to 0 (not to the rest modulo 8192) when that is past the ring, tells
    the card the read pointer minus 16, and keeps the driver's invariant.
    The range it gives lies in the 8202 bytes of [RX_BUF] exactly when
    [rx_offset + l <= 8202]: a packet that starts late in the ring is given
    with bytes behind the buffer. *)
Theorem receive_good_packet {H : Type} `{Hardware H} (base : Z) (r : Rtl8139) (h : H) cmd header h2 l :
  0 ≤ base → base + 2 ^ 17 < 2 ^ 64 →
  rtl_ok r → rx_header base h r cmd header h2 → Z.land cmd 1 = 0 →
  Z.land (Z.land header 0xFFFF) 1 ≠ 0 → Z.land (Z.shiftr header 16) 0xFFFF = l →
  4 ≤ l → 12 < rx_offset r + l + 4 → rx_offset r + l + 7 < 2 ^ 16 →
  let n := pad4 (rx_offset r + l + 4) in
  io_returns (receive_packet base r) h (λ '(res, r') h',
    res = inr (base + rx_offset r + 4, l - 4) ∧ rtl_ok r' ∧
    rx_offset r' = (if 8192 <=? n then 0 else n) ∧
    h' = port_out 2 (ioaddr r + 0x38) (if rx_offset r' =? 0 then 8176 else rx_offset r' - 16) h2 ∧
    (base + rx_offset r + 4 + (l - 4) ≤ base + RX_BUF_LEN ↔ rx_offset r + l ≤ 8202)).
Proof.
  intros Hb Hb64 Hok Hhd Hcmd Hst Hl H4 H12 Hlt n.
  unfold io_returns. rewrite (receive_good base Hb Hb64 r h cmd header h2 l) by done.
  eexists (_, _), _. split; [reflexivity|]. split; [done|].
  destruct Hok as (Htx & Ho & Hal & Hio & Hio2). destruct (pad4_bounds (rx_offset r + l + 4)) as [Hp Hm].
  unfold rtl_ok, rx_next, RX_BUF_LEN. simpl. fold n in Hp, Hm |- *.
  split_and!; try done; try lia; destruct (Z.leb_spec 8192 n); try done; lia.
Qed.

(** C33: A packet the card marks as bad makes [receive_packet] skip it, but on
    this path the offset is not brought back into the ring: it is
    [pad4 (rx_offset + l + 4)] even when that is 8192 or more; and at the start
    of the ring a bad header with a length of at most 8 makes the subtraction
    of 16 in [update_read_pointer] panic inside the interrupt handler. *)
Theorem receive_bad_packet {H : Type} `{Hardware H} (base : Z) (r : Rtl8139) (h : H) cmd header h2 l :
  0 ≤ base → base + 2 ^ 17 < 2 ^ 64 →
  rtl_ok r → rx_header base h r cmd header h2 → Z.land cmd 1 = 0 →
  Z.land (Z.land header 0xFFFF) 1 = 0 → Z.land (Z.shiftr header 16) 0xFFFF = l →
  0 ≤ l → rx_offset r + l + 7 < 2 ^ 16 →
  receive_packet base r h =
    if rx_offset r + l + 4 <=? 12 then Panic ArithmeticOverflow
    else Ret ((inl BadPacket, with_offset r (pad4 (rx_offset r + l + 4))),
              port_out 2 (ioaddr r + 0x38) (pad4 (rx_offset r + l + 4) - 16) h2).
Proof. intros Hb Hb64. by apply receive_bad. Qed.

(** [transmit_packet] refuses a packet of more than 1792 bytes and a busy
    descriptor without touching the driver; otherwise it gives the card the
    physical address and then the length through the registers of descriptor
    [tx_current], and goes to the next of the four descriptors. *)
Theorem transmit_packet_exact {H : Type} `{Hardware H} (PMO : Z) (r : Rtl8139) io addr len (h : H) status h1 :
  0 ≤ tx_current r < 4 → 0 ≤ io → io + 0x52 < 2 ^ 16 → 0 ≤ addr → 0 ≤ PMO → addr + PMO < 2 ^ 64 →
  0 ≤ len → port_in 4 (io + (0x10 + tx_current r * 4)) h = (status, h1) →
  transmit_packet PMO r io addr len h =
    if 1792 <? len then Ret ((inl TooLong, r), h)
    else if Z.land status (Z.shiftl 1 13) =? 0 then Ret ((inl TXDescBusy, r), h1)
    else Ret ((inr (), with_tx r ((tx_current r + 1) mod 4)),
           port_out 4 (io + (0x10 + tx_current r * 4)) len
             (port_out 4 (io + (0x20 + tx_current r * 4)) (wrap 32 (addr + PMO)) h1)).
Proof.
  intros Htx Hio Hio2 Ha Hp Hap Hlen Hst. destruct (Z.ltb_spec 1792 len) as [Hl|Hl].
  - unfold transmit_packet. by rewrite (proj2 (Z.ltb_lt 1792 len)) by lia.
  - by apply transmit_ok.
Qed.

(** A packet of 1518 bytes at the end of the ring: it ends at offset 9706 of a
    buffer of 8202 bytes. *)
Lemma receive_good_packet_witness :
  let h := mkCard 0 0 (1518 * 2 ^ 16 + 1) [] in
  let r := with_offset sample_rtl 8188 in
  io_returns (receive_packet 0x10000 r) h (λ '(res, r') _,
    res = inr (0x10000 + 8192, 1514) ∧ rx_offset r' = 0).
Proof.
  destruct (receive_good_packet 0x10000 (with_offset sample_rtl 8188) (mkCard 0 0 (1518 * 2 ^ 16 + 1) [])
    0 (1518 * 2 ^ 16 + 1) (mkCard 0 0 (1518 * 2 ^ 16 + 1) []) 1518) as ([res r'] & h' & E & -> & _ & Ho & _);
    try reflexivity; try (simpl; lia).
  - unfold rtl_ok. simpl. split_and!; (reflexivity || lia).
  - exists (mkCard 0 0 (1518 * 2 ^ 16 + 1) []). split; reflexivity.
  - discriminate.
  - exists (inr (0x10000 + 8188 + 4, 1518 - 4), r'), h'. split; [exact E|]. split; [reflexivity|exact Ho].
Defined.

Lemma receive_bad_packet_witness :
  receive_packet 0x10000 (with_offset sample_rtl 0) (mkCard 0 0 0 []) = Panic ArithmeticOverflow.
Proof.
  apply (receive_bad_packet 0x10000 (with_offset sample_rtl 0) (mkCard 0 0 0 []) 0 0 (mkCard 0 0 0 []) 0);
    try reflexivity; try (simpl; lia).
  - unfold rtl_ok. simpl. split_and!; (reflexivity || lia).
  - exists (mkCard 0 0 0 []). split; reflexivity.
Defined.

Lemma transmit_packet_exact_witness :
  transmit_packet 0x1000 sample_rtl 0xC000 0x5000 60 (mkCard 0 (2 ^ 13) 0 []) =
    Ret ((inr (), with_tx sample_rtl 0),
         mkCard 0 (2 ^ 13) 0 [(0xC01C, 60); (0xC02C, 0x6000)]).
Proof.
  etransitivity; [apply (transmit_packet_exact 0x1000 sample_rtl 0xC000 0x5000 60 (mkCard 0 (2 ^ 13) 0 [])
    (2 ^ 13) (mkCard 0 (2 ^ 13) 0 [])); try reflexivity; simpl; lia|reflexivity].
Defined.
