(* ===== verification/Interrupts.v ===== *)
(** * Interrupts and time (kernel/src/interrupts.rs, kernel/src/sleep.rs)

    The interrupt descriptor table as [IDT] builds it, the handlers of the
    device vectors over the state they touch, and the tick counter that
    [Sleep] waits for.  The fault handlers print and never return; they
    appear in the table only. *)

From S2P Require Import Prelude Hardware Arch Sync Keyboard Apic Rtl8139.
Open Scope Z_scope.
Open Scope rust_scope.

(** ** The table *)

Inductive handler : Type :=
| breakpoint_handler | page_fault_handler | gp_fault_handler | double_fault_handler
| generic_interrupt_handler
| timer_interrupt_handler | timer_interrupt_handler2
| ioapic_handler (i : Z)      (** [ioapic_handler_0] to [ioapic_handler_23] *)
| int80_entry.

#[export] Instance handler_eq_dec : EqDecision handler.
Proof. solve_decision. Defined.

(** The handler, the stack index, and whether ring 3 may raise the vector. *)
Record idt_entry : Type := mkEntry { handler_fn : handler; stack_index : option Z; ring3 : bool }.

Definition DOUBLE_FAULT_IST_INDEX : Z := 0.

Definition set_handler (v : Z) (f : handler) (t : gmap Z idt_entry) : gmap Z idt_entry :=
  <[v := mkEntry f None false]> t.

Definition set_handlers (vs : list (Z * handler)) (t : gmap Z idt_entry) : gmap Z idt_entry :=
  foldl (λ t e, set_handler e.1 e.2 t) t vs.

Definition IDT : gmap Z idt_entry :=
  let idt := ∅ in
  let idt := set_handler 3 breakpoint_handler idt in
  let idt := set_handler 14 page_fault_handler idt in
  let idt := set_handler 13 gp_fault_handler idt in
  let idt := <[8 := mkEntry double_fault_handler (Some DOUBLE_FAULT_IST_INDEX) false]> idt in
  let idt := set_handlers ((λ i, (i, generic_interrupt_handler)) <$> seqZ 32 224) idt in
  let idt := set_handler 48 timer_interrupt_handler idt in
  let idt := set_handler 49 timer_interrupt_handler2 idt in
  let idt := set_handlers
    [(50, ioapic_handler 0); (51, ioapic_handler 1); (52, ioapic_handler 2); (53, ioapic_handler 3);
     (54, ioapic_handler 4); (55, ioapic_handler 5); (56, ioapic_handler 6); (57, ioapic_handler 7);
     (58, ioapic_handler 8); (59, ioapic_handler 9); (60, ioapic_handler 10); (61, ioapic_handler 11);
     (62, ioapic_handler 12); (63, ioapic_handler 13); (64, ioapic_handler 14); (65, ioapic_handler 15);
     (66, ioapic_handler 16); (67, ioapic_handler 17); (68, ioapic_handler 18); (69, ioapic_handler 19);
     (70, ioapic_handler 20); (71, ioapic_handler 21); (72, ioapic_handler 22); (73, ioapic_handler 23)]
    idt in
  <[0x80 := mkEntry int80_entry None true]> idt.

(** ** The handlers *)

Section handlers.
Context {Q : Type} `{ArrayQueue Q Z} {W : Type} `{AtomicWaker W Z}.
Context {HW : Type} `{Hardware HW} (rx_buffer_base : Z) (rx_fuel : nat).

(** The statics the handlers touch. *)
Record kernel : Type := mkKernel {
  TICK_COUNT : Z;
  LAPIC : option LocalApic;
  RTL8139 : option Rtl8139;
  keyboard : Input (Q:=Q) (W:=W);
}.

(** [LAPIC.get().expect(..).eoi()]. *)
Definition end_of_interrupt (k : kernel) : io HW unit :=
  l ← lift (unwrap (LAPIC k));
  eoi l.

Definition timer_interrupt (k : kernel) : io HW kernel :=
  t ← lift (TICK_COUNT k +[64] 1);
  let k := mkKernel t (LAPIC k) (RTL8139 k) (keyboard k) in
  _ ← end_of_interrupt k;
  ret k.

(** The body of the handlers that only acknowledge. *)
Definition plain_interrupt (k : kernel) : io HW kernel := _ ← end_of_interrupt k; ret k.

Definition timer_interrupt2 (k : kernel) : io HW kernel := plain_interrupt k.
Definition generic_interrupt (k : kernel) : io HW kernel := plain_interrupt k.

Definition keyboard_interrupt (k : kernel) : io HW kernel :=
  sc ← in8 0x60;
  s ← lift (add_scancode (keyboard k) sc);
  let k := mkKernel (TICK_COUNT k) (LAPIC k) (RTL8139 k) s in
  _ ← end_of_interrupt k;
  ret k.

Definition network_interrupt (k : kernel) : io HW kernel :=
  k ← match RTL8139 k with
      | Some r =>
          '(_, r) ← handle_interrupt rx_buffer_base rx_fuel r;
          ret (mkKernel (TICK_COUNT k) (LAPIC k) (Some r) (keyboard k))
      | None => ret k
      end;
  _ ← end_of_interrupt k;
  ret k.

(** One for each line of the I/O APIC. *)
Definition ioapic_handler_0 (k : kernel) : io HW kernel := plain_interrupt k.
Definition ioapic_handler_1 (k : kernel) : io HW kernel := keyboard_interrupt k.
Definition ioapic_handler_2 (k : kernel) : io HW kernel := plain_interrupt k.
Definition ioapic_handler_3 (k : kernel) : io HW kernel := plain_interrupt k.
Definition ioapic_handler_4 (k : kernel) : io HW kernel := plain_interrupt k.
Definition ioapic_handler_5 (k : kernel) : io HW kernel := plain_interrupt k.
Definition ioapic_handler_6 (k : kernel) : io HW kernel := plain_interrupt k.
Definition ioapic_handler_7 (k : kernel) : io HW kernel := plain_interrupt k.
Definition ioapic_handler_8 (k : kernel) : io HW kernel := plain_interrupt k.
Definition ioapic_handler_9 (k : kernel) : io HW kernel := plain_interrupt k.
Definition ioapic_handler_10 (k : kernel) : io HW kernel := network_interrupt k.
Definition ioapic_handler_11 (k : kernel) : io HW kernel := plain_interrupt k.
Definition ioapic_handler_12 (k : kernel) : io HW kernel := plain_interrupt k.
Definition ioapic_handler_13 (k : kernel) : io HW kernel := plain_interrupt k.
Definition ioapic_handler_14 (k : kernel) : io HW kernel := plain_interrupt k.
Definition ioapic_handler_15 (k : kernel) : io HW kernel := plain_interrupt k.
Definition ioapic_handler_16 (k : kernel) : io HW kernel := plain_interrupt k.
Definition ioapic_handler_17 (k : kernel) : io HW kernel := plain_interrupt k.
Definition ioapic_handler_18 (k : kernel) : io HW kernel := plain_interrupt k.
Definition ioapic_handler_19 (k : kernel) : io HW kernel := plain_interrupt k.
Definition ioapic_handler_20 (k : kernel) : io HW kernel := plain_interrupt k.
Definition ioapic_handler_21 (k : kernel) : io HW kernel := plain_interrupt k.
Definition ioapic_handler_22 (k : kernel) : io HW kernel := plain_interrupt k.
Definition ioapic_handler_23 (k : kernel) : io HW kernel := plain_interrupt k.

Definition run_ioapic_handler (i : Z) (k : kernel) : option (io HW kernel) :=
  match i with
  | 0 => Some (ioapic_handler_0 k)
  | 1 => Some (ioapic_handler_1 k)
  | 2 => Some (ioapic_handler_2 k)
  | 3 => Some (ioapic_handler_3 k)
  | 4 => Some (ioapic_handler_4 k)
  | 5 => Some (ioapic_handler_5 k)
  | 6 => Some (ioapic_handler_6 k)
  | 7 => Some (ioapic_handler_7 k)
  | 8 => Some (ioapic_handler_8 k)
  | 9 => Some (ioapic_handler_9 k)
  | 10 => Some (ioapic_handler_10 k)
  | 11 => Some (ioapic_handler_11 k)
  | 12 => Some (ioapic_handler_12 k)
  | 13 => Some (ioapic_handler_13 k)
  | 14 => Some (ioapic_handler_14 k)
  | 15 => Some (ioapic_handler_15 k)
  | 16 => Some (ioapic_handler_16 k)
  | 17 => Some (ioapic_handler_17 k)
  | 18 => Some (ioapic_handler_18 k)
  | 19 => Some (ioapic_handler_19 k)
  | 20 => Some (ioapic_handler_20 k)
  | 21 => Some (ioapic_handler_21 k)
  | 22 => Some (ioapic_handler_22 k)
  | 23 => Some (ioapic_handler_23 k)
  | _ => None
  end.

Definition run_handler (f : handler) (k : kernel) : option (io HW kernel) :=
  match f with
  | timer_interrupt_handler => Some (timer_interrupt k)
  | timer_interrupt_handler2 => Some (timer_interrupt2 k)
  | generic_interrupt_handler => Some (generic_interrupt k)
  | ioapic_handler i => run_ioapic_handler i k
  | _ => None    (* a fault, or a system call *)
  end.

(** The processor takes vector [v]. *)
Definition dispatch (v : Z) (k : kernel) : option (io HW kernel) :=
  e ← IDT !! v; run_handler (handler_fn e) k.

Lemma run_ioapic_handler_plain i k :
  0 ≤ i < 24 → i ≠ 1 → i ≠ 10 → run_ioapic_handler i k = Some (plain_interrupt k).
Proof.
  intros Hi Hi1 Hi10. destruct (Z_of_nat_complete i) as [n ->]; [lia|].
  do 24 (destruct n as [|n]; [done|]). lia.
Qed.
End handlers.
Arguments kernel : clear implicits.

(** ** The table, by vector *)

Definition vector_handler (v : Z) : option idt_entry :=
  if v =? 3 then Some (mkEntry breakpoint_handler None false)
  else if v =? 8 then Some (mkEntry double_fault_handler (Some 0) false)
  else if v =? 13 then Some (mkEntry gp_fault_handler None false)
  else if v =? 14 then Some (mkEntry page_fault_handler None false)
  else if v =? 0x80 then Some (mkEntry int80_entry None true)
  else if v =? 48 then Some (mkEntry timer_interrupt_handler None false)
  else if v =? 49 then Some (mkEntry timer_interrupt_handler2 None false)
  else if (50 <=? v) && (v <=? 73) then Some (mkEntry (ioapic_handler (v - 50)) None false)
  else if (32 <=? v) && (v <=? 255) then Some (mkEntry generic_interrupt_handler None false)
  else None.

#[export] Instance idt_entry_eq_dec : EqDecision idt_entry.
Proof. solve_decision. Defined.

Lemma IDT_lookup v : 0 ≤ v < 256 → IDT !! v = vector_handler v.
Proof.
  intros Hv.
  assert (Hall : forallb (λ n, bool_decide (IDT !! Z.of_nat n = vector_handler (Z.of_nat n))) (seq 0 256) = true)
    by (vm_compute; reflexivity).
  rewrite forallb_forall in Hall. specialize (Hall (Z.to_nat v)).
  rewrite in_seq, Z2Nat.id, bool_decide_eq_true in Hall by lia. apply Hall. lia.
Qed.

(** What an interrupt of a device does, as one access sequence. *)
Section device.
Context {Q : Type} `{ArrayQueue Q Z} {W : Type} `{AtomicWaker W Z} {HW : Type} `{Hardware HW} (base : Z) (fuel : nat).

(** The handler's last access: the write that ends the interrupt. *)
Definition ended (l : LocalApic) (h : HW) : HW := mmio_write 4 (lapic_address l + 0xB0) 0 h.

Lemma end_of_interrupt_exact (k : kernel Q W) l (h : HW) :
  LAPIC k = Some l → 0 ≤ lapic_address l ≤ 2 ^ 64 - 0x400 → end_of_interrupt k h = Ret ((), ended l h).
Proof.
  intros Hl Hla. unfold end_of_interrupt. rewrite Hl. cbn [unwrap]. rewrite io_bind_lift.
  unfold eoi, lapic_write. io_checked. reflexivity.
Qed.

Lemma plain_interrupt_exact (k : kernel Q W) l (h : HW) :
  LAPIC k = Some l → 0 ≤ lapic_address l ≤ 2 ^ 64 - 0x400 → plain_interrupt k h = Ret (k, ended l h).
Proof. intros Hl Hla. unfold plain_interrupt. by rewrite (io_bind_Ret _ _ _ _ _ (end_of_interrupt_exact k l h Hl Hla)). Qed.

Lemma dispatch_exact (v : Z) (k : kernel Q W) (l : LocalApic) (h : HW) :
  32 ≤ v < 256 → v ≠ 0x80 → (v = 60 → RTL8139 k = None) → LAPIC k = Some l → 0 ≤ lapic_address l ≤ 2 ^ 64 - 0x400 →
  (v = 48 → 0 ≤ TICK_COUNT k < 2 ^ 64 - 1) →
  ∃ m, dispatch base fuel v k = Some m ∧
    m h =
      if v =? 51 then
        let '(sc, h1) := port_in 1 0x60 h in
        match add_scancode (keyboard k) sc with
        | Ret s => Ret (mkKernel (TICK_COUNT k) (LAPIC k) (RTL8139 k) s, ended l h1)
        | Panic r => Panic r
        | OutOfFuel => OutOfFuel
        end
      else Ret (mkKernel (if v =? 48 then TICK_COUNT k + 1 else TICK_COUNT k) (LAPIC k) (RTL8139 k) (keyboard k), ended l h).
Proof.
  intros Hv Hv80 Hnet Hl Hla Ht.
  assert (Hplain : plain_interrupt k h = Ret (mkKernel (TICK_COUNT k) (LAPIC k) (RTL8139 k) (keyboard k), ended l h)).
  { rewrite (plain_interrupt_exact k l h Hl Hla). by destruct k. }
  unfold dispatch. rewrite IDT_lookup by lia. unfold vector_handler.
  do 4 (rewrite (proj2 (Z.eqb_neq v _)) by lia). rewrite (proj2 (Z.eqb_neq v 0x80)) by done.
  destruct (Z.eqb_spec v 48) as [->|H48]; [|destruct (Z.eqb_spec v 49) as [->|H49]].
  - specialize (Ht eq_refl). eexists. split; [reflexivity|]. cbn [Z.eqb]. unfold timer_interrupt. io_checked. cbv zeta.
    by rewrite (io_bind_Ret _ _ _ _ _ (end_of_interrupt_exact (mkKernel _ _ _ _) l h Hl Hla)).
  - eexists. split; [reflexivity|]. exact Hplain.
  - destruct ((50 <=? v) && (v <=? 73)) eqn:Hio.
    + destruct (Z.eqb_spec v 51) as [->|H51]; [|destruct (Z.eqb_spec v 60) as [->|H60]].
      * eexists. split; [reflexivity|]. unfold ioapic_handler_1, keyboard_interrupt.
        unfold mbind at 1, io_bind at 1, in8. destruct (port_in 1 0x60 h) as [sc h1].
        destruct (add_scancode (keyboard k) sc) as [s| |]; [|reflexivity|reflexivity].
        rewrite io_bind_lift. cbv zeta. by rewrite (io_bind_Ret _ _ _ _ _ (end_of_interrupt_exact (mkKernel _ _ _ _) l h1 Hl Hla)).
      * eexists. split; [reflexivity|]. unfold ioapic_handler_10, network_interrupt. rewrite (Hnet eq_refl), io_bind_ret.
        unfold plain_interrupt in Hplain. rewrite Hplain, (Hnet eq_refl). reflexivity.
      * exists (plain_interrupt k). split; [apply run_ioapic_handler_plain; lia|exact Hplain].
    + rewrite (proj2 (Z.leb_le 32 v)), (proj2 (Z.leb_le v 255)) by lia. cbn [andb].
      eexists. split; [reflexivity|]. rewrite (proj2 (Z.eqb_neq v 51)) by lia. exact Hplain.
Qed.

(** The last tick: the counter's addition overflows. *)
Lemma dispatch_last_tick (k : kernel Q W) :
  TICK_COUNT k = 2 ^ 64 - 1 → ∃ m, dispatch base fuel 48 k = Some m ∧ ∀ h, m h = Panic ArithmeticOverflow.
Proof. intros Ht. eexists. split; [reflexivity|]. intros h. unfold timer_interrupt. by rewrite Ht. Qed.
End device.

(** ** Sleep *)

(** [TICK_COUNT] as successive loads see it. *)
Fixpoint sleep_loop (fuel : nat) (loads : nat → Z) (i : nat) (goal : Z) : outcome nat :=
  match fuel with
  | O => OutOfFuel
  | S fuel => if goal <=? loads i then Ret i else sleep_loop fuel loads (S i) goal
  end.

(** The first load computes the goal. *)
Definition sleep_ms (fuel : nat) (loads : nat → Z) (ms : Z) : outcome nat :=
  goal ← loads 0%nat +[64] ms; sleep_loop fuel loads 1 goal.
Definition sleep_sec (fuel : nat) (loads : nat → Z) (sec : Z) : outcome nat :=
  d ← sec *[64] 1000;
  goal ← loads 0%nat +[64] d; sleep_loop fuel loads 1 goal.

Lemma sleep_loop_first fuel loads i goal n :
  (i ≤ n)%nat → (n < i + fuel)%nat → goal ≤ loads n → (∀ j, (i ≤ j < n)%nat → loads j < goal) →
  sleep_loop fuel loads i goal = Ret n.
Proof.
  revert i. induction fuel as [|fuel IH]; intros i Hin Hn Hg Hlt; [lia|]. simpl.
  destruct (decide (i = n)) as [->|Hne]; [by rewrite (proj2 (Z.leb_le _ _))|].
  rewrite (proj2 (Z.leb_gt _ _)) by (apply Hlt; lia). apply IH; [lia|lia|done|].
  intros j Hj. apply Hlt. lia.
Qed.

Lemma sleep_loop_stuck fuel loads i goal :
  (∀ j, loads j < goal) → sleep_loop fuel loads i goal = OutOfFuel.
Proof.
  intros Hl. revert i. induction fuel as [|fuel IH]; intros i; simpl; [done|].
  by rewrite (proj2 (Z.leb_gt _ _)).
Qed.

#[local] Existing Instances list_ArrayQueue option_AtomicWaker sample_card_hw.

(** ** Properties *)

(** With the vectors the I/O APIC is programmed with, line [i] runs
    [ioapic_handler_i]; the timer's vector 48 runs the timer; every vector
    from 32 on has a handler; and vector 0x80, the system call, is the only one
    that ring 3 may raise. *)
Theorem idt_lines :
  (∀ i, 0 ≤ i < 24 → IDT !! (50 + i) = Some (mkEntry (ioapic_handler i) None false)) ∧
  IDT !! 48 = Some (mkEntry timer_interrupt_handler None false) ∧
  (∀ v, 32 ≤ v < 256 → is_Some (IDT !! v)) ∧
  (∀ v e, 0 ≤ v < 256 → IDT !! v = Some e → (ring3 e = true ↔ v = 0x80)).
Proof.
  split_and!.
  - intros i Hi. rewrite IDT_lookup by lia. unfold vector_handler.
    rewrite !(proj2 (Z.eqb_neq (50 + i) _)) by lia.
    rewrite (proj2 (Z.leb_le 50 _)), (proj2 (Z.leb_le _ 73)) by lia. simpl. do 3 f_equal. lia.
  - reflexivity.
  - intros v Hv. rewrite IDT_lookup by lia. unfold vector_handler.
    rewrite (proj2 (Z.leb_le 32 _)), (proj2 (Z.leb_le _ 255)) by lia. simpl.
    repeat (destruct (_ =? _); [by eexists|]). destruct (_ && _); by eexists.
  - intros v e Hv He. rewrite IDT_lookup in He by lia. unfold vector_handler in He.
    assert (Hring : ∀ f s r, e = mkEntry f s r → r = bool_decide (v = 0x80) → ring3 e = true ↔ v = 0x80).
    { intros f s r -> ->. simpl. apply bool_decide_eq_true. }
    repeat match type of He with context [v =? ?n] =>
      destruct (Z.eqb_spec v n) in He; [injection He as <-; subst; exact (Hring _ _ _ eq_refl eq_refl)|] end.
    rewrite bool_decide_eq_false_2 in Hring by done.
    destruct (_ && _) in He; [injection He as <-; exact (Hring _ _ _ eq_refl eq_refl)|].
    destruct (_ && _) in He; [injection He as <-; exact (Hring _ _ _ eq_refl eq_refl)|done].
Qed.

(** C31: Every device interrupt is acknowledged, as its last access to the
    hardware, by one write to the end-of-interrupt register of the local APIC;
    the timer counts one tick, the keyboard's handler first reads port 0x60 and
    queues the scancode (where queueing panics, in a waker, so does the handler,
    and nothing is acknowledged), and the handlers of the lines without a device,
    the network card's when there is none included, change nothing else. The
    local APIC is known, and the tick counter is not at its end. *)
Theorem device_interrupts_acknowledged {Q : Type} `{ArrayQueue Q Z} {W : Type} `{AtomicWaker W Z}
    {HW : Type} `{Hardware HW} (base : Z) (fuel : nat) (v : Z) (k : kernel Q W) (l : LocalApic) (h : HW) :
  32 ≤ v < 256 → v ≠ 0x80 → (v = 60 → RTL8139 k = None) → LAPIC k = Some l → 0 ≤ lapic_address l ≤ 2 ^ 64 - 0x400 →
  (v = 48 → 0 ≤ TICK_COUNT k < 2 ^ 64 - 1) →
  ∃ m, dispatch base fuel v k = Some m ∧
    m h =
      if v =? 51 then
        let '(sc, h1) := port_in 1 0x60 h in
        match add_scancode (keyboard k) sc with
        | Ret s => Ret (mkKernel (TICK_COUNT k) (LAPIC k) (RTL8139 k) s,
                        mmio_write 4 (lapic_address l + 0xB0) 0 h1)
        | Panic r => Panic r
        | OutOfFuel => OutOfFuel
        end
      else Ret (mkKernel (if v =? 48 then TICK_COUNT k + 1 else TICK_COUNT k) (LAPIC k) (RTL8139 k) (keyboard k),
                mmio_write 4 (lapic_address l + 0xB0) 0 h).
Proof. intros. by apply dispatch_exact. Qed.

Lemma device_interrupts_acknowledged_witness :
  let k : kernel (list_queue Z) (option Z) :=
    mkKernel 7 (Some (mkLapic 0xfee00000)) None (mkInput None None (mkLQ 100 [])) in
  let h := mkCard 0 0 0 [] in
  ∃ m, dispatch 0 0 48 k = Some m ∧
    m h = Ret (mkKernel 8 (Some (mkLapic 0xfee00000)) None (mkInput None None (mkLQ 100 [])), h).
Proof.
  destruct (device_interrupts_acknowledged (HW:=sample_card) 0 0 48
    (mkKernel 7 (Some (mkLapic 0xfee00000)) None (mkInput (W:=option Z) None None (mkLQ (A:=Z) 100 [])))
    (mkLapic 0xfee00000) (mkCard 0 0 0 [])) as (m & E & Em);
    [lia|discriminate|done|reflexivity|simpl; lia|simpl; lia|].
  exists m. split; [exact E|exact Em].
Defined.

(** [Sleep::ms] returns at the first load of the tick counter that is at
    least [ms] past the one it started from; while no tick comes (interrupts
    disabled, as inside the interrupt gate of a system call) it never returns,
    for any wait but 0. *)
Theorem sleep_ms_exact (loads : nat → Z) (ms : Z) (n fuel : nat) :
  0 ≤ ms → 0 ≤ loads 0%nat → loads 0%nat + ms < 2 ^ 64 →
  ((1 ≤ n ≤ fuel)%nat → loads 0%nat + ms ≤ loads n →
     (∀ j, (1 ≤ j < n)%nat → loads j < loads 0%nat + ms) → sleep_ms fuel loads ms = Ret n) ∧
  (0 < ms → (∀ j, loads j = loads 0%nat) → sleep_ms fuel loads ms = OutOfFuel).
Proof.
  intros Hms H0 Hov. unfold sleep_ms. checked_step. split.
  - intros Hn Hg Hlt. apply sleep_loop_first; [lia|lia|done|done].
  - intros Hpos Hst. apply sleep_loop_stuck. intros j. rewrite Hst. lia.
Qed.

Lemma sleep_ms_exact_witness :
  sleep_ms 5 (λ i, Z.of_nat (i / 2)) 2 = Ret 4%nat ∧ sleep_ms 5 (λ _, 3) 2 = OutOfFuel.
Proof.
  split.
  - apply (sleep_ms_exact (λ i, Z.of_nat (i / 2)) 2 4 5); simpl; try lia.
    intros j Hj. assert (Hc : (j = 1 ∨ j = 2 ∨ j = 3)%nat) by lia. destruct Hc as [-> | [-> | ->]]; simpl; lia.
  - apply (sleep_ms_exact (λ _, 3) 2 4 5); done.
Defined.
