(* ===== verification/Text.v ===== *)
(** * Text

    Rust's [str] and [String] as lists of scalar values, with what the kernel
    uses of them: literals, [trim], [split], [as_bytes] (UTF-8), and the
    decimal [Display] of an unsigned integer. *)

From Stdlib Require Import String.
From Stdlib Require Import Ascii.
From S2P Require Import Prelude Ustar.
Open Scope Z_scope.

Definition text : Type := list Z.

(** A literal. *)
Fixpoint txt (s : string) : text :=
  match s with
  | EmptyString => []
  | String a s => Z.of_nat (nat_of_ascii a) :: txt s
  end.
Arguments txt s%_string.

Definition NL : text := [10].
Definition QUOTE : text := [34].

(** Lines, each ended by a newline but the last. *)
Fixpoint lines (ls : list text) : text :=
  match ls with
  | [] => []
  | [l] => l
  | l :: ls => l ++ NL ++ lines ls
  end.

(** [char::is_whitespace]. *)
Definition is_whitespace (c : Z) : bool :=
  ((9 <=? c) && (c <=? 13)) || (c =? 32) || (c =? 0x85) || (c =? 0xA0) || (c =? 0x1680) ||
  ((0x2000 <=? c) && (c <=? 0x200A)) || (c =? 0x2028) || (c =? 0x2029) || (c =? 0x202F) ||
  (c =? 0x205F) || (c =? 0x3000).

Fixpoint trim_start (t : text) : text :=
  match t with
  | [] => []
  | c :: t' => if is_whitespace c then trim_start t' else t
  end.
Definition trim_end (t : text) : text := rev (trim_start (rev t)).
Definition trim (t : text) : text := trim_end (trim_start t).

(** [t.split(sep).collect()]: the pieces between separators, empty ones too. *)
Fixpoint split (sep : Z) (t : text) : list text :=
  match t with
  | [] => [[]]
  | c :: t =>
      if c =? sep then [] :: split sep t
      else match split sep t with
           | p :: ps => (c :: p) :: ps
           | [] => [[c]]
           end
  end.

Definition starts_with (p t : text) : bool := bool_decide (take (length p) t = p).

(** ** UTF-8 *)

Definition is_scalar (c : Z) : Prop := 0 ≤ c < 0xD800 ∨ 0xE000 ≤ c < 0x110000.

Lemma ascii_scalar t : forallb (λ c, (0 <=? c) && (c <? 0x80)) t = true → Forall is_scalar t.
Proof.
  rewrite forallb_forall. intros Hs. apply Forall_forall. intros c Hc. apply list_elem_of_In in Hc.
  specialize (Hs c Hc). unfold is_scalar. lia.
Qed.

Definition utf8_char (c : Z) : list Z :=
  if c <? 0x80 then [c]
  else if c <? 0x800 then [0xC0 + c / 64; 0x80 + c mod 64]
  else if c <? 0x10000 then [0xE0 + c / 4096; 0x80 + c / 64 mod 64; 0x80 + c mod 64]
  else [0xF0 + c / 262144; 0x80 + c / 4096 mod 64; 0x80 + c / 64 mod 64; 0x80 + c mod 64].

Definition as_bytes (t : text) : list Z := t ≫= utf8_char.

Lemma utf8_lead b bs :
  utf8_from [] (b :: bs) = match utf8_start b with Some e => utf8_from e bs | None => false end.
Proof. reflexivity. Qed.

Lemma utf8_tail lo hi e b bs : lo ≤ b ≤ hi → utf8_from ((lo, hi) :: e) (b :: bs) = utf8_from e bs.
Proof. intros Hb. cbn [utf8_from]. by rewrite (proj2 (Z.leb_le lo b)), (proj2 (Z.leb_le b hi)) by lia. Qed.

#[local] Ltac utf8_cases :=
  rewrite utf8_lead; unfold utf8_start, cont;
  repeat (let H := fresh in destruct (_ <? _) eqn:H || destruct (_ =? _) eqn:H;
    first [apply Z.ltb_lt in H|apply Z.ltb_ge in H|apply Z.eqb_eq in H|apply Z.eqb_neq in H]; try lia);
  rewrite ?utf8_tail by lia; try done.

Lemma utf8_char_valid c bs : is_scalar c → utf8_from [] (utf8_char c ++ bs) = utf8_from [] bs.
Proof.
  intros Hc. unfold is_scalar in Hc. unfold utf8_char.
  pose proof (Z.div_mod c 64 ltac:(lia)). pose proof (Z.mod_pos_bound c 64 ltac:(lia)).
  pose proof (Z.div_mod (c / 64) 64 ltac:(lia)). pose proof (Z.mod_pos_bound (c / 64) 64 ltac:(lia)).
  pose proof (Z.div_mod (c / 4096) 64 ltac:(lia)). pose proof (Z.mod_pos_bound (c / 4096) 64 ltac:(lia)).
  assert (E1 : c / 64 / 64 = c / 4096) by (rewrite Z.div_div by lia; done).
  assert (E2 : c / 4096 / 64 = c / 262144) by (rewrite Z.div_div by lia; done).
  rewrite E1 in *. rewrite E2 in *.
  destruct (Z.ltb_spec c 0x80); [cbn [app]; utf8_cases|].
  destruct (Z.ltb_spec c 0x800); [cbn [app]; utf8_cases|].
  destruct (Z.ltb_spec c 0x10000); cbn [app]; utf8_cases.
Qed.

(** The bytes of a [str] are valid UTF-8. *)
Lemma as_bytes_valid t : Forall is_scalar t → utf8_from [] (as_bytes t) = true.
Proof.
  induction 1 as [|c t Hc Ht IH]; [done|]. unfold as_bytes. cbn [mbind list_bind].
  by rewrite utf8_char_valid.
Qed.

(** ** Decimal *)

Fixpoint digits (fuel : nat) (n : Z) : text :=
  match fuel with
  | O => []
  | S fuel => if n <? 10 then [0x30 + n] else digits fuel (n / 10) ++ [0x30 + n mod 10]
  end.

(** Twenty digits are enough for 64 bits. *)
Definition decimal (n : Z) : text := digits 20 n.

Fixpoint number (acc : Z) (t : text) : Z :=
  match t with [] => acc | c :: t => number (acc * 10 + (c - 0x30)) t end.

Lemma number_app acc t u : number acc (t ++ u) = number (number acc t) u.
Proof. revert acc. induction t as [|c t IH]; intros acc; simpl; [done|apply IH]. Qed.

Lemma digits_spec fuel n :
  0 ≤ n < 10 ^ Z.of_nat fuel → (0 < fuel)%nat →
  number 0 (digits fuel n) = n ∧ (length (digits fuel n) ≤ fuel)%nat ∧ digits fuel n ≠ [] ∧
  Forall (λ c, 0x30 ≤ c ≤ 0x39) (digits fuel n).
Proof.
  revert n. induction fuel as [|fuel IH]; intros n Hn Hf; [lia|]. cbn [digits].
  destruct (Z.ltb_spec n 10).
  { simpl. split_and!; [lia|lia|done|]. constructor; [lia|constructor]. }
  rewrite Nat2Z.inj_succ, Z.pow_succ_r in Hn by lia.
  pose proof (Z.div_mod n 10 ltac:(lia)). pose proof (Z.mod_pos_bound n 10 ltac:(lia)).
  destruct fuel as [|fuel]; [change (10 ^ Z.of_nat 0) with 1 in Hn; lia|].
  destruct (IH (n / 10)) as (Hv & Hl & Hne & Hd); [|lia|].
  { split; [apply Z.div_pos; lia|]. apply Z.div_lt_upper_bound; lia. }
  rewrite number_app, Hv, length_app. cbn [number length]. split_and!; [lia|lia| |].
  - intros Hnil. by apply app_eq_nil in Hnil as [_ ?].
  - apply Forall_app. split; [done|]. constructor; [lia|constructor].
Qed.

Lemma decimal_spec n :
  0 ≤ n < 2 ^ 64 →
  number 0 (decimal n) = n ∧ zlen (decimal n) ≤ 20 ∧ decimal n ≠ [] ∧
  Forall (λ c, 0x30 ≤ c ≤ 0x39) (decimal n).
Proof.
  intros Hn. destruct (digits_spec 20 n) as (Hv & Hl & Hne & Hd); [|lia|].
  { change (10 ^ Z.of_nat 20) with (10 ^ 20). lia. }
  unfold decimal, zlen. split_and!; [done|lia|done|done].
Qed.

(** [chars()] of a [str]: the scalar values of well-formed bytes. *)
Fixpoint chars (bs : list Z) : text :=
  match bs with
  | [] => []
  | x :: bs =>
      if x <? 0x80 then x :: chars bs else
      match bs with
      | [] => []
      | y :: bs =>
          if x <? 0xE0 then x mod 0x20 * 0x40 + y mod 0x40 :: chars bs else
          match bs with
          | [] => []
          | z :: bs =>
              if x <? 0xF0 then (x mod 0x10 * 0x40 + y mod 0x40) * 0x40 + z mod 0x40 :: chars bs else
              match bs with
              | [] => []
              | w :: bs =>
                  ((x mod 8 * 0x40 + y mod 0x40) * 0x40 + z mod 0x40) * 0x40 + w mod 0x40 :: chars bs
              end
          end
      end
  end.

Lemma chars_utf8_char c bs : is_scalar c → chars (utf8_char c ++ bs) = c :: chars bs.
Proof.
  intros Hc. unfold is_scalar in Hc. unfold utf8_char.
  destruct (Z.ltb_spec c 0x80) as [?|?].
  { cbn [app chars]. by rewrite (proj2 (Z.ltb_lt c 0x80)) by lia. }
  destruct (Z.ltb_spec c 0x800) as [?|?].
  { cbn [app chars]. rewrite (proj2 (Z.ltb_ge (0xC0 + c / 64) 0x80)) by (Z.to_euclidean_division_equations; lia).
    rewrite (proj2 (Z.ltb_lt (0xC0 + c / 64) 0xE0)) by (Z.to_euclidean_division_equations; lia).
    f_equal. Z.to_euclidean_division_equations; lia. }
  destruct (Z.ltb_spec c 0x10000) as [?|?].
  - cbn [app chars].
    rewrite (proj2 (Z.ltb_ge (0xE0 + c / 4096) 0x80)), (proj2 (Z.ltb_ge (0xE0 + c / 4096) 0xE0)),
      (proj2 (Z.ltb_lt (0xE0 + c / 4096) 0xF0)) by (Z.to_euclidean_division_equations; lia).
    f_equal. Z.to_euclidean_division_equations; lia.
  - cbn [app chars].
    rewrite (proj2 (Z.ltb_ge (0xF0 + c / 262144) 0x80)), (proj2 (Z.ltb_ge (0xF0 + c / 262144) 0xE0)),
      (proj2 (Z.ltb_ge (0xF0 + c / 262144) 0xF0)) by (Z.to_euclidean_division_equations; lia).
    f_equal. Z.to_euclidean_division_equations; lia.
Qed.

(** A text, encoded and decoded. *)
Lemma chars_as_bytes t : Forall is_scalar t → chars (as_bytes t) = t.
Proof.
  induction 1 as [|c t Hc Ht IH]; [done|]. unfold as_bytes in *. cbn [mbind list_bind].
  rewrite chars_utf8_char by done. by f_equal.
Qed.

Definition char_ok (c : Z) : Prop := 0 ≤ c.

Lemma scalar_ok t : Forall is_scalar t → Forall char_ok t.
Proof. intros Ht. eapply Forall_impl; [exact Ht|]. unfold is_scalar, char_ok. lia. Qed.

Lemma chars_ok bs : Forall (λ b, 0 ≤ b) bs → Forall char_ok (chars bs).
Proof.
  assert (H : ∀ n bs, (length bs ≤ n)%nat → Forall (λ b, 0 ≤ b) bs → Forall char_ok (chars bs)).
  { clear bs. induction n as [|n IH]; intros bs Hl Hb; [destruct bs; [constructor|simpl in Hl; lia]|].
    assert (Hm : ∀ a k, 0 < k → 0 ≤ a mod k) by (intros; by apply Z.mod_pos_bound).
    destruct bs as [|x bs]; [constructor|]. apply Forall_cons in Hb as [Hx Hb]. cbn [chars length] in *.
    destruct (x <? 0x80); [constructor; [done|apply IH; [lia|done]]|].
    destruct bs as [|y bs]; [constructor|]. apply Forall_cons in Hb as [Hy Hb]. cbn [length] in *.
    pose proof (Hm y 64 ltac:(lia)).
    destruct (x <? 0xE0).
    { pose proof (Hm x 32 ltac:(lia)). constructor; [unfold char_ok; lia|apply IH; [lia|done]]. }
    destruct bs as [|z bs]; [constructor|]. apply Forall_cons in Hb as [Hz Hb]. cbn [length] in *.
    pose proof (Hm z 64 ltac:(lia)).
    destruct (x <? 0xF0).
    { pose proof (Hm x 16 ltac:(lia)). constructor; [unfold char_ok; lia|apply IH; [lia|done]]. }
    destruct bs as [|w bs]; [constructor|]. apply Forall_cons in Hb as [Hw Hb]. cbn [length] in *.
    pose proof (Hm w 64 ltac:(lia)). pose proof (Hm x 8 ltac:(lia)).
    constructor; [unfold char_ok; lia|apply IH; [lia|done]]. }
  by apply (H (length bs)).
Qed.

Lemma txt_ok s : Forall char_ok (txt s).
Proof. induction s as [|a s IH]; simpl; constructor; [unfold char_ok; lia|done]. Qed.

Lemma decimal_ok n : 0 ≤ n < 2 ^ 64 → Forall char_ok (decimal n).
Proof.
  intros Hn. destruct (decimal_spec n Hn) as (_ & _ & _ & Hd).
  eapply Forall_impl; [exact Hd|]. unfold char_ok. lia.
Qed.

(** A signed integer. *)
Definition signed (n : Z) : text := if n <? 0 then txt "-" ++ decimal (- n) else decimal n.

Lemma digits_ok fuel n : 0 ≤ n → Forall char_ok (digits fuel n).
Proof.
  revert n. induction fuel as [|fuel IH]; intros n Hn; cbn [digits]; [constructor|]. unfold char_ok in *.
  destruct (Z.ltb_spec n 10); [by repeat constructor; lia|]. apply Forall_app. split.
  - apply IH. by apply Z.div_pos.
  - constructor; [|constructor]. pose proof (Z.mod_pos_bound n 10). lia.
Qed.

Lemma signed_ok n : Forall char_ok (signed n).
Proof.
  unfold signed, decimal. destruct (Z.ltb_spec n 0); [|by apply digits_ok].
  apply Forall_app. split; [|apply digits_ok; lia]. repeat constructor; unfold char_ok; lia.
Qed.

(** [{:#x}]: the digits; the prefix is a piece of its own. *)
Definition hex_digit (d : Z) : Z := if d <? 10 then 0x30 + d else 0x57 + d.
Fixpoint hex_digits (fuel : nat) (n : Z) : text :=
  match fuel with
  | O => []
  | S fuel => if n <? 16 then [hex_digit n] else hex_digits fuel (n / 16) ++ [hex_digit (n mod 16)]
  end.
Definition hex (n : Z) : text := hex_digits 16 n.

Lemma hex_ok n : 0 ≤ n → Forall char_ok (hex n).
Proof.
  unfold hex. generalize 16%nat as fuel. intros fuel. revert n.
  induction fuel as [|fuel IH]; intros n Hn; cbn [hex_digits]; [constructor|].
  assert (Hd : ∀ d, 0 ≤ d → char_ok (hex_digit d)).
  { intros d ?. unfold hex_digit, char_ok. destruct (d <? 10); lia. }
  destruct (n <? 16); [constructor; [by apply Hd|constructor]|].
  apply Forall_app. split; [apply IH; by apply Z.div_pos|]. constructor; [|constructor].
  apply Hd. by apply Z.mod_pos_bound.
Qed.
