(* ===== verification/Framebuffer.v ===== *)
(** * The framebuffer (kernel/src/display.rs, [Framebuffer])

    Pixels in the byte buffer the bootloader hands over: every drawing
    operation is a sequence of byte stores, shown to be a sequence of [paint]s
    of pixels. *)

From S2P Require Import Prelude.
Open Scope Z_scope.
Open Scope rust_scope.

(** ** State *)

Inductive PixelFormat : Type := Rgb | Bgr | U8 | OtherFormat.

(** [bootloader_api::info::FrameBufferInfo]. *)
Record FrameBufferInfo : Type := mkInfo {
  fb_width : Z;
  fb_height : Z;
  stride : Z;
  bytes_per_pixel : Z;
  pixel_format : PixelFormat;
}.

Record Framebuffer : Type := mkFb { fb_info : FrameBufferInfo; buffer : list Z }.

Definition rgb : Type := Z * Z * Z.
Definition rgba : Type := Z * Z * Z * Z.

Definition resolution (fb : Framebuffer) : Z * Z := (fb_width (fb_info fb), fb_height (fb_info fb)).

(** ** Operations *)

(** [buf[o] = a; buf[o + 1] = b; buf[o + 2] = c]. *)
Definition put3 (buf : list Z) (o a b c : Z) : outcome (list Z) :=
  buf ← store buf o a;
  o1 ← o +[64] 1; buf ← store buf o1 b;
  o2 ← o +[64] 2; store buf o2 c.

Definition put_pixel (x y : Z) (color : rgb) (fb : Framebuffer) : outcome Framebuffer :=
  let info := fb_info fb in
  let '(r, g, b) := color in
  if (fb_width info <=? x) || (fb_height info <=? y) then Ret fb else
  row ← y *[64] stride info;
  pixel_index ← row +[64] x;
  byte_offset ← pixel_index *[64] bytes_per_pixel info;
  buf ← match pixel_format info with
        | Rgb => put3 (buffer fb) byte_offset r g b
        | Bgr => put3 (buffer fb) byte_offset b g r
        | U8 => store (buffer fb) byte_offset r
        | OtherFormat => Ret (buffer fb)
        end;
  Ret (mkFb info buf).

(** [(color.0 + color.1 + color.2) / 3], in [u8]. *)
Definition gray (color : rgb) : outcome Z :=
  let '(r, g, b) := color in
  s ← r +[8] g; s ← s +[8] b; Ret (s / 3).

Definition clear_screen (color : rgb) (fb : Framebuffer) : outcome Framebuffer :=
  let info := fb_info fb in
  let '(r, g, b) := color in
  let pixels (put : list Z → Z → outcome (list Z)) :=
    for_range 0 (fb_height info) (λ y, for_range 0 (fb_width info) (λ x buf,
      row ← y *[64] stride info;
      pixel_index ← row +[64] x;
      byte_offset ← pixel_index *[64] bytes_per_pixel info;
      put buf byte_offset)) in
  buf ← match pixel_format info with
        | Rgb => pixels (λ buf o, put3 buf o r g b) (buffer fb)
        | Bgr => pixels (λ buf o, put3 buf o b g r) (buffer fb)
        | U8 => pixels (λ buf o, v ← gray color; store buf o v) (buffer fb)
        | OtherFormat => Ret (buffer fb)
        end;
  Ret (mkFb info buf).

Definition draw_rect (x y w h : Z) (color : rgb) (fb : Framebuffer) : outcome Framebuffer :=
  let info := fb_info fb in
  let '(r, g, b) := color in
  if (fb_width info <=? x) || (fb_height info <=? y) then Ret fb else
  xw ← x +[64] w;
  if xw <=? x then Ret fb else
  yh ← y +[64] h;
  if yh <=? y then Ret fb else
  mx ← fb_width info -[64] w;
  let x := Z.min x mx in
  my ← fb_height info -[64] h;
  let y := Z.min y my in
  let rows (per_pixel : Z) (put : list Z → Z → outcome (list Z)) (buf : list Z) :=
    ye ← y +[64] h;
    for_range y ye (λ line_y buf,
      row ← line_y *[64] stride info;
      row ← row +[64] x;
      start_idx ← row *[64] per_pixel;
      for_range 0 w (λ i buf,
        d ← i *[64] per_pixel;
        o ← start_idx +[64] d;
        put buf o) buf) buf in
  buf ← match pixel_format info with
        | Rgb => rows 3 (λ buf o, put3 buf o r g b) (buffer fb)
        | Bgr => rows 3 (λ buf o, put3 buf o b g r) (buffer fb)
        | U8 => v ← gray color; rows 1 (λ buf o, store buf o v) (buffer fb)
        | OtherFormat => Ret (buffer fb)
        end;
  Ret (mkFb info buf).

Definition draw_bitmap (bitmap : list rgba) (width height x y : Z) (fb : Framebuffer) : outcome Framebuffer :=
  let w := fb_width (fb_info fb) in
  let h := fb_height (fb_info fb) in
  let mw := Z.min (Z.max 0 (w - x)) width in
  let mh := Z.min (Z.max 0 (h - y)) height in
  if (mw =? 0) || (mh =? 0) then Ret fb else
  for_range 0 mh (λ row fb,
    base_index ← row *[64] width;
    for_range 0 mw (λ col fb,
      pixel_index ← base_index +[64] col;
      match bitmap !! Z.to_nat pixel_index with
      | Some (r, g, b, a) =>
          if negb (a =? 0) then
            px ← x +[64] col;
            py ← y +[64] row;
            put_pixel px py (r, g, b) fb
          else Ret fb
      | None => Ret fb
      end) fb) fb.

(** The calls [self.put_pixel(x + dx, y + dy, color)] in order. *)
Fixpoint put_pixels (x y : Z) (color : rgb) (ds : list (Z * Z)) (fb : Framebuffer) : outcome Framebuffer :=
  match ds with
  | [] => Ret fb
  | (dx, dy) :: ds =>
      px ← x +[64] dx;
      py ← y +[64] dy;
      fb ← put_pixel px py color fb;
      put_pixels x y color ds fb
  end.

Definition smiley_points : list (Z * Z) :=
  [(1, 0); (1, 1); (5, 0); (5, 1);
   (0, 4); (1, 5); (2, 5); (3, 5); (4, 5); (5, 5); (6, 4)].
Definition sad_points : list (Z * Z) :=
  [(1, 0); (1, 1); (5, 0); (5, 1);
   (0, 5); (1, 4); (2, 4); (3, 4); (4, 4); (5, 4); (6, 5)].

Definition draw_smiley (x y : Z) (color : rgba) (fb : Framebuffer) : outcome Framebuffer :=
  let '(r, g, b, a) := color in
  if a =? 0 then Ret fb else put_pixels x y (r, g, b) smiley_points fb.

Definition draw_sad_face (x y : Z) (color : rgba) (fb : Framebuffer) : outcome Framebuffer :=
  let '(r, g, b, a) := color in
  if a =? 0 then Ret fb else put_pixels x y (r, g, b) sad_points fb.

(** ** Pixels *)

(** The bytes of a pixel that the format uses. *)
Definition depth (f : PixelFormat) : Z :=
  match f with Rgb | Bgr => 3 | U8 => 1 | OtherFormat => 0 end.

Definition encode (f : PixelFormat) (c : rgb) : list Z :=
  let '(r, g, b) := c in
  match f with Rgb => [r; g; b] | Bgr => [b; g; r] | U8 => [r] | OtherFormat => [] end.

Definition pixel_offset (i : FrameBufferInfo) (x y : Z) : Z := (y * stride i + x) * bytes_per_pixel i.

Definition pixel_at (fb : Framebuffer) (x y : Z) : list (option Z) :=
  (λ k, buffer fb !! Z.to_nat (pixel_offset (fb_info fb) x y + k)) <$>
    seqZ 0 (depth (pixel_format (fb_info fb))).

(** The geometry of the buffer, as the bootloader promises it. *)
Definition geometry (i : FrameBufferInfo) (len : Z) : Prop :=
  0 ≤ fb_width i ≤ stride i ∧ 0 ≤ fb_height i ∧
  0 < bytes_per_pixel i ∧ depth (pixel_format i) ≤ bytes_per_pixel i ∧
  fb_height i * stride i * bytes_per_pixel i ≤ len < 2 ^ 63.

Definition fb_ok (fb : Framebuffer) : Prop := geometry (fb_info fb) (zlen (buffer fb)).

Definition on_screen (i : FrameBufferInfo) (x y : Z) : Prop := 0 ≤ x < fb_width i ∧ 0 ≤ y < fb_height i.

(** [bs] stored from [o] on. *)
Fixpoint poke (o : Z) (bs : list Z) (buf : list Z) : list Z :=
  match bs with [] => buf | b :: bs => poke (o + 1) bs (<[Z.to_nat o := b]> buf) end.

Definition paint (x y : Z) (bs : list Z) (fb : Framebuffer) : Framebuffer :=
  mkFb (fb_info fb) (poke (pixel_offset (fb_info fb) x y) bs (buffer fb)).

Lemma zlen_poke o bs buf : zlen (poke o bs buf) = zlen buf.
Proof.
  revert o buf. induction bs as [|b bs IH]; intros o buf; simpl; [done|].
  by rewrite IH, zlen_insert.
Qed.

Lemma lookup_poke o bs buf i :
  0 ≤ o → o + zlen bs ≤ zlen buf → 0 ≤ i →
  poke o bs buf !! Z.to_nat i =
    if bool_decide (o ≤ i < o + zlen bs) then bs !! Z.to_nat (i - o) else buf !! Z.to_nat i.
Proof.
  revert o buf. induction bs as [|b bs IH]; intros o buf Ho Hl Hi; cbn [poke].
  { rewrite bool_decide_eq_false_2; [done|]. unfold zlen. simpl. lia. }
  rewrite zlen_cons in Hl |- *. pose proof (zlen_nonneg bs).
  rewrite IH by (rewrite ?zlen_insert; lia).
  destruct (decide (i = o)) as [->|Hne].
  - rewrite bool_decide_eq_false_2, bool_decide_eq_true_2 by lia.
    rewrite Z.sub_diag. apply list_lookup_insert_eq. unfold zlen in *. lia.
  - case_bool_decide.
    + rewrite bool_decide_eq_true_2 by lia.
      replace (Z.to_nat (i - o)) with (S (Z.to_nat (i - (o + 1)))) by lia. done.
    + rewrite bool_decide_eq_false_2 by lia. apply list_lookup_insert_ne. lia.
Qed.

Lemma encode_length f c : zlen (encode f c) = depth f.
Proof. destruct c as [[r g] b]. by destruct f. Qed.

Lemma offset_bounds i len x y :
  geometry i len → on_screen i x y →
  0 ≤ y * stride i ∧ 0 ≤ y * stride i + x < 2 ^ 63 ∧
  0 ≤ pixel_offset i x y ∧ pixel_offset i x y + bytes_per_pixel i ≤ len.
Proof.
  intros (Hw & Hh & Hb & Hd & Hl) [Hx Hy]. unfold pixel_offset.
  assert (y * stride i + x + 1 ≤ fb_height i * stride i) by nia.
  assert (0 ≤ y * stride i) by nia.
  assert ((y * stride i + x + 1) * bytes_per_pixel i ≤ fb_height i * stride i * bytes_per_pixel i) by nia.
  assert (y * stride i + x ≤ (y * stride i + x) * bytes_per_pixel i) by nia.
  split_and!; nia.
Qed.

Lemma offset_apart i len x y x' y' :
  geometry i len → on_screen i x y → on_screen i x' y' → (x, y) ≠ (x', y') →
  pixel_offset i x y + bytes_per_pixel i ≤ pixel_offset i x' y' ∨
  pixel_offset i x' y' + bytes_per_pixel i ≤ pixel_offset i x y.
Proof.
  intros (Hw & Hh & Hb & Hd & Hl) [Hx Hy] [Hx' Hy'] Hne. unfold pixel_offset.
  assert (Hidx : y * stride i + x < y' * stride i + x' ∨ y' * stride i + x' < y * stride i + x).
  { destruct (Z.lt_trichotomy y y') as [?|[->|?]]; [left; nia| |right; nia].
    destruct (Z.lt_trichotomy x x') as [?|[->|?]]; [left; lia|done|right; lia]. }
  generalize dependent (y * stride i + x). generalize dependent (y' * stride i + x').
  intros a c. destruct 1; [left|right]; nia.
Qed.

(** A paint changes its own pixel. *)
Lemma pixel_at_paint fb x y bs x' y' :
  fb_ok fb → on_screen (fb_info fb) x y → on_screen (fb_info fb) x' y' →
  zlen bs = depth (pixel_format (fb_info fb)) →
  pixel_at (paint x y bs fb) x' y' =
    if bool_decide ((x', y') = (x, y)) then Some <$> bs else pixel_at fb x' y'.
Proof.
  intros Hok Hs Hs' Hbs. unfold pixel_at. cbn [paint fb_info buffer].
  destruct (offset_bounds _ _ _ _ Hok Hs) as (_ & _ & Ho & Hol).
  destruct (offset_bounds _ _ _ _ Hok Hs') as (_ & _ & Ho' & Hol').
  pose proof Hok as (_ & _ & Hb & Hd & _).
  case_bool_decide as Hxy.
  - injection Hxy as -> ->. rewrite <- Hbs. apply list_eq. intros k.
    rewrite !list_lookup_fmap. destruct (decide (k < length bs)%nat) as [Hk|Hk].
    + rewrite lookup_seqZ_lt by (unfold zlen; lia). cbn [fmap option_fmap option_map].
      rewrite lookup_poke by lia. rewrite bool_decide_eq_true_2 by (unfold zlen; lia).
      replace (Z.to_nat _) with k by lia.
      destruct (lookup_lt_is_Some_2 bs k Hk) as [b ->]. done.
    + rewrite lookup_seqZ_ge by (unfold zlen; lia). by rewrite lookup_ge_None_2 by lia.
  - apply list_fmap_ext. intros k z Hz. apply lookup_seqZ in Hz as [-> Hk].
    rewrite lookup_poke by lia. rewrite bool_decide_eq_false_2; [done|].
    destruct (offset_apart _ _ _ _ x' y' Hok Hs Hs'); [congruence|lia|lia].
Qed.

Lemma paint_ok fb x y bs : fb_ok fb → fb_ok (paint x y bs fb).
Proof. unfold fb_ok. cbn [paint fb_info buffer]. by rewrite zlen_poke. Qed.

(** The stores of one pixel. *)
Lemma put3_poke buf o a b c :
  0 ≤ o → o + 3 ≤ zlen buf → zlen buf < 2 ^ 63 → put3 buf o a b c = Ret (poke o [a; b; c] buf).
Proof.
  intros Ho Hl Hm. unfold put3. rewrite store_ok by lia. rewrite bind_Ret. checked_step.
  rewrite store_ok by (rewrite zlen_insert; lia). rewrite bind_Ret. checked_step.
  rewrite store_ok by (rewrite !zlen_insert; lia). cbn [poke].
  by replace (o + 1 + 1) with (o + 2) by lia.
Qed.

Lemma store_poke buf o a : o < zlen buf → store buf o a = Ret (poke o [a] buf).
Proof. apply store_ok. Qed.

(** ** What a framebuffer shows *)

(** The screen has geometry [i] and shows [P] at every pixel. *)
Definition shows (i : FrameBufferInfo) (P : Z → Z → list (option Z)) (fb : Framebuffer) : Prop :=
  fb_info fb = i ∧ fb_ok fb ∧ ∀ x y, on_screen i x y → pixel_at fb x y = P x y.

Lemma shows_self fb : fb_ok fb → shows (fb_info fb) (pixel_at fb) fb.
Proof. by intros. Qed.

Lemma shows_ext i P Q fb :
  shows i P fb → (∀ x y, on_screen i x y → P x y = Q x y) → shows i Q fb.
Proof.
  intros (Hi & Hok & HP) HPQ. split_and!; [done|done|]. intros x y Hs. rewrite HP by done. by apply HPQ.
Qed.

Lemma shows_paint i P fb x y bs :
  shows i P fb → on_screen i x y → zlen bs = depth (pixel_format i) →
  shows i (λ x' y', if bool_decide ((x', y') = (x, y)) then Some <$> bs else P x' y') (paint x y bs fb).
Proof.
  intros (<- & Hok & HP) Hs Hbs. split_and!; [done|by apply paint_ok|]. intros x' y' Hs'.
  rewrite pixel_at_paint by done. case_bool_decide; [done|by apply HP].
Qed.

(** [P] with color [c] at [(x, y)]. *)
Definition plot (i : FrameBufferInfo) (x y : Z) (c : rgb) (P : Z → Z → list (option Z))
    (x' y' : Z) : list (option Z) :=
  if bool_decide ((x', y') = (x, y)) then Some <$> encode (pixel_format i) c else P x' y'.

Lemma put_pixel_shows i P fb x y c :
  shows i P fb → 0 ≤ x → 0 ≤ y → returns (put_pixel x y c fb) (shows i (plot i x y c P)).
Proof.
  intros Hsh Hx Hy. pose proof Hsh as (Hi & Hok & _). unfold put_pixel.
  destruct c as [[r g] b] eqn:Hc. rewrite <- Hc.
  destruct (Z.leb_spec (fb_width (fb_info fb)) x) as [Hxw|Hxw].
  { apply returns_Ret. eapply shows_ext; [exact Hsh|]. intros x' y' [Hx' _]. unfold plot.
    rewrite bool_decide_eq_false_2; [done|]. intros [= -> ->]. rewrite <- Hi in Hx'. lia. }
  destruct (Z.leb_spec (fb_height (fb_info fb)) y) as [Hyh|Hyh].
  { apply returns_Ret. eapply shows_ext; [exact Hsh|]. intros x' y' [_ Hy']. unfold plot.
    rewrite bool_decide_eq_false_2; [done|]. intros [= -> ->]. rewrite <- Hi in Hy'. lia. }
  simpl orb. cbv iota.
  assert (Hs : on_screen (fb_info fb) x y) by (split; lia).
  destruct (offset_bounds _ _ _ _ Hok Hs) as (H1 & H2 & H3 & H4).
  pose proof Hok as (_ & _ & Hb & Hd & Hl). unfold pixel_offset in H3, H4.
  checked_step. checked_step. checked_step.
  assert (Hp : match pixel_format (fb_info fb) with
    | Rgb => put3 (buffer fb) ((y * stride (fb_info fb) + x) * bytes_per_pixel (fb_info fb)) r g b
    | Bgr => put3 (buffer fb) ((y * stride (fb_info fb) + x) * bytes_per_pixel (fb_info fb)) b g r
    | U8 => store (buffer fb) ((y * stride (fb_info fb) + x) * bytes_per_pixel (fb_info fb)) r
    | OtherFormat => Ret (buffer fb) end =
    Ret (poke (pixel_offset (fb_info fb) x y) (encode (pixel_format (fb_info fb)) c) (buffer fb))).
  { unfold pixel_offset. subst c. unfold encode. destruct (pixel_format (fb_info fb)); simpl in Hd;
      [apply put3_poke; lia|apply put3_poke; lia|apply store_poke; lia|done]. }
  rewrite Hp, bind_Ret. apply returns_Ret.
  change (mkFb (fb_info fb) (poke (pixel_offset (fb_info fb) x y) (encode (pixel_format (fb_info fb)) c) (buffer fb)))
    with (paint x y (encode (pixel_format (fb_info fb)) c) fb).
  subst i. eapply shows_ext; [apply shows_paint; [exact Hsh|done|by rewrite encode_length]|done].
Qed.

(** The bytes [clear_screen] and [draw_rect] store: a gray level in [U8]. *)
Definition fill (f : PixelFormat) (c : rgb) : list Z :=
  let '(r, g, b) := c in match f with U8 => [(r + g + b) / 3] | _ => encode f c end.

(** The gray level of a color that does not overflow a byte. *)
Definition gray_fits (f : PixelFormat) (c : rgb) : Prop :=
  let '(r, g, b) := c in
  0 ≤ r ∧ 0 ≤ g ∧ 0 ≤ b ∧ (f = U8 → r + g + b < 256).

Lemma fill_length f c : zlen (fill f c) = depth f.
Proof. destruct c as [[r g] b]. by destruct f. Qed.

Lemma gray_ok c : gray_fits U8 c → gray c = Ret (let '(r, g, b) := c in (r + g + b) / 3).
Proof.
  destruct c as [[r g] b]. intros (Hr & Hg & Hb & Hs). specialize (Hs eq_refl).
  unfold gray. checked_step. checked_step. done.
Qed.

(** One row of pixels of the loops of [clear_screen]. *)
Definition row_filled (i : FrameBufferInfo) (bs : list Z) (y0 x0 y1 x1 : Z) (P : Z → Z → list (option Z))
    (x y : Z) : list (option Z) :=
  if bool_decide (y0 ≤ y < y1 ∧ x0 ≤ x < x1) then Some <$> bs else P x y.

(** A stepper that stores [bs] at every offset it is given. *)
Definition stores (i : FrameBufferInfo) (bs : list Z) (put : list Z → Z → outcome (list Z)) : Prop :=
  ∀ buf o, 0 ≤ o → o + bytes_per_pixel i ≤ zlen buf → zlen buf < 2 ^ 63 → put buf o = Ret (poke o bs buf).

Lemma stores_shows i P put bs buf x y :
  stores i bs put → zlen bs = depth (pixel_format i) → shows i P (mkFb i buf) → on_screen i x y →
  returns (put buf (pixel_offset i x y)) (λ buf',
    shows i (λ x' y', if bool_decide ((x', y') = (x, y)) then Some <$> bs else P x' y') (mkFb i buf')).
Proof.
  intros Hst Hbs Hsh Hs. pose proof Hsh as (_ & Hok & _).
  destruct (offset_bounds _ _ _ _ Hok Hs) as (_ & _ & H3 & H4). pose proof Hok as (_ & _ & _ & _ & Hl).
  cbn [buffer fb_info] in *. rewrite Hst by lia. apply returns_Ret.
  exact (shows_paint i P (mkFb i buf) x y bs Hsh Hs Hbs).
Qed.

(** The loop over the pixels of a row from [x0] on. *)
Lemma row_loop_shows i P put bs buf y x0 w (body : Z → list Z → outcome (list Z)) :
  stores i bs put → zlen bs = depth (pixel_format i) → shows i P (mkFb i buf) →
  0 ≤ w → 0 ≤ x0 → x0 + w ≤ fb_width i → 0 ≤ y < fb_height i →
  (∀ k b, 0 ≤ k < w → body k b = put b (pixel_offset i (x0 + k) y)) →
  returns (for_range 0 w body buf) (λ buf',
    shows i (row_filled i bs y x0 (y + 1) (x0 + w) P) (mkFb i buf')).
Proof.
  intros Hst Hbs Hsh Hw Hx0 Hxw Hy Hbody.
  apply (for_range_inv (λ k b, shows i (row_filled i bs y x0 (y + 1) (x0 + k) P) (mkFb i b))); [done| |].
  { eapply shows_ext; [exact Hsh|]. intros x' y' _. unfold row_filled.
    by rewrite bool_decide_eq_false_2 by lia. }
  intros k b Hk Hb. rewrite Hbody by done.
  eapply returns_mono; [eapply stores_shows; [done|done|exact Hb|split; lia]|].
  intros b' Hb'. eapply shows_ext; [exact Hb'|]. intros x' y' _. cbv beta. unfold row_filled.
  case_bool_decide as Hxy.
  - injection Hxy as -> ->. by rewrite bool_decide_eq_true_2 by lia.
  - repeat case_bool_decide; [done|lia| |done].
    destruct Hxy. f_equal; lia.
Qed.

(** The loop over the rows. *)
Lemma rows_loop_shows i P bs buf y0 y1 x0 w (body : Z → list Z → outcome (list Z)) :
  shows i P (mkFb i buf) → y0 ≤ y1 →
  (∀ y b Q, y0 ≤ y < y1 → shows i Q (mkFb i b) → returns (body y b) (λ b',
      shows i (row_filled i bs y x0 (y + 1) (x0 + w) Q) (mkFb i b'))) →
  returns (for_range y0 y1 body buf) (λ buf', shows i (row_filled i bs y0 x0 y1 (x0 + w) P) (mkFb i buf')).
Proof.
  intros Hsh Hy Hbody.
  apply (for_range_inv (λ y b, shows i (row_filled i bs y0 x0 y (x0 + w) P) (mkFb i b))); [done| |].
  { eapply shows_ext; [exact Hsh|]. intros x' y' _. unfold row_filled.
    by rewrite bool_decide_eq_false_2 by lia. }
  intros y b Hyr Hb. eapply returns_mono; [by apply Hbody|].
  intros b' Hb'. eapply shows_ext; [exact Hb'|]. intros x' y' _. unfold row_filled.
  repeat case_bool_decide; done || lia.
Qed.

Lemma clear_pixels_shows i P put bs buf :
  stores i bs put → zlen bs = depth (pixel_format i) → shows i P (mkFb i buf) →
  returns (for_range 0 (fb_height i) (λ y, for_range 0 (fb_width i) (λ x buf,
      row ← y *[64] stride i;
      pixel_index ← row +[64] x;
      byte_offset ← pixel_index *[64] bytes_per_pixel i;
      put buf byte_offset)) buf)
    (λ buf', shows i (λ _ _, Some <$> bs) (mkFb i buf')).
Proof.
  intros Hst Hbs Hsh. pose proof Hsh as (_ & Hok & _). cbn [fb_info buffer] in Hok.
  pose proof Hok as (Hw & Hh & _ & _ & Hm). cbn [fb_info buffer] in Hw, Hh, Hm.
  eapply returns_mono.
  - eapply (rows_loop_shows i P bs buf 0 (fb_height i) 0 (fb_width i)); [done|lia|].
    intros y b Q Hy Hb. eapply row_loop_shows; [done|done|done|lia|lia|lia|lia|].
    intros k b0 Hk.
    destruct (offset_bounds _ _ k y Hok ltac:(split; cbn [fb_info]; lia)) as (H1 & H2 & H3 & H4).
    unfold pixel_offset in *. cbn [fb_info buffer] in *.
    checked_step. checked_step. checked_step. by rewrite Z.add_0_l.
  - intros buf' Hb. eapply shows_ext; [exact Hb|]. intros x y [Hx Hy]. unfold row_filled.
    by rewrite bool_decide_eq_true_2 by lia.
Qed.

Lemma clear_screen_shows i P fb c :
  shows i P fb → gray_fits (pixel_format i) c → pixel_format i ≠ OtherFormat →
  returns (clear_screen c fb) (shows i (λ _ _, Some <$> fill (pixel_format i) c)).
Proof.
  intros Hsh Hg Hf. pose proof Hsh as (Hi & (_ & _ & _ & Hd & _) & _).
  destruct fb as [i' buf]. cbn [fb_info] in Hi. subst i'. cbn [fb_info] in Hd.
  unfold clear_screen. cbn [fb_info buffer]. destruct c as [[r g] b].
  eapply returns_bind; [|intros buf' Hb; apply returns_Ret; exact Hb].
  pose proof (fill_length (pixel_format i) (r, g, b)) as Hbs.
  destruct (pixel_format i) eqn:Hpf; [| | |done].
  - apply clear_pixels_shows with (P := P); [intros b0 o ???; simpl in Hd; apply put3_poke; lia|by rewrite Hpf|done].
  - apply clear_pixels_shows with (P := P); [intros b0 o ???; simpl in Hd; apply put3_poke; lia|by rewrite Hpf|done].
  - apply clear_pixels_shows with (P := P); [|by rewrite Hpf|done].
    intros b0 o Ho Hl Hm. rewrite gray_ok by done. rewrite bind_Ret.
    simpl in Hd. apply store_poke; lia.
Qed.

(** A rectangle, where a pixel has as many bytes as [draw_rect] assumes. *)
Lemma rect_rows_shows i P put bs buf x y w h :
  stores i bs put → zlen bs = depth (pixel_format i) → shows i P (mkFb i buf) →
  0 < w → 0 < h → 0 ≤ x → 0 ≤ y → x + w ≤ fb_width i → y + h ≤ fb_height i → y + h < 2 ^ 64 →
  returns (ye ← y +[64] h;
    for_range y ye (λ line_y buf,
      row ← line_y *[64] stride i;
      row ← row +[64] x;
      start_idx ← row *[64] bytes_per_pixel i;
      for_range 0 w (λ k buf,
        d ← k *[64] bytes_per_pixel i;
        o ← start_idx +[64] d;
        put buf o) buf) buf)
    (λ buf', shows i (row_filled i bs y x (y + h) (x + w) P) (mkFb i buf')).
Proof.
  intros Hst Hbs Hsh Hw Hh Hx Hy Hxw Hyh Hm. pose proof Hsh as (_ & Hok & _).
  pose proof Hok as (_ & _ & Hb & _ & Hl). cbn [fb_info buffer] in Hb, Hl. checked_step.
  apply rows_loop_shows; [done|lia|]. intros ly b Q Hly Hsb.
  destruct (offset_bounds i _ x ly Hok ltac:(split; cbn [fb_info]; lia)) as (H1 & H2 & H3 & H4).
  unfold pixel_offset in H3, H4. cbn [fb_info buffer] in *.
  checked_step. checked_step. checked_step.
  eapply row_loop_shows; [done|done|done|lia|done|done|lia|].
  intros k b0 Hk.
  destruct (offset_bounds i _ (x + k) ly Hok ltac:(split; cbn [fb_info]; lia)) as (H5 & H6 & H7 & H8).
  unfold pixel_offset in H7, H8 |- *. cbn [fb_info buffer] in *.
  checked_step. checked_step. f_equal. lia.
Qed.

(** The screen where at least a pixel is: its sides are machine integers. *)
Lemma screen_sides i len x y : geometry i len → on_screen i x y → fb_width i < 2 ^ 63 ∧ fb_height i < 2 ^ 63.
Proof.
  intros (Hw & Hh & Hb & Hd & Hl) [Hx Hy].
  assert (Hs : stride i ≤ fb_height i * stride i) by nia.
  assert (Hh' : fb_height i ≤ fb_height i * stride i) by nia.
  generalize dependent (fb_height i * stride i). intros S Hl Hs Hh'.
  assert (S ≤ S * bytes_per_pixel i) by nia. split; lia.
Qed.

(** ** Bitmaps *)

(** A bitmap, [width] pixels a row, over [P]: its rows before [row], and the
    first [col] pixels of that row. *)
Definition overlay_upto (i : FrameBufferInfo) (bitmap : list rgba) (width x y row col : Z)
    (P : Z → Z → list (option Z)) (px py : Z) : list (option Z) :=
  if bool_decide (x ≤ px ∧ y ≤ py ∧ (py < y + row ∧ px < x + width ∨ py = y + row ∧ px < x + col)) then
    match bitmap !! Z.to_nat ((py - y) * width + (px - x)) with
    | Some (r, g, b, a) => if a =? 0 then P px py else Some <$> encode (pixel_format i) (r, g, b)
    | None => P px py
    end
  else P px py.

(** The whole of it. *)
Definition overlay (i : FrameBufferInfo) (bitmap : list rgba) (width height x y : Z)
    (P : Z → Z → list (option Z)) : Z → Z → list (option Z) :=
  overlay_upto i bitmap width x y height 0 P.

Lemma overlay_step i bitmap width x y row col P fb :
  shows i (overlay_upto i bitmap width x y row col P) fb →
  0 ≤ x → 0 ≤ y → 0 ≤ row → 0 ≤ col < width → 0 ≤ row * width + col < 2 ^ 64 →
  on_screen i (x + col) (y + row) →
  returns (pixel_index ← (row * width) +[64] col;
           match bitmap !! Z.to_nat pixel_index with
           | Some (r, g, b, a) =>
               if negb (a =? 0) then
                 px ← x +[64] col; py ← y +[64] row; put_pixel px py (r, g, b) fb
               else Ret fb
           | None => Ret fb
           end)
    (shows i (overlay_upto i bitmap width x y row (col + 1) P)).
Proof.
  intros Hsh Hx Hy Hr Hc Hi Hs. checked_step. pose proof Hsh as (Hinf & Hok & _).
  assert (Hext : ∀ px py, overlay_upto i bitmap width x y row (col + 1) P px py =
    if bool_decide ((px, py) = (x + col, y + row)) then
      match bitmap !! Z.to_nat (row * width + col) with
      | Some (r, g, b, a) => if a =? 0 then P px py else Some <$> encode (pixel_format i) (r, g, b)
      | None => P px py
      end
    else overlay_upto i bitmap width x y row col P px py).
  { intros px py. unfold overlay_upto. case_bool_decide as H1; case_bool_decide as H2.
    - injection H2 as -> ->. by replace ((y + row - y) * width + (x + col - x)) with (row * width + col) by lia.
    - rewrite bool_decide_eq_true_2; [done|]. assert (px ≠ x + col ∨ py ≠ y + row); [|lia].
      destruct (decide (px = x + col)); [right; congruence|by left].
    - injection H2 as -> ->. lia.
    - by rewrite bool_decide_eq_false_2 by lia. }
  assert (Hold : ∀ px py, (px, py) = (x + col, y + row) → overlay_upto i bitmap width x y row col P px py = P px py).
  { intros px py [= -> ->]. unfold overlay_upto. by rewrite bool_decide_eq_false_2 by lia. }
  destruct (bitmap !! Z.to_nat (row * width + col)) as [[[[r g] b] a]|] eqn:Hb.
  - destruct (Z.eqb_spec a 0) as [->|Ha]; simpl negb; cbv iota.
    + apply returns_Ret. eapply shows_ext; [exact Hsh|]. intros px py _. rewrite Hext.
      case_bool_decide; [by apply Hold|done].
    + destruct (screen_sides i _ _ _ ltac:(rewrite <- Hinf; exact Hok) Hs) as [??]. destruct Hs as [??].
      checked_step. checked_step.
      eapply returns_mono; [apply put_pixel_shows; [exact Hsh|lia|lia]|].
      intros fb' Hfb. eapply shows_ext; [exact Hfb|]. intros px py _. unfold plot. by rewrite Hext.
  - apply returns_Ret. eapply shows_ext; [exact Hsh|]. intros px py _. rewrite Hext.
    case_bool_decide; [by apply Hold|done].
Qed.

Lemma draw_bitmap_shows i P fb bitmap width height x y :
  shows i P fb → 0 ≤ x → 0 ≤ y → 0 ≤ width → 0 ≤ height → width * height < 2 ^ 64 →
  returns (draw_bitmap bitmap width height x y fb) (shows i (overlay i bitmap width height x y P)).
Proof.
  intros Hsh Hx Hy Hw Hh Hm. pose proof Hsh as (Hi & _ & _). unfold draw_bitmap. rewrite Hi.
  set (mw := Z.min (Z.max 0 (fb_width i - x)) width).
  set (mh := Z.min (Z.max 0 (fb_height i - y)) height).
  destruct ((mw =? 0) || (mh =? 0)) eqn:H0.
  { apply returns_Ret. eapply shows_ext; [exact Hsh|]. intros px py [Hpx Hpy].
    unfold overlay, overlay_upto. rewrite bool_decide_eq_false_2; [done|].
    apply orb_true_iff in H0 as [H0%Z.eqb_eq|H0%Z.eqb_eq]; lia. }
  apply orb_false_iff in H0 as [Hmw%Z.eqb_neq Hmh%Z.eqb_neq].
  eapply returns_mono.
  - apply (for_range_inv (λ row, shows i (overlay_upto i bitmap width x y row 0 P))); [lia| |].
    { eapply shows_ext; [exact Hsh|]. intros px py _. unfold overlay_upto.
      by rewrite bool_decide_eq_false_2 by lia. }
    intros row fb1 Hrow Hfb1. assert (0 ≤ row * width) by nia. assert (row * width + width ≤ width * height) by nia.
    checked_step. eapply returns_mono.
    + apply (for_range_inv (λ col, shows i (overlay_upto i bitmap width x y row col P))); [lia|exact Hfb1|].
      intros col fb2 Hcol Hfb2. apply overlay_step; [done|lia|lia|lia|lia|lia|split; lia].
    + intros fb2 Hfb2. eapply shows_ext; [exact Hfb2|]. intros px py [Hpx Hpy]. unfold overlay_upto.
      do 2 case_bool_decide; done || lia.
  - intros fb' Hfb. eapply shows_ext; [exact Hfb|]. intros px py [Hpx Hpy]. unfold overlay, overlay_upto.
    do 2 case_bool_decide; done || lia.
Qed.

(** ** The faces *)

Definition plots (i : FrameBufferInfo) (x y : Z) (c : rgb) (ds : list (Z * Z)) (P : Z → Z → list (option Z))
    (px py : Z) : list (option Z) :=
  if bool_decide ((px - x, py - y) ∈ ds) then Some <$> encode (pixel_format i) c else P px py.

Lemma put_pixels_shows i P fb x y c ds :
  shows i P fb → 0 ≤ x < 2 ^ 63 → 0 ≤ y < 2 ^ 63 → Forall (λ d, 0 ≤ d.1 < 8 ∧ 0 ≤ d.2 < 8) ds →
  returns (put_pixels x y c ds fb) (shows i (plots i x y c ds P)).
Proof.
  intros Hsh Hx Hy Hds. revert P fb Hsh. induction Hds as [|[dx dy] ds [Hd1 Hd2] Hds IH]; intros P fb Hsh; simpl.
  { apply returns_Ret. eapply shows_ext; [exact Hsh|]. intros px py _. unfold plots.
    by rewrite bool_decide_eq_false_2 by (by apply not_elem_of_nil). }
  cbn [fst snd] in Hd1, Hd2. checked_step. checked_step.
  eapply returns_bind; [apply put_pixel_shows; [exact Hsh|lia|lia]|].
  intros fb1 Hfb1. eapply returns_mono; [apply IH; exact Hfb1|].
  intros fb2 Hfb2. eapply shows_ext; [exact Hfb2|]. intros px py _. unfold plots, plot.
  case_bool_decide as H1; [by rewrite bool_decide_eq_true_2 by (by right)|].
  case_bool_decide as H2.
  - injection H2 as -> ->. rewrite bool_decide_eq_true_2; [done|].
    replace (x + dx - x) with dx by lia. replace (y + dy - y) with dy by lia. by left.
  - rewrite bool_decide_eq_false_2; [done|]. intros [Heq|Hin]%elem_of_cons; [|done].
    apply H2. injection Heq as ??. f_equal; lia.
Qed.

(** A small screen, three pixels by two, four bytes a pixel. *)
Definition sample_fb (f : PixelFormat) : Framebuffer :=
  mkFb (mkInfo 3 2 4 4 f) (replicate 32 0).

Lemma sample_fb_ok f : fb_ok (sample_fb f).
Proof. destruct f; repeat split; vm_compute; first [reflexivity|discriminate]. Qed.

(** ** Properties *)

(** On a screen of a known format, [clear_screen] with a color whose gray
    level does not overflow a byte ends without a panic and gives every pixel
    that color (its gray level in the 8-bit format). *)
Theorem clear_screen_exact (fb : Framebuffer) (c : rgb) :
  fb_ok fb → pixel_format (fb_info fb) ≠ OtherFormat → gray_fits (pixel_format (fb_info fb)) c →
  returns (clear_screen c fb) (shows (fb_info fb) (λ _ _, Some <$> fill (pixel_format (fb_info fb)) c)).
Proof. intros Hok Hf Hg. by eapply clear_screen_shows; [apply shows_self|..]. Qed.

Lemma clear_screen_exact_witness :
  ∃ fb', clear_screen (30, 30, 46) (sample_fb U8) = Ret fb' ∧ pixel_at fb' 2 1 = [Some 35].
Proof.
  destruct (clear_screen_exact (sample_fb U8) (30, 30, 46) (sample_fb_ok U8)) as (fb' & He & _ & _ & HP).
  - done.
  - by split_and!.
  - exists fb'. split; [exact He|]. rewrite HP by (split; cbn; lia). reflexivity.
Defined.

(** On a gray screen, [draw_rect] panics for every color whose
    components add up to more than a byte, white and every status color among
    them: the average is computed in [u8]. *)
Theorem bright_gray_panics (fb : Framebuffer) (x y w h r g b : Z) :
  fb_ok fb → pixel_format (fb_info fb) = U8 → on_screen (fb_info fb) x y →
  0 < w ≤ fb_width (fb_info fb) → 0 < h ≤ fb_height (fb_info fb) →
  0 ≤ r < 256 → 0 ≤ g < 256 → 256 ≤ r + g + b →
  draw_rect x y w h (r, g, b) fb = Panic ArithmeticOverflow.
Proof.
  intros Hok Hf Hs Hw Hh Hr Hg Hsum. destruct (screen_sides _ _ _ _ Hok Hs). destruct Hs as [??].
  unfold draw_rect. rewrite !(proj2 (Z.leb_gt _ _)) by lia. simpl orb. cbv iota.
  checked_step. rewrite (proj2 (Z.leb_gt _ _)) by lia.
  checked_step. rewrite (proj2 (Z.leb_gt _ _)) by lia.
  checked_step. checked_step. rewrite Hf. unfold gray.
  destruct (decide (r + g < 256)).
  - checked_step. by rewrite (checked_overflow 8 (r + g + b)) by lia.
  - by rewrite (checked_overflow 8 (r + g)) by lia.
Qed.

Lemma bright_gray_panics_witness :
  draw_rect 0 0 2 2 (205, 214, 244) (sample_fb U8) = Panic ArithmeticOverflow.
Proof.
  apply (bright_gray_panics (sample_fb U8) 0 0 2 2 205 214 244 (sample_fb_ok U8) eq_refl);
    first [split; cbn; lia|lia].
Defined.

(** Where a pixel has the number of bytes [draw_rect] assumes (3, or 1
    in gray), a rectangle that starts on the screen and is no larger than it is
    moved to fit and filled; every other pixel stays. *)
Theorem draw_rect_exact (fb : Framebuffer) (x y w h : Z) (c : rgb) :
  fb_ok fb → bytes_per_pixel (fb_info fb) = depth (pixel_format (fb_info fb)) →
  gray_fits (pixel_format (fb_info fb)) c → on_screen (fb_info fb) x y →
  0 < w ≤ fb_width (fb_info fb) → 0 < h ≤ fb_height (fb_info fb) →
  let x0 := Z.min x (fb_width (fb_info fb) - w) in
  let y0 := Z.min y (fb_height (fb_info fb) - h) in
  returns (draw_rect x y w h c fb) (shows (fb_info fb) (λ px py,
    if bool_decide (y0 ≤ py < y0 + h ∧ x0 ≤ px < x0 + w)
    then Some <$> fill (pixel_format (fb_info fb)) c else pixel_at fb px py)).
Proof.
  intros Hok Hb Hg Hs Hw Hh x0 y0. destruct (screen_sides _ _ _ _ Hok Hs). destruct Hs as [??].
  pose proof (shows_self fb Hok) as Hsh. pose proof Hok as (_ & _ & Hb0 & _).
  destruct fb as [i buf]. cbn [fb_info buffer] in *. unfold draw_rect. cbn [fb_info buffer].
  destruct c as [[r g] b]. rewrite !(proj2 (Z.leb_gt _ _)) by lia. simpl orb. cbv iota.
  checked_step. rewrite (proj2 (Z.leb_gt _ _)) by lia.
  checked_step. rewrite (proj2 (Z.leb_gt _ _)) by lia.
  checked_step. checked_step. fold x0 y0. cbv zeta.
  eapply returns_bind; [|intros buf' Hbuf; apply returns_Ret; exact Hbuf].
  pose proof (fill_length (pixel_format i) (r, g, b)) as Hl.
  pose proof (λ put, rect_rows_shows i (pixel_at (mkFb i buf)) put (fill (pixel_format i) (r, g, b)) buf x0 y0 w h) as Hrows.
  rewrite Hb in Hrows. unfold row_filled in Hrows.
  destruct (pixel_format i) eqn:Hpf; simpl depth in *; [| | |lia].
  - apply Hrows; [|done|exact Hsh|lia..]. intros b0 o ???. apply put3_poke; lia.
  - apply Hrows; [|done|exact Hsh|lia..]. intros b0 o ???. apply put3_poke; lia.
  - rewrite gray_ok by done. rewrite bind_Ret.
    apply Hrows; [|done|exact Hsh|lia..]. intros b0 o ???. apply store_poke; lia.
Qed.

Lemma draw_rect_exact_witness :
  let fb := mkFb (mkInfo 3 2 4 3 Bgr) (replicate 24 0) in
  returns (draw_rect 2 1 2 1 (1, 2, 3) fb) (λ fb', pixel_at fb' 1 1 = [Some 3; Some 2; Some 1]).
Proof.
  intros fb. eapply returns_mono.
  - apply (draw_rect_exact fb 2 1 2 1 (1, 2, 3)); repeat split; vm_compute; first [reflexivity|discriminate].
  - intros fb' (_ & _ & HP). rewrite HP by (split; cbn; lia). reflexivity.
Defined.

(** [draw_rect] multiplies by 3 where [put_pixel] multiplies by the
    bytes of a pixel: on a screen of four bytes a pixel, a rectangle of one
    pixel at (1, 0) is not drawn there, and overwrites a byte of the pixel on
    its left. *)
Theorem draw_rect_four_bytes :
  ∃ fb', draw_rect 1 0 1 1 (7, 8, 9) (sample_fb Rgb) = Ret fb' ∧
    pixel_at fb' 1 0 = [Some 8; Some 9; Some 0] ∧ buffer fb' !! 3%nat = Some 7 ∧
    ∃ fb2, put_pixel 1 0 (7, 8, 9) (sample_fb Rgb) = Ret fb2 ∧ pixel_at fb2 1 0 = [Some 7; Some 8; Some 9].
Proof.
  eexists. split; [vm_compute; reflexivity|]. split_and!; [reflexivity|reflexivity|].
  eexists. split; [vm_compute; reflexivity|reflexivity].
Qed.

(** [draw_bitmap] gives every pixel of the screen that a texel of the
    bitmap with a non-zero alpha covers the texel's color and keeps every other
    pixel, whatever part of the bitmap is off the screen or missing. *)
Theorem draw_bitmap_exact (fb : Framebuffer) (bitmap : list rgba) (width height x y : Z) :
  fb_ok fb → 0 ≤ x → 0 ≤ y → 0 ≤ width → 0 ≤ height → width * height < 2 ^ 64 →
  returns (draw_bitmap bitmap width height x y fb) (shows (fb_info fb) (λ px py,
    if bool_decide (x ≤ px < x + width ∧ y ≤ py < y + height) then
      match bitmap !! Z.to_nat ((py - y) * width + (px - x)) with
      | Some (r, g, b, a) =>
          if a =? 0 then pixel_at fb px py else Some <$> encode (pixel_format (fb_info fb)) (r, g, b)
      | None => pixel_at fb px py
      end
    else pixel_at fb px py)).
Proof.
  intros Hok Hx Hy Hw Hh Hm. eapply returns_mono; [by apply draw_bitmap_shows; [apply shows_self|..]|].
  intros fb' Hfb. eapply shows_ext; [exact Hfb|]. intros px py _. unfold overlay, overlay_upto.
  do 2 case_bool_decide; done || lia.
Qed.

Lemma draw_bitmap_exact_witness :
  returns (draw_bitmap [(1, 2, 3, 255); (4, 5, 6, 0); (7, 8, 9, 1)] 2 2 2 0 (sample_fb Rgb)) (λ fb',
    pixel_at fb' 2 0 = [Some 1; Some 2; Some 3] ∧ pixel_at fb' 2 1 = [Some 7; Some 8; Some 9]).
Proof.
  eapply returns_mono.
  - apply (draw_bitmap_exact (sample_fb Rgb) [(1, 2, 3, 255); (4, 5, 6, 0); (7, 8, 9, 1)] 2 2 2 0 (sample_fb_ok Rgb)); lia.
  - intros fb' (_ & _ & HP). split; rewrite HP by (split; cbn; lia); reflexivity.
Defined.

(** ** Well-formed buffers *)

(** A buffer of [len] bytes: the slice the bootloader lends. *)
Definition bytes_of (len : Z) (buf : list Z) : Prop := zlen buf = len ∧ Forall (in_width 8) buf.
Definition fb_typed (i : FrameBufferInfo) (len : Z) (fb : Framebuffer) : Prop := fb_info fb = i ∧ bytes_of len (buffer fb).
Definition color_typed (c : rgb) : Prop := let '(r, g, b) := c in in_width 8 r ∧ in_width 8 g ∧ in_width 8 b.

Lemma ensures_checked w r {B} (g : Z → outcome B) (Q : B → Prop) :
  ensures (g r) Q → ensures (checked w r ≫= g) Q.
Proof. unfold checked. intros Hg. by destruct (_ && _). Qed.

(** The checked operations at the head of the computation. *)
Ltac skip_checked := repeat apply ensures_checked.

Lemma store_typed len buf o v : bytes_of len buf → in_width 8 v → ensures (store buf o v) (bytes_of len).
Proof.
  intros [Hl Hb] Hv. unfold store. destruct (_ <? _); [|done]. split; [by rewrite zlen_insert|]. by apply Forall_insert.
Qed.

Lemma put3_typed len buf o a b c :
  bytes_of len buf → in_width 8 a → in_width 8 b → in_width 8 c → ensures (put3 buf o a b c) (bytes_of len).
Proof.
  intros Hb Ha Hb' Hc. unfold put3. eapply ensures_bind; [by apply store_typed|]. intros b1 H1. skip_checked.
  eapply ensures_bind; [by apply store_typed|]. intros b2 H2. skip_checked. by apply store_typed.
Qed.

Lemma gray_typed len c (k : Z → outcome (list Z)) :
  (∀ v, in_width 8 v → ensures (k v) (bytes_of len)) → ensures (v ← gray c; k v) (bytes_of len).
Proof.
  intros Hk. unfold gray. destruct c as [[r g] b]. rewrite bind_assoc. skip_checked. rewrite bind_assoc.
  unfold checked. destruct (_ && _) eqn:E; [|done]. rewrite !bind_Ret. apply Hk.
  apply andb_true_iff in E as [E1%Z.leb_le E2%Z.ltb_lt]. unfold in_width.
  Z.to_euclidean_division_equations; lia.
Qed.

(** Nothing but the buffer changes. *)
Lemma with_buffer_typed i len (m : outcome (list Z)) :
  ensures m (bytes_of len) → ensures (buf ← m; Ret (mkFb i buf)) (fb_typed i len).
Proof. intros Hm. by eapply ensures_bind; [exact Hm|]. Qed.

(** The drawing operations as calls. *)
Inductive call : Type :=
| PutPixel (x y : Z) (color : rgb)
| ClearScreen (color : rgb)
| DrawRect (x y w h : Z) (color : rgb)
| DrawBitmap (bitmap : list rgba) (width height x y : Z)
| DrawSmiley (x y : Z) (color : rgba)
| DrawSadFace (x y : Z) (color : rgba).

Definition draw (d : call) : Framebuffer → outcome Framebuffer :=
  match d with
  | PutPixel x y c => put_pixel x y c
  | ClearScreen c => clear_screen c
  | DrawRect x y w h c => draw_rect x y w h c
  | DrawBitmap b w h x y => draw_bitmap b w h x y
  | DrawSmiley x y c => draw_smiley x y c
  | DrawSadFace x y c => draw_sad_face x y c
  end.

Fixpoint draw_all (ds : list call) (fb : Framebuffer) : outcome Framebuffer :=
  match ds with
  | [] => Ret fb
  | d :: ds => fb ← draw d fb; draw_all ds fb
  end.

Definition call_typed (d : call) : Prop :=
  match d with
  | PutPixel _ _ c | ClearScreen c | DrawRect _ _ _ _ c => color_typed c
  | DrawBitmap b _ _ _ _ => Forall (λ t : rgba, color_typed t.1) b
  | DrawSmiley _ _ c | DrawSadFace _ _ c => color_typed c.1
  end.

Section typed.
Context (i : FrameBufferInfo) (len : Z).
Implicit Types (fb : Framebuffer).

Lemma put_pixel_typed x y c fb : fb_typed i len fb → color_typed c → ensures (put_pixel x y c fb) (fb_typed i len).
Proof.
  destruct c as [[r g] b]. intros [Hi Hb] (Hr & Hg & Hb'). unfold put_pixel. rewrite Hi.
  destruct (_ || _); [done|]. skip_checked. apply with_buffer_typed.
  destruct (pixel_format i); [by apply put3_typed..|by apply store_typed|done].
Qed.

Lemma clear_screen_typed c fb : fb_typed i len fb → color_typed c → ensures (clear_screen c fb) (fb_typed i len).
Proof.
  destruct c as [[r g] b]. intros [Hi Hb] (Hr & Hg & Hb'). unfold clear_screen. rewrite Hi. apply with_buffer_typed.
  destruct (pixel_format i); [..|done]; (apply for_range_ensures; [done|]); intros y b1 H1;
    (apply for_range_ensures; [done|]); intros x b2 H2; skip_checked; [by apply put3_typed..|].
  apply gray_typed. intros v Hv. by apply store_typed.
Qed.

Lemma draw_rect_typed x y w h c fb : fb_typed i len fb → color_typed c → ensures (draw_rect x y w h c fb) (fb_typed i len).
Proof.
  destruct c as [[r g] b]. intros [Hi Hb] (Hr & Hg & Hb'). unfold draw_rect. rewrite Hi.
  destruct (_ || _); [done|]. skip_checked. destruct (_ <=? _); [done|]. skip_checked. destruct (_ <=? _); [done|].
  skip_checked. apply with_buffer_typed. destruct (pixel_format i); [| |apply gray_typed; intros v Hv|done];
    skip_checked; (apply for_range_ensures; [done|]); intros y' b1 H1; skip_checked;
    (apply for_range_ensures; [done|]); intros x' b2 H2; skip_checked; [by apply put3_typed..|by apply store_typed].
Qed.

Lemma draw_bitmap_typed (bitmap : list rgba) width height x y fb :
  fb_typed i len fb → Forall (λ t : rgba, color_typed t.1) bitmap → ensures (draw_bitmap bitmap width height x y fb) (fb_typed i len).
Proof.
  intros Ht Hbm. unfold draw_bitmap. destruct (_ || _); [done|]. apply for_range_ensures; [done|]. intros row fb1 H1.
  skip_checked. apply for_range_ensures; [done|]. intros col fb2 H2. skip_checked.
  match goal with |- context [bitmap !! ?k] => destruct (bitmap !! k) as [[[[r g] b] a]|] eqn:E end; [|exact H2].
  destruct (negb _); [|exact H2]. skip_checked.
  apply put_pixel_typed; [done|]. exact (Forall_lookup_1 _ _ _ _ Hbm E).
Qed.

Lemma put_pixels_typed x y c ds fb : fb_typed i len fb → color_typed c → ensures (put_pixels x y c ds fb) (fb_typed i len).
Proof.
  revert fb. induction ds as [|[dx dy] ds IH]; intros fb Ht Hc; [done|]. cbn [put_pixels]. skip_checked.
  eapply ensures_bind; [by apply put_pixel_typed|]. intros fb1 H1. by apply IH.
Qed.

Lemma draw_typed d fb : fb_typed i len fb → call_typed d → ensures (draw d fb) (fb_typed i len).
Proof.
  intros Ht. destruct d as [x y c|c|x y w h c|b w h x y|x y c|x y c]; cbn [draw call_typed]; intros Hc.
  - by apply put_pixel_typed.
  - by apply clear_screen_typed.
  - by apply draw_rect_typed.
  - by apply draw_bitmap_typed.
  - destruct c as [[[r g] b] a]. unfold draw_smiley. destruct (a =? 0); [exact Ht|]. apply put_pixels_typed; [exact Ht|exact Hc].
  - destruct c as [[[r g] b] a]. unfold draw_sad_face. destruct (a =? 0); [exact Ht|]. apply put_pixels_typed; [exact Ht|exact Hc].
Qed.
End typed.

(** The calls keep the buffer a buffer, whatever their positions and sizes. *)
Lemma draw_all_typed (fb : Framebuffer) (len : Z) (ds : list call) :
  bytes_of len (buffer fb) → Forall call_typed ds →
  ensures (draw_all ds fb) (fb_typed (fb_info fb) len).
Proof.
  intros Hb Hds. assert (Ht : fb_typed (fb_info fb) len fb) by done. clear Hb. revert Ht. generalize (fb_info fb) as i.
  intros i. revert fb. induction Hds as [|d ds Hd Hds IH]; intros fb Ht; [done|]. cbn [draw_all].
  eapply ensures_bind; [by apply draw_typed|]. intros fb1 H1. by apply IH.
Qed.

(** ** What a sequence of calls draws *)

(** The faces, as they are to look. *)
Definition smiley_art : list (list Z) :=
  [[0; 1; 0; 0; 0; 1; 0];
   [0; 1; 0; 0; 0; 1; 0];
   [0; 0; 0; 0; 0; 0; 0];
   [0; 0; 0; 0; 0; 0; 0];
   [1; 0; 0; 0; 0; 0; 1];
   [0; 1; 1; 1; 1; 1; 0]].
Definition sad_art : list (list Z) :=
  [[0; 1; 0; 0; 0; 1; 0];
   [0; 1; 0; 0; 0; 1; 0];
   [0; 0; 0; 0; 0; 0; 0];
   [0; 0; 0; 0; 0; 0; 0];
   [0; 1; 1; 1; 1; 1; 0];
   [1; 0; 0; 0; 0; 0; 1]].

Definition drawn_at (art : list (list Z)) (dx dy : Z) : bool :=
  bool_decide (0 ≤ dx ∧ 0 ≤ dy) &&
  bool_decide (art !! Z.to_nat dy ≫= (.!! Z.to_nat dx) = Some 1).

(** What call [d] leaves at pixel [(px, py)], where it draws there. *)
Definition ink (i : FrameBufferInfo) (d : call) (px py : Z) : option (list Z) :=
  let f := pixel_format i in
  match d with
  | PutPixel x y c => if bool_decide (px = x ∧ py = y) then Some (encode f c) else None
  | ClearScreen c => Some (fill f c)
  | DrawRect x y w h c =>
      let x0 := Z.min x (fb_width i - w) in
      let y0 := Z.min y (fb_height i - h) in
      if bool_decide (on_screen i x y ∧ x0 ≤ px < x0 + w ∧ y0 ≤ py < y0 + h) then Some (fill f c) else None
  | DrawBitmap b width height x y =>
      if bool_decide (x ≤ px < x + width ∧ y ≤ py < y + height) then
        match b !! Z.to_nat ((py - y) * width + (px - x)) with
        | Some (c, a) => if a =? 0 then None else Some (encode f c)
        | None => None
        end
      else None
  | DrawSmiley x y (c, a) => if negb (a =? 0) && drawn_at smiley_art (px - x) (py - y) then Some (encode f c) else None
  | DrawSadFace x y (c, a) => if negb (a =? 0) && drawn_at sad_art (px - x) (py - y) then Some (encode f c) else None
  end.

(** The picture after the calls [ds] over the picture [P]: the last call that
    draws at a pixel decides it. *)
Fixpoint picture (i : FrameBufferInfo) (ds : list call) (P : Z → Z → list (option Z)) (px py : Z) : list (option Z) :=
  match ds with
  | [] => P px py
  | d :: ds => picture i ds (λ px py, match ink i d px py with Some bs => Some <$> bs | None => P px py end) px py
  end.

(** The calls that do not compute past a machine integer, ask for a gray level
    above 255 or fill a rectangle larger than the screen, with pixels of as
    many bytes as [draw_rect] assumes where a rectangle is filled. *)
Definition call_ok (i : FrameBufferInfo) (d : call) : Prop :=
  match d with
  | PutPixel x y _ => 0 ≤ x ∧ 0 ≤ y
  | ClearScreen c => gray_fits (pixel_format i) c
  | DrawRect x y w h c =>
      0 ≤ x ∧ 0 ≤ y ∧
      (fb_width i ≤ x ∨ fb_height i ≤ y ∨
       0 ≤ w ≤ fb_width i ∧ 0 ≤ h ≤ fb_height i ∧
       (0 < w → 0 < h → bytes_per_pixel i = depth (pixel_format i) ∧ gray_fits (pixel_format i) c))
  | DrawBitmap _ width height x y => 0 ≤ x ∧ 0 ≤ y ∧ 0 ≤ width ∧ 0 ≤ height ∧ width * height < 2 ^ 64
  | DrawSmiley x y (_, a) | DrawSadFace x y (_, a) => a = 0 ∨ 0 ≤ x < 2 ^ 63 ∧ 0 ≤ y < 2 ^ 63
  end.

(** A face of points is the face of its picture. *)
Definition draws_art (ds : list (Z * Z)) (art : list (list Z)) : bool :=
  forallb (λ row, bool_decide (length row = 7%nat)) art && bool_decide (length art = 6%nat) &&
  forallb (λ d : Z * Z, bool_decide (0 ≤ d.1 < 7 ∧ 0 ≤ d.2 < 6)) ds &&
  forallb (λ dx, forallb (λ dy, bool_decide (drawn_at art dx dy = bool_decide ((dx, dy) ∈ ds))) (seqZ 0 6)) (seqZ 0 7).

Lemma drawn_at_range art dx dy :
  forallb (λ row, bool_decide (length row = 7%nat)) art = true → length art = 6%nat →
  drawn_at art dx dy = true → 0 ≤ dx < 7 ∧ 0 ≤ dy < 6.
Proof.
  intros Hrows Hlen [[H1 H2]%bool_decide_eq_true H3%bool_decide_eq_true]%andb_true_iff.
  apply bind_Some in H3 as (row & Hrow & Hdx). pose proof (lookup_lt_Some _ _ _ Hrow).
  rewrite forallb_forall in Hrows. apply list_elem_of_lookup_2, list_elem_of_In, Hrows, bool_decide_eq_true in Hrow.
  apply lookup_lt_Some in Hdx. lia.
Qed.

Lemma draws_art_spec ds art dx dy : draws_art ds art = true → bool_decide ((dx, dy) ∈ ds) = drawn_at art dx dy.
Proof.
  intros [[[Hrows Hlen%bool_decide_eq_true]%andb_true_iff Hin]%andb_true_iff Hall]%andb_true_iff.
  rewrite forallb_forall in Hin, Hall.
  destruct (decide (0 ≤ dx < 7 ∧ 0 ≤ dy < 6)) as [[Hx Hy]|Hout].
  - assert (In dx (seqZ 0 7)) as Hdx%Hall by (apply list_elem_of_In, elem_of_seqZ; lia).
    rewrite forallb_forall in Hdx.
    assert (In dy (seqZ 0 6)) as Hdy%Hdx by (apply list_elem_of_In, elem_of_seqZ; lia).
    symmetry. by apply bool_decide_eq_true in Hdy.
  - rewrite bool_decide_eq_false_2.
    + destruct (drawn_at art dx dy) eqn:E; [|done]. by apply drawn_at_range in E.
    + intros H%list_elem_of_In%Hin%bool_decide_eq_true. by apply Hout.
Qed.

Lemma face_shows i P fb x y c ds art :
  shows i P fb → 0 ≤ x < 2 ^ 63 → 0 ≤ y < 2 ^ 63 → draws_art ds art = true →
  returns (put_pixels x y c ds fb) (shows i (λ px py,
    if drawn_at art (px - x) (py - y) then Some <$> encode (pixel_format i) c else P px py)).
Proof.
  intros Hsh Hx Hy Hart. eapply returns_mono; [apply put_pixels_shows; [exact Hsh|done|done|]|].
  - apply Forall_forall. intros d Hd. apply andb_true_iff in Hart as [[_ Hin]%andb_true_iff _].
    rewrite forallb_forall in Hin. apply list_elem_of_In, Hin, bool_decide_eq_true in Hd. lia.
  - intros fb' Hfb. eapply shows_ext; [exact Hfb|]. intros px py _. unfold plots. by rewrite (draws_art_spec _ art).
Qed.

Lemma draw_rect_shows i P fb x y w h c :
  shows i P fb → call_ok i (DrawRect x y w h c) →
  returns (draw_rect x y w h c fb)
    (shows i (λ px py, match ink i (DrawRect x y w h c) px py with Some bs => Some <$> bs | None => P px py end)).
Proof.
  intros Hsh (Hx & Hy & Hcase). pose proof Hsh as (Hi & Hok & HP).
  destruct (decide (on_screen i x y)) as [Hs|Hs].
  - destruct (screen_sides _ _ _ _ Hok ltac:(rewrite Hi; exact Hs)) as [Hm1 Hm2]. rewrite Hi in Hm1, Hm2.
    destruct Hcase as [?|[?|(Hw & Hh & Hfit)]]; [unfold on_screen in Hs; lia..|].
    destruct (decide (0 < w ∧ 0 < h)) as [[Hw0 Hh0]|Hempty].
    + destruct (Hfit Hw0 Hh0) as [Hb Hg].
      eapply returns_mono; [apply draw_rect_exact; rewrite ?Hi; [done|done|done|done|lia|lia]|].
      intros fb' Hfb. rewrite Hi in Hfb. eapply shows_ext; [exact Hfb|]. intros px py Hpx. cbn [ink].
      rewrite HP by done. do 2 case_bool_decide; tauto.
    + destruct Hs as [Hsx Hsy]. unfold draw_rect. rewrite Hi. destruct c as [[r g] b].
      rewrite !(proj2 (Z.leb_gt _ _)) by lia. simpl orb. cbv iota.
      checked_step. destruct (Z.leb_spec (x + w) x) as [Hxw|Hxw]; [|checked_step; rewrite (proj2 (Z.leb_le _ _)) by lia];
        apply returns_Ret; (eapply shows_ext; [exact Hsh|]); intros px py _; cbn [ink];
        rewrite bool_decide_eq_false_2 by lia; done.
  - unfold draw_rect. rewrite Hi. destruct c as [[r g] b].
    replace ((fb_width i <=? x) || (fb_height i <=? y)) with true.
    + apply returns_Ret. eapply shows_ext; [exact Hsh|]. intros px py _. cbn [ink].
      rewrite bool_decide_eq_false_2 by tauto. done.
    + symmetry. apply orb_true_iff. rewrite !Z.leb_le. unfold on_screen in Hs. lia.
Qed.

(** [clear_screen] in any format: where the format is none of the three, a pixel
    has no bytes to show. *)
Lemma clear_screen_picture i P fb c :
  shows i P fb → gray_fits (pixel_format i) c →
  returns (clear_screen c fb) (shows i (λ _ _, Some <$> fill (pixel_format i) c)).
Proof.
  intros Hsh Hg. assert (pixel_format i ≠ OtherFormat ∨ pixel_format i = OtherFormat) as [Hf|Hf]
    by (destruct (pixel_format i); auto).
  { by apply (clear_screen_shows i P). }
  pose proof Hsh as (Hi & _ & HP). unfold clear_screen. rewrite Hi. destruct c as [[r g] b]. rewrite Hf, bind_Ret.
  apply returns_Ret. replace (mkFb i (buffer fb)) with fb by (by destruct fb; simpl in Hi; subst).
  eapply shows_ext; [exact Hsh|]. intros px py Hs. rewrite <- HP by done. unfold pixel_at. by rewrite Hi, Hf.
Qed.

(** One call draws its ink, and nothing else. *)
Lemma draw_shows i P fb d :
  shows i P fb → call_ok i d →
  returns (draw d fb) (shows i (λ px py, match ink i d px py with Some bs => Some <$> bs | None => P px py end)).
Proof.
  intros Hsh Hd. destruct d as [x y c|c|x y w h c|b w h x y|x y [c a]|x y [c a]]; cbn [draw].
  - destruct Hd as [Hx Hy]. eapply returns_mono; [by apply put_pixel_shows|]. intros fb' Hfb.
    eapply shows_ext; [exact Hfb|]. intros px py _. unfold plot. cbn [ink].
    do 2 case_bool_decide; [done|simplify_eq; tauto|by destruct_and?; subst|done].
  - by apply (clear_screen_picture i P).
  - by apply draw_rect_shows.
  - destruct Hd as (Hx & Hy & Hw & Hh & Hm). eapply returns_mono; [by apply draw_bitmap_shows|]. intros fb' Hfb.
    eapply shows_ext; [exact Hfb|]. intros px py _. unfold overlay, overlay_upto. cbn [ink].
    do 2 case_bool_decide; try done; try lia. by destruct (b !! _) as [[[[r g] b'] a]|]; [destruct (a =? 0)|].
  - cbn [ink]. destruct c as [[r g] b]. unfold draw_smiley. destruct (Z.eqb_spec a 0) as [->|Ha]; [by apply returns_Ret|].
    destruct Hd as [?|[Hx Hy]]; [done|]. eapply returns_mono; [by apply (face_shows i P) with (art := smiley_art)|].
    intros fb' Hfb. eapply shows_ext; [exact Hfb|]. intros px py _. cbn [negb andb]. by destruct (drawn_at _ _ _).
  - cbn [ink]. destruct c as [[r g] b]. unfold draw_sad_face. destruct (Z.eqb_spec a 0) as [->|Ha]; [by apply returns_Ret|].
    destruct Hd as [?|[Hx Hy]]; [done|]. eapply returns_mono; [by apply (face_shows i P) with (art := sad_art)|].
    intros fb' Hfb. eapply shows_ext; [exact Hfb|]. intros px py _. cbn [negb andb]. by destruct (drawn_at _ _ _).
Qed.

Lemma draw_all_shows i P fb ds :
  shows i P fb → Forall (call_ok i) ds → returns (draw_all ds fb) (shows i (picture i ds P)).
Proof.
  intros Hsh Hds. revert P fb Hsh. induction Hds as [|d ds Hd Hds IH]; intros P fb Hsh; [by apply returns_Ret|].
  cbn [draw_all picture]. eapply returns_bind; [by apply draw_shows|]. intros fb' Hfb. by apply IH.
Qed.

(** C36: On a screen whose buffer holds its rows, any sequence of drawing calls
    returns without a panic and leaves exactly the picture the calls describe:
    every pixel of the screen shows what the last call that draws there puts
    there - the pixel, the cleared screen, the rectangle moved to fit, the
    texel with a non-zero alpha, the two faces as they are to look - encoded in
    the format of the screen, and keeps what it showed where no call draws,
    with the parts of a drawing that are off the screen cut away. The buffer
    keeps its length and holds bytes, the description of the screen does not
    change. The calls do not compute positions past 2^63 (a bitmap: 2^64
    texels), the components of a color add up to at most 255 where a gray
    screen is cleared or filled, a rectangle that starts on the screen is no
    larger than it, and its pixels have the bytes [draw_rect] assumes. *)
Theorem drawing_exact (fb : Framebuffer) (len : Z) (ds : list call) :
  fb_ok fb → bytes_of len (buffer fb) → Forall call_typed ds → Forall (call_ok (fb_info fb)) ds →
  returns (draw_all ds fb) (λ fb',
    fb_typed (fb_info fb) len fb' ∧
    ∀ px py, on_screen (fb_info fb) px py →
      pixel_at fb' px py = picture (fb_info fb) ds (pixel_at fb) px py).
Proof.
  intros Hok Hb Ht Hc. destruct (draw_all_shows _ _ fb ds (shows_self fb Hok) Hc) as (fb' & He & _ & _ & HP).
  exists fb'. split; [exact He|]. split; [|exact HP].
  pose proof (draw_all_typed fb len ds Hb Ht) as Hty. rewrite He in Hty. exact Hty.
Qed.

Lemma drawing_exact_witness :
  let fb := mkFb (mkInfo 12 10 12 3 Bgr) (replicate 360 0) in
  let ds := [ClearScreen (30, 30, 46); DrawRect 9 1 9 2 (1, 2, 3); PutPixel 17 7 (9, 9, 9); DrawSmiley 1 0 (4, 5, 6, 255)] in
  returns (draw_all ds fb) (λ fb', fb_typed (fb_info fb) 360 fb' ∧
    pixel_at fb' 2 1 = [Some 6; Some 5; Some 4] ∧ pixel_at fb' 3 1 = [Some 3; Some 2; Some 1] ∧
    pixel_at fb' 0 9 = [Some 46; Some 30; Some 30]).
Proof.
  intros fb ds. eapply returns_mono.
  - apply (drawing_exact fb 360 ds).
    + repeat split; vm_compute; first [reflexivity|discriminate].
    + split; [reflexivity|]. by apply Forall_replicate.
    + repeat constructor; done.
    + repeat constructor; cbn; intuition lia.
  - intros fb' [Ht HP]. split; [exact Ht|]. split_and!; rewrite HP by (split; cbn; lia); reflexivity.
Defined.
