(* ===== verification/Font.v ===== *)
(** * The console font (kernel/src/font.rs)

    The two PSF headers, the choice of a glyph and its bitmap, and drawing a
    character on the framebuffer.  [FONT_DATA], a file the build includes, is an
    argument; the static [FONT_HEIGHT] and the framebuffer behind its lock are
    the state [Screen]. *)

From S2P Require Import Prelude Framebuffer.
Open Scope Z_scope.
Open Scope rust_scope.

(** ** State *)

Definition PSF1_MAGIC : Z := 0x0436.
Definition PSF2_MAGIC : Z := 0x864ab572.

(** [size_of::<PSF1Header>()] and [size_of::<PSF2Header>()], both packed. *)
Definition PSF1_HEADER_SIZE : Z := 4.
Definition PSF2_HEADER_SIZE : Z := 32.

Record Font : Type := mkFont {
  glyphs : list Z;
  num_glyphs : Z;
  bytes_per_glyph : Z;
  font_height : Z;
  font_width : Z;
}.

(** The statics [FRAMEBUFFER] and [FONT_HEIGHT]. *)
Record Screen : Type := mkScreen { FRAMEBUFFER : option Framebuffer; FONT_HEIGHT : Z }.

(** ** Operations *)

(** Little-endian fields of a packed header. *)
Definition byte_at (font : list Z) (o : Z) : Z := default 0 (font !! Z.to_nat o).
Definition u16_at (font : list Z) (o : Z) : Z := byte_at font o + byte_at font (o + 1) * 2 ^ 8.
Definition u32_at (font : list Z) (o : Z) : Z := u16_at font o + u16_at font (o + 2) * 2 ^ 16.

(** The font, and the new [FONT_HEIGHT] if it is set. *)
Definition parse_psf (font : list Z) : outcome (option Font * option Z) :=
  if (PSF2_HEADER_SIZE <=? zlen font) && (u32_at font 0 =? PSF2_MAGIC) then
    let hdr_sz := u32_at font 8 in
    if zlen font <? hdr_sz then Ret (None, None) else
    glyphs ← slice font hdr_sz (zlen font);
    let num_glyphs := u32_at font 16 in
    let bytes_per_glyph := u32_at font 20 in
    match checked_opt 64 (bytes_per_glyph * num_glyphs) with
    | None => Ret (None, None)
    | Some size =>
        if zlen glyphs <? size then Ret (None, None) else
        Ret (Some (mkFont glyphs num_glyphs bytes_per_glyph (u32_at font 24) (u32_at font 28)),
             Some (u32_at font 24))
    end
  else if (PSF1_HEADER_SIZE <=? zlen font) && (u16_at font 0 =? PSF1_MAGIC) then
    glyphs ← slice font PSF1_HEADER_SIZE (zlen font);
    let bytes_per_glyph := byte_at font 3 in
    let num_glyphs := if negb (Z.land (byte_at font 2) 0x01 =? 0) then 512 else 256 in
    match checked_opt 64 (bytes_per_glyph * num_glyphs) with
    | None => Ret (None, None)
    | Some size =>
        if zlen glyphs <? size then Ret (None, None) else
        Ret (Some (mkFont glyphs num_glyphs bytes_per_glyph bytes_per_glyph 8), Some bytes_per_glyph)
    end
  else Ret (None, None).

Definition glyph_index (f : Font) (code : Z) : Z :=
  let glyph_index := if code <=? 0xFF then code else 0 in
  if num_glyphs f <=? glyph_index then
    if (32 <=? code) && (code - 32 <? num_glyphs f) then code - 32 else 0
  else glyph_index.

(** The glyph's bytes, unless they are outside of the font. *)
Definition glyph_of (f : Font) (code : Z) : outcome (option (list Z)) :=
  let bpg := bytes_per_glyph f in
  let start := Z.min (glyph_index f code * bpg) (uint_max 64) in
  if start =? uint_max 64 then Ret None else
  e ← start +[64] bpg;
  if zlen (glyphs f) <? e then Ret None else
  glyph ← slice (glyphs f) start e; Ret (Some glyph).

(** The bit of a glyph's row, most significant first. *)
Definition pixel_on (f : Font) (glyph : list Z) (row bit : Z) : outcome bool :=
  row_byte_offset ← row *[64] ((font_width f + 7) / 8);
  byte_idx ← row_byte_offset +[64] (bit / 8);
  if byte_idx <? zlen glyph then
    b ← index glyph byte_idx;
    Ret (negb (Z.land (Z.shiftr b (7 - bit mod 8)) 1 =? 0))
  else Ret false.

Definition glyph_bitmap (f : Font) (glyph : list Z) (color : rgba) : outcome (list rgba) :=
  for_range 0 (font_height f) (λ row bitmap,
    for_range 0 (font_width f) (λ bit bitmap,
      on ← pixel_on f glyph row bit;
      if on : bool then
        r ← row *[64] font_width f;
        i ← r +[64] bit;
        store bitmap i color
      else Ret bitmap) bitmap)
    (replicate 1024 (0, 0, 0, 0)).

Definition draw_char_psf (FONT_DATA : list Z) (x y ch : Z) (color : rgba) (s : Screen) : outcome Screen :=
  '(ofont, oheight) ← parse_psf FONT_DATA;
  let s := mkScreen (FRAMEBUFFER s) (default (FONT_HEIGHT s) oheight) in
  match ofont with
  | None => Ret s
  | Some f =>
      max_size ← font_width f *[64] font_height f;
      if (max_size =? 0) || (1024 <? max_size) then Ret s else
      oglyph ← glyph_of f ch;
      match oglyph with
      | None => Ret s
      | Some glyph =>
          bitmap ← glyph_bitmap f glyph color;
          match FRAMEBUFFER s with
          | Some fb =>
              bm ← slice bitmap 0 max_size;
              fb ← draw_bitmap bm (font_width f) (font_height f) x y fb;
              Ret (mkScreen (Some fb) (FONT_HEIGHT s))
          | None => Ret s
          end
      end
  end.

(** ** Glyphs *)

(** The fonts [draw_char_psf] draws: a glyph of at most 1024 pixels. *)
Definition drawable (f : Font) : Prop :=
  0 < font_width f ∧ 0 < font_height f ∧ font_width f * font_height f ≤ 1024 ∧
  0 ≤ bytes_per_glyph f ∧ 0 < num_glyphs f ∧ bytes_per_glyph f * num_glyphs f ≤ zlen (glyphs f) < 2 ^ 63.

(** The bit at [(row, bit)] of the glyph for [code]. *)
Definition glyph_bit (f : Font) (code row bit : Z) : bool :=
  let k := row * ((font_width f + 7) / 8) + bit / 8 in
  bool_decide (k < bytes_per_glyph f) &&
  match glyphs f !! Z.to_nat (glyph_index f code * bytes_per_glyph f + k) with
  | Some b => Z.testbit b (7 - bit mod 8)
  | None => false
  end.

Lemma land_shiftr_bit b k : 0 ≤ k → negb (Z.land (Z.shiftr b k) 1 =? 0) = Z.testbit b k.
Proof.
  intros Hk. change 1 with (Z.ones 1) at 1. rewrite Z.land_ones by lia.
  change (2 ^ 1) with 2. rewrite Zmod_odd. rewrite <- Z.bit0_odd, Z.shiftr_spec by lia.
  rewrite Z.add_0_l. by destruct (Z.testbit b k).
Qed.

Lemma glyph_index_range f code : 0 < num_glyphs f → 0 ≤ code → 0 ≤ glyph_index f code < num_glyphs f.
Proof.
  intros Hn Hc. unfold glyph_index. destruct (Z.leb_spec code 0xFF).
  - destruct (Z.leb_spec (num_glyphs f) code); [|lia].
    destruct (Z.leb_spec 32 code); simpl; [|lia]. destruct (Z.ltb_spec (code - 32) (num_glyphs f)); lia.
  - destruct (Z.leb_spec (num_glyphs f) 0); [lia|lia].
Qed.

Lemma glyph_of_ok f code :
  drawable f → 0 ≤ code →
  let start := glyph_index f code * bytes_per_glyph f in
  0 ≤ start ∧ start + bytes_per_glyph f ≤ zlen (glyphs f) ∧
  glyph_of f code = Ret (Some (sub_list (glyphs f) start (start + bytes_per_glyph f))).
Proof.
  intros (_ & _ & _ & Hb & Hn & Hl) Hc start. pose proof (glyph_index_range f code Hn Hc) as Hi.
  assert (Hs : 0 ≤ start ∧ start + bytes_per_glyph f ≤ zlen (glyphs f)).
  { unfold start. split; [nia|].
    assert ((glyph_index f code + 1) * bytes_per_glyph f ≤ num_glyphs f * bytes_per_glyph f) by nia. lia. }
  split_and!; [lia|lia|]. unfold glyph_of. fold start. unfold uint_max.
  rewrite Z.min_l by lia. rewrite (proj2 (Z.eqb_neq _ _)) by lia. checked_step.
  rewrite (proj2 (Z.ltb_ge _ _)) by lia. rewrite slice_ok by lia. done.
Qed.

Lemma pixel_on_ok f code row bit :
  drawable f → 0 ≤ code → 0 ≤ row < font_height f → 0 ≤ bit < font_width f →
  let start := glyph_index f code * bytes_per_glyph f in
  pixel_on f (sub_list (glyphs f) start (start + bytes_per_glyph f)) row bit = Ret (glyph_bit f code row bit).
Proof.
  intros Hd Hc Hr Hb start. destruct (glyph_of_ok f code Hd Hc) as (Hs0 & Hs1 & _). fold start in Hs0, Hs1.
  destruct Hd as (Hw & Hh & Hwh & Hb0 & _ & Hl). unfold pixel_on, glyph_bit. fold start.
  pose proof (Z.div_mod (font_width f + 7) 8 ltac:(lia)). pose proof (Z.mod_pos_bound (font_width f + 7) 8 ltac:(lia)).
  pose proof (Z.div_mod bit 8 ltac:(lia)). pose proof (Z.mod_pos_bound bit 8 ltac:(lia)).
  assert (font_height f ≤ 1024 ∧ font_width f ≤ 1024) by nia.
  generalize dependent ((font_width f + 7) / 8). intros q Hq.
  assert (0 ≤ row * q < 2 ^ 32) by nia.
  checked_step. checked_step. rewrite zlen_sub_list by lia.
  replace (start + bytes_per_glyph f - start) with (bytes_per_glyph f) by lia.
  destruct (Z.ltb_spec (row * q + bit / 8) (bytes_per_glyph f)) as [Hk|Hk].
  - rewrite bool_decide_eq_true_2 by done. simpl andb. unfold index.
    rewrite lookup_sub_list by lia.
    replace (Z.to_nat start + Z.to_nat (row * q + bit / 8))%nat
      with (Z.to_nat (start + (row * q + bit / 8))) by lia.
    destruct (lookup_lt_is_Some_2 (glyphs f) (Z.to_nat (start + (row * q + bit / 8)))) as [b Hlk];
      [unfold zlen in *; lia|].
    rewrite Hlk, bind_Ret. by rewrite land_shiftr_bit by lia.
  - by rewrite bool_decide_eq_false_2 by lia.
Qed.

(** The bitmap, up to [(row, bit)]. *)
Definition bitmap_upto (f : Font) (code : Z) (color : rgba) (row bit : Z) (bm : list rgba) : Prop :=
  zlen bm = 1024 ∧
  ∀ r b, 0 ≤ r < font_height f → 0 ≤ b < font_width f →
    bm !! Z.to_nat (r * font_width f + b) =
      Some (if bool_decide (r < row ∨ r = row ∧ b < bit) && glyph_bit f code r b then color else (0, 0, 0, 0)).

Lemma glyph_bitmap_ok f code color :
  drawable f → 0 ≤ code →
  let start := glyph_index f code * bytes_per_glyph f in
  returns (glyph_bitmap f (sub_list (glyphs f) start (start + bytes_per_glyph f)) color)
    (bitmap_upto f code color (font_height f) 0).
Proof.
  intros Hd Hc start. pose proof Hd as (Hw & Hh & Hwh & _). unfold glyph_bitmap.
  apply (for_range_inv (λ row, bitmap_upto f code color row 0)); [lia| |].
  { split; [reflexivity|]. intros r b Hr Hb. rewrite bool_decide_eq_false_2 by lia. simpl andb.
    rewrite lookup_replicate. split; [done|]. nia. }
  intros row bm Hr Hbm. eapply returns_mono.
  - apply (for_range_inv (λ bit, bitmap_upto f code color row bit)); [lia|exact Hbm|].
    intros bit bm1 Hbit [Hlen Hlk]. unfold start. rewrite pixel_on_ok by done. rewrite bind_Ret.
    assert (0 ≤ row * font_width f ∧ row * font_width f + bit < 1024) by nia.
    destruct (glyph_bit f code row bit) eqn:Hon.
    + checked_step. checked_step. rewrite store_ok by lia. apply returns_Ret.
      split; [by rewrite zlen_insert|]. intros r b Hr' Hb'.
      destruct (decide (r = row ∧ b = bit)) as [[-> ->]|Hne].
      * rewrite list_lookup_insert_eq by (unfold zlen in Hlen; lia).
        rewrite bool_decide_eq_true_2 by lia. by rewrite Hon.
      * rewrite list_lookup_insert_ne.
        2:{ intros Heq. apply Hne. apply row_major_inj in Heq; lia. }
        rewrite Hlk by done. f_equal. do 2 case_bool_decide; done || lia.
    + apply returns_Ret. split; [done|]. intros r b Hr' Hb'. rewrite Hlk by done.
      destruct (decide (r = row ∧ b = bit)) as [[-> ->]|Hne].
      * rewrite Hon. by rewrite !andb_false_r.
      * f_equal. do 2 case_bool_decide; done || lia.
  - intros bm1 [Hlen Hlk]. split; [done|]. intros r b Hr' Hb'. rewrite Hlk by done.
    f_equal. do 2 case_bool_decide; done || lia.
Qed.

(** The character [code] in [color] at [(x, y)], over [P]. *)
Definition stamp (i : FrameBufferInfo) (f : Font) (x y code : Z) (color : rgba)
    (P : Z → Z → list (option Z)) (px py : Z) : list (option Z) :=
  let '(r, g, b, a) := color in
  if bool_decide (x ≤ px < x + font_width f ∧ y ≤ py < y + font_height f ∧ a ≠ 0) &&
     glyph_bit f code (py - y) (px - x)
  then Some <$> encode (pixel_format i) (r, g, b) else P px py.

Lemma draw_char_shows FONT_DATA i P fb f h0 h x y ch color :
  parse_psf FONT_DATA = Ret (Some f, Some h) → drawable f → 0 ≤ x → 0 ≤ y → 0 ≤ ch →
  shows i P fb →
  returns (draw_char_psf FONT_DATA x y ch color (mkScreen (Some fb) h0)) (λ s,
    FONT_HEIGHT s = h ∧ ∃ fb', FRAMEBUFFER s = Some fb' ∧ shows i (stamp i f x y ch color P) fb').
Proof.
  intros Hp Hd Hx Hy Hch Hsh. pose proof Hd as (Hw & Hh & Hwh & _).
  unfold draw_char_psf. rewrite Hp, bind_Ret. cbn [default FRAMEBUFFER FONT_HEIGHT].
  checked_step. rewrite (proj2 (Z.eqb_neq _ _)), (proj2 (Z.ltb_ge _ _)) by nia. simpl orb. cbv iota.
  destruct (glyph_of_ok f ch Hd Hch) as (_ & _ & Hg). rewrite Hg, bind_Ret.
  eapply returns_bind; [by apply glyph_bitmap_ok|]. intros bm [Hlen Hbm].
  rewrite slice_ok by nia. rewrite bind_Ret.
  eapply returns_bind; [apply draw_bitmap_shows; [exact Hsh|lia|lia|lia|lia|lia]|].
  intros fb' Hfb. apply returns_Ret. split; [done|]. exists fb'. split; [done|].
  eapply shows_ext; [exact Hfb|]. intros px py _.
  unfold overlay, overlay_upto, stamp. destruct color as [[[r g] b] a].
  case_bool_decide as Hin.
  - assert (Hpx : 0 ≤ px - x < font_width f) by lia. assert (Hpy : 0 ≤ py - y < font_height f) by lia.
    assert (0 ≤ (py - y) * font_width f) by nia.
    assert ((py - y) * font_width f + (px - x) < font_width f * font_height f) by nia.
    rewrite lookup_sub_list by lia. rewrite Nat.add_0_l. rewrite Hbm by lia.
    rewrite bool_decide_eq_true_2 by lia. rewrite andb_true_l.
    destruct (glyph_bit f ch (py - y) (px - x)); [|by rewrite andb_false_r].
    rewrite andb_true_r. destruct (Z.eqb_spec a 0).
    + by rewrite bool_decide_eq_false_2 by lia.
    + by rewrite bool_decide_eq_true_2 by lia.
  - rewrite bool_decide_eq_false_2 by lia. done.
Qed.

(** ** The two file formats *)

Definition le32 (v : Z) : list Z := [v mod 256; v / 2 ^ 8 mod 256; v / 2 ^ 16 mod 256; v / 2 ^ 24 mod 256].

Definition psf1_file (mode char_size : Z) (gs : list Z) : list Z := [0x36; 0x04; mode; char_size] ++ gs.

(** [pad] is the rest of a header longer than the struct. *)
Definition psf2_file (version flags num bpg height width : Z) (pad gs : list Z) : list Z :=
  le32 PSF2_MAGIC ++ le32 version ++ le32 (32 + zlen pad) ++ le32 flags ++ le32 num ++ le32 bpg ++
  le32 height ++ le32 width ++ pad ++ gs.

Lemma le32_value v :
  0 ≤ v < 2 ^ 32 →
  v mod 256 + v / 2 ^ 8 mod 256 * 2 ^ 8 + (v / 2 ^ 16 mod 256 + v / 2 ^ 24 mod 256 * 2 ^ 8) * 2 ^ 16 = v.
Proof. intros Hv. Z.to_euclidean_division_equations. lia. Qed.

Lemma u32_at_le32 pre v post o :
  0 ≤ v < 2 ^ 32 → zlen pre = o → u32_at (pre ++ le32 v ++ post) o = v.
Proof.
  intros Hv <-. unfold u32_at, u16_at, byte_at.
  assert (Hk : ∀ k : nat, (pre ++ le32 v ++ post) !! Z.to_nat (zlen pre + Z.of_nat k) = (le32 v ++ post) !! k).
  { intros k. rewrite lookup_app_r by (unfold zlen; lia). f_equal. unfold zlen. lia. }
  pose proof (Hk 0%nat) as H0. pose proof (Hk 1%nat) as H1. pose proof (Hk 2%nat) as H2. pose proof (Hk 3%nat) as H3.
  change (Z.of_nat 1) with 1 in H1. change (Z.of_nat 2) with 2 in H2. change (Z.of_nat 3) with 3 in H3.
  rewrite Z.add_0_r in H0.
  replace (zlen pre + 2 + 1) with (zlen pre + 3) by lia.
  rewrite H0, H1, H2, H3. exact (le32_value v Hv).
Qed.

Lemma parse_psf1 mode cs gs :
  0 ≤ cs < 256 →
  let num := if Z.odd mode then 512 else 256 in
  cs * num ≤ zlen gs →
  parse_psf (psf1_file mode cs gs) = Ret (Some (mkFont gs num cs cs 8), Some cs).
Proof.
  intros Hcs num Hl. unfold parse_psf.
  assert (Hlen : zlen (psf1_file mode cs gs) = 4 + zlen gs).
  { unfold psf1_file. rewrite zlen_app. done. }
  assert (Hnot2 : u32_at (psf1_file mode cs gs) 0 ≠ PSF2_MAGIC).
  { unfold u32_at, u16_at, byte_at, psf1_file, PSF2_MAGIC. cbn [app]. simpl. lia. }
  rewrite (proj2 (Z.eqb_neq _ _) Hnot2), andb_false_r. rewrite Hlen.
  pose proof (zlen_nonneg gs). unfold PSF1_HEADER_SIZE.
  rewrite (proj2 (Z.leb_le 4 _)) by lia. change (u16_at (psf1_file mode cs gs) 0 =? PSF1_MAGIC) with true.
  simpl andb. cbv iota. rewrite slice_ok by lia. rewrite bind_Ret.
  assert (Hg : sub_list (psf1_file mode cs gs) 4 (4 + zlen gs) = gs).
  { unfold sub_list, psf1_file. cbn [app]. replace (Z.to_nat 4) with 4%nat by done. cbn [drop].
    apply take_ge. unfold zlen. lia. }
  rewrite Hg. change (byte_at (psf1_file mode cs gs) 3) with cs.
  change (byte_at (psf1_file mode cs gs) 2) with mode.
  assert (Hmode : negb (Z.land mode 1 =? 0) = Z.odd mode).
  { change 1 with (Z.ones 1). rewrite Z.land_ones by lia. change (2 ^ 1) with 2. rewrite Zmod_odd.
    by destruct (Z.odd mode). }
  rewrite Hmode. fold num. cbv zeta. unfold checked_opt.
  assert (0 ≤ cs * num < 2 ^ 64) by (unfold num; destruct (Z.odd mode); lia).
  rewrite (proj2 (Z.leb_le 0 _)), (proj2 (Z.ltb_lt (cs * num) _)) by lia. simpl andb. cbv iota.
  by rewrite (proj2 (Z.ltb_ge _ _)) by lia.
Qed.

Lemma parse_psf2 version flags num bpg height width pad gs :
  0 ≤ version < 2 ^ 32 → 0 ≤ flags < 2 ^ 32 → 0 ≤ num < 2 ^ 32 → 0 ≤ bpg < 2 ^ 32 →
  0 ≤ height < 2 ^ 32 → 0 ≤ width < 2 ^ 32 → 32 + zlen pad < 2 ^ 32 → bpg * num ≤ zlen gs →
  parse_psf (psf2_file version flags num bpg height width pad gs) =
    Ret (Some (mkFont gs num bpg height width), Some height).
Proof.
  intros Hv Hf Hn Hb Hh Hw Hp Hl. pose proof (zlen_nonneg pad). pose proof (zlen_nonneg gs).
  set (F := psf2_file _ _ _ _ _ _ _ _).
  assert (Hfield : ∀ pre v post, F = pre ++ le32 v ++ post → 0 ≤ v < 2 ^ 32 → u32_at F (zlen pre) = v).
  { intros pre v post -> ?. by apply u32_at_le32. }
  assert (E0 : u32_at F 0 = PSF2_MAGIC) by (by apply (Hfield [] _ _ eq_refl)).
  assert (E8 : u32_at F 8 = 32 + zlen pad)
    by (apply (Hfield (le32 PSF2_MAGIC ++ le32 version) _ _ eq_refl); lia).
  assert (E16 : u32_at F 16 = num)
    by (by apply (Hfield (le32 PSF2_MAGIC ++ le32 version ++ le32 (32 + zlen pad) ++ le32 flags) _ _ eq_refl)).
  assert (E20 : u32_at F 20 = bpg)
    by (by apply (Hfield (le32 PSF2_MAGIC ++ le32 version ++ le32 (32 + zlen pad) ++ le32 flags ++ le32 num) _ _ eq_refl)).
  assert (E24 : u32_at F 24 = height)
    by (by apply (Hfield (le32 PSF2_MAGIC ++ le32 version ++ le32 (32 + zlen pad) ++ le32 flags ++ le32 num ++
          le32 bpg) _ _ eq_refl)).
  assert (E28 : u32_at F 28 = width)
    by (by apply (Hfield (le32 PSF2_MAGIC ++ le32 version ++ le32 (32 + zlen pad) ++ le32 flags ++ le32 num ++
          le32 bpg ++ le32 height) _ _ eq_refl)).
  assert (Hsplit : ∃ hd, F = hd ++ gs ∧ zlen hd = 32 + zlen pad).
  { exists (le32 PSF2_MAGIC ++ le32 version ++ le32 (32 + zlen pad) ++ le32 flags ++ le32 num ++
      le32 bpg ++ le32 height ++ le32 width ++ pad).
    split; [unfold F, psf2_file; by rewrite <- !app_assoc|]. rewrite !zlen_app. change (zlen (le32 _)) with 4. lia. }
  destruct Hsplit as (hd & HF & Hhd).
  assert (Hlen : zlen F = 32 + zlen pad + zlen gs) by (rewrite HF, zlen_app; lia).
  unfold parse_psf, PSF2_HEADER_SIZE. rewrite E0, E8, E16, E20, E24, E28, Hlen.
  rewrite (proj2 (Z.leb_le 32 _)) by lia. rewrite Z.eqb_refl. simpl andb. cbv iota.
  rewrite (proj2 (Z.ltb_ge _ _)) by lia. rewrite slice_ok by lia. rewrite bind_Ret.
  assert (Hg : sub_list F (32 + zlen pad) (32 + zlen pad + zlen gs) = gs).
  { rewrite HF, sub_list_app_r by lia. rewrite Hhd.
    replace (32 + zlen pad - (32 + zlen pad)) with 0 by lia.
    replace (32 + zlen pad + zlen gs - (32 + zlen pad)) with (zlen gs) by lia. apply sub_list_full. }
  rewrite Hg. unfold checked_opt.
  rewrite (proj2 (Z.leb_le 0 (bpg * num))), (proj2 (Z.ltb_lt (bpg * num) _)) by nia. simpl andb. cbv iota.
  by rewrite (proj2 (Z.ltb_ge _ _)) by lia.
Qed.

(** ** Properties *)

(** A font file of either format is read back as its glyphs, their
    number, their size and their dimensions, and the static height is set to
    the font's. *)
Theorem psf_round_trip :
  (∀ mode cs gs, 0 ≤ cs < 256 → cs * (if Z.odd mode then 512 else 256) ≤ zlen gs →
    parse_psf (psf1_file mode cs gs) =
      Ret (Some (mkFont gs (if Z.odd mode then 512 else 256) cs cs 8), Some cs)) ∧
  (∀ version flags num bpg height width pad gs,
    0 ≤ version < 2 ^ 32 → 0 ≤ flags < 2 ^ 32 → 0 ≤ num < 2 ^ 32 → 0 ≤ bpg < 2 ^ 32 →
    0 ≤ height < 2 ^ 32 → 0 ≤ width < 2 ^ 32 → 32 + zlen pad < 2 ^ 32 → bpg * num ≤ zlen gs →
    parse_psf (psf2_file version flags num bpg height width pad gs) =
      Ret (Some (mkFont gs num bpg height width), Some height)).
Proof. split; intros; [by apply parse_psf1|by apply parse_psf2]. Qed.

(** A font whose glyphs are two rows of alternate bits. *)
Definition sample_font : list Z := psf1_file 2 2 (replicate 512 0xA5).

Lemma psf_round_trip_witness :
  parse_psf sample_font = Ret (Some (mkFont (replicate 512 0xA5) 256 2 2 8), Some 2) ∧
  parse_psf (psf2_file 0 0 1 3 3 8 [] [1; 2; 3]) = Ret (Some (mkFont [1; 2; 3] 1 3 3 8), Some 3).
Proof.
  destruct psf_round_trip as [H1 H2]. split.
  - apply (H1 2 2 (replicate 512 0xA5)); [lia|vm_compute; discriminate].
  - apply (H2 0 0 1 3 3 8 [] [1; 2; 3]); vm_compute; first [by split|reflexivity|discriminate].
Defined.

(** With a font of at most 1024 pixels a glyph, [draw_char_psf] gives
    the color to exactly the pixels of the screen under a set bit of the
    character's glyph (its code below 256, glyph 0 otherwise) and keeps every
    other pixel, and the static height is the font's. *)
Theorem draw_char_exact (FONT_DATA : list Z) (f : Font) (h0 h : Z) (fb : Framebuffer) (x y ch r g b : Z) :
  parse_psf FONT_DATA = Ret (Some f, Some h) → drawable f → fb_ok fb →
  0 ≤ x → 0 ≤ y → 0 ≤ ch →
  returns (draw_char_psf FONT_DATA x y ch (r, g, b, 255) (mkScreen (Some fb) h0)) (λ s,
    FONT_HEIGHT s = h ∧ ∃ fb', FRAMEBUFFER s = Some fb' ∧
    shows (fb_info fb) (λ px py,
      if bool_decide (x ≤ px < x + font_width f ∧ y ≤ py < y + font_height f) && glyph_bit f ch (py - y) (px - x)
      then Some <$> encode (pixel_format (fb_info fb)) (r, g, b) else pixel_at fb px py) fb').
Proof.
  intros Hp Hd Hok Hx Hy Hch. eapply returns_mono.
  { apply (draw_char_shows FONT_DATA (fb_info fb) (pixel_at fb) fb f h0 h x y ch (r, g, b, 255)); try done. }
  intros s (Hh & fb' & Hfb & Hsh). split; [done|]. exists fb'. split; [done|].
  eapply shows_ext; [exact Hsh|]. intros px py _. unfold stamp. do 2 case_bool_decide; done || lia.
Qed.

Lemma draw_char_exact_witness :
  returns (draw_char_psf sample_font 1 0 0x41 (9, 8, 7, 255) (mkScreen (Some (sample_fb Rgb)) 8)) (λ s,
    ∃ fb', FRAMEBUFFER s = Some fb' ∧ pixel_at fb' 1 0 = [Some 9; Some 8; Some 7] ∧
      pixel_at fb' 2 1 = [Some 0; Some 0; Some 0]).
Proof.
  eapply returns_mono.
  - apply (draw_char_exact sample_font (mkFont (replicate 512 0xA5) 256 2 2 8) 8 2 (sample_fb Rgb));
      [vm_compute; reflexivity|repeat split; vm_compute; first [reflexivity|discriminate]|apply sample_fb_ok|lia..].
  - intros s (_ & fb' & Hfb & _ & _ & HP). exists fb'. split; [done|].
    split; rewrite HP by (split; cbn; lia); vm_compute; reflexivity.
Defined.
