(* ===== verification/Tty.v ===== *)
(** * The text console (kernel/src/display.rs, [TTY])

    The grid of cells, the cursor, the control characters and color escapes
    [write_str] interprets, and what of it reaches the framebuffer.  The
    features are the default ones: [catppuccin-colorscheme] is set and
    [clear-on-scroll] is not. *)

From S2P Require Import Prelude Text Framebuffer Font.
Open Scope Z_scope.
Open Scope rust_scope.

(** ** State *)

Record Cell : Type := mkCell { cell_ch : Z; cell_color : rgba }.
Definition empty_cell (color : rgba) : Cell := mkCell 0 color.

(** [catppuccin-colorscheme]. *)
Definition BACKGROUND : rgb := (30, 30, 46).
Definition WHITE : rgba := (205, 214, 244, 255).
Definition BLACK : rgba := (17, 17, 27, 255).
Definition RED : rgba := (243, 139, 168, 255).
Definition GREEN : rgba := (166, 227, 161, 255).
Definition YELLOW : rgba := (249, 226, 175, 255).
Definition BLUE : rgba := (137, 180, 250, 255).
Definition MAGENTA : rgba := (203, 166, 247, 255).
Definition CYAN : rgba := (0, 170, 170, 255).

Record TTY : Type := mkTTY {
  width : Z;
  height : Z;
  text_buf : list Cell;
  cursor_x : Z;
  cursor_y : Z;
  fg_color : rgba;
}.

Definition with_buf (t : TTY) (b : list Cell) : TTY :=
  mkTTY (width t) (height t) b (cursor_x t) (cursor_y t) (fg_color t).
Definition with_cursor (t : TTY) (x y : Z) : TTY :=
  mkTTY (width t) (height t) (text_buf t) x y (fg_color t).
Definition with_color (t : TTY) (c : rgba) : TTY :=
  mkTTY (width t) (height t) (text_buf t) (cursor_x t) (cursor_y t) c.

(** A console on a screen: the two statics behind their locks. *)
Definition console : Type := TTY * Screen.

Definition TTY_BUFFER : list Cell := replicate (130 * 50) (mkCell 0 (255, 255, 255, 255)).

Definition tty_new (s : Screen) : TTY :=
  let '(w, h) := match FRAMEBUFFER s with Some fb => resolution fb | None => (0, 0) end in
  mkTTY (Z.min (w / 8) 130) (Z.min (h / 8) 50) TTY_BUFFER 0 0 (255, 255, 255, 255).

(** ** Operations *)

Section tty.
Context (FONT_DATA : list Z).

Definition set_char (x y c : Z) (color : rgba) '((t, s) : console) : outcome console :=
  if (width t <=? x) || (height t <=? y) then Ret (t, s) else
  row ← y *[64] width t;
  i ← row +[64] x;
  buf ← store (text_buf t) i (mkCell c color);
  px ← x *[64] 8;
  py ← y *[64] FONT_HEIGHT s;
  s ← draw_char_psf FONT_DATA px py c color s;
  Ret (with_buf t buf, s).

Definition get_char (t : TTY) (x y : Z) : outcome (option Z) :=
  if (width t <=? x) || (height t <=? y) then Ret None else
  row ← y *[64] width t;
  i ← row +[64] x;
  c ← index (text_buf t) i; Ret (Some (cell_ch c)).

(** [if let Some(fb) = FRAMEBUFFER.lock().as_mut() { fb.clear_screen(BACKGROUND) }]. *)
Definition clear_background (s : Screen) : outcome Screen :=
  match FRAMEBUFFER s with
  | Some fb => fb ← clear_screen BACKGROUND fb; Ret (mkScreen (Some fb) (FONT_HEIGHT s))
  | None => Ret s
  end.

Definition clear_tty '((t, s) : console) : outcome console :=
  s ← clear_background s;
  buf ← for_range 0 (zlen (text_buf t)) (λ i buf, store buf i (empty_cell (fg_color t))) (text_buf t);
  Ret (with_cursor (with_buf t buf) 0 0, s).

(** The cells one row up. *)
Definition scroll_rows (t : TTY) (buf : list Cell) : outcome (list Cell) :=
  for_range 1 (height t) (λ y, for_range 0 (width t) (λ x buf,
    r ← y *[64] width t;
    i ← r +[64] x;
    from ← index buf i;
    y' ← y -[64] 1;
    r' ← y' *[64] width t;
    i' ← r' +[64] x;
    store buf i' from)) buf.

Definition clear_last_row (t : TTY) (buf : list Cell) : outcome (list Cell) :=
  for_range 0 (width t) (λ x buf,
    y ← height t -[64] 1;
    r ← y *[64] width t;
    i ← r +[64] x;
    store buf i (mkCell 0 (fg_color t))) buf.

Definition redraw (t : TTY) (s : Screen) : outcome Screen :=
  for_range 0 (height t) (λ y, for_range 0 (width t) (λ x s,
    r ← y *[64] width t;
    i ← r +[64] x;
    cell ← index (text_buf t) i;
    if negb (cell_ch cell =? 0) then
      px ← x *[64] 8;
      py ← y *[64] FONT_HEIGHT s;
      draw_char_psf FONT_DATA px py (cell_ch cell) (cell_color cell) s
    else Ret s)) s.

Definition scroll_up '((t, s) : console) : outcome console :=
  buf ← scroll_rows t (text_buf t);
  buf ← clear_last_row t buf;
  s ← clear_background s;
  s ← redraw (with_buf t buf) s;
  Ret (with_buf t buf, s).

(** The cells of a row from [x] on, one column left, and the last one empty. *)
Definition shift_row (t : TTY) (row_start row_end x0 : Z) (buf : list Cell) : outcome (list Cell) :=
  w1 ← width t -[64] 1;
  buf ← for_range x0 w1 (λ x buf,
    i ← row_start +[64] x;
    j ← row_start +[64] x;
    j ← j +[64] 1;
    c ← index buf j;
    store buf i c) buf;
  last ← row_end -[64] 1;
  store buf last (mkCell 0 (fg_color t)).

Definition redraw_row (t : TTY) (row_start : Z) (s : Screen) : outcome Screen :=
  for_range 0 (width t) (λ x s,
    i ← row_start +[64] x;
    cell ← index (text_buf t) i;
    px ← x *[64] 8;
    py ← cursor_y t *[64] FONT_HEIGHT s;
    draw_char_psf FONT_DATA px py (cell_ch cell) (cell_color cell) s) s.

Definition delete (bksp : bool) '((t, s) : console) : outcome console :=
  if height t <=? cursor_y t then Ret (t, s) else
  row_start ← cursor_y t *[64] width t;
  row_end ← row_start +[64] width t;
  let finish (t : TTY) :=
    buf ← shift_row t row_start row_end (cursor_x t) (text_buf t);
    s ← clear_background s;
    s ← redraw_row (with_buf t buf) row_start s;
    Ret (with_buf t buf, s) in
  if bksp then
    if cursor_x t =? 0 then Ret (t, s) else
    x ← cursor_x t -[64] 1;
    finish (with_cursor t x (cursor_y t))
  else
    if width t <=? cursor_x t then Ret (t, s) else finish t.

(** *** Escape sequences *)

Definition ESC : Z := 0x1b.
Definition is_digit (c : Z) : bool := (0x30 <=? c) && (c <=? 0x39).

(** At most [n] digits, and what follows them. *)
Fixpoint take_digits (n : nat) (t : text) : text * text :=
  match n, t with
  | S n, d :: t' =>
      if is_digit d then let '(ds, rest) := take_digits n t' in (d :: ds, rest) else ([], t)
  | _, _ => ([], t)
  end.

(** After [c]: the digits of a color escape that ends in [m], and the
    characters left; the digits of any other sequence are consumed too. *)
Definition escape (c : Z) (chars : text) : option text * text :=
  match chars with
  | b :: rest =>
      if (c =? ESC) && (b =? 0x5B) then
        let '(num, rest) := take_digits 3 rest in
        match rest with
        | m :: rest' => if m =? 0x6D then (Some num, rest') else (None, rest)
        | [] => (None, rest)
        end
      else (None, chars)
  | [] => (None, chars)
  end.

(** [parse::<u8>().unwrap_or(0)], and the color of the code. *)
Definition escape_color (num : text) (fg : rgba) : rgba :=
  match num with
  | [] => WHITE
  | _ =>
      let v := number 0 num in
      let code := if v <? 256 then v else 0 in
      if code =? 30 then BLACK else if code =? 31 then RED else if code =? 32 then GREEN
      else if code =? 33 then YELLOW else if code =? 34 then BLUE else if code =? 35 then MAGENTA
      else if code =? 36 then CYAN else if (code =? 0) || (code =? 37) then WHITE else fg
  end.

(** One character that is not part of an escape. *)
Definition control (c : Z) '((t, s) : console) : outcome console :=
  if c =? 0x0A then y ← cursor_y t +[64] 1; Ret (with_cursor t 0 y, s)
  else if c =? 0x0D then Ret (with_cursor t 0 (cursor_y t), s)
  else if c =? 0x08 then delete true (t, s)
  else if c =? 0x7F then delete false (t, s)
  else
    '(t, s) ← set_char (cursor_x t) (cursor_y t) c (fg_color t) (t, s);
    x ← cursor_x t +[64] 1;
    Ret (with_cursor t x (cursor_y t), s).

(** The end of the line, and of the screen. *)
Definition wrap_cursor '((t, s) : console) : outcome console :=
  t ← (if width t <=? cursor_x t then y ← cursor_y t +[64] 1; Ret (with_cursor t 0 y) else Ret t);
  if height t <=? cursor_y t then
    '(t, s) ← scroll_up (t, s);
    y ← height t -[64] 1;
    Ret (with_cursor t (cursor_x t) y, s)
  else Ret (t, s).

Definition put_char (c : Z) (k : console) : outcome console := k ← control c k; wrap_cursor k.

Fixpoint write_chars (fuel : nat) (chars : text) (k : console) : outcome console :=
  match fuel with
  | O => OutOfFuel
  | S fuel =>
      match chars with
      | [] => Ret k
      | c :: chars =>
          match escape c chars with
          | (Some num, rest) => write_chars fuel rest (with_color k.1 (escape_color num (fg_color k.1)), k.2)
          | (None, rest) => k ← put_char c k; write_chars fuel rest k
          end
      end
  end.

(** Every turn consumes a character. *)
Definition write_str (chars : text) (k : console) : outcome console := write_chars (S (length chars)) chars k.

(** *** The lock of the framebuffer

    Where [write_str] comes to [FRAMEBUFFER.lock()]: in [draw_char_psf] behind
    its early returns, in [delete] behind its own, and in [scroll_up]. *)

Definition glyph_draws (c : Z) : bool :=
  match parse_psf FONT_DATA with
  | Ret (Some f, _) =>
      match font_width f *[64] font_height f with
      | Ret max_size =>
          negb ((max_size =? 0) || (1024 <? max_size)) &&
          match glyph_of f c with Ret (Some _) => true | _ => false end
      | _ => false
      end
  | _ => false
  end.

Definition control_draws (c : Z) (t : TTY) : bool :=
  if (c =? 0x0A) || (c =? 0x0D) then false
  else if c =? 0x08 then (cursor_y t <? height t) && negb (cursor_x t =? 0)
  else if c =? 0x7F then (cursor_y t <? height t) && (cursor_x t <? width t)
  else (cursor_x t <? width t) && (cursor_y t <? height t) && glyph_draws c.

Definition wrap_draws (t : TTY) : bool :=
  height t <=? (if width t <=? cursor_x t then cursor_y t + 1 else cursor_y t).

Definition char_draws (c : Z) (k : console) : bool :=
  control_draws c k.1 || match control c k with Ret k => wrap_draws k.1 | _ => false end.

Fixpoint chars_draw (fuel : nat) (chars : text) (k : console) : bool :=
  match fuel with
  | O => false
  | S fuel =>
      match chars with
      | [] => false
      | c :: chars =>
          match escape c chars with
          | (Some num, rest) => chars_draw fuel rest (with_color k.1 (escape_color num (fg_color k.1)), k.2)
          | (None, rest) =>
              char_draws c k || match put_char c k with Ret k => chars_draw fuel rest k | _ => false end
          end
      end
  end.

Definition text_draws (chars : text) (k : console) : bool := chars_draw (S (length chars)) chars k.

(** *** Faces *)

Definition get_cur_loc '((t, s) : console) : outcome (Z * Z) :=
  x ← cursor_x t *[64] 8; y ← cursor_y t *[64] FONT_HEIGHT s; Ret (x, y).

Definition draw_face (draw : Z → Z → rgba → Framebuffer → outcome Framebuffer) (color : option rgba)
    '((t, s) : console) : outcome console :=
  '(x, y) ← get_cur_loc (t, s);
  match FRAMEBUFFER s with
  | Some fb =>
      y ← y +[64] (FONT_HEIGHT s / 4);
      fb ← draw x y (default (fg_color t) color) fb;
      cx ← cursor_x t +[64] 1;
      let t := with_cursor t cx (cursor_y t) in
      t ← (if width t <=? cursor_x t then cy ← cursor_y t +[64] 1; Ret (with_cursor t 0 cy) else Ret t);
      let t := if height t <=? cursor_y t then with_cursor t (cursor_x t) 0 else t in
      Ret (t, mkScreen (Some fb) (FONT_HEIGHT s))
  | None => Ret (t, s)
  end.

Definition yay : option rgba → console → outcome console := draw_face draw_smiley.
Definition sad : option rgba → console → outcome console := draw_face draw_sad_face.
End tty.

(** ** Grids *)

Definition Grid : Type := Z → Z → Cell.

(** The first [w * h] cells of the buffer are the rows of [G]. *)
Definition grid (w h n : Z) (G : Grid) (buf : list Cell) : Prop :=
  zlen buf = n ∧
  ∀ y x, 0 ≤ y < h → 0 ≤ x < w → buf !! Z.to_nat (y * w + x) = Some (G y x).

Definition set_cell (y0 x0 : Z) (c : Cell) (G : Grid) : Grid :=
  λ y x, if bool_decide (y = y0 ∧ x = x0) then c else G y x.

Definition scroll_grid (h : Z) (blank : Cell) (G : Grid) : Grid :=
  λ y x, if bool_decide (y = h - 1) then blank else G (y + 1) x.

Definition delete_cell (w y0 x0 : Z) (blank : Cell) (G : Grid) : Grid :=
  λ y x, if bool_decide (y = y0 ∧ x0 ≤ x) then if bool_decide (x = w - 1) then blank else G y (x + 1)
         else G y x.

(** The sizes of a console. *)
Definition sides (w h n : Z) : Prop := 0 < w ≤ 130 ∧ 0 < h ≤ 50 ∧ w * h ≤ n < 2 ^ 63.

(** Compare two grids cell by cell. *)
#[local] Ltac same_cell :=
  intros; unfold set_cell, delete_cell, scroll_grid; cbv beta;
  repeat case_bool_decide; first [done|lia|f_equal; lia].

Lemma grid_ext w h n G G' buf :
  grid w h n G buf → (∀ y x, 0 ≤ y < h → 0 ≤ x < w → G y x = G' y x) → grid w h n G' buf.
Proof. intros [Hn HG] He. split; [done|]. intros y x Hy Hx. rewrite HG by done. f_equal. by apply He. Qed.

Lemma grid_index w h n G buf y x :
  grid w h n G buf → 0 ≤ y < h → 0 ≤ x < w → index buf (y * w + x) = Ret (G y x).
Proof. intros [_ HG] Hy Hx. unfold index. by rewrite HG. Qed.

Lemma grid_store w h n G buf y x c :
  sides w h n → grid w h n G buf → 0 ≤ y < h → 0 ≤ x < w →
  returns (store buf (y * w + x) c) (grid w h n (set_cell y x c G)).
Proof.
  intros (Hw & Hh & Hn) [Hl HG] Hy Hx. destruct (row_major_bounds w h y x Hx Hy) as (H1 & H2 & H3).
  rewrite store_ok by lia. apply returns_Ret. split; [by rewrite zlen_insert|].
  intros y' x' Hy' Hx'. unfold set_cell. case_bool_decide as Heq.
  - destruct Heq as [-> ->]. apply list_lookup_insert_eq. unfold zlen in Hl. lia.
  - rewrite list_lookup_insert_ne; [by apply HG|]. intros Hi. apply Heq.
    apply row_major_inj in Hi; lia.
Qed.

Lemma scroll_rows_grid t w h n G :
  sides w h n → width t = w → height t = h → grid w h n G (text_buf t) →
  returns (scroll_rows t (text_buf t)) (grid w h n (λ y x, if bool_decide (y < h - 1) then G (y + 1) x else G y x)).
Proof.
  intros Hs Hw Hh HG. pose proof Hs as (Hws & Hhs & Hns). unfold scroll_rows. rewrite Hw, Hh.
  eapply returns_mono; [|intros b Hb; exact Hb].
  apply (for_range_inv (λ y, grid w h n (λ r c, if bool_decide (r < y - 1) then G (r + 1) c else G r c)) 1 h);
    [lia| |].
  { eapply grid_ext; [exact HG|]. intros y x Hy Hx. cbv beta. by rewrite bool_decide_eq_false_2 by lia. }
  intros y buf Hy Hb. eapply returns_mono.
  - apply (for_range_inv (λ x, grid w h n (λ r c,
      if bool_decide (r < y - 1 ∨ r = y - 1 ∧ c < x) then G (r + 1) c else G r c))); [lia| |].
    { eapply grid_ext; [exact Hb|]. same_cell. }
    intros x b Hx Hbx. destruct (row_major_bounds w h y x Hx ltac:(lia)) as (H1 & H2 & H3).
    destruct (row_major_bounds w h (y - 1) x Hx ltac:(lia)) as (H4 & H5 & H6).
    checked_step. checked_step. rewrite (grid_index w h n _ b y x Hbx) by lia. rewrite bind_Ret.
    checked_step. checked_step. checked_step.
    eapply returns_mono; [by eapply grid_store; [exact Hs|exact Hbx|lia|lia]|].
    intros b' Hb'. eapply grid_ext; [exact Hb'|]. same_cell.
  - intros b Hbx. eapply grid_ext; [exact Hbx|]. same_cell.
Qed.

Lemma clear_last_row_grid t w h n G buf :
  sides w h n → width t = w → height t = h → grid w h n G buf →
  returns (clear_last_row t buf)
    (grid w h n (λ y x, if bool_decide (y = h - 1) then mkCell 0 (fg_color t) else G y x)).
Proof.
  intros Hs Hw Hh HG. pose proof Hs as (Hws & Hhs & Hns). unfold clear_last_row. rewrite Hw, Hh.
  eapply returns_mono.
  - apply (for_range_inv (λ x, grid w h n (λ r c,
      if bool_decide (r = h - 1 ∧ c < x) then mkCell 0 (fg_color t) else G r c))); [lia| |].
    { eapply grid_ext; [exact HG|]. same_cell. }
    intros x b Hx Hb. destruct (row_major_bounds w h (h - 1) x Hx ltac:(lia)) as (H1 & H2 & H3).
    checked_step. checked_step. checked_step.
    eapply returns_mono; [by eapply grid_store; [exact Hs|exact Hb|lia|lia]|].
    intros b' Hb'. eapply grid_ext; [exact Hb'|]. same_cell.
  - intros b Hb. eapply grid_ext; [exact Hb|]. same_cell.
Qed.

Lemma shift_row_grid t w h n G buf y0 x0 :
  sides w h n → width t = w → grid w h n G buf → 0 ≤ y0 < h → 0 ≤ x0 < w →
  returns (shift_row t (y0 * w) (y0 * w + w) x0 buf)
    (grid w h n (delete_cell w y0 x0 (mkCell 0 (fg_color t)) G)).
Proof.
  intros Hs Hw HG Hy Hx. pose proof Hs as (Hws & Hhs & Hns). unfold shift_row. rewrite Hw.
  destruct (row_major_bounds w h y0 x0 Hx Hy) as (H1 & H2 & H3). checked_step.
  eapply returns_bind.
  - apply (for_range_inv (λ x, grid w h n (λ r c,
      if bool_decide (r = y0 ∧ x0 ≤ c < x) then G r (c + 1) else G r c))); [lia| |].
    { eapply grid_ext; [exact HG|]. same_cell. }
    intros x b Hxr Hb. checked_step. rewrite bind_Ret. checked_step.
    replace (y0 * w + x + 1) with (y0 * w + (x + 1)) by lia.
    rewrite (grid_index w h n _ b y0 (x + 1) Hb) by lia. rewrite bind_Ret.
    eapply returns_mono; [by eapply grid_store; [exact Hs|exact Hb|lia|lia]|].
    intros b' Hb'. eapply grid_ext; [exact Hb'|]. same_cell.
  - intros b Hb. checked_step. replace (y0 * w + w - 1) with (y0 * w + (w - 1)) by lia.
    eapply returns_mono; [by eapply grid_store; [exact Hs|exact Hb|lia|lia]|].
    intros b' Hb'. eapply grid_ext; [exact Hb'|]. same_cell.
Qed.

(** ** What the console puts on the screen *)

Section display.
Context (FONT_DATA : list Z) (f : Font) (i : FrameBufferInfo).
Context (Hfont : parse_psf FONT_DATA = Ret (Some f, Some (font_height f))).
Context (Hdraw : drawable f) (Hwidth : font_width f = 8).
Context (Hformat : pixel_format i ≠ OtherFormat).

(** The screen shows [P], and [FONT_HEIGHT] is the font's. *)
Definition displays (P : Z → Z → list (option Z)) (s : Screen) : Prop :=
  FONT_HEIGHT s = font_height f ∧ ∃ fb, FRAMEBUFFER s = Some fb ∧ shows i P fb.

(** The cells [drawn] of [G], over [P]. *)
Definition render (drawn : Z → Z → bool) (G : Grid) (P : Z → Z → list (option Z)) (px py : Z) : list (option Z) :=
  let y := py / font_height f in
  let x := px / 8 in
  let '(r, g, b, a) := cell_color (G y x) in
  if drawn y x && negb (a =? 0) && glyph_bit f (cell_ch (G y x)) (py mod font_height f) (px mod 8)
  then Some <$> encode (pixel_format i) (r, g, b) else P px py.

Lemma font_height_range : 0 < font_height f ≤ 1024.
Proof. destruct Hdraw as (Hw & Hh & Hwh & _). nia. Qed.

Lemma displays_ext P Q s : displays P s → (∀ px py, on_screen i px py → P px py = Q px py) → displays Q s.
Proof.
  intros (Hh & fb & Hfb & Hsh) He. split; [done|]. exists fb. split; [done|]. by eapply shows_ext.
Qed.

Lemma draw_cell_displays P s x y c color :
  displays P s → 0 ≤ x → 0 ≤ y → 0 ≤ c →
  returns (draw_char_psf FONT_DATA x y c color s) (displays (stamp i f x y c color P)).
Proof.
  intros (Hh & fb & Hfb & Hsh) Hx Hy Hc. destruct s as [ofb h0]. cbn [FRAMEBUFFER FONT_HEIGHT] in *. subst ofb.
  eapply returns_mono; [by eapply draw_char_shows|]. done.
Qed.

(** A character drawn in its cell. *)
Lemma stamp_render drawn G P y x px py :
  0 ≤ px → 0 ≤ py →
  stamp i f (x * 8) (y * font_height f) (cell_ch (G y x)) (cell_color (G y x)) (render drawn G P) px py =
  render (λ y' x', drawn y' x' || bool_decide (y' = y ∧ x' = x)) G P px py.
Proof.
  intros Hpx Hpy. pose proof font_height_range as Hfh. unfold stamp, render. rewrite Hwidth.
  pose proof (Z.div_mod px 8 ltac:(lia)). pose proof (Z.mod_pos_bound px 8 ltac:(lia)).
  pose proof (Z.div_mod py (font_height f) ltac:(lia)). pose proof (Z.mod_pos_bound py (font_height f) ltac:(lia)).
  destruct (decide (py / font_height f = y ∧ px / 8 = x)) as [[<- <-]|Hne].
  - replace (py - py / font_height f * font_height f) with (py mod font_height f) by lia.
    replace (px - px / 8 * 8) with (px mod 8) by lia.
    destruct (cell_color (G (py / font_height f) (px / 8))) as [[[r g] b] a].
    rewrite (bool_decide_eq_true_2 (py / font_height f = py / font_height f ∧ _)) by done.
    rewrite orb_true_r. destruct (Z.eqb_spec a 0) as [->|Ha].
    + rewrite bool_decide_eq_false_2 by lia. by rewrite andb_false_r.
    + rewrite bool_decide_eq_true_2 by lia. simpl andb.
      destruct (glyph_bit f _ _ _); [done|by rewrite andb_false_r].
  - destruct (cell_color (G y x)) as [[[r g] b] a].
    rewrite bool_decide_eq_false_2.
    + simpl andb. cbv iota. rewrite (bool_decide_eq_false_2 _ Hne). by rewrite orb_false_r.
    + intros (Hx & Hy & _). apply Hne. split.
      * symmetry. apply Z.div_unique with (py - y * font_height f); lia.
      * symmetry. apply Z.div_unique with (px - x * 8); lia.
Qed.

Lemma render_ext drawn drawn' G G' P P' px py :
  drawn (py / font_height f) (px / 8) = drawn' (py / font_height f) (px / 8) →
  (drawn (py / font_height f) (px / 8) = true →
    G (py / font_height f) (px / 8) = G' (py / font_height f) (px / 8)) → P px py = P' px py →
  render drawn G P px py = render drawn' G' P' px py.
Proof.
  intros Hd HG HP. unfold render. rewrite <- Hd, <- HP.
  destruct (drawn _ _); simpl andb; [by rewrite HG|].
  destruct (cell_color (G _ _)) as [[[r g] b] a], (cell_color (G' _ _)) as [[[r' g'] b'] a']. done.
Qed.

Lemma clear_background_displays P s :
  displays P s → returns (clear_background s) (displays (λ _ _, Some <$> fill (pixel_format i) BACKGROUND)).
Proof.
  intros (Hh & fb & Hfb & Hsh). unfold clear_background. rewrite Hfb.
  eapply returns_bind.
  - eapply clear_screen_shows; [exact Hsh| |done]. unfold gray_fits, BACKGROUND. lia.
  - intros fb' Hfb'. apply returns_Ret. split; [done|]. by exists fb'.
Qed.

(** The cells in the order of [scroll_up]: all of the rows before [y], and the
    first [x] of row [y]. *)
Definition before (w y x : Z) (r c : Z) : bool := bool_decide (0 ≤ c < w ∧ (r < y ∨ r = y ∧ c < x)).

Definition nonempty (G : Grid) (d : Z → Z → bool) (r c : Z) : bool := d r c && negb (cell_ch (G r c) =? 0).

Lemma redraw_displays t w h n G P s :
  sides w h n → width t = w → height t = h → grid w h n G (text_buf t) →
  (∀ y x, 0 ≤ y < h → 0 ≤ x < w → 0 ≤ cell_ch (G y x)) → displays P s →
  returns (redraw FONT_DATA t s) (displays (render (nonempty G (before w h 0)) G P)).
Proof.
  intros Hs Hw Hh HG Hch Hd. pose proof Hs as (Hws & Hhs & Hns). pose proof font_height_range as Hfh.
  unfold redraw. rewrite Hw, Hh.
  apply (for_range_inv (λ y, displays (render (nonempty G (before w y 0)) G P))); [lia| |].
  { eapply displays_ext; [exact Hd|]. intros px py [Hpx Hpy]. unfold render, nonempty, before.
    rewrite bool_decide_eq_false_2; [by destruct (cell_color _) as [[[? ?] ?] ?]|].
    pose proof (Z.div_pos py (font_height f) ltac:(lia) ltac:(lia)). lia. }
  intros y s1 Hy Hd1. eapply returns_mono.
  - apply (for_range_inv (λ x, displays (render (nonempty G (before w y x)) G P))); [lia|exact Hd1|].
    intros x s2 Hx Hd2. destruct (row_major_bounds w h y x Hx ltac:(lia)) as (H1 & H2 & H3).
    checked_step. checked_step. rewrite (grid_index w h n G _ y x HG) by lia. rewrite bind_Ret.
    pose proof (Hch y x Hy Hx) as Hc. pose proof Hd2 as (Hfh2 & _).
    destruct (Z.eqb_spec (cell_ch (G y x)) 0) as [H0|H0]; simpl negb; cbv iota.
    + apply returns_Ret. eapply displays_ext; [exact Hd2|]. intros px py _.
      apply render_ext; [|done|done]. unfold nonempty, before.
      destruct (decide (py / font_height f = y ∧ px / 8 = x)) as [[-> ->]|Hne].
      * rewrite H0. by rewrite !andb_false_r.
      * f_equal. do 2 case_bool_decide; done || lia.
    + rewrite Hfh2. checked_step. checked_step.
      eapply returns_mono; [apply draw_cell_displays; [exact Hd2|lia|nia|done]|].
      intros s3 Hs3. eapply displays_ext; [exact Hs3|]. intros px py [Hpx Hpy].
      rewrite stamp_render by lia. apply render_ext; [|done|done]. unfold nonempty, before.
      destruct (decide (py / font_height f = y ∧ px / 8 = x)) as [[-> ->]|Hne].
      * rewrite (proj2 (Z.eqb_neq _ _) H0), (bool_decide_eq_true_2 (y = y ∧ x = x)) by done.
        rewrite orb_true_r. by rewrite bool_decide_eq_true_2 by lia.
      * rewrite (bool_decide_eq_false_2 _ Hne), orb_false_r. f_equal. do 2 case_bool_decide; done || lia.
  - intros s2 Hs2. eapply displays_ext; [exact Hs2|]. intros px py _. apply render_ext; [|done|done].
    unfold nonempty, before. f_equal. do 2 case_bool_decide; done || lia.
Qed.

(** A row of cells, empty ones too. *)
Definition in_row (w y x : Z) (r c : Z) : bool := bool_decide (r = y ∧ 0 ≤ c < x).

Lemma redraw_row_displays t w h n G P s :
  sides w h n → width t = w → grid w h n G (text_buf t) → 0 ≤ cursor_y t < h →
  (∀ y x, 0 ≤ y < h → 0 ≤ x < w → 0 ≤ cell_ch (G y x)) → displays P s →
  returns (redraw_row FONT_DATA t (cursor_y t * w) s) (displays (render (in_row w (cursor_y t) w) G P)).
Proof.
  intros Hs Hw HG Hy Hch Hd. pose proof Hs as (Hws & Hhs & Hns). pose proof font_height_range as Hfh.
  unfold redraw_row. rewrite Hw.
  apply (for_range_inv (λ x, displays (render (in_row w (cursor_y t) x) G P))); [lia| |].
  { eapply displays_ext; [exact Hd|]. intros px py _. unfold render, in_row.
    rewrite bool_decide_eq_false_2 by lia. by destruct (cell_color _) as [[[? ?] ?] ?]. }
  intros x s1 Hx Hd1. destruct (row_major_bounds w h (cursor_y t) x Hx Hy) as (H1 & H2 & H3).
  checked_step. rewrite (grid_index w h n G _ (cursor_y t) x HG) by lia. rewrite bind_Ret.
  pose proof (Hch (cursor_y t) x Hy Hx) as Hc. pose proof Hd1 as (Hfh1 & _). rewrite Hfh1.
  checked_step. checked_step.
  eapply returns_mono; [apply draw_cell_displays; [exact Hd1|lia|nia|done]|].
  intros s2 Hs2. eapply displays_ext; [exact Hs2|]. intros px py [Hpx Hpy].
  rewrite stamp_render by lia. apply render_ext; [|done|done]. unfold in_row.
  do 3 case_bool_decide; first [done|lia].
Qed.

(** ** An abstract terminal *)

Record term : Type := mkTerm { tgrid : Grid; tx : Z; ty : Z; tcolor : rgba }.

Definition blank (tm : term) : Cell := mkCell 0 (tcolor tm).

Definition t_control (w c : Z) (tm : term) : term :=
  if c =? 0x0A then mkTerm (tgrid tm) 0 (ty tm + 1) (tcolor tm)
  else if c =? 0x0D then mkTerm (tgrid tm) 0 (ty tm) (tcolor tm)
  else if c =? 0x08 then
    if tx tm =? 0 then tm
    else mkTerm (delete_cell w (ty tm) (tx tm - 1) (blank tm) (tgrid tm)) (tx tm - 1) (ty tm) (tcolor tm)
  else if c =? 0x7F then mkTerm (delete_cell w (ty tm) (tx tm) (blank tm) (tgrid tm)) (tx tm) (ty tm) (tcolor tm)
  else mkTerm (set_cell (ty tm) (tx tm) (mkCell c (tcolor tm)) (tgrid tm)) (tx tm + 1) (ty tm) (tcolor tm).

Definition t_wrap (w h : Z) (tm : term) : term :=
  let tm := if w <=? tx tm then mkTerm (tgrid tm) 0 (ty tm + 1) (tcolor tm) else tm in
  if h <=? ty tm then mkTerm (scroll_grid h (blank tm) (tgrid tm)) (tx tm) (h - 1) (tcolor tm) else tm.

(** A character, or the digits of a color escape. *)
Definition t_token (w h : Z) (tm : term) (tok : Z + text) : term :=
  match tok with
  | inl c => t_wrap w h (t_control w c tm)
  | inr num => mkTerm (tgrid tm) (tx tm) (ty tm) (escape_color num (tcolor tm))
  end.

Fixpoint tokens_fuel (fuel : nat) (chars : text) : list (Z + text) :=
  match fuel, chars with
  | S fuel, c :: chars =>
      match escape c chars with
      | (Some num, rest) => inr num :: tokens_fuel fuel rest
      | (None, rest) => inl c :: tokens_fuel fuel rest
      end
  | _, _ => []
  end.
Definition tokens (chars : text) : list (Z + text) := tokens_fuel (length chars) chars.

(** ** The console is the terminal *)

Definition valid (w h : Z) (G : Grid) : Prop := ∀ y x, 0 ≤ y < h → 0 ≤ x < w → 0 ≤ cell_ch (G y x).

Definition models (w h n : Z) (P : Z → Z → list (option Z)) (k : console) (tm : term) : Prop :=
  width k.1 = w ∧ height k.1 = h ∧ grid w h n (tgrid tm) (text_buf k.1) ∧ valid w h (tgrid tm) ∧
  cursor_x k.1 = tx tm ∧ cursor_y k.1 = ty tm ∧ fg_color k.1 = tcolor tm ∧ displays P k.2.

Definition in_bounds (w h : Z) (tm : term) : Prop := 0 ≤ tx tm < w ∧ 0 ≤ ty tm < h.

Lemma valid_set w h G y x c : valid w h G → 0 ≤ cell_ch c → valid w h (set_cell y x c G).
Proof. intros HG Hc r k Hr Hk. unfold set_cell. case_bool_decide; [done|by apply HG]. Qed.

Lemma valid_scroll w h G color : valid w h G → valid w h (scroll_grid h (mkCell 0 color) G).
Proof. intros HG r k Hr Hk. unfold scroll_grid. case_bool_decide; [done|apply HG; lia]. Qed.

Lemma valid_delete w h G y x color : valid w h G → valid w h (delete_cell w y x (mkCell 0 color) G).
Proof. intros HG r k Hr Hk. unfold delete_cell. repeat case_bool_decide; [done|apply HG; lia..]. Qed.

Definition background (px py : Z) : list (option Z) := Some <$> fill (pixel_format i) BACKGROUND.

Lemma set_char_models w h n P t s tm c color :
  sides w h n → models w h n P (t, s) tm → in_bounds w h tm → 0 ≤ c →
  returns (set_char FONT_DATA (tx tm) (ty tm) c color (t, s)) (λ k,
    models w h n (stamp i f (tx tm * 8) (ty tm * font_height f) c color P) k
      (mkTerm (set_cell (ty tm) (tx tm) (mkCell c color) (tgrid tm)) (tx tm) (ty tm) (tcolor tm))).
Proof.
  intros Hs (Hw & Hh & HG & Hv & Hx & Hy & Hcol & Hd) [Hbx Hby] Hc. cbn [fst snd] in *.
  pose proof Hs as (Hws & Hhs & Hns). pose proof font_height_range as Hfh.
  destruct (row_major_bounds w h (ty tm) (tx tm) Hbx Hby) as (H1 & H2 & H3).
  unfold set_char. rewrite Hw, Hh, !(proj2 (Z.leb_gt _ _)) by lia. simpl orb. cbv iota.
  checked_step. checked_step. eapply returns_bind; [by eapply grid_store|]. intros buf Hb.
  pose proof Hd as (Hfh1 & _). rewrite Hfh1. checked_step. checked_step.
  eapply returns_bind; [apply draw_cell_displays; [exact Hd|lia|nia|done]|]. intros s' Hs'.
  apply returns_Ret. split_and!; try done. cbn [tgrid]. by apply valid_set.
Qed.

Lemma scroll_up_models w h n P t s tm :
  sides w h n → models w h n P (t, s) tm →
  let G := scroll_grid h (blank tm) (tgrid tm) in
  returns (scroll_up FONT_DATA (t, s)) (λ k,
    models w h n (render (nonempty G (before w h 0)) G background) k
      (mkTerm G (tx tm) (ty tm) (tcolor tm)) ∧ cursor_x k.1 = cursor_x t).
Proof.
  intros Hs (Hw & Hh & HG & Hv & Hx & Hy & Hcol & Hd) G. cbn [fst snd] in *. unfold scroll_up.
  eapply returns_bind; [by eapply scroll_rows_grid|]. intros b1 Hb1.
  eapply returns_bind; [by eapply clear_last_row_grid|]. intros b2 Hb2.
  assert (HG2 : grid w h n G b2).
  { eapply grid_ext; [exact Hb2|]. unfold G, blank. rewrite Hcol. same_cell. }
  eapply returns_bind; [by eapply clear_background_displays|]. intros s1 Hs1.
  assert (HvG : valid w h G) by (by apply valid_scroll).
  eapply returns_bind; [by eapply (redraw_displays (with_buf t b2))|].
  intros s2 Hs2. apply returns_Ret. split; [|done]. by split_and!.
Qed.

Lemma delete_models w h n P t s tm bksp :
  sides w h n → models w h n P (t, s) tm → in_bounds w h tm → (bksp = true → tx tm ≠ 0) →
  let x0 := if bksp then tx tm - 1 else tx tm in
  let G := delete_cell w (ty tm) x0 (blank tm) (tgrid tm) in
  returns (delete FONT_DATA bksp (t, s)) (λ k,
    models w h n (render (in_row w (ty tm) w) G background) k (mkTerm G x0 (ty tm) (tcolor tm))).
Proof.
  intros Hs (Hw & Hh & HG & Hv & Hx & Hy & Hcol & Hd) [Hbx Hby] Hb0 x0 G. cbn [fst snd] in *.
  pose proof Hs as (Hws & Hhs & Hns).
  destruct (row_major_bounds w h (ty tm) (tx tm) Hbx Hby) as (H1 & H2 & H3).
  assert (Hfin : ∀ t', width t' = w → height t' = h → text_buf t' = text_buf t → cursor_x t' = x0 →
    cursor_y t' = ty tm → fg_color t' = tcolor tm → 0 ≤ x0 < w →
    returns (buf ← shift_row t' (ty tm * w) (ty tm * w + w) (cursor_x t') (text_buf t');
             s ← clear_background s;
             s ← redraw_row FONT_DATA (with_buf t' buf) (ty tm * w) s;
             Ret (with_buf t' buf, s))
      (λ k, models w h n (render (in_row w (ty tm) w) G background) k (mkTerm G x0 (ty tm) (tcolor tm)))).
  { intros t' Hw' Hh' Hb' Hx' Hy' Hc' Hx0. rewrite Hx', Hb'.
    eapply returns_bind; [by eapply (shift_row_grid t' w h n (tgrid tm))|]. intros buf Hbuf.
    rewrite Hc' in Hbuf. fold (blank tm) in Hbuf. change (grid w h n G buf) in Hbuf.
    eapply returns_bind; [by eapply clear_background_displays|]. intros s1 Hs1.
    assert (HvG : valid w h G) by (by apply valid_delete).
    pose proof (redraw_row_displays (with_buf t' buf) w h n G background s1 Hs Hw' Hbuf) as Hrr.
    cbn [with_buf cursor_y] in Hrr. rewrite Hy' in Hrr.
    eapply returns_bind; [by apply Hrr|]. intros s2 Hs2. apply returns_Ret. by split_and!. }
  unfold delete. rewrite Hh, Hw, Hy, (proj2 (Z.leb_gt h _)) by lia. checked_step. checked_step. cbv zeta.
  destruct bksp.
  - rewrite Hx, (proj2 (Z.eqb_neq (tx tm) 0)) by auto. specialize (Hb0 eq_refl). checked_step.
    apply Hfin; try done. unfold x0. lia.
  - rewrite (proj2 (Z.leb_gt w (cursor_x t))) by lia. by apply Hfin.
Qed.

Lemma control_models w h n P k tm c :
  sides w h n → models w h n P k tm → in_bounds w h tm → 0 ≤ c →
  returns (control FONT_DATA c k) (λ k', ∃ P', models w h n P' k' (t_control w c tm)).
Proof.
  intros Hs Hm Hb Hc. destruct k as [t s]. pose proof Hs as (Hws & Hhs & Hns).
  pose proof Hm as (Hw & Hh & HG & Hv & Hx & Hy & Hcol & Hd). cbn [fst snd] in *.
  pose proof Hb as [Hbx Hby]. unfold control, t_control.
  destruct (c =? 10).
  { rewrite Hy. checked_step. apply returns_Ret. exists P. by split_and!. }
  destruct (c =? 13).
  { rewrite Hy. apply returns_Ret. exists P. by split_and!. }
  destruct (c =? 8).
  { destruct (Z.eqb_spec (tx tm) 0) as [H0|H0].
    - unfold delete. rewrite Hh, Hy, (proj2 (Z.leb_gt h _)) by lia.
      destruct (row_major_bounds w h (ty tm) (tx tm) Hbx Hby) as (H1 & H2 & H3). rewrite Hw.
      checked_step. checked_step. cbv zeta. rewrite Hx, H0. apply returns_Ret. by exists P.
    - eapply returns_mono; [exact (delete_models w h n P t s tm true Hs Hm Hb (λ _, H0))|].
      intros k Hk. eexists. exact Hk. }
  destruct (c =? 127).
  { eapply returns_mono; [exact (delete_models w h n P t s tm false Hs Hm Hb (λ H, ltac:(discriminate H)))|].
    intros k Hk. eexists. exact Hk. }
  eapply returns_bind.
  { rewrite Hx, Hy. by eapply set_char_models. }
  intros [t1 s1] Hm1. pose proof Hm1 as (Hw1 & Hh1 & HG1 & Hv1 & Hx1 & Hy1 & Hcol1 & Hd1). cbn [fst snd tx ty] in *.
  rewrite Hcol in Hv1, HG1. rewrite Hx1. checked_step. apply returns_Ret. eexists.
  by split_and!.
Qed.

Lemma wrap_models w h n P k tm :
  sides w h n → models w h n P k tm → 0 ≤ tx tm ≤ w → 0 ≤ ty tm ≤ h → (tx tm < w ∨ ty tm < h) →
  returns (wrap_cursor FONT_DATA k) (λ k', (∃ P', models w h n P' k' (t_wrap w h tm)) ∧
    in_bounds w h (t_wrap w h tm)).
Proof.
  intros Hs Hm Hbx Hby Hor. destruct k as [t s]. pose proof Hs as (Hws & Hhs & Hns).
  pose proof Hm as (Hw & Hh & HG & Hv & Hx & Hy & Hcol & Hd). cbn [fst snd] in *.
  unfold wrap_cursor, t_wrap.
  set (tm1 := if w <=? tx tm then mkTerm (tgrid tm) 0 (ty tm + 1) (tcolor tm) else tm).
  set (t1 := if w <=? tx tm then with_cursor t 0 (ty tm + 1) else t).
  assert (H1 : (if width t <=? cursor_x t then y ← cursor_y t +[64] 1; Ret (with_cursor t 0 y) else Ret t) = Ret t1).
  { rewrite Hw, Hx, Hy. unfold t1. destruct (w <=? tx tm); [|done]. by checked_step. }
  rewrite H1, bind_Ret.
  assert (Hm1 : models w h n P (t1, s) tm1) by (unfold t1, tm1; destruct (w <=? tx tm); by split_and!).
  assert (Hb1 : 0 ≤ tx tm1 < w ∧ 0 ≤ ty tm1 ≤ h).
  { unfold tm1. destruct (Z.leb_spec w (tx tm)); cbn [tx ty]; lia. }
  clearbody t1 tm1. clear H1.
  pose proof Hm1 as (Hw1 & Hh1 & HG1 & Hv1 & Hx1 & Hy1 & Hcol1 & Hd1). cbn [fst snd] in *.
  rewrite Hh1, Hy1. destruct (Z.leb_spec h (ty tm1)).
  - eapply returns_bind; [by eapply scroll_up_models|].
    intros [t2 s2] [(Hw2 & Hh2 & HG2 & Hv2 & Hx2 & Hy2 & Hcol2 & Hd2) _]. cbn [fst snd tx ty tgrid tcolor] in *.
    rewrite Hh2. checked_step. apply returns_Ret. split; [|split; cbn [tx ty]; lia].
    eexists. by split_and!.
  - apply returns_Ret. split; [by exists P|]. split; lia.
Qed.

Lemma t_control_bounds w h c tm :
  in_bounds w h tm → 0 ≤ tx (t_control w c tm) ≤ w ∧ 0 ≤ ty (t_control w c tm) ≤ h ∧
  (tx (t_control w c tm) < w ∨ ty (t_control w c tm) < h).
Proof.
  intros [Hx Hy]. unfold t_control. repeat (case_match; cbn [tx ty]); rewrite ?Z.eqb_neq in *; lia.
Qed.

Lemma take_digits_length m chars : (length (take_digits m chars).2 ≤ length chars)%nat.
Proof.
  revert chars. induction m as [|m IH]; intros [|d chars]; simpl; try lia.
  destruct (is_digit d); simpl; [|lia]. specialize (IH chars).
  destruct (take_digits m chars) as [ds rest]. simpl in *. lia.
Qed.

Lemma take_digits_sub m chars (Q : Z → Prop) : Forall Q chars → Forall Q (take_digits m chars).2.
Proof.
  revert chars. induction m as [|m IH]; intros [|d chars] HQ; simpl; try done.
  destruct (is_digit d); simpl; [|done]. apply Forall_cons in HQ as [_ HQ]. specialize (IH chars HQ).
  by destruct (take_digits m chars) as [ds rest].
Qed.

Lemma escape_rest c chars (Q : Z → Prop) :
  (length (escape c chars).2 ≤ length chars)%nat ∧ (Forall Q chars → Forall Q (escape c chars).2).
Proof.
  unfold escape. destruct chars as [|b rest]; [done|]. destruct (_ && _); [|done].
  pose proof (take_digits_length 3 rest) as Hl. pose proof (take_digits_sub 3 rest Q) as Hq.
  destruct (take_digits 3 rest) as [num r]. cbn [snd] in *.
  destruct r as [|m r]; cbn [snd length] in *.
  { split; [lia|by constructor]. }
  destruct (m =? 0x6D); cbn [snd length] in *; (split; [lia|]); intros HQ;
    apply Forall_cons in HQ as [_ HQ]; specialize (Hq HQ); [by apply Forall_cons in Hq as [_ ?]|done].
Qed.

Lemma tokens_fuel_enough n1 n2 chars :
  (length chars ≤ n1)%nat → (length chars ≤ n2)%nat → tokens_fuel n1 chars = tokens_fuel n2 chars.
Proof.
  revert n2 chars. induction n1 as [|n1 IH]; intros [|n2] [|c chars] H1 H2; simpl in *; try done; try lia.
  destruct (escape_rest c chars (λ _, True)) as [Hl _]. destruct (escape c chars) as [[num|] rest]; cbn [snd] in Hl;
    f_equal; apply IH; lia.
Qed.

Lemma write_chars_models w h n fuel chars P k tm :
  sides w h n → (length chars < fuel)%nat → models w h n P k tm → in_bounds w h tm → Forall (λ c, 0 ≤ c) chars →
  returns (write_chars FONT_DATA fuel chars k) (λ k',
    (∃ P', models w h n P' k' (foldl (t_token w h) tm (tokens chars))) ∧
    in_bounds w h (foldl (t_token w h) tm (tokens chars))).
Proof.
  intros Hs. revert chars P k tm. induction fuel as [|fuel IH]; intros chars P k tm Hf Hm Hb Hc; [lia|].
  destruct chars as [|c chars]; cbn [write_chars].
  { apply returns_Ret. split; [by exists P|done]. }
  apply Forall_cons in Hc as [Hc Hcs]. cbn [length] in Hf.
  destruct (escape_rest c chars (λ c, 0 ≤ c)) as [Hl Hq]. specialize (Hq Hcs).
  assert (Htok : ∀ tok rest, (length rest ≤ length chars)%nat →
    tok :: tokens_fuel (length chars) rest = tok :: tokens rest).
  { intros tok rest ?. f_equal. unfold tokens. apply tokens_fuel_enough; lia. }
  unfold tokens at 1 2. cbn [length tokens_fuel].
  destruct (escape c chars) as [[num|] rest]; cbn [snd] in Hl, Hq; rewrite Htok by done; cbn [foldl].
  - apply IH with (P := P); [lia| |done|done].
    destruct Hm as (Hw & Hh & HG & Hv & Hx & Hy & Hcol & Hd). split_and!; try done. cbn. by rewrite Hcol.
  - unfold put_char. rewrite bind_assoc. eapply returns_bind; [by eapply control_models|].
    intros k1 [P1 Hm1]. destruct (t_control_bounds w h c tm Hb) as (H1 & H2 & H3).
    eapply returns_bind; [by eapply wrap_models|].
    intros k2 [[P2 Hm2] Hb2]. apply IH with (P := P2); [lia|exact Hm2|exact Hb2|done].
Qed.

(** ** From boot *)

(** The first character drawn is in row 0, where the height that [FONT_HEIGHT]
    has before the font is read does not matter. *)
Lemma draw_char_first h1 h2 fb x y c color :
  draw_char_psf FONT_DATA x y c color (mkScreen fb h1) = draw_char_psf FONT_DATA x y c color (mkScreen fb h2).
Proof. unfold draw_char_psf. by rewrite Hfont. Qed.

Lemma write_str_first h1 h2 t fb c chars :
  0x20 ≤ c → c ≠ 0x7F → cursor_y t = 0 → 0 < width t → 0 < height t → cursor_x t < width t →
  0 ≤ h1 < 2 ^ 32 → 0 ≤ h2 < 2 ^ 32 →
  write_str FONT_DATA (c :: chars) (t, mkScreen fb h1) = write_str FONT_DATA (c :: chars) (t, mkScreen fb h2).
Proof.
  intros Hc Hd Hy Hw Hh Hx H1 H2. unfold write_str. cbn [length write_chars].
  assert (He : escape c chars = (None, chars)).
  { unfold escape, ESC. destruct chars; [done|]. by rewrite (proj2 (Z.eqb_neq c 0x1b)) by lia. }
  rewrite He. f_equal. unfold put_char. f_equal. unfold control.
  rewrite (proj2 (Z.eqb_neq c 0x0A)), (proj2 (Z.eqb_neq c 0x0D)), (proj2 (Z.eqb_neq c 0x08)),
    (proj2 (Z.eqb_neq c 0x7F)) by lia.
  f_equal. unfold set_char. rewrite Hy. rewrite !(proj2 (Z.leb_gt _ _)) by lia. simpl orb. cbv iota.
  destruct (0 *[64] width t) as [r| |]; [rewrite !bind_Ret|done|done].
  destruct (r +[64] cursor_x t) as [k| |]; [rewrite !bind_Ret|done|done].
  destruct (store _ _ _) as [b| |]; [rewrite !bind_Ret|done|done].
  destruct (cursor_x t *[64] 8) as [px| |]; [rewrite !bind_Ret|done|done].
  cbn [FONT_HEIGHT]. rewrite !Z.mul_0_l. checked_step. rewrite ?bind_Ret. by rewrite (draw_char_first h1 h2).
Qed.

Lemma clear_cells color buf :
  zlen buf < 2 ^ 63 →
  returns (for_range 0 (zlen buf) (λ i buf, store buf i (empty_cell color)) buf)
    (λ b, zlen b = zlen buf ∧ ∀ k, 0 ≤ k < zlen buf → b !! Z.to_nat k = Some (empty_cell color)).
Proof.
  intros Hm. pose proof (zlen_nonneg buf). eapply returns_mono; [|intros b Hb; exact Hb].
  apply (for_range_inv (λ j b, zlen b = zlen buf ∧ ∀ k, 0 ≤ k < j → b !! Z.to_nat k = Some (empty_cell color)));
    [done|split; [done|lia]|].
  intros j b Hj [Hl Hb]. rewrite store_ok by lia. apply returns_Ret. split; [by rewrite zlen_insert|].
  intros k Hk. destruct (decide (k = j)) as [->|Hne].
  - apply list_lookup_insert_eq. unfold zlen in *. lia.
  - rewrite list_lookup_insert_ne by lia. apply Hb. lia.
Qed.

Lemma clear_tty_models w h n t fb h0 P :
  sides w h n → width t = w → height t = h → zlen (text_buf t) = n → shows i P fb →
  returns (clear_tty (t, mkScreen (Some fb) h0)) (λ k, ∃ t' fb',
    k = (t', mkScreen (Some fb') h0) ∧
    models w h n background (t', mkScreen (Some fb') (font_height f))
      (mkTerm (λ _ _, empty_cell (fg_color t)) 0 0 (fg_color t))).
Proof.
  intros Hs Hw Hh Hn Hsh. pose proof Hs as (Hws & Hhs & Hns). unfold clear_tty, clear_background.
  cbn [FRAMEBUFFER FONT_HEIGHT].
  destruct (clear_screen_shows i P fb BACKGROUND Hsh ltac:(unfold gray_fits, BACKGROUND; lia) Hformat)
    as (fb' & -> & Hfb). rewrite !bind_Ret.
  eapply returns_bind; [apply clear_cells; lia|]. intros buf [Hl Hb]. apply returns_Ret.
  eexists _, fb'. split; [reflexivity|]. split_and!; try done.
  - split; [cbn; lia|]. intros y x Hy Hx. apply Hb.
    destruct (row_major_bounds w h y x Hx Hy) as (H1 & H2 & H3). lia.
  - by split; [|exists fb'].
Qed.

(** ** Properties *)

(** C11: The console is the abstract terminal, from boot on: on every screen
    of at least one cell, after [TTY::new] and [clear_tty], writing any text whose
    first character is printable ends without a panic, and the grid, the cursor
    and the color are those of the terminal that takes the text's characters and
    color escapes one by one; the cursor stays on the grid. *)
Theorem console_refines_terminal (fb : Framebuffer) (h0 c : Z) (chars : text) :
  fb_ok fb → fb_info fb = i → 8 ≤ fb_width i → 8 ≤ fb_height i → 0 ≤ h0 < 2 ^ 32 →
  0x20 ≤ c → c ≠ 0x7F → Forall (λ c, 0 ≤ c) chars →
  let w := Z.min (fb_width i / 8) 130 in
  let h := Z.min (fb_height i / 8) 50 in
  let s := mkScreen (Some fb) h0 in
  let white := (255, 255, 255, 255) in
  let tm := foldl (t_token w h) (mkTerm (λ _ _, empty_cell white) 0 0 white) (tokens (c :: chars)) in
  returns (k ← clear_tty (tty_new s, s); write_str FONT_DATA (c :: chars) k) (λ k,
    (∃ P, models w h 6500 P k tm) ∧ in_bounds w h tm).
Proof.
  intros Hok Hi Hw Hh Hh0 Hc Hc' Hcs w h s white tm.
  pose proof (Z.div_le_lower_bound (fb_width i) 8 1 ltac:(lia) ltac:(lia)).
  pose proof (Z.div_le_lower_bound (fb_height i) 8 1 ltac:(lia) ltac:(lia)).
  assert (Hs : sides w h 6500) by (unfold sides, w, h; nia).
  assert (Ht : tty_new s = mkTTY w h TTY_BUFFER 0 0 white).
  { unfold tty_new, s, resolution. cbn [FRAMEBUFFER]. by rewrite Hi. }
  rewrite Ht. eapply returns_bind.
  { eapply (clear_tty_models w h 6500); [done..|]. pose proof (shows_self fb Hok) as Hsh. rewrite Hi in Hsh. exact Hsh. }
  intros k (t' & fb' & -> & Hm). pose proof Hm as (Hw' & Hh' & _ & _ & Hx & Hy & _ & _). cbn [fst tx ty] in *.
  pose proof font_height_range. pose proof Hs as (? & ? & ?).
  rewrite (write_str_first h0 (font_height f)) by lia.
  eapply write_chars_models; [exact Hs|lia|exact Hm|split; cbn; lia|]. constructor; [lia|done].
Qed.

(** C12: After [scroll_up] the screen is the scrolled grid and nothing else:
    every pixel under a set bit of the glyph of the cell it is in has that cell's
    color, and every other pixel is the background. *)
Theorem scroll_up_renders (w h n : Z) (P : Z → Z → list (option Z)) (t : TTY) (s : Screen) (tm : term) :
  sides w h n → models w h n P (t, s) tm →
  let G := scroll_grid h (mkCell 0 (tcolor tm)) (tgrid tm) in
  returns (scroll_up FONT_DATA (t, s)) (λ k,
    grid w h n G (text_buf k.1) ∧
    displays (λ px py,
      let '(mkCell c (r, g, b, a)) := G (py / font_height f) (px / 8) in
      if bool_decide (px / 8 < w ∧ py / font_height f < h ∧ c ≠ 0 ∧ a ≠ 0) &&
         glyph_bit f c (py mod font_height f) (px mod 8)
      then Some <$> encode (pixel_format i) (r, g, b)
      else Some <$> fill (pixel_format i) BACKGROUND) k.2).
Proof.
  intros Hs Hm G. eapply returns_mono; [by eapply scroll_up_models|].
  intros k [(_ & _ & HG & _ & _ & _ & _ & Hd) _]. split; [exact HG|].
  eapply displays_ext; [exact Hd|]. intros px py [Hpx Hpy]. unfold render. cbn zeta.
  fold (blank tm). change (scroll_grid h (blank tm) (tgrid tm)) with G.
  pose proof (Z.div_pos px 8 ltac:(lia) ltac:(lia)). pose proof font_height_range.
  unfold nonempty, before. destruct (G (py / font_height f) (px / 8)) as [c [[[r g] b] a]].
  cbn [cell_ch cell_color]. unfold background.
  destruct (Z.eqb_spec c 0), (Z.eqb_spec a 0); simpl negb; rewrite ?andb_false_r; cbn [andb];
    try (rewrite (bool_decide_eq_false_2 (_ ∧ _ ∧ _ ∧ _)) by lia; done).
  rewrite !andb_true_r. do 2 case_bool_decide; done || lia.
Qed.

(** A backspace or delete clears the whole screen and redraws the
    cursor's row only: the grid keeps the other rows, and every pixel of theirs
    is the background. *)
Theorem delete_blanks_other_rows (w h n : Z) (P : Z → Z → list (option Z)) (t : TTY) (s : Screen)
    (tm : term) (bksp : bool) :
  sides w h n → models w h n P (t, s) tm → in_bounds w h tm → (bksp = true → tx tm ≠ 0) →
  returns (delete FONT_DATA bksp (t, s)) (λ k,
    (∀ y x, 0 ≤ y < h → 0 ≤ x < w → y ≠ ty tm → text_buf k.1 !! Z.to_nat (y * w + x) = Some (tgrid tm y x)) ∧
    ∃ Q, displays Q k.2 ∧ ∀ px py, on_screen i px py →
      ¬ (ty tm * font_height f ≤ py < (ty tm + 1) * font_height f) →
      Q px py = Some <$> fill (pixel_format i) BACKGROUND).
Proof.
  intros Hs Hm Hb Hb0. eapply returns_mono; [by eapply delete_models|].
  intros k (_ & _ & [_ HG] & _ & _ & _ & _ & Hd). split.
  - intros y x Hy Hx Hne. rewrite HG by done. cbn [tgrid]. unfold delete_cell.
    by rewrite bool_decide_eq_false_2 by lia.
  - eexists. split; [exact Hd|]. intros px py _ Hpy. unfold render, in_row. pose proof font_height_range.
    rewrite bool_decide_eq_false_2; [by destruct (cell_color _) as [[[? ?] ?] ?]|].
    intros [Heq _]. apply Hpy.
    pose proof (Z.div_mod py (font_height f) ltac:(lia)). pose proof (Z.mod_pos_bound py (font_height f) ltac:(lia)).
    nia.
Qed.

(** C40: [TTY::new] counts rows of 8 pixels, and the shipped font is 16 high:
    on a screen of 30 to 784 lines, a character written in the last row of the
    console is in the grid and changes no pixel. *)
Theorem bottom_row_invisible (w n c : Z) (P : Z → Z → list (option Z)) (k : console) (tm : term) (color : rgba) :
  let h := Z.min (fb_height i / 8) 50 in
  sides w h n → models w h n P k tm → in_bounds w h tm → ty tm = h - 1 →
  font_height f = 16 → 30 ≤ fb_height i ≤ 784 → 0 ≤ c →
  returns (set_char FONT_DATA (tx tm) (ty tm) c color k) (λ k',
    get_char k'.1 (tx tm) (ty tm) = Ret (Some c) ∧ displays P k'.2).
Proof.
  intros h Hs Hm Hb Hy Hf Hh Hc. destruct k as [t s].
  eapply returns_mono; [by eapply set_char_models|].
  intros k' (Hw' & Hh' & HG & _ & _ & _ & _ & Hd). pose proof Hs as (Hws & Hhs & Hns). destruct Hb as [Hbx Hby].
  destruct (row_major_bounds w h (ty tm) (tx tm) Hbx Hby) as (H1 & H2 & H3). split.
  - unfold get_char. rewrite Hw', Hh', !(proj2 (Z.leb_gt _ _)) by lia. simpl orb. cbv iota.
    checked_step. checked_step. rewrite (grid_index _ _ _ _ _ _ _ HG) by lia.
    rewrite bind_Ret. cbn [tgrid]. unfold set_cell. by rewrite bool_decide_eq_true_2.
  - eapply displays_ext; [exact Hd|]. intros px py [Hpx Hpy]. unfold stamp.
    destruct color as [[[r g] b] a]. rewrite bool_decide_eq_false_2; [done|].
    pose proof (Z.div_mod (fb_height i) 8 ltac:(lia)). pose proof (Z.mod_pos_bound (fb_height i) 8 ltac:(lia)).
    rewrite Hf, Hy. unfold h. lia.
Qed.
End display.

(** ** Printable text and escapes *)

Definition printable (c : Z) : Prop := 0x20 ≤ c ∧ c ≠ 0x7F.

Lemma escape_printable c chars : printable c → escape c chars = (None, chars).
Proof.
  intros [Hc _]. unfold escape, ESC. destruct chars; [done|]. by rewrite (proj2 (Z.eqb_neq c 0x1b)) by lia.
Qed.

Lemma tokens_printable chars : Forall printable chars → tokens chars = inl <$> chars.
Proof.
  unfold tokens. induction 1 as [|c chars Hc Hcs IH]; [done|]. cbn [length tokens_fuel].
  rewrite escape_printable by done. cbn [fmap list_fmap]. by f_equal.
Qed.

(** Text that fits in the row. *)
Lemma t_print w h chars tm :
  Forall printable chars → 0 ≤ tx tm → tx tm + zlen chars < w → ty tm < h →
  let tm' := foldl (t_token w h) tm (inl <$> chars) in
  tx tm' = tx tm + zlen chars ∧ ty tm' = ty tm ∧ tcolor tm' = tcolor tm ∧
  ∀ y x, tgrid tm' y x =
    if bool_decide (y = ty tm ∧ tx tm ≤ x < tx tm + zlen chars)
    then mkCell (default 0 (chars !! Z.to_nat (x - tx tm))) (tcolor tm) else tgrid tm y x.
Proof.
  intros Hp. revert tm. induction Hp as [|c chars [Hc Hc'] Hcs IH]; intros tm Hx Hw Hy.
  { cbn. unfold zlen. simpl. split_and!; [lia|done|done|]. intros y x.
    by rewrite bool_decide_eq_false_2 by lia. }
  rewrite zlen_cons in Hw |- *. pose proof (zlen_nonneg chars). cbn [fmap list_fmap foldl].
  assert (Hstep : t_token w h tm (inl c) =
    mkTerm (set_cell (ty tm) (tx tm) (mkCell c (tcolor tm)) (tgrid tm)) (tx tm + 1) (ty tm) (tcolor tm)).
  { unfold t_token, t_control.
    rewrite (proj2 (Z.eqb_neq c 0x0A)), (proj2 (Z.eqb_neq c 0x0D)), (proj2 (Z.eqb_neq c 0x08)),
      (proj2 (Z.eqb_neq c 0x7F)) by lia.
    unfold t_wrap. cbn [tx ty]. by rewrite (proj2 (Z.leb_gt w _)), (proj2 (Z.leb_gt h _)) by (cbn; lia). }
  rewrite Hstep. destruct (IH (mkTerm (set_cell (ty tm) (tx tm) (mkCell c (tcolor tm)) (tgrid tm))
    (tx tm + 1) (ty tm) (tcolor tm))) as (H1 & H2 & H3 & H4); [cbn; lia..|].
  cbn [tx ty tcolor tgrid] in *. split_and!; [rewrite H1; lia|done|done|].
  intros y x. rewrite H4. unfold set_cell. destruct (decide (y = ty tm ∧ x = tx tm)) as [[-> ->]|Hne].
  - rewrite bool_decide_eq_false_2, !bool_decide_eq_true_2 by lia. by rewrite Z.sub_diag.
  - rewrite (bool_decide_eq_false_2 _ Hne). do 2 case_bool_decide; [|lia|lia|done].
    by replace (Z.to_nat (x - tx tm)) with (S (Z.to_nat (x - (tx tm + 1)))) by lia.
Qed.

Lemma write_chars_fuel FONT_DATA n1 n2 chars k :
  (length chars < n1)%nat → (length chars < n2)%nat →
  write_chars FONT_DATA n1 chars k = write_chars FONT_DATA n2 chars k.
Proof.
  revert n2 chars k. induction n1 as [|n1 IH]; intros [|n2] chars k H1 H2; [lia..|].
  cbn [write_chars]. destruct chars as [|c chars]; [done|]. cbn [length] in *.
  destruct (escape_rest c chars (λ _, True)) as [Hl _].
  destruct (escape c chars) as [[num|] rest]; cbn [snd] in Hl.
  - apply IH; lia.
  - destruct (put_char FONT_DATA c k) as [k'| |]; [|done|done]. rewrite !bind_Ret. apply IH; lia.
Qed.

Lemma take_digits_all m ds rest :
  Forall (λ d, is_digit d = true) ds → (length ds ≤ m)%nat →
  (length ds = m ∨ match rest with d :: _ => is_digit d = false | [] => True end) →
  take_digits m (ds ++ rest) = (ds, rest).
Proof.
  revert m. induction ds as [|d ds IH]; intros m Hd Hl Hor; cbn [app length] in *.
  { destruct m; [done|]. destruct rest; [done|]. destruct Hor as [?|Hr]; [done|]. cbn [take_digits]. by rewrite Hr. }
  apply Forall_cons in Hd as [Hd Hds]. destruct m; [lia|]. cbn [take_digits]. rewrite Hd.
  rewrite IH; [done|done|lia|]. destruct Hor; [left; lia|by right].
Qed.

Lemma write_chars_step FONT_DATA n c chars k :
  write_chars FONT_DATA (S n) (c :: chars) k =
    match escape c chars with
    | (Some num, rest) => write_chars FONT_DATA n rest (with_color k.1 (escape_color num (fg_color k.1)), k.2)
    | (None, rest) => k ← put_char FONT_DATA c k; write_chars FONT_DATA n rest k
    end.
Proof. reflexivity. Qed.

Lemma escape_color_code num rest :
  Forall (λ d, is_digit d = true) num → (length num ≤ 3)%nat →
  escape ESC (0x5B :: num ++ 0x6D :: rest) = (Some num, rest).
Proof.
  intros Hnum Hl. unfold escape. change ((ESC =? ESC) && (0x5B =? 0x5B)) with true. cbv iota.
  by rewrite take_digits_all by (done || lia || by right).
Qed.

Lemma escape_too_long num d rest :
  Forall (λ d, is_digit d = true) num → length num = 3%nat → is_digit d = true →
  escape ESC (0x5B :: num ++ d :: rest) = (None, d :: rest).
Proof.
  intros Hnum Hl Hd. unfold escape. change ((ESC =? ESC) && (0x5B =? 0x5B)) with true. cbv iota.
  rewrite take_digits_all by (done || lia || by left).
  by rewrite (proj2 (Z.eqb_neq d 0x6D)) by (unfold is_digit in Hd; lia).
Qed.

(** An escape [ESC [ digits m] of at most three digits writes nothing and
    sets the color of its code (white for 0, 37, an overflowing code or none,
    the same color for an unknown code); of four digits, the first three
    are lost and the escape character and what follows them are written. *)
Theorem escape_sets_color (FONT_DATA : list Z) (num rest : text) (k : console) :
  Forall (λ d, is_digit d = true) num →
  ((length num ≤ 3)%nat →
    write_str FONT_DATA (ESC :: 0x5B :: num ++ 0x6D :: rest) k =
    write_str FONT_DATA rest (with_color k.1 (escape_color num (fg_color k.1)), k.2)) ∧
  (length num = 3%nat → ∀ d, is_digit d = true →
    write_str FONT_DATA (ESC :: 0x5B :: num ++ d :: 0x6D :: rest) k =
    (k ← put_char FONT_DATA ESC k; write_str FONT_DATA (d :: 0x6D :: rest) k)).
Proof.
  intros Hnum. split.
  - intros Hl. unfold write_str at 1. cbn [length]. rewrite write_chars_step, escape_color_code by done.
    apply write_chars_fuel; [|lia]. cbn [length]. rewrite length_app. cbn [length]. lia.
  - intros Hl d Hd. unfold write_str at 1. cbn [length]. rewrite write_chars_step, escape_too_long by done.
    destruct (put_char FONT_DATA ESC k) as [k'| |]; [|done|done]. rewrite !bind_Ret.
    apply write_chars_fuel; cbn [length]; rewrite ?length_app; cbn [length]; lia.
Qed.

(** Printable text that fits in the cursor's row is written in the cells
    from the cursor on, in the current color, and moves the cursor behind it;
    every other cell stays. *)
Theorem print_line_exact (FONT_DATA : list Z) (f : Font) (i : FrameBufferInfo) (w h n : Z)
    (P : Z → Z → list (option Z)) (k : console) (tm : term) (chars : text) :
  parse_psf FONT_DATA = Ret (Some f, Some (font_height f)) → drawable f → font_width f = 8 →
  pixel_format i ≠ OtherFormat →
  sides w h n → models f i w h n P k tm → in_bounds w h tm →
  Forall printable chars → tx tm + zlen chars < w →
  returns (write_str FONT_DATA chars k) (λ k',
    cursor_x k'.1 = tx tm + zlen chars ∧ cursor_y k'.1 = ty tm ∧ fg_color k'.1 = tcolor tm ∧
    ∀ y x, 0 ≤ y < h → 0 ≤ x < w → text_buf k'.1 !! Z.to_nat (y * w + x) =
      Some (if bool_decide (y = ty tm ∧ tx tm ≤ x < tx tm + zlen chars)
            then mkCell (default 0 (chars !! Z.to_nat (x - tx tm))) (tcolor tm) else tgrid tm y x)).
Proof.
  intros Hf Hd Hw Hpf Hs Hm Hb Hp Hfit. pose proof Hb as [Hbx Hby].
  destruct (t_print w h chars tm Hp ltac:(lia) Hfit ltac:(lia)) as (H1 & H2 & H3 & H4).
  rewrite <- (tokens_printable chars Hp) in H1, H2, H3, H4.
  eapply returns_mono.
  - eapply (write_chars_models FONT_DATA f i); [done..|lia|exact Hm|done|].
    eapply Forall_impl; [exact Hp|]. intros c [? _]. lia.
  - intros k' [(P' & _ & _ & [_ HG] & _ & Hx & Hy & Hc & _) _].
    rewrite Hx, Hy, Hc, H1, H2, H3. split_and!; [done..|]. intros y x Hyr Hxr. by rewrite HG, H4.
Qed.

(** ** Samples *)

(** A 32 by 32 screen with a 16 line font: four cells by four, the cursor in the
    last row. *)
Definition sample_font16 : list Z := psf1_file 2 16 (replicate 4096 0xA5).
Definition sample_f16 : Font := mkFont (replicate 4096 0xA5) 256 16 16 8.
Definition sample_info : FrameBufferInfo := mkInfo 32 32 32 3 Rgb.
Definition sample_screen : Screen := mkScreen (Some (mkFb sample_info (replicate 3072 0))) 16.
Definition sample_tty : TTY := mkTTY 4 4 (replicate 16 (mkCell 0x41 WHITE)) 1 3 WHITE.
Definition sample_term : term := mkTerm (λ _ _, mkCell 0x41 WHITE) 1 3 WHITE.

Lemma sample_font16_parsed : parse_psf sample_font16 = Ret (Some sample_f16, Some (font_height sample_f16)).
Proof. vm_compute. reflexivity. Qed.

Lemma sample_f16_drawable : drawable sample_f16.
Proof. repeat split; vm_compute; first [reflexivity|discriminate]. Qed.

Lemma sample_screen_ok : fb_ok (mkFb sample_info (replicate 3072 0)).
Proof. repeat split; vm_compute; first [reflexivity|discriminate]. Qed.

Lemma sample_sides : sides 4 4 16.
Proof. unfold sides. lia. Qed.

Lemma sample_models :
  models sample_f16 sample_info 4 4 16 (pixel_at (mkFb sample_info (replicate 3072 0)))
    (sample_tty, sample_screen) sample_term.
Proof.
  unfold models. split_and!; try done.
  - split; [reflexivity|]. intros y x Hy Hx. apply lookup_replicate. split; [done|]. lia.
  - split; [done|]. eexists. split; [reflexivity|]. apply (shows_self _ sample_screen_ok).
Qed.

Lemma sample_bounds : in_bounds 4 4 sample_term.
Proof. split; cbn; lia. Qed.

Lemma console_refines_terminal_witness :
  let s := mkScreen (Some (mkFb sample_info (replicate 3072 0))) 8 in
  ∃ k, (k ← clear_tty (tty_new s, s); write_str sample_font16 (0x41 :: [0x0A]) k) = Ret k ∧
    cursor_y k.1 = 1 ∧ text_buf k.1 !! 0%nat = Some (mkCell 0x41 (255, 255, 255, 255)).
Proof.
  intros s.
  destruct (console_refines_terminal sample_font16 sample_f16 sample_info sample_font16_parsed
    sample_f16_drawable eq_refl ltac:(done) (mkFb sample_info (replicate 3072 0)) 8 0x41 [0x0A]
    sample_screen_ok eq_refl) as (k & Hk & (P & Hw & Hh & HG & _ & _ & Hy & _) & _);
    [cbn; lia|cbn; lia|lia|lia|lia|by apply Forall_singleton|].
  exists k. split; [exact Hk|]. split; [rewrite Hy; vm_compute; reflexivity|].
  destruct HG as [_ HG]. assert (H0 : 0 ≤ 0 < 4) by lia. exact (HG 0 0 H0 H0).
Defined.

Lemma scroll_up_renders_witness :
  ∃ k, scroll_up sample_font16 (sample_tty, sample_screen) = Ret k ∧
    text_buf k.1 !! 15%nat = Some (mkCell 0 WHITE).
Proof.
  destruct (scroll_up_renders sample_font16 sample_f16 sample_info sample_font16_parsed sample_f16_drawable
    eq_refl ltac:(done) 4 4 16 _ sample_tty sample_screen sample_term sample_sides sample_models)
    as (k & Hk & [_ HG] & _).
  exists k. split; [exact Hk|]. exact (HG 3 3 ltac:(lia) ltac:(lia)).
Defined.

Lemma delete_blanks_other_rows_witness :
  ∃ k, delete sample_font16 true (sample_tty, sample_screen) = Ret k ∧
    text_buf k.1 !! 0%nat = Some (mkCell 0x41 WHITE) ∧
    ∃ fb, FRAMEBUFFER k.2 = Some fb ∧ pixel_at fb 0 0 = [Some 30; Some 30; Some 46].
Proof.
  destruct (delete_blanks_other_rows sample_font16 sample_f16 sample_info sample_font16_parsed
    sample_f16_drawable eq_refl ltac:(done) 4 4 16 _ sample_tty sample_screen sample_term true
    sample_sides sample_models sample_bounds ltac:(intros _; discriminate)) as (k & Hk & HG & Q & (_ & fb & Hfb & _ & _ & HQ) & Hb).
  exists k. split; [exact Hk|]. split; [exact (HG 0 0 ltac:(lia) ltac:(lia) ltac:(discriminate))|].
  exists fb. split; [exact Hfb|]. rewrite HQ by (split; cbn; lia).
  rewrite Hb; [reflexivity|split; cbn; lia|cbn; lia].
Defined.

Lemma bottom_row_invisible_witness :
  ∃ k, set_char sample_font16 1 3 0x42 WHITE (sample_tty, sample_screen) = Ret k ∧
    get_char k.1 1 3 = Ret (Some 0x42) ∧
    ∃ fb, FRAMEBUFFER k.2 = Some fb ∧ pixel_at fb 8 31 = [Some 0; Some 0; Some 0].
Proof.
  destruct (bottom_row_invisible sample_font16 sample_f16 sample_info sample_font16_parsed sample_f16_drawable
    eq_refl 4 16 0x42 _ (sample_tty, sample_screen) sample_term WHITE
    sample_sides sample_models sample_bounds eq_refl eq_refl) as (k & Hk & Hc & _ & fb & Hfb & _ & _ & HP);
    [cbn; lia|lia|].
  exists k. split; [exact Hk|]. split; [exact Hc|]. exists fb. split; [exact Hfb|].
  rewrite HP by (split; cbn; lia). vm_compute. reflexivity.
Defined.

Lemma escape_sets_color_witness :
  write_str sample_font16 (ESC :: 0x5B :: [0x33; 0x31] ++ 0x6D :: [0x41]) (sample_tty, sample_screen) =
  write_str sample_font16 [0x41] (with_color sample_tty RED, sample_screen).
Proof.
  destruct (escape_sets_color sample_font16 [0x33; 0x31] [0x41] (sample_tty, sample_screen)) as [H _];
    [by repeat constructor|]. rewrite H by (cbn; lia). reflexivity.
Defined.

Lemma print_line_exact_witness :
  ∃ k, write_str sample_font16 [0x68; 0x69] (sample_tty, sample_screen) = Ret k ∧
    cursor_x k.1 = 3 ∧ text_buf k.1 !! 14%nat = Some (mkCell 0x69 WHITE).
Proof.
  destruct (print_line_exact sample_font16 sample_f16 sample_info 4 4 16 _ (sample_tty, sample_screen)
    sample_term [0x68; 0x69] sample_font16_parsed sample_f16_drawable eq_refl ltac:(done) sample_sides
    sample_models sample_bounds) as (k & Hk & Hx & _ & _ & HG).
  - repeat (apply Forall_cons; split; [unfold printable; lia|]). done.
  - vm_compute. reflexivity.
  - exists k. split; [exact Hk|]. split; [exact Hx|]. exact (HG 3 2 ltac:(lia) ltac:(lia)).
Defined.
