(* ===== verification/Console.v ===== *)
(** * Printing: the interface of the console (kernel/src/logging.rs, and the
    macros of kernel/src/main.rs)

    What the rest of the kernel does with the console and the serial port is
    the class [Console], whose laws say that output never fails; the console of
    [Tty] is an instance.  The macros are definitions over the class.  A
    formatted string is the list of the pieces that [core::fmt] writes, one
    [write_str] each. *)

From Stdlib Require Import String.
From S2P Require Import Prelude Text Framebuffer Font Tty.
Open Scope Z_scope.
Open Scope rust_scope.

Class Console (C : Type) := {
  serial_write : text → C → C;              (* one piece on the serial port *)
  tty_present : C → bool;                   (* [TTY.lock()] is [Some] *)
  tty_write : text → C → outcome C;         (* [TTY::write_str] *)
  tty_draws : text → C → bool;              (* whether it takes the lock of [FRAMEBUFFER] *)
  tty_clear : C → outcome C;
  tty_face : bool → rgba → C → outcome C;   (* [yay] or [sad] *)
  fb_resolution : C → option (Z * Z);
}.

Class ConsoleLaws (C : Type) `{Console C} := {
  console_ok : C → Prop;
  tty_present_serial t c : tty_present (serial_write t c) = tty_present c;
  tty_present_write t c c' : tty_write t c = Ret c' → tty_present c' = tty_present c;
  serial_write_ok t c : console_ok c → console_ok (serial_write t c);
  tty_write_ok t c : console_ok c → Forall char_ok t → returns (tty_write t c) console_ok;
  tty_draws_color c : tty_draws (ESC :: txt "[31m") c = false;
  tty_draws_glyph ch t c : console_ok c → tty_present c = true → 0x20 ≤ ch → ch ≠ 0x7F → tty_draws (ch :: t) c = true;
  tty_clear_ok c : console_ok c → returns (tty_clear c) console_ok;
  tty_face_ok b col c : console_ok c → returns (tty_face b col c) console_ok;
  fb_resolution_ok c w h : console_ok c → fb_resolution c = Some (w, h) → 0 ≤ w < 2 ^ 64 ∧ 0 ≤ h < 2 ^ 64;
}.

Section printing.
Context {C : Type} `{Console C}.

Fixpoint write_pieces (ps : list text) (c : C) : outcome C :=
  match ps with [] => Ret c | p :: ps => c ← tty_write p c; write_pieces ps c end.

Definition serial_pieces (ps : list text) (c : C) : C := foldl (λ c p, serial_write p c) c ps.

Definition print (ps : list text) (c : C) : outcome C :=
  if tty_present c then write_pieces ps c
  else Ret (serial_write (txt "No TTY available!" ++ NL) c).

(** The format's last literal piece is given with its newline. *)
Definition println (ps : list text) (c : C) : outcome C := print (ps ++ [NL]) c.

(** [_print]: the serial port, then the console if there is one. *)
Definition all_print (ps : list text) (c : C) : outcome C :=
  let c := serial_pieces ps c in
  if tty_present c then write_pieces ps c else Ret c.

Definition esc : text := [ESC].

Definition info_pieces (ps : list text) : list text :=
  [esc ++ txt "[34m"; txt "(o_o) "; txt "[INFO ]:" ++ esc ++ txt "[0m "] ++ ps ++ [NL].
Definition info (ps : list text) : C → outcome C := all_print (info_pieces ps).

(** [ [file@Lline:column] ] after the message. *)
Definition placed_pieces (color : text) (face label : text) (here : text) (ps : list text) : list text :=
  [esc ++ color; face; label ++ esc ++ txt "[0m "] ++ ps ++ [txt " ["; here; txt "]" ++ NL].
Definition placed (color : text) (face label : text) (here : text) (ps : list text) : C → outcome C :=
  all_print (placed_pieces color face label here ps).

Definition error_pieces : text → list text → list text :=
  placed_pieces (txt "[31m") (txt "(X_X) ") (txt "[ERROR]:").

Definition warning : text → list text → C → outcome C := placed (txt "[33m") (txt "(0_0) ") (txt "[WARN ]:").
Definition error : text → list text → C → outcome C := placed (txt "[31m") (txt "(X_X) ") (txt "[ERROR]:").
Definition nftodo : text → list text → C → outcome C := placed (txt "[35m") (txt "(-_-) ") (txt "[TODO ]:").

Definition yay_macro (c : C) : outcome C := if tty_present c then tty_face true GREEN c else Ret c.
Definition sad_macro (c : C) : outcome C := if tty_present c then tty_face false RED c else Ret c.
Definition clear_macro (c : C) : outcome C := if tty_present c then tty_clear c else Ret c.

(** ** Output never fails *)

Context `{!ConsoleLaws C}.

Definition pieces_ok (ps : list text) : Prop := Forall (Forall char_ok) ps.

Lemma write_pieces_ok ps c : console_ok c → pieces_ok ps → returns (write_pieces ps c) console_ok.
Proof.
  intros Hc Hp. revert c Hc. induction Hp as [|p ps Hp Hps IH]; intros c Hc; cbn [write_pieces].
  { by apply returns_Ret. }
  eapply returns_bind; [by apply tty_write_ok|]. intros c' Hc'. by apply IH.
Qed.

Lemma serial_pieces_ok ps c : console_ok c → console_ok (serial_pieces ps c).
Proof.
  unfold serial_pieces. revert c. induction ps as [|p ps IH]; intros c Hc; simpl; [done|].
  apply IH. by apply serial_write_ok.
Qed.

Lemma print_ok ps c : console_ok c → pieces_ok ps → returns (print ps c) console_ok.
Proof.
  intros Hc Hp. unfold print. destruct (tty_present c); [by apply write_pieces_ok|].
  apply returns_Ret. by apply serial_write_ok.
Qed.

Lemma NL_ok : Forall char_ok NL.
Proof. by repeat constructor. Qed.

Lemma println_ok ps c : console_ok c → pieces_ok ps → returns (println ps c) console_ok.
Proof.
  intros Hc Hp. apply print_ok; [done|]. apply Forall_app. split; [done|].
  constructor; [exact NL_ok|constructor].
Qed.

Lemma all_print_ok ps c : console_ok c → pieces_ok ps → returns (all_print ps c) console_ok.
Proof.
  intros Hc Hp. unfold all_print. pose proof (serial_pieces_ok ps c Hc) as Hs.
  destruct (tty_present _); [by apply write_pieces_ok|by apply returns_Ret].
Qed.

Lemma esc_ok t : Forall char_ok t → Forall char_ok (esc ++ t).
Proof. intros Ht. apply Forall_app. split; [|done]. by repeat constructor. Qed.

Lemma info_ok ps c : console_ok c → pieces_ok ps → returns (info ps c) console_ok.
Proof.
  intros Hc Hp. apply all_print_ok; [done|]. repeat (apply Forall_app; split); try done.
  - repeat constructor; try apply txt_ok; try done.
  - constructor; [exact NL_ok|constructor].
Qed.

Lemma placed_ok color face label here ps c :
  Forall char_ok color → Forall char_ok face → Forall char_ok label → Forall char_ok here →
  console_ok c → pieces_ok ps → returns (placed color face label here ps c) console_ok.
Proof.
  intros H1 H2 H3 H4 Hc Hp. apply all_print_ok; [done|]. repeat (apply Forall_app; split); [|done|].
  - constructor; [by apply esc_ok|]. constructor; [done|]. constructor; [|constructor].
    apply Forall_app. split; [done|]. apply esc_ok, txt_ok.
  - constructor; [apply txt_ok|]. constructor; [done|]. constructor; [|constructor].
    apply Forall_app. split; [apply txt_ok|exact NL_ok].
Qed.

Lemma warning_ok here ps c :
  Forall char_ok here → console_ok c → pieces_ok ps → returns (warning here ps c) console_ok.
Proof. intros. apply placed_ok; auto using txt_ok. Qed.
Lemma error_ok here ps c :
  Forall char_ok here → console_ok c → pieces_ok ps → returns (error here ps c) console_ok.
Proof. intros. apply placed_ok; auto using txt_ok. Qed.
Lemma nftodo_ok here ps c :
  Forall char_ok here → console_ok c → pieces_ok ps → returns (nftodo here ps c) console_ok.
Proof. intros. apply placed_ok; auto using txt_ok. Qed.

Lemma yay_macro_ok c : console_ok c → returns (yay_macro c) console_ok.
Proof. intros. unfold yay_macro. destruct (tty_present c); [by apply tty_face_ok|by apply returns_Ret]. Qed.
Lemma sad_macro_ok c : console_ok c → returns (sad_macro c) console_ok.
Proof. intros. unfold sad_macro. destruct (tty_present c); [by apply tty_face_ok|by apply returns_Ret]. Qed.
Lemma clear_macro_ok c : console_ok c → returns (clear_macro c) console_ok.
Proof. intros. unfold clear_macro. destruct (tty_present c); [by apply tty_clear_ok|by apply returns_Ret]. Qed.
End printing.

#[export] Hint Resolve info_ok warning_ok error_ok nftodo_ok print_ok println_ok yay_macro_ok sad_macro_ok
  clear_macro_ok txt_ok decimal_ok hex_ok NL_ok : lemoncake.

(** ** The console of [Tty] *)

Record Output : Type := mkOutput { serial : list text; tty : option TTY; screen : Screen }.

Definition on_tty (op : console → outcome console) (o : Output) : outcome Output :=
  match tty o with
  | Some t => '(t, s) ← op (t, screen o); Ret (mkOutput (serial o) (Some t) s)
  | None => Ret o
  end.

Section instance_.
Context (FONT_DATA : list Z) (f : Font) (i : FrameBufferInfo).

Definition tty_Console : Console Output := {|
  serial_write t o := mkOutput (serial o ++ [t]) (tty o) (screen o);
  tty_present o := match tty o with Some _ => true | None => false end;
  tty_write t := on_tty (write_str FONT_DATA t);
  tty_draws t o := match tty o with Some k => text_draws FONT_DATA t (k, screen o) | None => false end;
  tty_clear := on_tty clear_tty;
  tty_face b col := on_tty (if b then yay (Some col) else sad (Some col));
  fb_resolution o := resolution <$> FRAMEBUFFER (screen o);
|}.

Context (Hfont : parse_psf FONT_DATA = Ret (Some f, Some (font_height f))).
Context (Hdraw : drawable f) (Hwidth : font_width f = 8).
Context (Hformat : pixel_format i ≠ OtherFormat).

(** A console that models some terminal, its cursor on the grid. *)
Definition tty_ok (o : Output) : Prop :=
  (∃ fb, FRAMEBUFFER (screen o) = Some fb ∧ shows i (pixel_at fb) fb) ∧
  0 ≤ fb_width i < 2 ^ 64 ∧ 0 ≤ fb_height i < 2 ^ 64 ∧
  match tty o with
  | Some t => ∃ w h n P tm, sides w h n ∧ models f i w h n P (t, screen o) tm ∧ in_bounds w h tm
  | None => True
  end.

(** The screen of a model. *)
Lemma displays_some P s : displays f i P s → ∃ fb, FRAMEBUFFER s = Some fb ∧ shows i (pixel_at fb) fb.
Proof. intros (_ & fb & Hfb & Hi & Hok & _). exists fb. split; [done|]. subst i. by apply shows_self. Qed.

(** A face in the cursor's cell moves the cursor by one, and back to the top at
    the end of the grid. *)
Lemma draw_face_ok draw col w h n P t s tm :
  (∀ x y c fb Q, 0 ≤ x < 2 ^ 63 → 0 ≤ y < 2 ^ 63 → shows i Q fb → returns (draw x y c fb) (λ fb', ∃ Q', shows i Q' fb')) →
  sides w h n → models f i w h n P (t, s) tm → in_bounds w h tm →
  returns (draw_face draw col (t, s)) (λ k, ∃ P' tm', models f i w h n P' k tm' ∧ in_bounds w h tm').
Proof.
  intros Hdr Hs (Hw & Hh & HG & Hv & Hx & Hy & Hcol & (Hfh & fb & Hfb & Hsh)) [Hbx Hby]. cbn [fst snd] in *.
  pose proof Hs as (Hws & Hhs & _). pose proof (font_height_range f Hdraw) as Hr.
  unfold draw_face, get_cur_loc. rewrite Hx, Hy, Hfh. checked_step. checked_step. rewrite !bind_Ret, Hfb.
  pose proof (Z.div_pos (font_height f) 4 ltac:(lia) ltac:(lia)).
  pose proof (Z.div_le_upper_bound (font_height f) 4 1024 ltac:(lia) ltac:(lia)).
  checked_step. destruct (Hdr (tx tm * 8) (ty tm * font_height f + font_height f / 4) (default (fg_color t) col) fb P)
    as (fb' & -> & Q' & Hsh'); [lia|nia|done|]. rewrite bind_Ret. checked_step. cbn [with_cursor cursor_x cursor_y width height].
  rewrite Hw. set (b := w <=? tx tm + 1).
  assert (H1 : ∃ cx cy, (if b then cy ← ty tm +[64] 1; Ret (with_cursor (with_cursor t (tx tm + 1) (ty tm)) 0 cy)
      else Ret (with_cursor t (tx tm + 1) (ty tm))) = Ret (with_cursor t cx cy) ∧ 0 ≤ cx < w ∧ 0 ≤ cy ≤ h).
  { unfold b. destruct (Z.leb_spec w (tx tm + 1)).
    - checked_step. eexists 0, (ty tm + 1). split; [done|lia].
    - exists (tx tm + 1), (ty tm). split; [done|lia]. }
  destruct H1 as (cx & cy & -> & Hcx & Hcy). rewrite bind_Ret. apply returns_Ret.
  cbn [with_cursor cursor_x cursor_y width height]. rewrite Hh.
  set (cy' := if h <=? cy then 0 else cy).
  exists Q', (mkTerm (tgrid tm) cx cy' (tcolor tm)). split.
  - unfold cy'. destruct (h <=? cy); (split_and!; try done; by split; [|exists fb']).
  - split; cbn [tx ty]; [lia|]. unfold cy'. destruct (Z.leb_spec h cy); lia.
Qed.

Lemma points_near : Forall (λ d, 0 ≤ d.1 < 8 ∧ 0 ≤ d.2 < 8) smiley_points ∧
  Forall (λ d, 0 ≤ d.1 < 8 ∧ 0 ≤ d.2 < 8) sad_points.
Proof. split; repeat (constructor; [cbn; lia|]); constructor. Qed.

Lemma faces_draw x y c fb Q b :
  0 ≤ x < 2 ^ 63 → 0 ≤ y < 2 ^ 63 → shows i Q fb →
  returns ((if b : bool then draw_smiley else draw_sad_face) x y c fb) (λ fb', ∃ Q', shows i Q' fb').
Proof.
  intros Hx Hy Hsh. destruct points_near as [Hp1 Hp2]. destruct c as [[[r g] bl] a].
  destruct b; [unfold draw_smiley|unfold draw_sad_face];
    (destruct (a =? 0); [apply returns_Ret; by exists Q|]);
    (eapply returns_mono; [by apply put_pixels_shows|]); intros fb' Hfb; by eexists.
Qed.

(** A glyph is drawn wherever the cursor is. *)
Lemma text_draws_glyph w h n P t s tm ch chars :
  models f i w h n P (t, s) tm → in_bounds w h tm → 0x20 ≤ ch → ch ≠ 0x7F →
  text_draws FONT_DATA (ch :: chars) (t, s) = true.
Proof.
  intros (Hw & Hh & _ & _ & Hx & Hy & _) [Hbx Hby] H20 H7F. cbn [fst] in *. unfold text_draws. cbn [length chars_draw].
  rewrite escape_printable by done. unfold char_draws, control_draws. cbn [fst].
  rewrite !(proj2 (Z.eqb_neq ch _)) by lia. cbn [orb].
  rewrite (proj2 (Z.ltb_lt (cursor_x t) _)), (proj2 (Z.ltb_lt (cursor_y t) _)) by lia. cbn [andb].
  unfold glyph_draws. rewrite Hfont. destruct (glyph_of_ok f ch Hdraw ltac:(lia)) as (_ & _ & ->).
  destruct Hdraw as (? & ? & ? & _). rewrite (checked_ok 64 (font_width f * font_height f)) by (unfold in_width; nia).
  rewrite (proj2 (Z.eqb_neq _ _)), (proj2 (Z.ltb_ge _ _)) by nia. done.
Qed.

#[refine] Definition tty_ConsoleLaws : @ConsoleLaws Output tty_Console := {| console_ok := tty_ok |}.
Proof.
  - by intros t [se ty sc].
  - intros t [se [ty|] sc] c'; cbn; [|by intros [= <-]].
    intros ([t' s'] & _ & E)%bind_Ret_inv. by injection E as <-.
  - by intros t [se ty sc] Hc.
  - intros t [se [ty|] sc] (Hfb & Hw & Hh & Hm) Ht; cbn [tty_write tty_Console on_tty tty screen serial].
    2:{ by apply returns_Ret. }
    destruct Hm as (w & h & n & P & tm & Hs & Hm & Hb). eapply returns_bind.
    + unfold write_str. eapply write_chars_models; [done..|lia|exact Hm|exact Hb|exact Ht].
    + intros [t' s'] [(P' & Hm') Hb']. apply returns_Ret. pose proof Hm' as (_ & _ & _ & _ & _ & _ & _ & Hd).
      split; [by eapply displays_some|]. split_and!; [lia|lia|lia|lia|]. by eexists w, h, n, P', _.
  - by intros [se [ty|] sc].
  - intros ch t [se [ty|] sc] (Hfb & Hw & Hh & Hm) Hp H20 H7F; [|done]. cbn [tty_draws tty_Console tty screen].
    destruct Hm as (w & h & n & P & tm & _ & Hm & Hb). by eapply text_draws_glyph.
  - intros [se [ty|] sc] (Hfb & Hw & Hh & Hm); cbn [tty_clear tty_Console on_tty tty screen serial].
    2:{ by apply returns_Ret. }
    destruct Hm as (w & h & n & P & tm & Hs & Hm & Hb).
    destruct Hm as (Hmw & Hmh & [Hn _] & _ & _ & _ & _ & (Hfh & fb & Hfb' & Hsh)). cbn [fst snd screen] in *.
    destruct sc as [ofb h0]. cbn [fst snd screen FRAMEBUFFER FONT_HEIGHT] in *. subst ofb h0. eapply returns_bind.
    + by eapply (clear_tty_models f i Hformat w h n ty fb).
    + intros k (t' & fb' & -> & Hm'). apply returns_Ret. pose proof Hm' as (_ & _ & _ & _ & _ & _ & _ & Hd).
      split; [by eapply displays_some|]. split_and!; [lia|lia|lia|lia|]. destruct Hs as (? & ? & ?).
      eexists w, h, n, _, _. split_and!; [done..|exact Hm'|split; cbn; lia].
  - intros b col [se [ty|] sc] (Hfb & Hw & Hh & Hm); cbn [tty_face tty_Console on_tty tty screen serial].
    2:{ by apply returns_Ret. }
    destruct Hm as (w & h & n & P & tm & Hs & Hm & Hb). eapply returns_bind.
    + instantiate (1 := λ k, ∃ P' tm', models f i w h n P' k tm' ∧ in_bounds w h tm').
      destruct b; (eapply draw_face_ok; [|done|exact Hm|exact Hb]); intros x y c fb Q ???.
      * by apply (faces_draw x y c fb Q true).
      * by apply (faces_draw x y c fb Q false).
    + intros [t' s'] (P' & tm' & Hm' & Hb'). apply returns_Ret. pose proof Hm' as (_ & _ & _ & _ & _ & _ & _ & Hd).
      split; [by eapply displays_some|]. split_and!; [lia|lia|lia|lia|]. by exists w, h, n, P', tm'.
  - intros c w h ((fb & Hfb & Hi & _) & Hw & Hh & Hm) Hres.
    pose proof Hfb as Hfb'. cbn [fb_resolution tty_Console] in Hres. rewrite Hfb in Hres.
    cbn [fmap option_fmap option_map] in Hres. unfold resolution in Hres.
    assert (Hfw : fb_width (fb_info fb) = w ∧ fb_height (fb_info fb) = h) by (split; congruence).
    rewrite Hi in Hfw. destruct Hfw as [<- <-]. lia.
Defined.
End instance_.

(** ** A console that only records, for the witnesses *)

Record Log : Type := mkLog { log_serial : list text; log_tty : list text; log_faces : list bool }.

Definition log_Console : Console Log := {|
  serial_write t l := mkLog (log_serial l ++ [t]) (log_tty l) (log_faces l);
  tty_present _ := true;
  tty_write t l := Ret (mkLog (log_serial l) (log_tty l ++ [t]) (log_faces l));
  tty_draws t _ := match t with ch :: _ => 0x20 <=? ch | [] => false end;
  tty_clear l := Ret (mkLog (log_serial l) [] (log_faces l));
  tty_face b _ l := Ret (mkLog (log_serial l) (log_tty l) (log_faces l ++ [b]));
  fb_resolution _ := Some (1280, 720);
|}.

#[refine] Definition log_ConsoleLaws : @ConsoleLaws Log log_Console := {| console_ok _ := True |}.
Proof.
  - done.
  - done.
  - done.
  - intros t c _ _. by apply returns_Ret.
  - done.
  - intros ch t c _ _ H20 _. cbn. by apply Z.leb_le.
  - intros c _. by apply returns_Ret.
  - intros b col c _. by apply returns_Ret.
  - intros c w h _ [= <- <-]. lia.
Defined.
