(* ===== verification/Syscall.v ===== *)
(** * System calls (kernel/src/syscall.rs)

    The handler of interrupt 0x80, the call it dispatches on [rax], and the
    stub that passes it the registers.  Memory is a function from addresses to
    bytes, with a parameter that says where the kernel's accesses fault: the
    handler uses the pointers of a program as they are, in kernel mode.  The
    checks the standard library itself makes of null pointers are left out (no
    page is at address 0).  Printing goes through the class [Console]; [rdrand]
    (kernel/src/main.rs) is an instruction, a parameter. *)

From Stdlib Require Import String.
From S2P Require Import Ustar Prelude Text Console Hardware Arch Sync Keyboard Apic Rtl8139 Interrupts.
Open Scope Z_scope.
Open Scope rust_scope.

Definition MAX_PRINT : Z := 4096.

(** [usize::MAX], the error code. *)
Definition FAILED : Z := uint_max 64.

(** [rdrand] of kernel/src/main.rs, over the instruction: a value and the
    carry flag. *)
Definition rdrand_asm {R} (instruction : R → Z * Z * R) (r : R) : option Z * R :=
  let '(value, ok, r) := instruction r in
  (if negb (ok =? 0) then Some value else None, r).

(** How memory is used. *)
Inductive access : Type := Reading | Writing.

Section syscall.
Context {C : Type} `{Console C} {R : Type} (rdrand : R → option Z * R).
(** Whether the kernel can read, or write, the byte at an address: there is a
    page, which it may write if it does.  The calls take the addresses a program
    gives them as they are. *)
Context (present : access → Z → bool).
(** What [file!], [line!] and [column!] print for the macro at a line of the
    source, and the successive loads of [TICK_COUNT]. *)
Context (here : Z → text) (ticks : nat → Z) (sleep_fuel : nat).

Record machine : Type := mkMachine { console : C; memory : Z → Z; entropy : R }.

Definition with_console (m : machine) (op : C → outcome C) : outcome machine :=
  c ← op (console m); Ret (mkMachine c (memory m) (entropy m)).

(** [core::str::from_utf8] on memory: it stops at the first byte that no text
    can have there, and faults where it comes to one it cannot read. *)
Fixpoint utf8_read (mem : Z → Z) (expect : list (Z * Z)) (p : Z) (n : nat) : outcome bool :=
  match n with
  | O => Ret (match expect with [] => true | _ => false end)
  | S n =>
      if negb (present Reading p) then Panic PageFault else
      match expect with
      | (lo, hi) :: expect => if (lo <=? mem p) && (mem p <=? hi) then utf8_read mem expect (p + 1) n else Ret false
      | [] => match utf8_start (mem p) with Some e => utf8_read mem e (p + 1) n | None => Ret false end
      end
  end.

(** A write of [n] bytes. *)
Definition touch (p n : Z) : outcome unit :=
  if forallb (present Writing) (seqZ p n) then Ret () else Panic PageFault.

Definition sys_print (rdi rsi rdx : Z) (m : machine) : outcome (Z * machine) :=
  if (rdx =? 0) || (MAX_PRINT <? rdx) || (rsi =? 0) then
    m ← with_console m (error (here 44)
          [txt "(SYSCALL) Bad print args! (Length "; decimal rdx; txt " at "; txt "0x"; hex rsi; txt ")"]);
    Ret (FAILED, m)
  else
    valid ← utf8_read (memory m) [] rsi (Z.to_nat rdx);
    if (valid : bool) then
      let s := chars (read_bytes (memory m) rsi rdx) in
      let out (op : C → outcome C) := m ← with_console m op; Ret (rdx, m) in
      if rdi =? 1 then out (print [s])
      else if rdi =? 2 then out (info [s])
      else if rdi =? 3 then out (warning (here 53) [s])
      else if rdi =? 4 then out (error (here 54) [s])
      else if rdi =? 5 then out (nftodo (here 55) [s])
      else Ret (FAILED, m)
    else
      m ← with_console m (warning (here 59)
            [txt "Seemingly garbage data at "; txt "0x"; hex rsi; txt ". Size: "; decimal rdx; txt " bytes"]);
      Ret (rdx, m).

(** At most [n] tries. *)
Fixpoint random_tries (n : nat) (r : R) : Z * R :=
  match n with
  | O => (FAILED, r)
  | S n => let '(o, r) := rdrand r in match o with Some v => (v, r) | None => random_tries n r end
  end.

Definition sys_random (m : machine) : outcome (Z * machine) :=
  let '(v, r) := random_tries 25 (entropy m) in Ret (v, mkMachine (console m) (memory m) r).

Definition sys_inttostr (rdi rsi rdx : Z) (m : machine) : outcome (Z * machine) :=
  let istr := as_bytes (decimal rdx) in
  let to_write := Z.min (zlen istr) rsi in
  if to_write =? 0 then Ret (FAILED, m) else
  bs ← slice istr 0 to_write;
  _ ← touch rdi to_write;
  Ret (to_write, mkMachine (console m) (write_bytes (memory m) rdi bs) (entropy m)).

Definition sys_face (rdi : Z) (m : machine) : outcome (Z * machine) :=
  if rdi =? 1 then m ← with_console m yay_macro; Ret (0, m)
  else if rdi =? 2 then m ← with_console m sad_macro; Ret (0, m)
  else Ret (FAILED, m).

Definition syscall_handler (rax rdi rsi rdx r10 r8 r9 : Z) (m : machine) : outcome (Z * machine) :=
  if rax =? 0 then Ret (0, m)     (* the filename is made and dropped *)
  else if rax =? 1 then sys_print rdi rsi rdx m
  else if rax =? 2 then Panic ExplicitPanic
  else if rax =? 3 then _ ← sleep_ms sleep_fuel ticks rdi; Ret (0, m)
  else if rax =? 4 then sys_random m
  else if rax =? 5 then sys_inttostr rdi rsi rdx m
  else if rax =? 6 then sys_face rdi m
  else if rax =? 7 then
    m ← with_console m (nftodo (here 113) [txt "(SYSCALL) Syscall 7 (listdir)"]); Ret (0, m)
  else if rax =? 8 then
    m ← with_console m (nftodo (here 118) [txt "(SYSCALL) Syscall 8 (filesize)"]); Ret (0, m)
  else
    m ← with_console m (error (here 123) [txt "(SYSCALL) Invalid syscall number "; decimal rax; txt "!"]);
    Ret (FAILED, m).

(** ** The stub *)

(** The registers of the interrupted program that the stub touches. *)
Record Cpu : Type := mkCpu {
  rax : Z; rdi : Z; rsi : Z; rdx : Z; r10 : Z; r8 : Z; r9 : Z; rsp : Z;
}.

(** [Regs] of the source: its fields in the order of the struct. *)
Record Regs : Type := mkRegs {
  reg_rax : Z; reg_rdi : Z; reg_rsi : Z; reg_rdx : Z; reg_r10 : Z; reg_r8 : Z; reg_r9 : Z;
}.

(** The kernel stack, by words. *)
Definition push (v : Z) '((sp, stack) : Z * (Z → Z)) : Z * (Z → Z) :=
  let sp := sp - 8 in (sp, λ a, if a =? sp then v else stack a).

Definition load_regs (stack : Z → Z) (p : Z) : Regs :=
  mkRegs (stack p) (stack (p + 8)) (stack (p + 16)) (stack (p + 24)) (stack (p + 32)) (stack (p + 40)) (stack (p + 48)).

Definition syscall_from_stub (regs_ptr : Z) (stack : Z → Z) (m : machine) : outcome (Z * machine) :=
  let regs := load_regs stack regs_ptr in
  syscall_handler (reg_rax regs) (reg_rdi regs) (reg_rsi regs) (reg_rdx regs) (reg_r10 regs) (reg_r8 regs) (reg_r9 regs) m.

(** From entry to [iretq]: what the call returns is in [rax], and the stack
    pointer at [iretq]; the other registers are whatever the call left in them. *)
Definition int80_entry (c : Cpu) (stack : Z → Z) (m : machine) : outcome (Z * Z * machine) :=
  let st := (rsp c, stack) in
  let st := push (r9 c) st in
  let st := push (r8 c) st in
  let st := push (r10 c) st in
  let st := push (rdx c) st in
  let st := push (rsi c) st in
  let st := push (rdi c) st in
  let '(sp, stack) := push (rax c) st in
  '(ret, m) ← syscall_from_stub sp stack m;
  Ret (ret, sp + 56, m).

(** ** Lemmas *)

Lemma pushed_regs c stack :
  let st := push (rax c) (push (rdi c) (push (rsi c) (push (rdx c) (push (r10 c) (push (r8 c)
              (push (r9 c) (rsp c, stack))))))) in
  load_regs st.2 st.1 = mkRegs (rax c) (rdi c) (rsi c) (rdx c) (r10 c) (r8 c) (r9 c) ∧ st.1 + 56 = rsp c.
Proof.
  unfold push, load_regs. cbn [fst snd]. split; [|lia].
  f_equal; repeat (rewrite (proj2 (Z.eqb_neq _ _)) by lia); by rewrite (proj2 (Z.eqb_eq _ _)) by lia.
Qed.

Lemma digits_as_bytes ds : Forall (λ c, 0x30 ≤ c ≤ 0x39) ds → as_bytes ds = ds.
Proof.
  induction 1 as [|c ds Hc Hds IH]; [done|]. unfold as_bytes in *. cbn [mbind list_bind]. rewrite IH.
  unfold utf8_char. by rewrite (proj2 (Z.ltb_lt c 0x80)) by lia.
Qed.

(** The first success of at most [n] tries. *)
Fixpoint outcomes (n : nat) (r : R) : list (option Z) :=
  match n with O => [] | S n => let '(o, r) := rdrand r in o :: outcomes n r end.

Lemma random_tries_first n r :
  (random_tries n r).1 = default FAILED (list_find (λ o, is_Some o) (outcomes n r) ≫= λ '(_, o), o).
Proof.
  revert r. induction n as [|n IH]; intros r; cbn [random_tries outcomes]; [done|].
  destruct (rdrand r) as [[v|] r']; cbn [list_find]; [done|]. rewrite IH.
  destruct (list_find (λ o, is_Some o) (outcomes n r')) as [[k o]|]; done.
Qed.

(** Every byte can be read, or written. *)
Definition pages_at (k : access) (p n : Z) : Prop := ∀ a, p ≤ a < p + n → present k a = true.

Lemma utf8_read_present mem expect p n :
  pages_at Reading p (Z.of_nat n) → utf8_read mem expect p n = Ret (utf8_from expect (read_bytes mem p (Z.of_nat n))).
Proof.
  revert expect p. induction n as [|n IH]; intros expect p Hp; [by destruct expect as [|[lo hi] ?]|].
  unfold read_bytes. rewrite seqZ_cons by lia. cbn [utf8_read fmap list_fmap utf8_from].
  rewrite (Hp p) by lia. cbn [negb]. replace (Z.pred (Z.of_nat (S n))) with (Z.of_nat n) by lia.
  assert (Hn : pages_at Reading (p + 1) (Z.of_nat n)) by (intros a Ha; apply Hp; lia).
  destruct expect as [|[lo hi] expect].
  - destruct (utf8_start (mem p)) as [e|]; [by apply IH|done].
  - destruct (_ && _); [by apply IH|done].
Qed.

Lemma touch_present p n : pages_at Writing p n → touch p n = Ret ().
Proof.
  intros Hp. unfold touch. rewrite (proj2 (forallb_forall (present Writing) (seqZ p n))); [done|].
  intros a Ha. apply list_elem_of_In, elem_of_seqZ in Ha. by apply Hp.
Qed.

Lemma touch_absent p n a : p ≤ a < p + n → present Writing a = false → touch p n = Panic PageFault.
Proof.
  intros Ha Hf. unfold touch. destruct (forallb (present Writing) (seqZ p n)) eqn:E; [|done].
  rewrite forallb_forall in E. rewrite (E a) in Hf; [done|]. by apply list_elem_of_In, elem_of_seqZ.
Qed.

Context `{!ConsoleLaws C} (Hhere : ∀ n, Forall char_ok (here n)).

Definition machine_ok (m : machine) : Prop := console_ok (console m) ∧ ∀ a, 0 ≤ memory m a.

Lemma with_console_ok m op :
  machine_ok m → (∀ c, console_ok c → returns (op c) console_ok) → returns (with_console m op) machine_ok.
Proof.
  intros [Hc Hm] Hop. eapply returns_bind; [by apply Hop|]. intros c Hc'. apply returns_Ret. by split.
Qed.

Lemma with_console_val_ok m op v :
  machine_ok m → (∀ c, console_ok c → returns (op c) console_ok) → 0 ≤ v < 2 ^ 64 →
  returns (m ← with_console m op; Ret (v, m)) (λ '(v, m), 0 ≤ v < 2 ^ 64 ∧ machine_ok m).
Proof.
  intros Hm Hop Hv. eapply returns_bind; [by apply with_console_ok|]. intros m' Hm'. by apply returns_Ret.
Qed.

Lemma FAILED_range : 0 ≤ FAILED < 2 ^ 64.
Proof. unfold FAILED, uint_max. lia. Qed.

Lemma sys_print_ok rdi rsi rdx m :
  0 ≤ rdx < 2 ^ 64 → 0 ≤ rsi < 2 ^ 64 → machine_ok m → (1 ≤ rdx ≤ MAX_PRINT → rsi ≠ 0 → pages_at Reading rsi rdx) →
  returns (sys_print rdi rsi rdx m) (λ '(v, m), 0 ≤ v < 2 ^ 64 ∧ machine_ok m).
Proof.
  intros Hd Hs Hm Hpg. pose proof FAILED_range. unfold sys_print.
  assert (Hp : ∀ p, Forall char_ok p → pieces_ok [p]) by (intros p ?; by repeat constructor).
  destruct (_ || _) eqn:Hbad.
  { apply with_console_val_ok; [done| |done]. intros c Hc. apply error_ok; [done..|].
    repeat (constructor; [auto using txt_ok, decimal_ok, hex_ok with lia|]). constructor. }
  rewrite !orb_false_iff, !Z.eqb_neq, Z.ltb_ge in Hbad. destruct Hbad as [[Hd0 Hmax] Hs0].
  rewrite utf8_read_present, bind_Ret by (rewrite Z2Nat.id by lia; apply Hpg; lia). rewrite Z2Nat.id by lia.
  destruct (utf8_from [] _).
  - assert (Hsk : Forall char_ok (chars (read_bytes (memory m) rsi rdx))).
    { apply chars_ok. unfold read_bytes. apply Forall_fmap, Forall_true. intros a. apply (proj2 Hm). }
    repeat (destruct (_ =? _);
      [apply with_console_val_ok; [done| |done]; intros c Hc; auto using print_ok, info_ok, warning_ok, error_ok, nftodo_ok|]).
    by apply returns_Ret.
  - apply with_console_val_ok; [done| |done]. intros c Hc. apply warning_ok; [done..|].
    repeat (constructor; [auto using txt_ok, decimal_ok, hex_ok with lia|]). constructor.
Qed.

Lemma sys_inttostr_ok rdi rsi rdx m :
  0 ≤ rdx < 2 ^ 64 → 0 ≤ rsi < 2 ^ 64 → machine_ok m → pages_at Writing rdi (Z.min (zlen (decimal rdx)) rsi) →
  returns (sys_inttostr rdi rsi rdx m) (λ '(v, m), 0 ≤ v < 2 ^ 64 ∧ machine_ok m).
Proof.
  intros Hd Hs [Hc Hm] Hpg. destruct (decimal_spec rdx Hd) as (_ & Hl & _ & Hf). unfold sys_inttostr.
  rewrite digits_as_bytes by done. pose proof (zlen_nonneg (decimal rdx)).
  destruct (_ =? 0); [by apply returns_Ret; split; [apply FAILED_range|]|].
  rewrite slice_ok by lia. rewrite bind_Ret, touch_present by done. apply returns_Ret. split; [lia|]. split; [done|].
  intros a. cbn [memory].
  unfold write_bytes. case_bool_decide; [|apply Hm].
  destruct (sub_list _ _ _ !! _) as [b|] eqn:Hb; [|done].
  unfold sub_list in Hb. apply lookup_take_Some in Hb as [Hb _]. rewrite lookup_drop in Hb.
  pose proof (Forall_lookup_1 _ _ _ _ Hf Hb). simpl in *. lia.
Qed.

Context (Hrand : ∀ r v r', rdrand r = (Some v, r') → 0 ≤ v < 2 ^ 64).

Lemma random_tries_range n r : 0 ≤ (random_tries n r).1 < 2 ^ 64.
Proof.
  revert r. induction n as [|n IH]; intros r; cbn [random_tries]; [apply FAILED_range|].
  destruct (rdrand r) as [[v|] r'] eqn:Hr; [by eapply Hrand|apply IH].
Qed.

(** ** Properties *)

(** The stub hands the call exactly the interrupted program's registers,
    in the order of the struct, returns the call's result in [rax], and leaves
    the stack pointer where it was at entry. *)
Theorem int80_passes_registers (c : Cpu) (stack : Z → Z) (m : machine) :
  int80_entry c stack m =
    ('(ret, m) ← syscall_handler (rax c) (rdi c) (rsi c) (rdx c) (r10 c) (r8 c) (r9 c) m;
     Ret (ret, rsp c, m)).
Proof.
  unfold int80_entry. destruct (pushed_regs c stack) as [Hl Hsp]. cbv zeta in *.
  destruct (push (rax c) _) as [sp st]. cbn [fst snd] in *. unfold syscall_from_stub. rewrite Hl. cbn.
  destruct (syscall_handler _ _ _ _ _ _ _ m) as [[ret m']| |]; [|done|done]. rewrite !bind_Ret. by rewrite Hsp.
Qed.

(** The bytes a call touches can be read, or written. *)
Definition accessible (rax rdi rsi rdx : Z) : Prop :=
  (rax = 1 → 1 ≤ rdx ≤ MAX_PRINT → rsi ≠ 0 → pages_at Reading rsi rdx) ∧
  (rax = 5 → pages_at Writing rdi (Z.min (zlen (decimal rdx)) rsi)).

(** Every call but the panic and the sleep returns a 64-bit value,
    whatever the registers and the memory, and leaves a working console, if
    what it touches is there. *)
Theorem syscalls_return (rax rdi rsi rdx r10 r8 r9 : Z) (m : machine) :
  0 ≤ rax < 2 ^ 64 → 0 ≤ rsi < 2 ^ 64 → 0 ≤ rdx < 2 ^ 64 → rax ≠ 2 → rax ≠ 3 → machine_ok m →
  accessible rax rdi rsi rdx →
  returns (syscall_handler rax rdi rsi rdx r10 r8 r9 m) (λ '(v, m), 0 ≤ v < 2 ^ 64 ∧ machine_ok m).
Proof.
  intros Ha Hs Hd H2 H3 Hm [Hp1 Hp5]. pose proof FAILED_range. unfold syscall_handler.
  rewrite (proj2 (Z.eqb_neq rax 2)), (proj2 (Z.eqb_neq rax 3)) by done.
  destruct (rax =? 0); [by apply returns_Ret|].
  destruct (Z.eqb_spec rax 1); [by apply sys_print_ok; auto|].
  destruct (rax =? 4).
  { unfold sys_random. pose proof (random_tries_range 25 (entropy m)). destruct (random_tries 25 _) as [v r].
    by apply returns_Ret. }
  destruct (Z.eqb_spec rax 5); [by apply sys_inttostr_ok; auto|].
  destruct (rax =? 6).
  { unfold sys_face. destruct (rdi =? 1); [|destruct (rdi =? 2)].
    - apply with_console_val_ok; [done|intros; by apply yay_macro_ok|lia].
    - apply with_console_val_ok; [done|intros; by apply sad_macro_ok|lia].
    - by apply returns_Ret. }
  assert (Hone : ∀ s, pieces_ok [txt s]) by (intros s; repeat constructor; apply txt_ok).
  destruct (rax =? 7); [|destruct (rax =? 8)].
  - apply with_console_val_ok; [done|intros c Hc; by apply nftodo_ok|lia].
  - apply with_console_val_ok; [done|intros c Hc; by apply nftodo_ok|lia].
  - apply with_console_val_ok; [done| |done]. intros c Hc. apply error_ok; [done..|].
    repeat (constructor; [auto using txt_ok, decimal_ok|]). constructor.
Qed.

(** Print writes the text of its buffer: for the UTF-8 bytes of a text, of
    1 to 4096 bytes at a non-zero address, service 1 prints the text, 2 to 5 log
    it, and the call returns the length; every other service, length or address
    prints no text of the program and fails. *)
Theorem syscall_print_exact (rdi rsi rdx r10 r8 r9 : Z) (t : text) (m : machine) :
  Forall is_scalar t → read_bytes (memory m) rsi rdx = as_bytes t → 0 ≤ rdx → 0 ≤ rsi → pages_at Reading rsi rdx →
  syscall_handler 1 rdi rsi rdx r10 r8 r9 m =
    if bool_decide (1 ≤ rdx ≤ 4096 ∧ rsi ≠ 0) then
      match (if rdi =? 1 then Some (print [t]) else if rdi =? 2 then Some (info [t])
             else if rdi =? 3 then Some (warning (here 53) [t]) else if rdi =? 4 then Some (error (here 54) [t])
             else if rdi =? 5 then Some (nftodo (here 55) [t]) else None) with
      | Some op => m ← with_console m op; Ret (rdx, m)
      | None => Ret (FAILED, m)
      end
    else
      m ← with_console m (error (here 44)
        [txt "(SYSCALL) Bad print args! (Length "; decimal rdx; txt " at "; txt "0x"; hex rsi; txt ")"]);
      Ret (FAILED, m).
Proof.
  intros Ht Hb Hd Hs Hpg. change (syscall_handler 1 rdi rsi rdx r10 r8 r9 m) with (sys_print rdi rsi rdx m).
  unfold sys_print, MAX_PRINT. rewrite utf8_read_present, bind_Ret by by rewrite Z2Nat.id.
  rewrite Z2Nat.id, Hb, as_bytes_valid by done. cbv iota. rewrite chars_as_bytes by done.
  destruct (Z.eqb_spec rdx 0), (Z.ltb_spec 4096 rdx), (Z.eqb_spec rsi 0); simpl orb; cbv iota;
    case_bool_decide; try lia; try done.
  repeat (destruct (_ =? _); [done|]). done.
Qed.

(** C29: Inttostr writes the decimal digits of [rdx], as many as fit the
    buffer, and nothing else: with room for all of them, reading them back gives
    the number; a buffer of no bytes fails; and one with a byte that cannot
    be written faults in the kernel. *)
Theorem inttostr_round_trip (rdi rsi n r10 r8 r9 : Z) (m : machine) :
  0 ≤ n < 2 ^ 64 → 0 ≤ rsi < 2 ^ 64 →
  let k := Z.min (zlen (decimal n)) rsi in
  if rsi =? 0 then syscall_handler 5 rdi rsi n r10 r8 r9 m = Ret (FAILED, m)
  else
    (pages_at Writing rdi k → ∃ m', syscall_handler 5 rdi rsi n r10 r8 r9 m = Ret (k, m') ∧
      1 ≤ k ≤ 20 ∧ console m' = console m ∧ read_bytes (memory m') rdi k = sub_list (decimal n) 0 k ∧
      (∀ a, ¬ (rdi ≤ a < rdi + k) → memory m' a = memory m a) ∧
      (20 ≤ rsi → number 0 (read_bytes (memory m') rdi k) = n)) ∧
    (∀ a, rdi ≤ a < rdi + k → present Writing a = false → syscall_handler 5 rdi rsi n r10 r8 r9 m = Panic PageFault).
Proof.
  intros Hn Hs k. change (syscall_handler 5 rdi rsi n r10 r8 r9 m) with (sys_inttostr rdi rsi n m).
  destruct (decimal_spec n Hn) as (Hv & Hl & Hne & Hf). unfold sys_inttostr. rewrite digits_as_bytes by done.
  assert (0 < zlen (decimal n)) by (unfold zlen; destruct (decimal n); [done|simpl; lia]).
  destruct (Z.eqb_spec rsi 0) as [E|Hne0]; [by rewrite E, Z.min_r by lia|].
  rewrite (proj2 (Z.eqb_neq _ _)) by lia. rewrite slice_ok by lia. rewrite bind_Ret. fold k.
  assert (Hk : zlen (sub_list (decimal n) 0 k) = k) by (rewrite zlen_sub_list; lia).
  split; [intros Hpg; rewrite touch_present by done|intros a Ha Hfa; by rewrite (touch_absent _ _ a)].
  eexists. split; [reflexivity|].
  pose proof (read_write_bytes (memory m) rdi (sub_list (decimal n) 0 k)) as Hrw. rewrite Hk in Hrw.
  cbn [console memory]. split_and!; [lia|lia|done|done| |].
  - intros a Ha. unfold write_bytes. by rewrite Hk, bool_decide_eq_false_2.
  - intros Hbig. rewrite Hrw. unfold k. rewrite Z.min_l by lia. by rewrite sub_list_full.
Qed.

(** Sleeping in a system call never ends: the gate of interrupt 0x80
    leaves interrupts off, the timer does not count, and the loop goes on
    whatever its fuel. *)
Theorem syscall_sleep_hangs (rdi rsi rdx r10 r8 r9 : Z) (m : machine) :
  (∀ j, ticks j = ticks 0%nat) → 0 < rdi → 0 ≤ ticks 0%nat → ticks 0%nat + rdi < 2 ^ 64 →
  syscall_handler 3 rdi rsi rdx r10 r8 r9 m = OutOfFuel.
Proof.
  intros Ht Hd H0 Hm. unfold syscall_handler. cbn [Z.eqb Pos.eqb]. unfold sleep_ms. checked_step.
  rewrite sleep_loop_stuck; [done|]. intros j. rewrite (Ht j). lia.
Qed.
End syscall.

(** A call that returns does so wherever more pages are there. *)
Section more_pages.
Context {C : Type} `{Console C} {R : Type} (rdrand : R → option Z * R) (here : Z → text) (ticks : nat → Z) (sleep_fuel : nat).
Context (present more : access → Z → bool) (Hmore : ∀ k a, present k a = true → more k a = true).

Lemma utf8_read_more mem expect p n b : utf8_read present mem expect p n = Ret b → utf8_read more mem expect p n = Ret b.
Proof.
  revert expect p. induction n as [|n IH]; intros expect p; cbn [utf8_read]; [done|].
  destruct (present Reading p) eqn:Hp; [|done]. rewrite (Hmore Reading p Hp). cbn [negb]. destruct expect as [|[lo hi] expect].
  - destruct (utf8_start (mem p)); [apply IH|done].
  - destruct (_ && _); [apply IH|done].
Qed.

Lemma touch_more p n : touch present p n = Ret () → touch more p n = Ret ().
Proof.
  unfold touch. destruct (forallb (present Writing) (seqZ p n)) eqn:E; [intros _|done]. rewrite forallb_forall in E.
  rewrite (proj2 (forallb_forall (more Writing) (seqZ p n))); [done|]. intros a Ha. by apply Hmore, E.
Qed.

Lemma syscall_more rax rdi rsi rdx r10 r8 r9 m x :
  syscall_handler rdrand present here ticks sleep_fuel rax rdi rsi rdx r10 r8 r9 m = Ret x →
  syscall_handler rdrand more here ticks sleep_fuel rax rdi rsi rdx r10 r8 r9 m = Ret x.
Proof.
  unfold syscall_handler. destruct (rax =? 0); [done|]. destruct (rax =? 1).
  { unfold sys_print. destruct (_ || _); [done|].
    destruct (utf8_read present _ _ _ _) as [b| |] eqn:E; [|done..]. by rewrite (utf8_read_more _ _ _ _ _ E). }
  destruct (rax =? 2); [done|]. destruct (rax =? 3); [done|]. destruct (rax =? 4); [done|].
  destruct (rax =? 5); [|done]. unfold sys_inttostr. destruct (_ =? 0); [done|]. destruct (slice _ _ _) as [bs| |]; [|done..].
  rewrite !bind_Ret. destruct (touch present _ _) as [[]| |] eqn:E; [|done..]. by rewrite (touch_more _ _ E).
Qed.
End more_pages.

(** ** Samples *)

#[local] Existing Instances log_Console log_ConsoleLaws.

(** A machine whose memory holds a greeting at 0x1000. *)
Definition greeting : list Z := as_bytes (txt "hi").
Definition sample_machine : machine (C := Log) (R := unit) :=
  mkMachine (mkLog [] [] []) (write_bytes (λ _, 0) 0x1000 greeting) ().
Definition sample_rdrand (r : unit) : option Z * unit := (Some 42, r).
Definition sample_here (line : Z) : text := decimal line.

Lemma syscalls_return_witness :
  returns (syscall_handler sample_rdrand (λ _ _, true) (λ n, txt "here") (λ _, 0) 0 4 0 0 0 0 0 0 sample_machine)
    (λ '(v, _), 0 ≤ v < 2 ^ 64).
Proof.
  eapply returns_mono.
  - apply (syscalls_return sample_rdrand (λ _ _, true) (λ n, txt "here") (λ _, 0) 0 (λ _, txt_ok "here")); [|lia..| |by split].
    + intros r v r' [= <- _]. lia.
    + split; [done|]. intros a. unfold sample_machine, write_bytes. cbn [memory]. case_bool_decide as Ha; [|lia].
      change (zlen greeting) with 2 in Ha.
      assert (Hcase : a = 0x1000 ∨ a = 0x1001) by lia. destruct Hcase as [->| ->]; vm_compute; discriminate.
  - intros [v m'] [Hv _]. exact Hv.
Defined.

Lemma greeting_ok : Forall is_scalar (txt "hi").
Proof. change (Forall is_scalar [0x68; 0x69]). repeat (apply Forall_cons; split; [unfold is_scalar; lia|]). constructor. Qed.

Lemma greeting_read : read_bytes (memory sample_machine) 0x1000 2 = as_bytes (txt "hi").
Proof. vm_compute. reflexivity. Qed.

Lemma syscall_print_exact_witness :
  syscall_handler sample_rdrand (λ _ _, true) sample_here (λ _, 0) 0 1 1 0x1000 2 0 0 0 sample_machine =
    (m ← with_console sample_machine (print [txt "hi"]); Ret (2, m)).
Proof.
  pose proof (syscall_print_exact sample_rdrand (λ _ _, true) sample_here (λ _, 0) 0 1 0x1000 2 0 0 0 (txt "hi") sample_machine
    greeting_ok greeting_read ltac:(lia) ltac:(lia) (λ _ _, eq_refl)) as Hw.
  rewrite bool_decide_eq_true_2 in Hw by lia. exact Hw.
Defined.

Lemma inttostr_round_trip_witness :
  ∃ m, syscall_handler sample_rdrand (λ _ _, true) sample_here (λ _, 0) 0 5 0x2000 20 1234 0 0 0 sample_machine = Ret (4, m) ∧
    number 0 (read_bytes (memory m) 0x2000 4) = 1234.
Proof.
  destruct (inttostr_round_trip sample_rdrand (λ _ _, true) sample_here (λ _, 0) 0 0x2000 20 1234 0 0 0 sample_machine)
    as [Hw _]; [lia|lia|]. destruct (Hw (λ _ _, eq_refl)) as (m & Hc & _ & _ & _ & _ & Hv).
  exists m. split; [exact Hc|]. apply Hv. lia.
Defined.

Lemma syscall_sleep_hangs_witness :
  syscall_handler sample_rdrand (λ _ _, true) sample_here (λ _, 7) 100 3 5 0 0 0 0 0 sample_machine = OutOfFuel.
Proof. apply (syscall_sleep_hangs sample_rdrand (λ _ _, true) sample_here (λ _, 7) 100); [done|lia|lia|lia]. Defined.
