(* ===== verification/Commandline.v ===== *)
(** * The command line (kernel/src/commandline.rs)

    The registry of commands and its twelve commands, the parsing of a line and
    what Enter, Backspace and the other keys do.  A command's function pointer
    is a constructor of [func], applied by [run_func].  Decoding scancodes to
    keys is the crate pc_keyboard's; printing goes through the class [Console]
    and the archive through [Ustar]. *)

From Stdlib Require Import String.
From S2P Require Import Ustar Hardware Prelude Text Console.
Open Scope Z_scope.
Open Scope rust_scope.

(** ** Commands *)

Inductive func : Type :=
| license | credits | smiley | sad | clear | whoami | panic_ | shutdown | help | res | ls | cat.

#[export] Instance func_eq_dec : EqDecision func.
Proof. solve_decision. Defined.

Record Command : Type := mkCommand {
  name : text;
  aliases : list text;
  help_message : text;
  command_func : func;
}.

#[export] Instance Command_eq_dec : EqDecision Command.
Proof. solve_decision. Defined.

Definition Command_get_name (c : Command) : text := name c.
Definition Command_get_aliases (c : Command) : list text := aliases c.
Definition Command_get_help_msg (c : Command) : text := help_message c.

Definition CommandRegistry : Type := list Command.

Definition registry_new : CommandRegistry := [].

Definition registry_push (r : CommandRegistry) (c : Command) : CommandRegistry := r ++ [c].

(** [Vec::pop]. *)
Definition registry_pop (r : CommandRegistry) : option Command * CommandRegistry :=
  match rev r with [] => (None, r) | c :: r' => (Some c, rev r') end.

Definition get_help (r : CommandRegistry) : text :=
  foldl (λ s cmd, s ++ name cmd ++ txt " | " ++ help_message cmd ++ NL) (txt "=| Help |===============" ++ NL) r.

(** [cmd.name == name || cmd.aliases.contains(&name)]. *)
Definition answers (s : text) (cmd : Command) : bool :=
  bool_decide (name cmd = s) || bool_decide (s ∈ aliases cmd).

Definition search (r : CommandRegistry) (s : text) : option Command := List.find (answers s) r.

Definition init_command_registry : CommandRegistry :=
  let license_cmd := mkCommand (txt "license") [txt "lic"; txt "l"]
    (txt "Displays the Lemoncake license and copyright information.") license in
  let credits_cmd := mkCommand (txt "credits") [txt "cred"; txt "c"]
    (txt "Displays credits to the contributer(s) of Lemoncake.") credits in
  let smiley_cmd := mkCommand (txt "smiley") [txt "yay"; txt ":D"; txt ":)"] (txt "Prints a smiley face :)") smiley in
  let sad_cmd := mkCommand (txt "sad") [txt "nay"; txt "D:"; txt ":("] (txt "Prints a sad face :(") sad in
  let clear_cmd := mkCommand (txt "clear") [txt "claer"; txt "clera"; txt "cear"] (txt "Clears the TTY.") clear in
  let whoami_cmd := mkCommand (txt "whoami") [] (txt "Tells you who you are.") whoami in
  let panic_cmd := mkCommand (txt "panic") [] (txt "Panics the system.") panic_ in
  let shutdown_cmd := mkCommand (txt "shutdown") [txt "poweroff"]
    (txt "Powers off the VM. (does not work on real hw!)") shutdown in
  let help_cmd := mkCommand (txt "help") [txt "hlep"; txt "h"; txt "?"] (txt "Displays this message.") help in
  let res_cmd := mkCommand (txt "res") [txt "resolution"] (txt "Displays the current resolution.") res in
  let ls_cmd := mkCommand (txt "ls") [txt "listdir"] (txt "Lists all files in filesystem.") ls in
  let cat_cmd := mkCommand (txt "cat") [txt "readfile"] (txt "Reads data from a file.") cat in
  let reg := registry_new in
  let reg := registry_push reg license_cmd in
  let reg := registry_push reg credits_cmd in
  let reg := registry_push reg smiley_cmd in
  let reg := registry_push reg sad_cmd in
  let reg := registry_push reg clear_cmd in
  let reg := registry_push reg whoami_cmd in
  let reg := registry_push reg panic_cmd in
  let reg := registry_push reg shutdown_cmd in
  let reg := registry_push reg res_cmd in
  let reg := registry_push reg ls_cmd in
  let reg := registry_push reg cat_cmd in
  registry_push reg help_cmd.

(** ** What the commands do *)

Definition usage : list text :=
  [txt "Usage:"; txt "  shutdown <vm_type>"; txt "  poweroff <vm_type>"; txt "Examples:"; txt "  shutdown qemu";
   txt "  shutdown bochs"; txt "  poweroff vbox"; txt "  poweroff old_qemu"; txt "Note: old_qemu is the same as bochs."].

Definition license_text : text := lines
  [txt "Lemoncake is licensed under the 2-Clause (simplified) BSD License"; txt "(c) SniverDaBest 2025"; [];
   txt "Spleen (the font used) is also licensed under the 2-Clause (simplified) BSD License."].
Definition credits_text : text := lines
  [txt "Lemoncake is developed by SniverDaBest, and uses some external crates/libraries, most of which are developed by the Rust OSDev community.";
   txt "It uses some code from Ruddle/Fomos on GitHub for the APIC and IOAPIC.";
   txt "The font used be default is called " ++ QUOTE ++ txt "Spleen" ++ QUOTE ++
     txt ", and can be found at fcambus/spleen on GitHub."].
Definition whoami_text : text :=
  txt "You're the user... why would you need to ask who you are? I feel like you should be able to figure that out by yourself. If you can't, then go see a doctor, or maybe go to the ER.".

Section commandline.
Context {C : Type} `{Console C} {HW : Type} `{Hardware HW}.
(** [str::to_lowercase]; the text that printing bytes that are not UTF-8 as an
    unchecked [str] writes; and what [file!], [line!] and [column!] print. *)
Context (to_lowercase : text → text) (unchecked : list Z → text) (here : Z → text).

Record shell : Type := mkShell {
  con : C;
  ports : HW;
  FS : option (list Z);                          (* the archive's bytes *)
  COMMAND_REGISTRY : option CommandRegistry;
}.

Definition with_con (k : shell) (op : C → outcome C) : outcome shell :=
  c ← op (con k); Ret (mkShell c (ports k) (FS k) (COMMAND_REGISTRY k)).

(** [op] and the return code [code]. *)
Definition says (op : C → outcome C) (code : Z) (k : shell) : outcome (Z * shell) :=
  k ← with_con k op; Ret (code, k).

Definition power (p v : Z) (k : shell) : shell :=
  mkShell (con k) (port_out 4 p v (ports k)) (FS k) (COMMAND_REGISTRY k).

Definition run_shutdown (args : list text) (k : shell) : outcome (Z * shell) :=
  match args with
  | [a] =>
      let t := to_lowercase a in
      if bool_decide (t = txt "qemu") then Ret (0, power 0x604 0x2000 k)
      else if bool_decide (t = txt "bochs") || bool_decide (t = txt "old_qemu") then Ret (0, power 0xB004 0x2000 k)
      else if bool_decide (t = txt "vbox") || bool_decide (t = txt "virtualbox") then Ret (0, power 0x4004 0x3400 k)
      else says (print [txt "Type " ++ QUOTE; t; QUOTE ++ txt " is invalid!" ++ NL ++ lines usage ++ NL]) 0 k
  | _ => says (print [lines usage ++ NL]) 1 k
  end.

Definition run_res (k : shell) : outcome (Z * shell) :=
  match fb_resolution (con k) with
  | Some (w, h) => says (println [txt "Current resolution: "; decimal w; txt "x"; decimal h]) 0 k
  | None => says (print [txt "Unable to get the framebuffer!" ++ NL]) 1 k
  end.

(** The files [ls] collects: at most [n]. *)
Fixpoint ls_loop (n : nat) (it : USTarFileIterator) : outcome (list (text * Z)) :=
  match n with
  | O => Ret []
  | S n =>
      '(o, it) ← next it;
      match o with
      | None => Ret []
      | Some file => rest ← ls_loop n it; Ret ((chars (get_name file), get_size file) :: rest)
      end
  end.

Fixpoint print_files (fs : list (text * Z)) (c : C) : outcome C :=
  match fs with
  | [] => Ret c
  | (n, sz) :: fs => c ← print [n; txt ": "; decimal sz; txt " bytes" ++ NL] c; print_files fs c
  end.

(** The loop breaks behind the file that makes [count] greater than 1000. *)
Definition run_ls (k : shell) : outcome (Z * shell) :=
  match FS k with
  | Some d =>
      fs ← ls_loop 1001 (files d);
      k ← with_con k (print [txt "Found "; decimal (zlen fs); txt " files" ++ NL]);
      says (print_files fs) 0 k
  | None => says (print [txt "Filesystem is not initialized!" ++ NL]) 1 k
  end.

(** [str::from_utf8_unchecked]. *)
Definition unchecked_text (bs : list Z) : text :=
  match from_utf8 bs with Some s => chars s | None => unchecked bs end.

Definition run_cat (args : list text) (k : shell) : outcome (Z * shell) :=
  match args with
  | [a] =>
      match FS k with
      | Some d =>
          o ← read_file d (as_bytes a);
          match o with
          | Some f => says (println [unchecked_text (read_all f)]) 0 k
          | None => says (print [txt "Couldn't read file "; a; txt "!" ++ NL]) 1 k
          end
      | None => says (print [txt "Filesystem is not initialized!" ++ NL]) 1 k
      end
  | _ => says (print [txt "Usage: cat <filename>" ++ NL]) 1 k
  end.

Definition run_func (f : func) (reg : CommandRegistry) (args : list text) (k : shell) : outcome (Z * shell) :=
  match f with
  | license => says (print [license_text ++ NL]) 0 k
  | credits => says (print [credits_text ++ NL]) 0 k
  | smiley => k ← with_con k yay_macro; says (print [NL]) 0 k
  | sad => k ← with_con k sad_macro; says (print [NL]) 0 k
  | clear => says clear_macro 0 k
  | whoami => says (print [whoami_text ++ NL]) 0 k
  | panic_ => Panic ExplicitPanic
  | shutdown => run_shutdown args k
  | help => says (println [get_help reg]) 0 k
  | res => run_res k
  | ls => run_ls k
  | cat => run_cat args k
  end.

Definition exec_command (reg : CommandRegistry) (input : list text) (k : shell) : outcome (option Z * shell) :=
  match input with
  | [] => Ret (None, k)
  | w :: args =>
      match search reg w with
      | Some cmd => '(i, k) ← run_func (command_func cmd) reg args k; Ret (Some i, k)
      | None => Ret (None, k)
      end
  end.

Definition process_command (buf : text) (prev_ret_code : Z) (k : shell) : outcome (Z * shell) :=
  if starts_with (txt "#") (trim buf) || bool_decide (trim buf = []) then Ret (prev_ret_code, k) else
  match COMMAND_REGISTRY k with
  | None => says (error (here 365) [txt "(CMDLINE) Command registry is uninitialized!"]) (-2) k
  | Some registry =>
      let data := split 32 (trim buf) in
      let cmd_name := match data with w :: _ => w | [] => [] end in
      '(x, k) ← exec_command registry data k;
      match x with
      | Some i => Ret (i, k)
      | None => says (print [txt "Command '"; cmd_name; txt "' not found." ++ NL]) (-1) k
      end
  end.

(** ** The keys *)

(** A raw key by what its [Debug] prints. *)
Inductive DecodedKey : Type := Unicode (c : Z) | RawKey (key : text).

(** The locals of the loop. *)
Record line : Type := mkLine { input_buffer : text; prev_ret_code : Z }.

(** [String::pop]. *)
Definition pop_char (t : text) : text := rev (tail (rev t)).

Definition prompt (code : Z) : C → outcome C := print [txt "["; signed code; txt "] > "].

Definition on_key (key : DecodedKey) (l : line) (k : shell) : outcome (line * shell) :=
  match key with
  | Unicode c =>
      if c =? 0x08 then
        k ← with_con k (print [[0x08]]);
        Ret (mkLine (pop_char (input_buffer l)) (prev_ret_code l), k)
      else if c =? 0x0A then
        k ← with_con k (print [NL]);
        '(code, k) ← process_command (input_buffer l) (prev_ret_code l) k;
        k ← with_con k (prompt code);
        Ret (mkLine [] code, k)
      else
        k ← with_con k (print [[c]]);
        Ret (mkLine (input_buffer l ++ [c]) (prev_ret_code l), k)
  | RawKey _ => Ret (l, k)
  end.

Fixpoint on_keys (keys : list DecodedKey) (l : line) (k : shell) : outcome (line * shell) :=
  match keys with
  | [] => Ret (l, k)
  | key :: keys => '(l, k) ← on_key key l k; on_keys keys l k
  end.

Lemma on_keys_app keys keys' l k :
  on_keys (keys ++ keys') l k = ('(l, k) ← on_keys keys l k; on_keys keys' l k).
Proof.
  revert l k. induction keys as [|key keys IH]; intros l k; cbn [app on_keys]; [done|].
  destruct (on_key key l k) as [[l' k']| |]; [|done|done]. by rewrite !bind_Ret, IH.
Qed.

(** Up to the loop. *)
Definition run_command_line (k : shell) : outcome (line * shell) :=
  k ← match COMMAND_REGISTRY k with
      | Some _ => with_con k (warning (here 323) [txt "Command registry already exists. Not replacing it..."])
      | None => Ret (mkShell (con k) (ports k) (FS k) (Some init_command_registry))
      end;
  k ← with_con k (prompt 0);
  Ret (mkLine [] 0, k).
End commandline.
Arguments shell : clear implicits.

(** ** The registry *)

Definition keys_of (c : Command) : list text := name c :: aliases c.
Definition all_keys (r : CommandRegistry) : list text := r ≫= keys_of.

Lemma answers_spec s c : answers s c = true ↔ s ∈ keys_of c.
Proof.
  unfold answers, keys_of. rewrite orb_true_iff, !bool_decide_eq_true, elem_of_cons. naive_solver.
Qed.

Lemma search_some r s c : search r s = Some c → c ∈ r ∧ s ∈ keys_of c.
Proof.
  intros Hs. apply List.find_some in Hs as [Hin Ha]. rewrite answers_spec in Ha.
  split; [by apply list_elem_of_In|done].
Qed.

Lemma search_none r s : search r s = None ↔ s ∉ all_keys r.
Proof.
  unfold all_keys. rewrite list_elem_of_bind. split.
  - intros Hn (c & Hk & Hc). apply list_elem_of_In in Hc.
    pose proof (List.find_none _ _ Hn _ Hc) as Ha. apply answers_spec in Hk. congruence.
  - intros Hn. destruct (search r s) as [c|] eqn:Hs; [|done]. apply search_some in Hs as [Hc Hk].
    exfalso. apply Hn. by exists c.
Qed.

(** With distinct keys no command hides another. *)
Lemma search_unique r s c : NoDup (all_keys r) → c ∈ r → s ∈ keys_of c → search r s = Some c.
Proof.
  unfold search, all_keys. induction r as [|c' r IH]; intros Hnd Hc Hs; [by apply elem_of_nil in Hc|].
  cbn [mbind list_bind] in Hnd. apply NoDup_app in Hnd as (Hnd1 & Hdis & Hnd2). cbn [List.find].
  apply elem_of_cons in Hc as [->|Hc].
  - by rewrite (proj2 (answers_spec s c')).
  - destruct (answers s c') eqn:Ha; [|by apply IH]. apply answers_spec in Ha. exfalso.
    apply (Hdis s Ha). apply list_elem_of_bind. by exists c.
Qed.

Lemma kernel_keys_distinct : NoDup (all_keys init_command_registry).
Proof. apply (bool_decide_unpack _). vm_compute. exact I. Qed.

(** ** Words *)

Fixpoint join (ws : list text) : text :=
  match ws with [] => [] | [w] => w | w :: ws => w ++ 32 :: join ws end.

Lemma split_join ws :
  ws ≠ [] → Forall (Forall (λ c, c ≠ 32)) ws → split 32 (join ws) = ws.
Proof.
  intros Hne Hf. induction Hf as [|w ws Hw Hws IH]; [done|].
  assert (Hword : ∀ t, split 32 (w ++ t) = match split 32 t with p :: ps => (w ++ p) :: ps | [] => [w] end).
  { intros t. clear -Hw. induction Hw as [|c w Hc Hw IH]; cbn [app].
    - destruct (split 32 t) eqn:Ht; [|done]. destruct t as [|c t]; [done|]. cbn [split] in Ht.
      destruct (c =? 32); [done|]. by destruct (split 32 t).
    - cbn [split]. rewrite (proj2 (Z.eqb_neq c 32)) by done. rewrite IH. by destruct (split 32 t). }
  destruct ws as [|w2 ws].
  - cbn [join]. rewrite <- (app_nil_r w), Hword. cbn. by rewrite !app_nil_r.
  - cbn [join]. rewrite Hword. cbn [split]. rewrite Z.eqb_refl, app_nil_r. f_equal. apply IH. discriminate.
Qed.

Lemma trim_start_pad pad t :
  Forall (λ c, is_whitespace c = true) pad → match t with c :: _ => is_whitespace c = false | [] => True end →
  trim_start (pad ++ t) = t.
Proof.
  intros Hp Ht. induction Hp as [|c pad Hc Hp IH]; cbn [app].
  - destruct t; [done|]. cbn [trim_start]. by rewrite Ht.
  - cbn [trim_start]. by rewrite Hc.
Qed.

Lemma trim_pad pad1 pad2 t c d t' :
  Forall (λ c, is_whitespace c = true) pad1 → Forall (λ c, is_whitespace c = true) pad2 →
  (∃ u, t = c :: u) → t = t' ++ [d] → is_whitespace c = false → is_whitespace d = false →
  trim (pad1 ++ t ++ pad2) = t.
Proof.
  intros H1 H2 [u Hu] Hd Hc Hd'. unfold trim, trim_end.
  rewrite trim_start_pad; [|done|by rewrite Hu]. rewrite rev_app_distr, trim_start_pad.
  - apply rev_involutive.
  - by apply Forall_rev.
  - by rewrite Hd, rev_app_distr.
Qed.

Lemma join_ends ws w :
  last ws = Some w → w ≠ [] → ∃ t d, join ws = t ++ [d] ∧ d ∈ w.
Proof.
  revert w. induction ws as [|w0 ws IH]; intros w Hl Hw; [done|]. destruct ws as [|w1 ws].
  - cbn in Hl. injection Hl as <-. destruct (exists_last Hw) as (t & d & ->). exists t, d.
    split; [done|]. apply elem_of_app. right. by left.
  - destruct (IH w Hl Hw) as (t & d & Ht & Hd). cbn [join] in *. rewrite Ht.
    exists (w0 ++ 32 :: t), d. split; [by rewrite <- app_assoc|done].
Qed.

Lemma whitespace_space c : is_whitespace c = false → c ≠ 32.
Proof. intros Hc ->. by vm_compute in Hc. Qed.

Section commandline_lemmas.
Context {C : Type} `{Console C} {HW : Type} `{Hardware HW}.
Context (to_lowercase : text → text) (unchecked : list Z → text) (here : Z → text).

(** ** Commands always end *)

Context `{!ConsoleLaws C}.
Context (Hlower : ∀ t, Forall char_ok t → Forall char_ok (to_lowercase t)).
Context (Hunchecked : ∀ bs, Forall char_ok (unchecked bs)) (Hhere : ∀ n, Forall char_ok (here n)).

(** A working console, an archive that is a slice of bytes. *)
Definition shell_ok (k : shell C HW) : Prop :=
  console_ok (con k) ∧
  match FS k with Some d => zlen d < 2 ^ 63 ∧ Forall (λ b, 0 ≤ b) d | None => True end ∧
  match COMMAND_REGISTRY k with
  | Some r => Forall (λ c, Forall char_ok (name c) ∧ Forall char_ok (help_message c)) r
  | None => True
  end.

Lemma with_con_ok k op :
  shell_ok k → (∀ c, console_ok c → returns (op c) console_ok) →
  returns (with_con k op) (λ k', shell_ok k' ∧ FS k' = FS k ∧ COMMAND_REGISTRY k' = COMMAND_REGISTRY k).
Proof.
  intros [Hc Hr] Hop. eapply returns_bind; [by apply Hop|]. intros c Hc'. by apply returns_Ret.
Qed.

Lemma says_ok k op code :
  shell_ok k → (∀ c, console_ok c → returns (op c) console_ok) →
  returns (says op code k) (λ '(i, k'), shell_ok k').
Proof.
  intros Hk Hop. eapply returns_bind; [by apply with_con_ok|]. intros k' [Hk' _]. by apply returns_Ret.
Qed.

Lemma print_one_ok (t : text) c : Forall char_ok t → console_ok c → returns (print [t] c) console_ok.
Proof. intros. apply print_ok; [done|]. by repeat constructor. Qed.

Lemma get_help_ok r :
  Forall (λ c, Forall char_ok (name c) ∧ Forall char_ok (help_message c)) r → Forall char_ok (get_help r).
Proof.
  unfold get_help. intros Hr.
  assert (Hs : Forall char_ok (txt "=| Help |===============" ++ NL)).
  { apply Forall_app. split; [apply txt_ok|exact NL_ok]. }
  revert Hs. generalize (txt "=| Help |===============" ++ NL). induction Hr as [|c r [Hn Hh] Hr IH]; intros s Hs; [done|].
  cbn [foldl]. apply IH. repeat (apply Forall_app; split); auto using txt_ok, NL_ok.
Qed.

Lemma ls_loop_listing n d p :
  zlen d < 2 ^ 63 → 0 ≤ p ≤ zlen d + 1024 →
  ls_loop n (mkIter d p) = Ret ((λ f, (chars (get_name f), get_size f)) <$> listing n (drop (Z.to_nat p) d)).
Proof.
  revert p. induction n as [|n IH]; intros p Hlen Hp; [done|]. cbn [ls_loop listing].
  rewrite next_spec, bind_Ret by done.
  destruct (entry_at _) as [[nm sz]|] eqn:He; [|done].
  destruct (entry_at_inv _ _ _ He) as [H512 Hsz]. pose proof (stride_bounds sz Hsz).
  destruct (Z.leb_spec (512 + sz) (zlen (drop (Z.to_nat p) d))) as [Hfit|]; [|done].
  destruct (utf8_from [] nm); [|done]. simpl andb. cbv iota.
  assert (Hzr : zlen (drop (Z.to_nat p) d) = zlen d - p).
  { apply zlen_drop. unfold zlen in *. rewrite length_drop in *. lia. }
  rewrite IH, bind_Ret, drop_stride by lia. done.
Qed.

Lemma Forall_sub_list {A} (Q : A → Prop) l a b : Forall Q l → Forall Q (sub_list l a b).
Proof. intros Hl. unfold sub_list. by apply Forall_take, Forall_drop. Qed.

Lemma until_zero_Forall (Q : Z → Prop) bs : Forall Q bs → Forall Q (until_zero bs).
Proof. induction 1 as [|b bs Hb Hbs IH]; cbn [until_zero]; [done|]. destruct (b =? 0); by constructor. Qed.

Lemma listing_names n rest :
  Forall (λ b, 0 ≤ b) rest → Forall (λ f, Forall (λ b, 0 ≤ b) (get_name f)) (listing n rest).
Proof.
  revert rest. induction n as [|n IH]; intros rest Hr; cbn [listing]; [done|].
  destruct (entry_at rest) as [[nm sz]|] eqn:He; [|done]. destruct (_ && _); [|done].
  constructor; [|by apply IH, Forall_drop].
  unfold entry_at in He. destruct (_ && _); [|done]. injection He as <- _.
  apply until_zero_Forall. by apply Forall_sub_list.
Qed.

Lemma listing_length n rest : (length (listing n rest) ≤ n)%nat.
Proof.
  revert rest. induction n as [|n IH]; intros rest; cbn [listing]; [simpl; lia|].
  destruct (entry_at rest) as [[nm sz]|]; [|simpl; lia]. destruct (_ && _); [|simpl; lia].
  cbn [length]. specialize (IH (drop (Z.to_nat (stride sz)) rest)). lia.
Qed.

Lemma print_files_ok fs c :
  Forall (λ e, Forall char_ok e.1 ∧ 0 ≤ e.2 < 2 ^ 64) fs → console_ok c → returns (print_files fs c) console_ok.
Proof.
  intros Hf. revert c. induction Hf as [|[n sz] fs [Hn Hsz] Hfs IH]; intros c Hc; cbn [print_files].
  { by apply returns_Ret. }
  eapply returns_bind; [apply print_ok; [done|]|intros c' Hc'; by apply IH].
  cbn [fst snd] in *.
  constructor; [done|]. constructor; [apply txt_ok|]. constructor; [by apply decimal_ok|].
  constructor; [|constructor]. apply Forall_app. split; [apply txt_ok|exact NL_ok].
Qed.

Lemma run_ls_ok k : shell_ok k → returns (run_ls k) (λ '(i, k'), shell_ok k').
Proof.
  intros Hk. pose proof Hk as (Hc & Hfs & Hr). unfold run_ls. destruct (FS k) as [d|].
  2:{ apply says_ok; [done|]. intros c Hcc. apply print_one_ok; [|done].
      apply Forall_app. split; [apply txt_ok|exact NL_ok]. }
  destruct Hfs as [Hlen Hb]. pose proof (zlen_nonneg d). unfold files.
  rewrite ls_loop_listing by lia. rewrite bind_Ret. simpl drop. rewrite drop_0.
  pose proof (listing_ok 1001 d 0 ltac:(lia)) as Hok. simpl drop in Hok. rewrite drop_0 in Hok.
  pose proof (listing_names 1001 d Hb) as Hnm.
  assert (Hl : zlen (listing 1001 d) ≤ 1001).
  { pose proof (listing_length 1001 d). unfold zlen. lia. }
  eapply returns_bind.
  - apply with_con_ok; [done|]. intros c Hcc. apply print_ok; [done|].
    constructor; [apply txt_ok|]. constructor; [|constructor; [|constructor]].
    + apply decimal_ok. unfold zlen in *. rewrite length_fmap. lia.
    + apply Forall_app. split; [apply txt_ok|exact NL_ok].
  - intros k' [Hk' _]. apply says_ok; [done|]. intros c Hcc. apply print_files_ok; [|done].
    apply Forall_fmap. rewrite Forall_forall in Hok, Hnm |- *. intros f Hf. specialize (Hok f Hf). specialize (Hnm f Hf).
    cbn. split; [by apply chars_ok|]. destruct Hok as (_ & Hsz & q & Hq1 & Hq2 & _).
    unfold get_size. pose proof (zlen_nonneg (data f)). lia.
Qed.

Lemma run_cat_ok args k :
  Forall (Forall is_scalar) args → shell_ok k → returns (run_cat unchecked args k) (λ '(i, k'), shell_ok k').
Proof.
  intros Ha Hk. pose proof Hk as (Hc & Hfs & Hr). unfold run_cat.
  assert (Hlit : ∀ s code, returns (says (print [txt s ++ NL]) code k) (λ '(i, k'), shell_ok k')).
  { intros s code. apply says_ok; [done|]. intros c Hcc. apply print_one_ok; [|done].
    apply Forall_app. split; [apply txt_ok|exact NL_ok]. }
  destruct args as [|a [|a2 args]]; [apply Hlit| |apply Hlit].
  apply Forall_cons in Ha as [Ha _].
  destruct (FS k) as [d|]; [|apply Hlit]. destruct Hfs as [Hlen Hb]. pose proof (zlen_nonneg d).
  unfold read_file. rewrite read_file_search; [|done|lia|by apply as_bytes_valid|unfold walk_fuel; simpl; rewrite drop_0; lia].
  rewrite bind_Ret. destruct (Ustar.search _ _ _) as [f|] eqn:Hs.
  - destruct (search_ok _ _ d 0 f ltac:(lia) (as_bytes_valid _ Ha) Hs) as [(_ & _ & q & _ & _ & Hd) _].
    apply says_ok; [done|]. intros c Hcc. apply println_ok; [done|]. constructor; [|constructor].
    unfold unchecked_text, from_utf8. destruct (utf8_from [] _); [|apply Hunchecked].
    apply chars_ok. unfold read_all. rewrite Hd. by apply Forall_sub_list.
  - apply says_ok; [done|]. intros c Hcc. apply print_ok; [done|].
    constructor; [apply txt_ok|]. constructor; [|constructor; [|constructor]].
    + eapply Forall_impl; [exact Ha|]. unfold is_scalar, char_ok. lia.
    + apply Forall_app. split; [apply txt_ok|exact NL_ok].
Qed.

Lemma lines_ok ls : Forall (Forall char_ok) ls → Forall char_ok (lines ls).
Proof.
  induction 1 as [|l ls Hl Hls IH]; [done|]. cbn [lines]. destruct ls; [done|].
  apply Forall_app. split; [done|]. apply Forall_app. split; [exact NL_ok|done].
Qed.

Lemma texts_ok : Forall char_ok license_text ∧ Forall char_ok credits_text ∧ Forall char_ok whoami_text ∧
  Forall char_ok (lines usage) ∧ Forall char_ok QUOTE.
Proof.
  assert (Hq : Forall char_ok QUOTE) by (by repeat constructor).
  split_and!; [| |apply txt_ok| |done]; apply lines_ok.
  - repeat (constructor; [apply txt_ok || done|]). constructor.
  - constructor; [apply txt_ok|]. constructor; [apply txt_ok|]. constructor; [|constructor].
    repeat (apply Forall_app; split); auto using txt_ok.
  - repeat (constructor; [apply txt_ok|]). constructor.
Qed.

Lemma run_shutdown_ok args k :
  Forall (Forall is_scalar) args → shell_ok k → returns (run_shutdown to_lowercase args k) (λ '(i, k'), shell_ok k').
Proof.
  intros Ha Hk. destruct texts_ok as (_ & _ & _ & Hu & Hq). unfold run_shutdown.
  assert (Huse : returns (says (print [lines usage ++ NL]) 1 k) (λ '(i, k'), shell_ok k')).
  { apply says_ok; [done|]. intros c Hcc. apply print_one_ok; [|done]. apply Forall_app. split; [done|exact NL_ok]. }
  destruct args as [|a [|a2 args]]; [done| |done]. apply Forall_cons in Ha as [Ha _].
  repeat (match goal with |- returns (if ?b then _ else _) _ => destruct b; [by apply returns_Ret|] end).
  apply says_ok; [done|]. intros c Hcc. apply print_ok; [done|].
  constructor; [apply Forall_app; split; [apply txt_ok|done]|].
  constructor; [by apply Hlower, scalar_ok|]. constructor; [|constructor].
  repeat (apply Forall_app; split); auto using txt_ok, NL_ok.
Qed.

Lemma run_func_ok f reg args k :
  f ≠ panic_ → Forall (λ c, Forall char_ok (name c) ∧ Forall char_ok (help_message c)) reg →
  Forall (Forall is_scalar) args → shell_ok k →
  returns (run_func to_lowercase unchecked f reg args k) (λ '(i, k'), shell_ok k').
Proof.
  intros Hf Hreg Ha Hk. destruct texts_ok as (H1 & H2 & H3 & _ & _).
  assert (Hlit : ∀ t, Forall char_ok t → returns (says (print [t ++ NL]) 0 k) (λ '(i, k'), shell_ok k')).
  { intros t Ht. apply says_ok; [done|]. intros c Hcc. apply print_one_ok; [|done].
    apply Forall_app. split; [done|exact NL_ok]. }
  assert (Hnl : ∀ k', shell_ok k' → returns (says (print [NL]) 0 k') (λ '(i, k'), shell_ok k')).
  { intros k' Hk'. apply says_ok; [done|]. intros c Hcc. apply print_one_ok; [exact NL_ok|done]. }
  destruct f; cbn [run_func]; try done; try (by apply Hlit).
  - eapply returns_bind; [apply with_con_ok; [done|intros; by apply yay_macro_ok]|]. intros k' [Hk' _]. by apply Hnl.
  - eapply returns_bind; [apply with_con_ok; [done|intros; by apply sad_macro_ok]|]. intros k' [Hk' _]. by apply Hnl.
  - apply says_ok; [done|]. intros. by apply clear_macro_ok.
  - by apply run_shutdown_ok.
  - apply says_ok; [done|]. intros c Hcc. apply println_ok; [done|]. constructor; [by apply get_help_ok|constructor].
  - unfold run_res. destruct (fb_resolution (con k)) as [[w h]|] eqn:Hres.
    + destruct Hk as (Hc & Hrest). destruct (fb_resolution_ok _ _ _ Hc Hres) as [Hw Hh].
      apply says_ok; [by split|]. intros c Hcc. apply println_ok; [done|].
      constructor; [apply txt_ok|]. constructor; [by apply decimal_ok|].
      constructor; [apply txt_ok|]. constructor; [by apply decimal_ok|constructor].
    + apply says_ok; [done|]. intros c Hcc. apply print_one_ok; [|done].
      apply Forall_app. split; [apply txt_ok|exact NL_ok].
  - by apply run_ls_ok.
  - by apply run_cat_ok.
Qed.

Lemma split_scalar t : Forall is_scalar t → Forall (Forall is_scalar) (split 32 t).
Proof.
  induction 1 as [|c t Hc Ht IH]; cbn [split]; [by repeat constructor|].
  destruct (c =? 32); [by constructor|]. destruct (split 32 t) as [|p ps]; [constructor; [by constructor|done]|].
  apply Forall_cons in IH as [Hp Hps]. constructor; [by constructor|done].
Qed.

Lemma trim_start_Forall (Q : Z → Prop) t : Forall Q t → Forall Q (trim_start t).
Proof. induction 1 as [|c t Hc Ht IH]; cbn [trim_start]; [done|]. destruct (is_whitespace c); [done|by constructor]. Qed.

Lemma trim_Forall (Q : Z → Prop) t : Forall Q t → Forall Q (trim t).
Proof.
  intros Ht. unfold trim, trim_end. apply Forall_rev, trim_start_Forall, Forall_rev. by apply trim_start_Forall.
Qed.

(** ** Properties *)

(** Whatever line is entered, the command line returns a code and leaves a
    working shell, unless the line's first word runs the panic command: no name,
    number of arguments or archive makes it panic. *)
Theorem process_command_returns (buf : text) (prev : Z) (k : shell C HW) :
  Forall is_scalar buf → shell_ok k →
  (∀ r w ws c, COMMAND_REGISTRY k = Some r → split 32 (trim buf) = w :: ws → search r w = Some c →
     command_func c ≠ panic_) →
  returns (process_command to_lowercase unchecked here buf prev k) (λ '(i, k'), shell_ok k').
Proof.
  intros Hb Hk Hp. unfold process_command. destruct (_ || _); [by apply returns_Ret|].
  pose proof Hk as (_ & _ & Hreg). destruct (COMMAND_REGISTRY k) as [r|] eqn:Hr.
  2:{ apply says_ok; [done|]. intros c Hcc. apply error_ok; [done..|]. constructor; [apply txt_ok|constructor]. }
  pose proof (split_scalar _ (trim_Forall _ _ Hb)) as Hs.
  assert (Hnf : ∀ w, Forall is_scalar w → returns (says (print [txt "Command '"; w; txt "' not found." ++ NL]) (-1) k)
    (λ '(i, k'), shell_ok k')).
  { intros w Hw. apply says_ok; [done|]. intros c Hcc. apply print_ok; [done|].
    constructor; [apply txt_ok|]. constructor; [by apply scalar_ok|]. constructor; [|constructor].
    apply Forall_app. split; [apply txt_ok|exact NL_ok]. }
  destruct (split 32 (trim buf)) as [|w ws] eqn:Hsp; cbn [exec_command]; [by apply Hnf|].
  apply Forall_cons in Hs as [Hw Hws]. destruct (search r w) as [c|] eqn:Hc; [|by apply Hnf].
  rewrite bind_assoc. eapply returns_bind; [apply run_func_ok; [by eapply Hp|done|done|done]|].
  intros [i k'] Hk'. by apply returns_Ret.
Qed.

(** What the keys leave in the buffer. *)
Definition edit (buf : text) (key : DecodedKey) : text :=
  match key with
  | Unicode c => if c =? 0x08 then pop_char buf else buf ++ [c]
  | RawKey _ => buf
  end.

(** Between two Enters the buffer is what an editor with a backspace
    makes of the keys, and they run nothing: the return code, the files and the
    registry stay. *)
Theorem line_editing (keys : list DecodedKey) (l : line) (k : shell C HW) :
  shell_ok k → Forall (λ key, match key with Unicode c => 0 ≤ c ∧ c ≠ 0x0A | RawKey _ => True end) keys →
  returns (on_keys to_lowercase unchecked here keys l k) (λ '(l', k'),
    input_buffer l' = foldl edit (input_buffer l) keys ∧ prev_ret_code l' = prev_ret_code l ∧
    shell_ok k' ∧ FS k' = FS k ∧ COMMAND_REGISTRY k' = COMMAND_REGISTRY k).
Proof.
  intros Hk Hkeys. revert l k Hk. induction Hkeys as [|key keys Hkey Hkeys IH]; intros l k Hk; cbn [on_keys foldl].
  { by apply returns_Ret. }
  assert (Hone : returns (on_key to_lowercase unchecked here key l k) (λ '(l', k'),
    input_buffer l' = edit (input_buffer l) key ∧ prev_ret_code l' = prev_ret_code l ∧
    shell_ok k' ∧ FS k' = FS k ∧ COMMAND_REGISTRY k' = COMMAND_REGISTRY k)).
  { destruct key as [c|]; cbn [on_key edit]; [|by apply returns_Ret]. destruct Hkey as [Hc0 Hc].
    rewrite (proj2 (Z.eqb_neq c 0x0A)) by done. destruct (c =? 0x08).
    - eapply returns_bind; [apply with_con_ok; [done|]; intros; apply print_one_ok; [by repeat constructor|done]|].
      intros k' (? & ? & ?). by apply returns_Ret.
    - eapply returns_bind; [apply with_con_ok; [done|]; intros; apply print_one_ok; [by repeat constructor|done]|].
      intros k' (? & ? & ?). by apply returns_Ret. }
  eapply returns_bind; [exact Hone|]. intros [l' k'] (He & Hp & Hk' & Hfs & Hr).
  eapply returns_mono; [by apply IH|]. intros [l2 k2] (He2 & Hp2 & Hk2 & Hfs2 & Hr2).
  rewrite He2, He, Hp2, Hfs2, Hr2. by split_and!.
Qed.
End commandline_lemmas.

(** Every name and alias of the kernel's registry finds its own command
    and nothing else is found; the keys are distinct; and each command function
    is reachable. *)
Theorem command_registry_complete :
  (∀ s c, search init_command_registry s = Some c ↔ c ∈ init_command_registry ∧ s ∈ keys_of c) ∧
  NoDup (all_keys init_command_registry) ∧
  (∀ f, ∃ c, c ∈ init_command_registry ∧ command_func c = f ∧
    search init_command_registry (name c) = Some c).
Proof.
  split_and!.
  - intros s c. split; [apply search_some|]. intros [Hc Hs]. apply search_unique; [exact kernel_keys_distinct|done|done].
  - exact kernel_keys_distinct.
  - intros f.
    assert (Hf : ∃ c, c ∈ init_command_registry ∧ command_func c = f).
    { assert (Hall : Forall (λ f, ∃ c, c ∈ init_command_registry ∧ command_func c = f)
        (command_func <$> init_command_registry)).
      { apply Forall_fmap, Forall_forall. intros c Hc. by exists c. }
      rewrite Forall_forall in Hall. apply Hall. destruct f; apply (bool_decide_unpack _); vm_compute; exact I. }
    destruct Hf as (c & Hc & Hfc). exists c. split_and!; [done|done|].
    apply search_unique; [exact kernel_keys_distinct|done|by left].
Qed.

Section line_parsing.
Context {C : Type} `{Console C} {HW : Type} `{Hardware HW}.
Context (to_lowercase : text → text) (unchecked : list Z → text) (here : Z → text).

(** White space around a line of words, the first of them no comment. *)
Definition word_line (pad1 pad2 w last_word : text) (args : list text) : Prop :=
  Forall (λ c, is_whitespace c = true) pad1 ∧ Forall (λ c, is_whitespace c = true) pad2 ∧
  Forall (Forall (λ c, is_whitespace c = false)) (w :: args) ∧
  w ≠ [] ∧ head w ≠ Some 0x23 ∧ last (w :: args) = Some last_word ∧ last_word ≠ [].

(** What running words means. *)
Definition run_words (w : text) (args : list text) (reg : CommandRegistry) (k : shell C HW) : outcome (Z * shell C HW) :=
  match search reg w with
  | Some cmd => run_func to_lowercase unchecked (command_func cmd) reg args k
  | None => says (print [txt "Command '"; w; txt "' not found." ++ NL]) (-1) k
  end.

Lemma word_line_trim pad1 pad2 w last_word args :
  word_line pad1 pad2 w last_word args → trim (pad1 ++ join (w :: args) ++ pad2) = join (w :: args).
Proof.
  intros (H1 & H2 & Hws & Hw & Hh & Hl & Hlw).
  destruct (join_ends (w :: args) last_word Hl Hlw) as (t' & d & Hd & Hin).
  assert (Hall : ∀ v x, v ∈ w :: args → x ∈ v → is_whitespace x = false).
  { intros v x Hv Hx. rewrite Forall_forall in Hws. specialize (Hws v Hv).
    rewrite Forall_forall in Hws. by apply Hws. }
  assert (Hj : ∃ c u, join (w :: args) = c :: u ∧ c ∈ w).
  { destruct w as [|c w]; [done|]. exists c. cbn [join]. destruct args; eexists; (split; [reflexivity|by left]). }
  destruct Hj as (c & u & Hj & Hcw). eapply trim_pad; [done|done|by exists u|exact Hd| |].
  - apply (Hall w); [by left|done].
  - apply (Hall last_word); [by apply last_Some_elem_of|done].
Qed.

Lemma word_line_split pad1 pad2 w last_word args :
  word_line pad1 pad2 w last_word args → split 32 (join (w :: args)) = w :: args.
Proof.
  intros (_ & _ & Hws & _). apply split_join; [done|].
  eapply Forall_impl; [exact Hws|]. intros v Hv. eapply Forall_impl; [exact Hv|]. apply whitespace_space.
Qed.

Lemma process_words (pad1 pad2 w last_word : text) (args : list text) (prev : Z) (k : shell C HW) (reg : CommandRegistry) :
  COMMAND_REGISTRY k = Some reg → word_line pad1 pad2 w last_word args →
  process_command to_lowercase unchecked here (pad1 ++ join (w :: args) ++ pad2) prev k = run_words w args reg k.
Proof.
  intros Hreg Hw. unfold run_words, process_command. rewrite (word_line_trim _ _ _ _ _ Hw), Hreg, (word_line_split _ _ _ _ _ Hw).
  destruct Hw as (_ & _ & _ & Hw & Hh & _).
  assert (Hj : ∃ c u, join (w :: args) = c :: u ∧ c ≠ 0x23).
  { destruct w as [|c w]; [done|]. exists c. cbn [join]. destruct args; eexists; (split; [reflexivity|by intros ->]). }
  destruct Hj as (c & u & Hj & Hc).
  assert (Hstart : starts_with (txt "#") (join (w :: args)) = false).
  { unfold starts_with. apply bool_decide_eq_false_2. rewrite Hj. cbn. by intros [= ->]. }
  rewrite Hstart. rewrite bool_decide_eq_false_2 by (rewrite Hj; discriminate). simpl orb. cbv iota.
  cbn [exec_command]. destruct (search reg w) as [cmd|]; [|done].
  rewrite bind_assoc. destruct (run_func _ _ _ _ _ _) as [[i k']| |]; done.
Qed.

(** C6: A line of words is run as typed: whatever white space is around it, if
    its first word does not start with [#], the command that has it as name or
    alias gets the other words as arguments, and a word without a command is
    reported with code -1. *)
Theorem process_command_runs (pad1 pad2 w last_word : text) (args : list text) (prev : Z)
    (k : shell C HW) (reg : CommandRegistry) :
  COMMAND_REGISTRY k = Some reg →
  Forall (λ c, is_whitespace c = true) pad1 → Forall (λ c, is_whitespace c = true) pad2 →
  Forall (Forall (λ c, is_whitespace c = false)) (w :: args) →
  w ≠ [] → head w ≠ Some 0x23 → last (w :: args) = Some last_word → last_word ≠ [] →
  process_command to_lowercase unchecked here (pad1 ++ join (w :: args) ++ pad2) prev k =
    match search reg w with
    | Some cmd => run_func to_lowercase unchecked (command_func cmd) reg args k
    | None => says (print [txt "Command '"; w; txt "' not found." ++ NL]) (-1) k
    end.
Proof. intros Hreg ???????. by eapply process_words. Qed.

(** Of an archive written with any list of files, [cat] with the name of
    one prints the text of the first file of that name and returns 0. *)
Theorem cat_prints_archived_file (a t : text) (es : list (list Z * list Z)) (k : shell C HW) :
  Forall entry_ok es → zlen (archive es) < 2 ^ 63 → FS k = Some (archive es) →
  Forall is_scalar a → Forall is_scalar t →
  head (filter (λ e, e.1 = as_bytes a) es) = Some (as_bytes a, as_bytes t) →
  run_func to_lowercase unchecked cat init_command_registry [a] k = says (println [t]) 0 k.
Proof.
  intros Hes Hlen Hfs Ha Ht Hhead. cbn [run_func run_cat]. rewrite Hfs.
  rewrite (read_file_archive es (as_bytes a) (as_bytes a, as_bytes t)) by (done || by apply as_bytes_valid).
  rewrite bind_Ret. unfold read_all, unchecked_text, from_utf8. cbn [data entry_file snd].
  by rewrite as_bytes_valid, chars_as_bytes.
Qed.
End line_parsing.

(** ** Samples *)

#[local] Existing Instances log_Console log_ConsoleLaws.

(** Ports that nothing is behind. *)
#[local] Instance no_Hardware : Hardware unit := {|
  mmio_read _ _ h := (0, h); mmio_write _ _ _ h := h;
  port_in _ _ h := (0, h); port_out _ _ _ h := h;
  msr_read _ h := (0, h); msr_write _ _ h := h;
|}.

Definition sample_shell : shell Log unit :=
  mkShell (mkLog [] [] []) () (Some (archive sample_entries)) (Some init_command_registry).
Definition sample_unchecked (_ : list Z) : text := [].

Lemma registry_texts_ok :
  Forall (λ c, Forall char_ok (name c) ∧ Forall char_ok (help_message c)) init_command_registry.
Proof. unfold init_command_registry, registry_push. cbn [app]. repeat (constructor; [split; apply txt_ok|]). constructor. Qed.

Lemma sample_shell_ok : shell_ok sample_shell.
Proof.
  split; [done|]. split; [|exact registry_texts_ok]. cbn [FS sample_shell]. split; [vm_compute; reflexivity|].
  apply (bool_decide_unpack _). vm_compute. exact I.
Qed.

Lemma process_command_returns_witness :
  returns (process_command id sample_unchecked (λ _, []) (txt " cat nofile") 7 sample_shell) (λ '(_, k), shell_ok k).
Proof.
  apply (process_command_returns id sample_unchecked (λ _, [])); [done|by constructor|by constructor| | |].
  - by apply ascii_scalar.
  - exact sample_shell_ok.
  - intros r w ws c [= <-] Hs Hc. vm_compute in Hs. injection Hs as <- <-. vm_compute in Hc. by injection Hc as <-.
Defined.

Lemma line_editing_witness :
  returns (on_keys id sample_unchecked (λ _, []) [Unicode 0x6c; Unicode 0x78; Unicode 0x08; RawKey (txt "F1"); Unicode 0x73]
    (mkLine [] 3) sample_shell) (λ '(l, _), input_buffer l = txt "ls" ∧ prev_ret_code l = 3).
Proof.
  eapply returns_mono.
  - apply (line_editing id sample_unchecked (λ _, [])); [exact sample_shell_ok|].
    repeat (constructor; [done|]). constructor.
  - intros [l k] (Hb & Hp & _). split; [rewrite Hb; reflexivity|exact Hp].
Defined.

Lemma process_command_runs_witness :
  process_command id sample_unchecked (λ _, []) (txt " " ++ join [txt "poweroff"; txt "qemu"] ++ []) 0 sample_shell =
    Ret (0, power 0x604 0x2000 sample_shell).
Proof.
  rewrite (process_command_runs id sample_unchecked (λ _, []) (txt " ") [] (txt "poweroff") (txt "qemu") [txt "qemu"] 0
    sample_shell init_command_registry); [reflexivity|reflexivity|by repeat constructor|constructor| |done|done|reflexivity|done].
  repeat (constructor; [apply (bool_decide_unpack _); vm_compute; exact I|]). constructor.
Defined.

Lemma cat_prints_archived_file_witness :
  let k := mkShell (mkLog [] [] []) () (Some (archive [(as_bytes (txt "a"), as_bytes (txt "hi"))])) None in
  run_func id sample_unchecked cat init_command_registry [txt "a"] k = says (println [txt "hi"]) 0 k.
Proof.
  intros k. apply (cat_prints_archived_file id sample_unchecked (txt "a") (txt "hi") [(as_bytes (txt "a"), as_bytes (txt "hi"))] k).
  - constructor; [|constructor]. split_and!; [done|by repeat constructor|done|done].
  - vm_compute. reflexivity.
  - reflexivity.
  - by apply ascii_scalar.
  - by apply ascii_scalar.
  - vm_compute. reflexivity.
Defined.
