(* ===== verification/Shell.v ===== *)
(** * The reader of the keyboard (kernel/src/keyboard.rs [print_keypresses],
    kernel/src/commandline.rs [run_command_line])

    The task behind the scancode stream, together with the executor, the queues
    and the interrupt of [Keyboard]: what the task does with a scancode takes
    its time, and interrupts come meanwhile.  The system refines the machine of
    [Keyboard], whose theorems carry over.  Scancodes become keys in the crate
    pc_keyboard, the class [Decoder]. *)

From Stdlib Require Import String.
From S2P Require Import Ustar Hardware Prelude Sync Text Console Commandline Keyboard.
Open Scope Z_scope.
Open Scope rust_scope.

(** ** The crate pc_keyboard *)

(** [add_byte] gives [Err], [Ok(None)] or an event. *)
Class Decoder (K E : Type) := {
  keyboard_new : K;
  add_byte : Z → K → option (option E) * K;
  process_keyevent : E → K → option DecodedKey * K;
}.

Section decoding.
Context {K E : Type} `{Decoder K E}.

Definition decode (scancode : Z) (k : K) : option DecodedKey * K :=
  let '(r, k) := add_byte scancode k in
  match r with
  | Some (Some key_event) => process_keyevent key_event k
  | _ => (None, k)
  end.

Fixpoint decode_all (scancodes : list Z) (k : K) : list DecodedKey * K :=
  match scancodes with
  | [] => ([], k)
  | c :: cs =>
      let '(o, k) := decode c k in
      let '(keys, k) := decode_all cs k in
      (match o with Some key => key :: keys | None => keys end, k)
  end.

Lemma decode_all_app cs cs' k :
  decode_all (cs ++ cs') k =
    ((decode_all cs k).1 ++ (decode_all cs' (decode_all cs k).2).1, (decode_all cs' (decode_all cs k).2).2).
Proof.
  revert k. induction cs as [|c cs IH]; intros k; cbn [app decode_all fst snd]; [by destruct (decode_all cs' k)|].
  destruct (decode c k) as [[key|] k1]; rewrite IH; destruct (decode_all cs k1) as [keys k2]; done.
Qed.
End decoding.

(** ** A task over the stream *)

Section system.
Context {Q : Type} `{ArrayQueue Q Z} {W : Type} `{AtomicWaker W Z} (reader : Z).
(** What the task does before its loop, and with a scancode. *)
Context {T : Type} (prologue : T → outcome T) (body : Z → T → outcome T).

(** The task has not been polled, awaits a scancode, or works on one. *)
Inductive activity : Type := Fresh | Waiting | Working (scancode : Z).

Record system : Type := mkSystem { kbd : machine (Q:=Q) (W:=W); task : T; doing : activity }.

Definition at_cpu (m : machine (Q:=Q) (W:=W)) (c : cpu) : machine := mkMachine (input m) c (handled m) (accepted m).

(** The task's own code returns, or panics. *)
Definition finish (s : system) (r : outcome T) : system :=
  match r with
  | Ret t => mkSystem (kbd s) t Waiting
  | _ => mkSystem (at_cpu (kbd s) Panicked) (task s) (doing s)
  end.

(** The scancode that a step of the stream gave to the task. *)
Definition given (m m' : machine (Q:=Q) (W:=W)) : activity :=
  match drop (length (handled m)) (handled m') with c :: _ => Working c | [] => Waiting end.

Definition stream_step (s : system) : option system :=
  m ← cpu_step reader (kbd s);
  Some (mkSystem m (task s) (match doing s with Fresh => Fresh | _ => given (kbd s) m end)).

Definition system_step (s : system) : option system :=
  match doing s, at_ (kbd s) with
  | _, Panicked => None
  | Fresh, Polling PollFast => Some (finish s (prologue (task s)))
  | Working c, _ => Some (finish s (body c (task s)))
  | _, _ => stream_step s
  end.

Definition system_irq (scancode : Z) (s : system) : option system :=
  m ← irq (kbd s) scancode; Some (mkSystem m (task s) (doing s)).

Inductive sys_step : system → system → Prop :=
| sys_step_cpu s s' : system_step s = Some s' → sys_step s s'
| sys_step_irq c s s' : system_irq c s = Some s' → sys_step s s'.

Fixpoint sys_run (n : nat) (s : system) : system :=
  match n with
  | O => s
  | S n => match system_step s with Some s' => sys_run n s' | None => s end
  end.

(** The specification: the task takes the scancodes one by one. *)
Fixpoint takes (cs : list Z) (t : T) : outcome T :=
  match cs with [] => Ret t | c :: cs => t ← body c t; takes cs t end.

Definition task_after (cs : list Z) (t : T) : outcome T := t ← prologue t; takes cs t.

Lemma takes_app cs cs' t : takes (cs ++ cs') t = (t ← takes cs t; takes cs' t).
Proof.
  revert t. induction cs as [|c cs IH]; intros t; cbn [app takes]; [done|].
  rewrite bind_assoc. destruct (body c t); [by rewrite !bind_Ret|done|done].
Qed.

(** ** The refinement *)

Context `{!ArrayQueueLaws Q Z} `{!AtomicWakerLaws W Z}.

(** How the task stands to what the stream has handed out. *)
Definition task_inv (t0 : T) (s : system) : Prop :=
  match doing s with
  | Fresh => handled (kbd s) = [] ∧ task s = t0 ∧ aw_slot (WAKER (input (kbd s))) = None ∧
      (∀ pc, at_ (kbd s) = Polling pc → pc = PollFast)
  | Waiting => task_after (handled (kbd s)) t0 = Ret (task s)
  | Working c => ∃ cs, handled (kbd s) = cs ++ [c] ∧ at_ (kbd s) = Polling PollFast ∧ task_after cs t0 = Ret (task s)
  end.

Definition sys_inv (m0 : machine) (t0 : T) (s : system) : Prop :=
  reachable reader m0 (kbd s) ∧ kbd_inv reader (kbd s) ∧ at_ (kbd s) ≠ Panicked ∧ task_inv t0 s.

Lemma irq_spec m c m' :
  kbd_inv reader m → irq m c = Some m' → at_ m' ≠ Panicked →
  handled m' = handled m ∧ (∃ l, accepted m' = accepted m ++ l) ∧
  at_ m' = match at_ m with Halted => Loop | pc => pc end ∧
  (aw_slot (WAKER (input m)) = None → aw_slot (WAKER (input m')) = None).
Proof.
  intros ((q & Hq & _) & _) Hi Hp. unfold irq in Hi.
  destruct (add_scancode (input m) c) as [s'| |] eqn:Ha; [|destruct (at_ m); simplify_eq; done..].
  assert (Hw : aw_slot (WAKER (input m)) = None → aw_slot (WAKER s') = None).
  { destruct (add_scancode_spec _ _ _ _ Hq Ha) as [(_ & -> & _)|(q' & _ & _ & _ & _ & Hw & _)]; done. }
  destruct (at_ m); simplify_eq; cbn [handled accepted at_ input]; eauto.
Qed.

(** Where the task has not run, the stream is not looked at. *)
Lemma cpu_step_fresh m m' :
  cpu_step reader m = Some m' → (∀ pc, at_ m ≠ Polling pc) →
  handled m' = handled m ∧ WAKER (input m') = WAKER (input m) ∧ (∀ pc, at_ m' = Polling pc → pc = PollFast).
Proof.
  unfold cpu_step. intros Hs Hn. destruct (at_ m) as [|pc| | | |]; [|by destruct (Hn pc)| | |done|done].
  - destruct (aq_pop (task_queue (input m))) as [[i|] q]; simplify_eq; cbn; [|done].
    split_and!; [done|done|]. intros pc Hpc. destruct (i =? reader); by simplify_eq.
  - by simplify_eq.
  - destruct (aq_is_empty _); by simplify_eq.
Qed.

(** A step hands out at most one scancode, and stands before the next look then. *)
Lemma cpu_step_handled m m' :
  cpu_step reader m = Some m' → at_ m' ≠ Panicked →
  handled m' = handled m ∨ (∃ c, handled m' = handled m ++ [c] ∧ at_ m' = Polling PollFast).
Proof.
  unfold cpu_step. intros Hs Hp. destruct (at_ m) as [|pc| | | |]; [| | | |done|done].
  - destruct (aq_pop _) as [[i|] q]; simplify_eq; by left.
  - destruct (poll_step reader pc (input m)) as [[[c| |pc'] i]| |]; simplify_eq; cbn; eauto.
  - simplify_eq; by left.
  - destruct (aq_is_empty _); simplify_eq; by left.
Qed.

Lemma given_spec m m' :
  cpu_step reader m = Some m' → at_ m' ≠ Panicked →
  (handled m' = handled m ∧ given m m' = Waiting) ∨
  (∃ c, handled m' = handled m ++ [c] ∧ at_ m' = Polling PollFast ∧ given m m' = Working c).
Proof.
  intros Hs Hp. unfold given. destruct (cpu_step_handled m m' Hs Hp) as [Hh|(c & Hh & Ha)]; rewrite Hh.
  - left. by rewrite drop_all.
  - right. exists c. by rewrite drop_app_length.
Qed.

Lemma irq_system_inv m0 t0 c s s' :
  sys_inv m0 t0 s → system_irq c s = Some s' → at_ (kbd s') = Panicked ∨ sys_inv m0 t0 s'.
Proof.
  intros (Hr & Hi & Hp & Ht) Hs. unfold system_irq in Hs. destruct (irq (kbd s) c) as [m|] eqn:Hm; simplify_eq/=.
  destruct (decide (at_ m = Panicked)) as [|Hnp]; [by left|]. right.
  destruct (irq_inv reader (kbd s) c m Hi Hm) as [|Hi']; [done|].
  destruct (irq_spec (kbd s) c m Hi Hm Hnp) as (Hh & _ & Ha & Hw).
  split_and!; [by eapply reach_step, step_irq|done|done|]. unfold task_inv in *. cbn [kbd task doing].
  rewrite Hh. destruct (doing s) as [| |c'].
  - destruct Ht as (Hh0 & Ht & Hsl & Hpc). split_and!; [done|done|by apply Hw|].
    intros pc. rewrite Ha. destruct (at_ (kbd s)) eqn:E; intros Heq; simplify_eq. by apply Hpc.
  - done.
  - destruct Ht as (cs & Hcs & Hat & Ht). exists cs. rewrite Ha, Hat. by split_and!.
Qed.

Lemma stream_step_inv m0 t0 s s' :
  sys_inv m0 t0 s → stream_step s = Some s' →
  (doing s = Waiting ∨ doing s = Fresh ∧ ∀ pc, at_ (kbd s) ≠ Polling pc) → sys_inv m0 t0 s'.
Proof.
  intros (Hr & Hi & Hp & Ht) Hs Hd. unfold stream_step in Hs.
  destruct (cpu_step reader (kbd s)) as [m|] eqn:Hm; simplify_eq/=.
  destruct (cpu_inv reader (kbd s) m Hi Hm) as [Hi' Hnp].
  split_and!; cbn [kbd]; [by eapply reach_step, step_cpu|done|done|].
  unfold task_inv in *. cbn [kbd task doing]. destruct Hd as [Hd|[Hd Hpc]]; rewrite Hd in Ht |- *.
  - destruct (given_spec (kbd s) m Hm Hnp) as [[Hh ->]|(c & Hh & Ha & ->)]; [by rewrite Hh|].
    exists (handled (kbd s)). by split_and!.
  - destruct Ht as (Hh0 & Ht & Hsl & _). destruct (cpu_step_fresh (kbd s) m Hm Hpc) as (-> & -> & Hpf). by split_and!.
Qed.

Lemma finish_inv m0 t0 s r :
  reachable reader m0 (kbd s) → kbd_inv reader (kbd s) → at_ (kbd s) ≠ Panicked →
  (∀ t, r = Ret t → task_after (handled (kbd s)) t0 = Ret t) →
  at_ (kbd (finish s r)) = Panicked ∨ sys_inv m0 t0 (finish s r).
Proof.
  intros Hr Hi Hp Ht. destruct r as [t| |]; [right|by left..]. split_and!; [done..|]. by apply Ht.
Qed.

Lemma system_step_inv m0 t0 s s' :
  sys_inv m0 t0 s → system_step s = Some s' → at_ (kbd s') = Panicked ∨ sys_inv m0 t0 s'.
Proof.
  intros Hinv Hs. pose proof Hinv as (Hr & Hi & Hp & Ht). unfold system_step in Hs. unfold task_inv in Ht.
  destruct (doing s) as [| |c] eqn:Hd.
  - destruct Ht as (Hh & Ht & _ & Hpc).
    assert (Hcase : at_ (kbd s) = Polling PollFast ∨ ∀ pc, at_ (kbd s) ≠ Polling pc).
    { destruct (at_ (kbd s)) as [|pc| | | |]; [by right| |by right..]. left. by rewrite (Hpc pc). }
    destruct Hcase as [Hat|Hn].
    + rewrite Hat in Hs. simplify_eq. apply finish_inv; [done..|]. intros t Hpr.
      rewrite Hh. unfold task_after. by rewrite Hpr.
    + right. eapply stream_step_inv; [done| |by right].
      destruct (at_ (kbd s)) as [|pc| | | |]; [done|by destruct (Hn pc)|done..].
  - right. eapply stream_step_inv; [done| |by left]. by destruct (at_ (kbd s)).
  - destruct Ht as (cs & Hcs & Hat & Ht). rewrite Hat in Hs. simplify_eq. apply finish_inv; [done..|].
    intros t Hb. rewrite Hcs. unfold task_after in *. apply bind_Ret_inv in Ht as (t1 & -> & Ht).
    rewrite bind_Ret, takes_app, Ht, bind_Ret. cbn [takes]. by rewrite Hb.
Qed.

Lemma sys_reach_inv m0 t0 s s' :
  sys_inv m0 t0 s → rtc sys_step s s' → at_ (kbd s') = Panicked ∨ sys_inv m0 t0 s'.
Proof.
  intros Hinv Hr. assert (Hor : at_ (kbd s) = Panicked ∨ sys_inv m0 t0 s) by by right. clear Hinv.
  induction Hr as [|s s1 s2 Hs Hr IH]; [done|]. apply IH. destruct Hor as [Hp|Hinv].
  - destruct Hs as [s s1 Hs|c s s1 Hs].
    + unfold system_step in Hs. destruct (doing s); by rewrite Hp in Hs.
    + unfold system_irq, irq in Hs. by rewrite Hp in Hs.
  - destruct Hs as [s s1 Hs|c s s1 Hs]; [by eapply system_step_inv|by eapply irq_system_inv].
Qed.

(** ** The executor's thread alone *)

(** A poll's step and the task's own count as two of its stream's. *)
Definition sys_work (s : system) : nat :=
  2 * work (kbd s) + match doing s with Waiting => 0 | _ => 1 end.

(** The task has no panic ahead in the scancodes the queue took. *)
Definition can_finish (t0 : T) (s : system) : Prop := ∃ t, task_after (accepted (kbd s)) t0 = Ret t.

Lemma accepted_split m :
  kbd_inv reader m → accepted m = handled m ++ in_flight (at_ m) ++ scancodes (input m).
Proof. by intros (_ & _ & -> & _). Qed.

Lemma halted_waiting m0 t0 s :
  sys_inv m0 t0 s → at_ (kbd s) = Halted → doing s = Waiting ∧ handled (kbd s) = accepted (kbd s).
Proof.
  intros (_ & Hi & _ & Ht) Hh. destruct (halted_idle reader _ Hi Hh) as [Hsc Hsl]. split.
  - unfold task_inv in Ht. destruct (doing s); [|done|].
    + destruct Ht as (_ & _ & Hn & _). congruence.
    + destruct Ht as (cs & _ & Hat & _). congruence.
  - rewrite (accepted_split _ Hi), Hh, Hsc. cbn [in_flight]. by rewrite !app_nil_r.
Qed.

(** The task's own step returns. *)
Lemma own_step_returns t0 s :
  kbd_inv reader (kbd s) → task_inv t0 s → can_finish t0 s →
  match doing s with
  | Fresh => ∃ t, prologue (task s) = Ret t
  | Waiting => True
  | Working c => ∃ t, body c (task s) = Ret t
  end.
Proof.
  intros Hi Ht [t Hf]. unfold task_inv in Ht. destruct (doing s) as [| |c]; [|done|].
  - destruct Ht as (_ & -> & _). unfold task_after in Hf. apply bind_Ret_inv in Hf as (t1 & Hp & _). by exists t1.
  - destruct Ht as (cs & Hcs & _ & Ht). rewrite (accepted_split _ Hi), Hcs in Hf. unfold task_after in *.
    apply bind_Ret_inv in Hf as (t1 & Hp & Hf). rewrite Hp, bind_Ret in Ht.
    rewrite <- app_assoc, takes_app, Ht, bind_Ret in Hf. cbn [app takes] in Hf.
    apply bind_Ret_inv in Hf as (t2 & Hb & _). by exists t2.
Qed.

Lemma system_step_work m0 t0 s :
  sys_inv m0 t0 s → can_finish t0 s → at_ (kbd s) ≠ Halted →
  ∃ s', system_step s = Some s' ∧ (sys_work s' < sys_work s)%nat ∧
    accepted (kbd s') = accepted (kbd s) ∧ at_ (kbd s') ≠ Panicked.
Proof.
  intros (Hr & Hi & Hp & Ht) Hf Hh. pose proof (own_step_returns t0 s Hi Ht Hf) as Hown.
  destruct (cpu_step_work reader (kbd s) Hi Hh Hp) as (m & Hs & Hlt & Hacc).
  destruct (cpu_inv reader (kbd s) m Hi Hs) as [_ Hnp].
  assert (Hst : ∃ s', stream_step s = Some s' ∧ (sys_work s' < sys_work s)%nat ∧
    accepted (kbd s') = accepted (kbd s) ∧ at_ (kbd s') ≠ Panicked).
  { unfold stream_step. rewrite Hs. eexists. split; [reflexivity|]. cbn [kbd]. split_and!; [|done|done].
    unfold sys_work. cbn [kbd doing]. destruct (doing s); [lia|destruct (given _ _); lia|destruct (given _ _); lia]. }
  unfold system_step, task_inv in *. destruct (doing s) as [| |c] eqn:Hd.
  - destruct Ht as (_ & _ & _ & Hpc), Hown as [t Ht]. destruct (at_ (kbd s)) as [|pc| | | |] eqn:Hat; [exact Hst| |exact Hst|exact Hst|done..].
    rewrite (Hpc pc eq_refl), Ht. eexists. split; [reflexivity|]. unfold sys_work. rewrite Hd. cbn [finish kbd doing].
    split_and!; [lia|done|by rewrite Hat].
  - destruct (at_ (kbd s)); by try exact Hst.
  - destruct Hown as [t Htb]. rewrite Htb. destruct Ht as (cs & _ & Hat & _). rewrite Hat. eexists. split; [reflexivity|].
    unfold sys_work. rewrite Hd. cbn [finish kbd doing]. rewrite Hat. split_and!; [lia|done|done].
Qed.

Lemma sys_run_halts m0 t0 n s :
  sys_inv m0 t0 s → can_finish t0 s → (sys_work s ≤ n)%nat →
  let s' := sys_run n s in
  sys_inv m0 t0 s' ∧ at_ (kbd s') = Halted ∧ accepted (kbd s') = accepted (kbd s).
Proof.
  revert s. induction n as [|n IH]; intros s Hinv Hf Hw; destruct (decide (at_ (kbd s) = Halted)) as [Hh|Hh].
  - done.
  - destruct (system_step_work m0 t0 s Hinv Hf Hh) as (s' & _ & Hlt & _). lia.
  - destruct (halted_waiting m0 t0 s Hinv Hh) as [Hd _]. cbn [sys_run].
    unfold system_step, stream_step, cpu_step. by rewrite Hd, Hh.
  - destruct (system_step_work m0 t0 s Hinv Hf Hh) as (s' & Hs & Hlt & Hacc & Hnp). cbn [sys_run]. rewrite Hs.
    destruct (system_step_inv m0 t0 s s' Hinv Hs) as [|Hinv']; [done|].
    rewrite <- Hacc. apply IH; [done| |lia]. unfold can_finish. by rewrite Hacc.
Qed.

(** The system as [kernel_main] starts it. *)
Definition sys_start (t0 : T) : outcome system :=
  m ← Keyboard.start reader; Ret (mkSystem m t0 Fresh).

Lemma sys_start_inv t0 : returns (sys_start t0) (λ s, sys_inv (kbd s) t0 s).
Proof.
  destruct (start_returns (Q:=Q) (W:=W) reader) as (m & Hm). unfold sys_start. rewrite Hm. apply returns_Ret.
  pose proof (start_inv reader m Hm) as Hi. unfold Keyboard.start, booted, scancode_stream_new in Hm. cbn in Hm.
  apply bind_Ret_inv in Hm as (q & _ & Hm). simplify_eq.
  split_and!; [apply reach_refl|done|done|]. unfold task_inv. cbn. split_and!; [done|done|apply aw_slot_new|done].
Qed.

End system.
Arguments system : clear implicits.

(** ** The tasks *)

Section tasks.
Context {K E : Type} `{Decoder K E} {C : Type} `{Console C} {HW : Type} `{Hardware HW}.
Context (to_lowercase : text → text) (unchecked : list Z → text) (here : Z → text).

(** [run_command_line]: the decoder, the locals of the loop, the kernel's part. *)
Definition command_task : Type := K * line * shell C HW.

Definition command_prologue : command_task → outcome command_task := λ '(keyboard, _, k),
  '(l, k) ← run_command_line here k; Ret (keyboard, l, k).

Definition command_body (scancode : Z) : command_task → outcome command_task := λ '(keyboard, l, k),
  let '(o, keyboard) := decode scancode keyboard in
  match o with
  | Some key => '(l, k) ← on_key to_lowercase unchecked here key l k; Ret (keyboard, l, k)
  | None => Ret (keyboard, l, k)
  end.

Definition command_start (k : shell C HW) : command_task := (keyboard_new, mkLine [] 0, k).

(** [print_keypresses]: it makes the stream itself. *)
Definition print_keypresses {Q W} `{ArrayQueue Q Z} `{AtomicWaker W Z} (s : Input (Q:=Q) (W:=W)) (c : C) :
    outcome (Input (Q:=Q) (W:=W) * (K * C)) :=
  s ← scancode_stream_new s; Ret (s, (keyboard_new, c)).

Definition print_key (scancode : Z) : K * C → outcome (K * C) := λ '(keyboard, c),
  let '(o, keyboard) := decode scancode keyboard in
  match o with
  | Some (Unicode character) => c ← print [[character]] c; Ret (keyboard, c)
  | Some (RawKey key) => c ← print [key] c; Ret (keyboard, c)
  | None => Ret (keyboard, c)
  end.

(** The specification: the keys the scancodes decode to, as typed. *)
Definition typed (scancodes : list Z) (k : shell C HW) : outcome command_task :=
  '(l, k) ← run_command_line here k;
  let '(keys, keyboard) := decode_all scancodes keyboard_new in
  '(l, k) ← on_keys to_lowercase unchecked here keys l k;
  Ret (keyboard, l, k).

Lemma takes_command_body cs keyboard l k :
  takes command_body cs (keyboard, l, k) =
    '(l, k) ← on_keys to_lowercase unchecked here (decode_all cs keyboard).1 l k;
    Ret ((decode_all cs keyboard).2, l, k).
Proof.
  revert keyboard l k. induction cs as [|c cs IH]; intros keyboard l k; [done|].
  cbn [takes decode_all]. unfold command_body at 2. destruct (decode c keyboard) as [[key|] keyboard'].
  - destruct (decode_all cs keyboard') as [keys kb2] eqn:Hd. cbn [fst snd on_keys].
    destruct (on_key _ _ _ key l k) as [[l' k']| |]; [|done|done]. rewrite !bind_Ret, IH, Hd. done.
  - rewrite bind_Ret, IH. destruct (decode_all cs keyboard') as [keys kb2]. done.
Qed.

Lemma task_after_typed cs k :
  task_after command_prologue command_body cs (command_start k) = typed cs k.
Proof.
  unfold task_after, typed, command_prologue, command_start. destruct (run_command_line here k) as [[l k']| |]; [|done|done].
  rewrite !bind_Ret, takes_command_body. by destruct (decode_all cs keyboard_new).
Qed.

(** What [print_keypresses] prints of a key. *)
Definition key_text (key : DecodedKey) : text := match key with Unicode c => [c] | RawKey t => t end.

Fixpoint print_all (ts : list text) (c : C) : outcome C :=
  match ts with [] => Ret c | t :: ts => c ← print [t] c; print_all ts c end.

Lemma takes_print_key cs keyboard c :
  takes print_key cs (keyboard, c) =
    c ← print_all (key_text <$> (decode_all cs keyboard).1) c; Ret ((decode_all cs keyboard).2, c).
Proof.
  revert keyboard c. induction cs as [|sc cs IH]; intros keyboard c; [done|].
  cbn [takes decode_all]. unfold print_key at 2. destruct (decode sc keyboard) as [[key|] keyboard'].
  - destruct (decode_all cs keyboard') as [keys kb2] eqn:Hd. cbn [fst snd fmap list_fmap print_all].
    destruct key as [ch|t]; cbn [key_text]; (destruct (print _ c) as [c'| |]; [|done|done]);
      by rewrite !bind_Ret, IH, Hd.
  - rewrite bind_Ret, IH. destruct (decode_all cs keyboard') as [keys kb2]. done.
Qed.

(** Where [kernel_main] has made the stream, the task panics at its first poll. *)
Lemma print_keypresses_second {Q W} `{ArrayQueue Q Z} `{AtomicWaker W Z} (s : Input (Q:=Q) (W:=W)) (c : C) :
  is_Some (SCANCODE_QUEUE s) → print_keypresses s c = Panic UnwrapFailed.
Proof. intros [q Hq]. unfold print_keypresses, scancode_stream_new. by rewrite Hq. Qed.
End tasks.

(** ** A session *)

Section session.
Context {Q : Type} `{ArrayQueueLaws Q Z} {W : Type} `{AtomicWakerLaws W Z} (reader : Z).
Context {K E : Type} `{Decoder K E} {C : Type} `{Console C} {HW : Type} `{Hardware HW}.
Context (to_lowercase : text → text) (unchecked : list Z → text) (here : Z → text) (k0 : shell C HW).
#[local] Abbreviation prologue := (command_prologue (K:=K) here).
#[local] Abbreviation body := (command_body to_lowercase unchecked here).
#[local] Abbreviation inv := (sys_inv (Q:=Q) (W:=W) reader prologue body).

(** If the keys make nothing panic, all they ask for is done at the halt. *)
Lemma session_halts m0 s t :
  inv m0 (command_start k0) s → typed (K:=K) to_lowercase unchecked here (accepted (kbd s)) k0 = Ret t →
  let s' := sys_run reader prologue body (sys_work s) s in
  at_ (kbd s') = Halted ∧ doing s' = Waiting ∧ accepted (kbd s') = accepted (kbd s) ∧ task s' = t.
Proof.
  intros Hinv Hall. rewrite <- task_after_typed in Hall.
  destruct (sys_run_halts reader prologue body m0 (command_start k0) (sys_work s) s) as (Hinv' & Hh & Ha);
    [done|by exists t|done|].
  destruct (halted_waiting reader prologue body _ _ _ Hinv' Hh) as [Hd Hha]. split_and!; [done..|].
  destruct Hinv' as (_ & _ & _ & Ht'). unfold task_inv in Ht'. rewrite Hd, Hha, Ha, Hall in Ht'. by injection Ht'.
Qed.
End session.

(** ** Properties *)

(** C9: What is typed is run. Whatever interrupts come between the steps of the
    stream, of the executor and of the command line's own code, the command
    line has at each point done exactly what the keys decoded from the
    scancodes given to it ask for, in their order; and if no further interrupt
    comes and the keys the queue took make nothing panic, it does all they ask
    for and the processor halts. *)
Theorem typed_keys_run {Q : Type} `{ArrayQueueLaws Q Z} {W : Type} `{AtomicWakerLaws W Z}
    {K E : Type} `{Decoder K E} {C : Type} `{Console C} {HW : Type} `{Hardware HW}
    (to_lowercase : text → text) (unchecked : list Z → text) (here : Z → text) (reader : Z) (k0 : shell C HW) :
  let prologue := command_prologue (K:=K) here in
  let body := command_body to_lowercase unchecked here in
  let typed cs := typed (K:=K) to_lowercase unchecked here cs k0 in
  returns (sys_start (Q:=Q) (W:=W) reader (command_start k0)) (λ s0, ∀ s,
    rtc (sys_step reader prologue body) s0 s → at_ (kbd s) ≠ Panicked →
    match doing s with
    | Fresh => handled (kbd s) = [] ∧ task s = command_start k0
    | Waiting => typed (handled (kbd s)) = Ret (task s)
    | Working c => ∃ cs, handled (kbd s) = cs ++ [c] ∧ typed cs = Ret (task s)
    end ∧
    handled (kbd s) ++ in_flight (at_ (kbd s)) ++ scancodes (input (kbd s)) = accepted (kbd s) ∧
    ∀ t, typed (accepted (kbd s)) = Ret t →
      let s' := sys_run reader prologue body (sys_work s) s in
      at_ (kbd s') = Halted ∧ doing s' = Waiting ∧ accepted (kbd s') = accepted (kbd s) ∧ task s' = t).
Proof.
  intros prologue body typ. eapply returns_mono; [apply (sys_start_inv reader prologue body)|].
  intros s0 Hs0 s Hr Hp. destruct (sys_reach_inv reader _ _ _ _ _ _ Hs0 Hr) as [|Hinv]; [done|].
  assert (Hty : ∀ cs, typ cs = task_after prologue body cs (command_start k0)) by (intros; symmetry; apply task_after_typed).
  pose proof Hinv as (_ & Hi & _ & Ht). split_and!.
  - unfold task_inv in Ht. destruct (doing s) as [| |c]; [by destruct Ht as (? & ? & _)|by rewrite Hty|].
    destruct Ht as (cs & Hcs & _ & Ht). exists cs. by rewrite Hty.
  - symmetry. by apply (accepted_split reader).
  - intros t Hall. by eapply session_halts.
Qed.

Section line_typed.
Context {Q : Type} `{ArrayQueueLaws Q Z} {W : Type} `{AtomicWakerLaws W Z} (reader : Z).
Context {K E : Type} `{Decoder K E} {C : Type} `{ConsoleLaws C} {HW : Type} `{Hardware HW}.
Context (to_lowercase : text → text) (unchecked : list Z → text) (here : Z → text).
Context (Hlower : ∀ t, Forall char_ok t → Forall char_ok (to_lowercase t)).
Context (Hunchecked : ∀ bs, Forall char_ok (unchecked bs)) (Hhere : ∀ n, Forall char_ok (here n)).

(** A key that edits the line. *)
Definition editing (key : DecodedKey) : Prop :=
  match key with Unicode c => is_scalar c ∧ c ≠ 0x0A | RawKey _ => True end.

Lemma edit_scalar keys buf :
  Forall editing keys → Forall is_scalar buf → Forall is_scalar (foldl edit buf keys).
Proof.
  intros Hk. revert buf. induction Hk as [|[c|t] keys Hkey Hk IH]; intros buf Hb; cbn [foldl edit]; [done| |by apply IH].
  apply IH. destruct (c =? 0x08).
  - unfold pop_char. apply Forall_rev. apply Forall_rev in Hb. destruct (rev buf); [done|]. by apply Forall_cons in Hb as [_ Hb].
  - apply Forall_app. split; [done|]. constructor; [by destruct Hkey|constructor].
Qed.

Lemma prompt_ok code (c : C) : console_ok c → returns (prompt code c) console_ok.
Proof.
  intros Hc. apply print_ok; [done|]. unfold pieces_ok.
  do 3 (apply Forall_cons; split; [auto using txt_ok, signed_ok|]). constructor.
Qed.

Lemma with_con_Ret (k : shell C HW) op c :
  op (con k) = Ret c → with_con k op = Ret (mkShell c (ports k) (FS k) (COMMAND_REGISTRY k)).
Proof. unfold with_con. by intros ->. Qed.

(** What the keys of a line print. *)
Fixpoint echo (keys : list DecodedKey) (c : C) : outcome C :=
  match keys with
  | [] => Ret c
  | Unicode ch :: keys => c ← print [[ch]] c; echo keys c
  | RawKey _ :: keys => echo keys c
  end.

Lemma echo_ok keys c : Forall editing keys → console_ok c → returns (echo keys c) console_ok.
Proof.
  intros Hk. revert c. induction Hk as [|[ch|t] keys Hkey Hk IH]; intros c Hc; cbn [echo]; [by apply returns_Ret| |by apply IH].
  eapply returns_bind; [|exact IH]. apply print_one_ok; [|done]. constructor; [|constructor].
  destruct Hkey as [Hs _]. unfold is_scalar in Hs. unfold char_ok. lia.
Qed.

Lemma on_keys_echo keys l k :
  Forall editing keys →
  on_keys to_lowercase unchecked here keys l k =
    (c ← echo keys (con k);
     Ret (mkLine (foldl edit (input_buffer l) keys) (prev_ret_code l), mkShell c (ports k) (FS k) (COMMAND_REGISTRY k))).
Proof.
  intros Hk. revert l k. induction Hk as [|[ch|t] keys Hkey Hk IH]; intros l k; cbn [on_keys echo foldl edit].
  - rewrite bind_Ret. by destruct l, k.
  - cbn [on_key]. destruct Hkey as [_ Hne]. rewrite (proj2 (Z.eqb_neq ch 0x0A)) by done. unfold with_con.
    destruct (Z.eqb_spec ch 0x08) as [->|]; (destruct (print _ (con k)) as [c| |]; [|done|done]); rewrite !bind_Ret, IH; done.
  - cbn [on_key]. by rewrite bind_Ret, IH.
Qed.

(** In [s], the line of [keys] is run from where the task stands: the prompt,
    the keys and the newline are printed, [process_command] is called once, on
    what an editor with a backspace makes of the keys and with the registry in
    place, the next prompt is printed, and the processor halts. *)
Definition runs_line (k0 : shell C HW) (keys : list DecodedKey) (s : system Q W (command_task (K:=K))) : Prop :=
  ∃ c1 code k2 k3, (c ← prompt 0 (con k0); c ← echo keys c; print [NL] c) = Ret c1 ∧
    process_command to_lowercase unchecked here (foldl edit [] keys) 0
      (mkShell c1 (ports k0) (FS k0) (Some init_command_registry)) = Ret (code, k2) ∧
    with_con k2 (prompt code) = Ret k3 ∧
    let s' := sys_run reader (command_prologue here) (command_body to_lowercase unchecked here) (sys_work s) s in
    at_ (kbd s') = Halted ∧ ∃ keyboard, task s' = (keyboard, mkLine [] code, k3).

(** From the keyboard to the command: if the keys that the queue took
    are the keys of one line and Enter, then, whatever else happened between the
    interrupts, the processor halts with the line run as [runs_line] says. A line
    that runs the command panic is left out. *)
Theorem typed_line_session (k0 : shell C HW) (keys : list DecodedKey) :
  shell_ok k0 → COMMAND_REGISTRY k0 = None → Forall editing keys →
  (∀ w ws c, split 32 (trim (foldl edit [] keys)) = w :: ws → search init_command_registry w = Some c → command_func c ≠ panic_) →
  returns (sys_start (Q:=Q) (W:=W) reader (command_start k0)) (λ s0, ∀ s,
    rtc (sys_step reader (command_prologue here) (command_body to_lowercase unchecked here)) s0 s → at_ (kbd s) ≠ Panicked →
    (decode_all (accepted (kbd s)) keyboard_new).1 = keys ++ [Unicode 0x0A] → runs_line k0 keys s).
Proof.
  intros (Hc0 & Hf0 & _) Hr0 Hkeys Hpanic. set (buf := foldl edit [] keys) in *.
  set (pro := command_prologue (K:=K) here). set (bod := command_body to_lowercase unchecked here).
  eapply returns_mono; [apply (sys_start_inv reader pro bod)|].
  intros s0 Hs0 s Hr Hp Hdec. destruct (sys_reach_inv reader _ _ _ _ _ _ Hs0 Hr) as [|Hinv]; [done|].
  destruct (prompt_ok 0 (con k0) Hc0) as (ca & Ea & Hca). destruct (echo_ok keys ca Hkeys Hca) as (cb & Eb & Hcb).
  destruct (print_one_ok NL cb NL_ok Hcb) as (c1 & E1 & Hc1).
  set (k1 := mkShell c1 (ports k0) (FS k0) (Some init_command_registry)).
  destruct (process_command_returns to_lowercase unchecked here Hlower Hunchecked Hhere buf 0 k1) as ([code k2] & Hpc & Hk2).
  { apply edit_scalar; [done|constructor]. } { split_and!; [done|done|exact registry_texts_ok]. }
  { cbn [COMMAND_REGISTRY k1]. intros r w ws c [= <-]. apply Hpanic. }
  destruct (with_con_ok k2 (prompt code) Hk2 (prompt_ok code)) as (k3 & Hprompt & _).
  destruct (decode_all (accepted (kbd s)) keyboard_new) as [ks keyboard] eqn:Hd. cbn [fst] in Hdec. subst ks.
  assert (Ht : typed (K:=K) to_lowercase unchecked here (accepted (kbd s)) k0 = Ret (keyboard, mkLine [] code, k3)).
  { unfold typed, run_command_line. rewrite Hr0, bind_Ret.
    rewrite (with_con_Ret (mkShell (con k0) (ports k0) (FS k0) _) (prompt 0) ca Ea), !bind_Ret, Hd, on_keys_app, on_keys_echo by done.
    cbn [con ports FS COMMAND_REGISTRY input_buffer prev_ret_code]. rewrite Eb, !bind_Ret. cbn [on_keys on_key Z.eqb Pos.eqb].
    rewrite (with_con_Ret (mkShell cb (ports k0) (FS k0) _) (print [NL]) c1 E1), bind_Ret.
    cbn [con ports FS COMMAND_REGISTRY input_buffer prev_ret_code]. fold buf k1. by rewrite Hpc, bind_Ret, Hprompt, !bind_Ret. }
  destruct (session_halts reader to_lowercase unchecked here k0 _ s _ Hinv Ht) as (Hh & _ & _ & Htask).
  exists c1, code, k2, k3. split_and!; [by rewrite Ea, bind_Ret, Eb, bind_Ret|done|done|].
  split; [exact Hh|by exists keyboard].
Qed.

End line_typed.

(** ** A sample *)

#[local] Existing Instances list_ArrayQueue list_ArrayQueueLaws option_AtomicWaker option_AtomicWakerLaws
  log_Console log_ConsoleLaws Commandline.no_Hardware.

(** A decoder whose keys are the scancodes below 128, where 255 is not valid. *)
#[local] Instance ascii_Decoder : Decoder unit Z := {|
  keyboard_new := ();
  add_byte b k := (if b =? 255 then None else if b <? 128 then Some (Some b) else Some None, k);
  process_keyevent e k := (Some (Unicode e), k);
|}.

Definition sample_task : Type := command_task (K:=unit) (C:=Log) (HW:=unit).
Definition sample_prologue : sample_task → outcome sample_task := command_prologue (λ _, []).
Definition sample_body : Z → sample_task → outcome sample_task := command_body id sample_unchecked (λ _, []).

Fixpoint sample_irqs {T} (keys : list Z) (s : system (list_queue Z) (option Z) T) :=
  match keys with [] => Some s | c :: keys => s ← system_irq c s; sample_irqs keys s end.

Lemma sample_irqs_steps {T} prologue body keys (s s' : system (list_queue Z) (option Z) T) :
  sample_irqs keys s = Some s' → rtc (sys_step 0 prologue body) s s'.
Proof.
  revert s. induction keys as [|c keys IH]; intros s; cbn [sample_irqs]; [by intros [= <-]|].
  destruct (system_irq c s) as [s1|] eqn:Hs; [|done]. intros Hi. eapply rtc_l; [by eapply sys_step_irq|by apply IH].
Qed.

(** The interrupts of [keys] come before the task has written its first prompt. *)
Definition early_keys {T} (prologue : T → outcome T) (body : Z → T → outcome T) (keys : list Z)
    (s : system (list_queue Z) (option Z) T) :=
  s ← system_step 0 prologue body s;
  sample_irqs keys s.

Lemma early_keys_steps {T} (prologue : T → outcome T) body keys s0 s :
  early_keys prologue body keys s0 = Some s → rtc (sys_step 0 prologue body) s0 s.
Proof.
  unfold early_keys. intros Hs. destruct (system_step 0 prologue body s0) as [s1|] eqn:Hs1; [|done].
  eapply rtc_l; [by apply sys_step_cpu|]. by eapply sample_irqs_steps.
Qed.

(** x, a byte that is no scancode, backspace, y, a, y, Enter and a release. *)
Definition sample_session := early_keys sample_prologue sample_body [0x78; 255; 0x08; 0x79; 0x61; 0x79; 0x0A; 200].

Lemma typed_keys_run_witness :
  returns (sys_start 0 (command_start (mkShell (mkLog [] [] []) () None None))) (λ s0,
    match sample_session s0 with
    | Some s => let s' := sys_run 0 sample_prologue sample_body (sys_work s) s in
        at_ (kbd s') = Halted ∧ log_faces (con (task s').2) = [true]
    | None => False
    end).
Proof.
  destruct (typed_keys_run (Q:=list_queue Z) (W:=option Z) (K:=unit) (HW:=unit) id sample_unchecked (λ _, []) 0
    (mkShell (mkLog [] [] []) () None None)) as (s0 & Hs0 & Hall).
  exists s0. split; [exact Hs0|]. destruct (sample_session s0) as [s|] eqn:Hs.
  - assert (Hr : rtc (sys_step 0 sample_prologue sample_body) s0 s) by by eapply early_keys_steps.
    specialize (Hall s Hr). vm_compute in Hs0. injection Hs0 as <-. vm_compute in Hs. injection Hs as <-.
    destruct Hall as (_ & _ & Hrun); [done|]. edestruct Hrun as (Hh & _ & _ & Ht); [vm_compute; reflexivity|].
    split; [exact Hh|]. exact (eq_trans (f_equal (λ t : sample_task, log_faces (con t.2)) Ht) eq_refl).
  - vm_compute in Hs0. injection Hs0 as <-. vm_compute in Hs. discriminate Hs.
Defined.

Lemma typed_line_session_witness :
  returns (sys_start 0 (command_start (mkShell (mkLog [] [] []) () None None))) (λ s0,
    match sample_session s0 with
    | Some s => let s' := sys_run 0 sample_prologue sample_body (sys_work s) s in
        at_ (kbd s') = Halted ∧ (task s').1 = ((), mkLine [] 0)
    | None => False
    end).
Proof.
  destruct (typed_line_session (Q:=list_queue Z) (W:=option Z) 0 (K:=unit) (HW:=unit) id sample_unchecked (λ _, [])
    (λ t Ht, Ht) (λ _, Forall_nil_2 _) (λ _, Forall_nil_2 _)
    (mkShell (mkLog [] [] []) () None None) [Unicode 0x78; Unicode 0x08; Unicode 0x79; Unicode 0x61; Unicode 0x79])
    as (s0 & Hs0 & Hall).
  - by split_and!.
  - done.
  - repeat (constructor; [unfold editing, is_scalar; lia|]). constructor.
  - intros w ws c Hw Hc. vm_compute in Hw. injection Hw as <- <-. vm_compute in Hc. injection Hc as <-. discriminate.
  - exists s0. split; [exact Hs0|]. destruct (sample_session s0) as [s|] eqn:Hs.
    + assert (Hr : rtc (sys_step 0 sample_prologue sample_body) s0 s) by by eapply early_keys_steps.
      specialize (Hall s Hr). vm_compute in Hs0. injection Hs0 as <-. vm_compute in Hs. injection Hs as <-.
      destruct Hall as (c1 & code & k2 & k3 & _ & _ & _ & Hh & kb & Ht); [done|reflexivity|].
      split; [exact Hh|]. exact (eq_trans (f_equal fst Ht) ltac:(vm_compute in Ht; by injection Ht as <- <- <-)).
    + vm_compute in Hs0. injection Hs0 as <-. vm_compute in Hs. discriminate Hs.
Defined.
