(* ===== verification/Elf.v ===== *)
(** * Loading and starting a program (kernel/src/elf.rs)

    [Process::init] and [switch].  Parsing the file is the crate goblin's, a
    parameter; pages come from [Paging]; memory is a byte at every virtual
    address.  The lines the errors log are left out. *)

From S2P Require Import Prelude GlobalAlloc Arch FrameAllocator Paging.
Open Scope Z_scope.
Open Scope rust_scope.

(** [goblin::elf::program_header::PT_LOAD]. *)
Definition PT_LOAD : Z := 1.

(** The fields of [goblin::elf] the kernel reads. *)
Record ProgramHeader : Type := mkPh {
  p_type : Z; p_offset : Z; p_vaddr : Z; p_filesz : Z; p_memsz : Z;
}.
Record Elf : Type := mkElf { program_headers : list ProgramHeader; elf_entry : Z }.

Record Process : Type := mkProcess {
  pid : option Z;
  stack_addr : option Z;
  proc_data : list Z;
  entrypoint : option Z;
}.

Inductive ProcInitError : Type := AllocationError | InvalidElf.
Inductive ProcSwitchError : Type := SwitchAllocationError | InitError.

Definition process_new (data : list Z) : Process := mkProcess None None data None.

Section elf.
Context `{X86} {M : Type} `{Mapper M} {F : Type} `{FrameAllocator F}.
Context (parse : list Z → option Elf).

(** The page allocator, the page tables, the frames, and memory. *)
Record machine : Type := mkMachine { statics : Statics; mapper : M; frames : F; memory : Z → Z }.

Fixpoint size_loop (req_sz : Z) (phs : list ProgramHeader) : outcome Z :=
  match phs with
  | [] => Ret req_sz
  | ph :: phs =>
      if negb (p_type ph =? PT_LOAD) then size_loop req_sz phs else
      req_sz ← (if req_sz <? p_vaddr ph then req_sz +[64] p_vaddr ph else Ret req_sz);
      req_sz ← req_sz +[64] p_memsz ph;
      size_loop req_sz phs
  end.

Definition load_segment (data : list Z) (user_base : Z) (ph : ProgramHeader) (mem : Z → Z) : outcome (Z → Z) :=
  dst ← user_base +[64] p_vaddr ph;
  e ← p_offset ph +[64] p_filesz ph;
  src ← slice data (p_offset ph) e;
  let copy_len := Z.min (zlen src) (p_memsz ph) in
  s ← slice src 0 copy_len;
  let mem := write_bytes mem dst s in
  if copy_len <? p_memsz ph
  then Ret (write_bytes mem (dst + copy_len) (replicate (Z.to_nat (p_memsz ph - copy_len)) 0))
  else Ret mem.

Fixpoint load_loop (data : list Z) (user_base : Z) (phs : list ProgramHeader) (mem : Z → Z) : outcome (Z → Z) :=
  match phs with
  | [] => Ret mem
  | ph :: phs =>
      if negb (p_type ph =? PT_LOAD) then load_loop data user_base phs mem else
      mem ← load_segment data user_base ph mem;
      load_loop data user_base phs mem
  end.

Definition init (p : Process) (k : machine) : outcome ((ProcInitError + unit) * Process * machine) :=
  match parse (proc_data p) with
  | None => Ret (inl InvalidElf, p, k)
  | Some elf =>
      req_sz ← size_loop 0 (program_headers elf);
      '(r, st, m, f) ← alloc_user (statics k) (mapper k) (frames k) req_sz;
      match r with
      | None => Ret (inl AllocationError, p, mkMachine st m f (memory k))
      | Some user_base =>
          mem ← load_loop (proc_data p) user_base (program_headers elf) (memory k);
          e ← elf_entry elf +[64] user_base;
          Ret (inr (), mkProcess (pid p) (stack_addr p) (proc_data p) (Some e), mkMachine st m f mem)
      end
  end.

Definition alloc_stack (pages : Z) (k : machine) : outcome (option Z * machine) :=
  '(r, st, m, f) ← alloc_pages_user (statics k) (mapper k) (frames k) pages;
  Ret (r, mkMachine st m f (memory k)).

(** [jump_to_usermode] is given the entry point and the stack pointer. *)
Inductive switched : Type := Err (e : ProcSwitchError) | Jump (entry stack_top : Z).

Definition switch (pages : Z) (p : Process) (k : machine) : outcome (switched * Process * machine) :=
  '(r, p, k) ← match entrypoint p with
               | Some _ => Ret (inr (), p, k)
               | None => init p k
               end;
  match r with
  | inl _ => Ret (Err InitError, p, k)
  | inr _ =>
      '(ok, p, k) ← match stack_addr p with
                    | Some _ => Ret (true, p, k)
                    | None =>
                        '(s, k) ← alloc_stack pages k;
                        match s with
                        | Some a => Ret (true, mkProcess (pid p) (Some a) (proc_data p) (entrypoint p), k)
                        | None => Ret (false, p, k)
                        end
                    end;
      if ok : bool then
        e ← unwrap (entrypoint p);
        s ← unwrap (stack_addr p);
        Ret (Jump e s, p, k)
      else Ret (Err SwitchAllocationError, p, k)
  end.
End elf.
Arguments machine : clear implicits.

(** ** The image of a program *)

Definition loads (elf : Elf) : list ProgramHeader := filter (λ ph, p_type ph = PT_LOAD) (program_headers elf).

(** What [size_loop] adds up. *)
Definition grow (r : Z) (ph : ProgramHeader) : Z := (if r <? p_vaddr ph then r + p_vaddr ph else r) + p_memsz ph.
Definition footprint (phs : list ProgramHeader) : Z := foldl grow 0 phs.

(** A segment within the file, no longer there than in memory. *)
Definition segment_ok (data : list Z) (ph : ProgramHeader) : Prop :=
  0 ≤ p_vaddr ph ∧ 0 ≤ p_offset ph ∧ 0 ≤ p_filesz ph ≤ p_memsz ph ∧
  p_offset ph + p_filesz ph ≤ zlen data.

Definition in_segment (base : Z) (ph : ProgramHeader) (a : Z) : Prop :=
  base + p_vaddr ph ≤ a < base + p_vaddr ph + p_memsz ph.

(** The byte of the segment at an address: of the file, then zeros. *)
Definition image (data : list Z) (base : Z) (ph : ProgramHeader) (a : Z) : Z :=
  let i := a - (base + p_vaddr ph) in
  if bool_decide (i < p_filesz ph) then default 0 (data !! Z.to_nat (p_offset ph + i)) else 0.

Lemma grow_bounds r ph : 0 ≤ r → 0 ≤ p_vaddr ph → 0 ≤ p_memsz ph → r ≤ grow r ph ∧ p_vaddr ph + p_memsz ph ≤ grow r ph.
Proof. intros. unfold grow. destruct (Z.ltb_spec r (p_vaddr ph)); lia. Qed.

Lemma footprint_bounds r phs :
  0 ≤ r → Forall (λ ph, 0 ≤ p_vaddr ph ∧ 0 ≤ p_memsz ph) phs →
  r ≤ foldl grow r phs ∧ Forall (λ ph, p_vaddr ph + p_memsz ph ≤ foldl grow r phs) phs.
Proof.
  intros Hr Hf. revert r Hr. induction Hf as [|ph phs [Hv Hm] Hphs IH]; intros r Hr; cbn [foldl]; [by split|].
  destruct (grow_bounds r ph Hr Hv Hm) as [H1 H2]. destruct (IH (grow r ph) ltac:(lia)) as [H3 H4].
  split; [lia|]. constructor; [lia|done].
Qed.

Lemma grow_steps {B} (c : Z → outcome B) r ph :
  0 ≤ r → 0 ≤ p_vaddr ph → 0 ≤ p_memsz ph → grow r ph < 2 ^ 64 →
  (r1 ← (if r <? p_vaddr ph then r +[64] p_vaddr ph else Ret r); r2 ← r1 +[64] p_memsz ph; c r2) = c (grow r ph).
Proof.
  intros Hr Hv Hm Hg. unfold grow in *. destruct (r <? p_vaddr ph).
  - checked_step. by checked_step.
  - rewrite bind_Ret. by checked_step.
Qed.

Lemma size_loop_footprint r phs :
  0 ≤ r → Forall (λ ph, 0 ≤ p_vaddr ph ∧ 0 ≤ p_memsz ph) (filter (λ ph, p_type ph = PT_LOAD) phs) →
  foldl grow r (filter (λ ph, p_type ph = PT_LOAD) phs) < 2 ^ 64 →
  size_loop r phs = Ret (foldl grow r (filter (λ ph, p_type ph = PT_LOAD) phs)).
Proof.
  revert r. induction phs as [|ph phs IH]; intros r Hr Hf Hlt; [done|]. cbn [size_loop].
  rewrite filter_cons in *. destruct (decide (p_type ph = PT_LOAD)) as [He|He].
  - rewrite (proj2 (Z.eqb_eq _ _) He). simpl negb. cbv iota. apply Forall_cons in Hf as [[Hv Hm] Hf].
    cbn [foldl] in *. destruct (grow_bounds r ph Hr Hv Hm) as [H1 H2].
    destruct (footprint_bounds (grow r ph) _ ltac:(lia) Hf) as [H3 _].
    rewrite <- (IH (grow r ph)) by (lia || done). apply grow_steps; lia.
  - rewrite (proj2 (Z.eqb_neq _ _) He). simpl negb. cbv iota. by apply IH.
Qed.

(** One segment in memory. *)
Lemma load_segment_image data base ph mem :
  segment_ok data ph → 0 ≤ base → base + p_vaddr ph + p_memsz ph < 2 ^ 64 → zlen data < 2 ^ 63 →
  returns (load_segment data base ph mem) (λ mem',
    ∀ a, (in_segment base ph a → mem' a = image data base ph a) ∧ (¬ in_segment base ph a → mem' a = mem a)).
Proof.
  intros (Hv & Ho & Hf & He) Hb Hm Hl. unfold load_segment. checked_step. checked_step.
  rewrite slice_ok, bind_Ret by lia.
  assert (Hs : zlen (sub_list data (p_offset ph) (p_offset ph + p_filesz ph)) = p_filesz ph)
    by (rewrite zlen_sub_list; lia).
  rewrite Hs, Z.min_l by lia. rewrite slice_ok, bind_Ret by lia.
  pose proof (sub_list_full (sub_list data (p_offset ph) (p_offset ph + p_filesz ph))) as Hfull.
  rewrite Hs in Hfull. rewrite Hfull. clear Hfull. unfold in_segment, image.
  assert (Hsrc : ∀ a, base + p_vaddr ph ≤ a < base + p_vaddr ph + p_filesz ph →
    sub_list data (p_offset ph) (p_offset ph + p_filesz ph) !! Z.to_nat (a - (base + p_vaddr ph)) =
    data !! Z.to_nat (p_offset ph + (a - (base + p_vaddr ph)))).
  { intros a Ha. rewrite lookup_sub_list by lia. f_equal. lia. }
  destruct (Z.ltb_spec (p_filesz ph) (p_memsz ph)); apply returns_Ret; intros a; unfold write_bytes.
  - assert (Hz : zlen (replicate (Z.to_nat (p_memsz ph - p_filesz ph)) 0) = p_memsz ph - p_filesz ph)
      by (unfold zlen; rewrite length_replicate; lia).
    rewrite Hz, Hs. split; intros Ha.
    + destruct (decide (a < base + p_vaddr ph + p_filesz ph)).
      * rewrite bool_decide_eq_false_2 by lia. rewrite !bool_decide_eq_true_2 by lia. by rewrite Hsrc by lia.
      * rewrite bool_decide_eq_true_2 by lia. rewrite bool_decide_eq_false_2 by lia.
        destruct (replicate _ 0 !! _) eqn:Hr; [|done]. by apply lookup_replicate in Hr as [-> _].
    + by rewrite !bool_decide_eq_false_2 by lia.
  - rewrite Hs. split; intros Ha.
    + rewrite !bool_decide_eq_true_2 by lia. by rewrite Hsrc by lia.
    + by rewrite bool_decide_eq_false_2 by lia.
Qed.

Definition extent (ph : ProgramHeader) : range := (p_vaddr ph, p_memsz ph).

(** Segments that do not overlap, all of them in memory. *)
Lemma load_loop_image data base phs mem :
  let ls := filter (λ ph, p_type ph = PT_LOAD) phs in
  Forall (segment_ok data) ls → Forall (λ ph, base + p_vaddr ph + p_memsz ph < 2 ^ 64) ls →
  separated (extent <$> ls) → 0 ≤ base → zlen data < 2 ^ 63 →
  returns (load_loop data base phs mem) (λ mem',
    (∀ ph a, ph ∈ ls → in_segment base ph a → mem' a = image data base ph a) ∧
    (∀ a, (∀ ph, ph ∈ ls → ¬ in_segment base ph a) → mem' a = mem a)).
Proof.
  intros ls. unfold ls. clear ls. revert mem. induction phs as [|ph phs IH]; intros mem Hok Hend Hsep Hb Hl; cbn [load_loop].
  { apply returns_Ret. split; [|done]. intros ph a Hin. by apply not_elem_of_nil in Hin. }
  rewrite filter_cons in *. destruct (decide (p_type ph = PT_LOAD)) as [He|He].
  2:{ rewrite (proj2 (Z.eqb_neq _ _) He). simpl negb. cbv iota. by apply IH. }
  rewrite (proj2 (Z.eqb_eq _ _) He). simpl negb. cbv iota.
  apply Forall_cons in Hok as [Hph Hok]. apply Forall_cons in Hend as [Hpe Hend].
  cbn [fmap list_fmap separated] in Hsep. destruct Hsep as [Hap Hsep].
  eapply returns_bind; [by apply load_segment_image|]. intros mem1 Hm1.
  eapply returns_mono; [by apply IH|]. intros mem2 [Hin2 Hout2].
  assert (Hdis : ∀ ph' a, ph' ∈ filter (λ ph, p_type ph = PT_LOAD) phs → in_segment base ph a → ¬ in_segment base ph' a).
  { intros ph' a Hin' Ha Ha'. rewrite Forall_fmap, Forall_forall in Hap. specialize (Hap ph' Hin').
    unfold apart, extent, r_end, in_segment in *. cbn in Hap. lia. }
  split.
  - intros ph' a Hin Ha. apply elem_of_cons in Hin as [->|Hin]; [|by apply Hin2].
    rewrite Hout2 by (intros; by apply Hdis). by apply Hm1.
  - intros a Ha. rewrite Hout2 by (intros; apply Ha; by right). apply Hm1. apply Ha. by left.
Qed.

(** ** Starting a program *)

Section laws.
Context `{X86Laws} {M : Type} `{MapperLaws M} {F : Type} `{FrameContract F}.
Context (parse : list Z → option Elf).

Definition user_flags : Z := Z.lor (Z.lor PRESENT WRITABLE) USER_ACCESSIBLE.

Lemma alloc_pages_user_result st (m : M) (f : F) n more :
  0 < n → 0 ≤ more → region_ok (NEXT_VIRT_USER st) n → frames_for f (n + more) →
  fresh_range m (NEXT_VIRT_USER st) n →
  ∃ m' f' frs,
    alloc_pages_user st m f n =
      Ret (Some (NEXT_VIRT_USER st), mkStatics (NEXT_VIRT st) (NEXT_VIRT_USER st + 4096 * n), m', f') ∧
    zlen frs = n ∧ page_map m' = map_pages (NEXT_VIRT_USER st) frs user_flags (page_map m) ∧
    frames_for f' more ∧ (∀ q, huge m' q → huge m q).
Proof.
  intros Hn Hmore Hreg Hf Hfr. pose proof Hreg as (Hal & Hb & Hend & Hcan). unfold alloc_pages_user.
  checked_step. checked_step.
  destruct (alloc_pages_region_more m f (NEXT_VIRT_USER st) user_flags n more)
    as (m' & f' & frs & Hl & Hlen & Hpm & _ & Hf' & Hh); [lia|done..|]. unfold user_flags in Hl. rewrite Hl, bind_Ret.
  rewrite virt_new_ok, bind_Ret by (specialize (Hcan 0); rewrite Z.add_0_r in Hcan; apply Hcan; lia).
  exists m', f', frs. split_and!; [by rewrite Z.mul_comm|done..].
Qed.

(** The pages [alloc_user] takes for [size] bytes. *)
Definition pages_for (size : Z) : Z := Z.max (div_ceil size 4096) 2.

Lemma pages_for_enough size : 0 ≤ size → size ≤ 4096 * pages_for size.
Proof.
  intros Hs. unfold pages_for, div_ceil. pose proof (Z.div_mod (size + 4096 - 1) 4096 ltac:(lia)).
  pose proof (Z.mod_pos_bound (size + 4096 - 1) 4096 ltac:(lia)). lia.
Qed.

Lemma segments_sized data ls : Forall (segment_ok data) ls → Forall (λ ph, 0 ≤ p_vaddr ph ∧ 0 ≤ p_memsz ph) ls.
Proof. intros Hok. eapply Forall_impl; [exact Hok|]. intros ph (Hv & _ & Hf & _). lia. Qed.

Lemma init_allocates (p : Process) (k : machine M F) (elf : Elf) (more : Z) :
  let ls := loads elf in
  let base := NEXT_VIRT_USER (statics k) in
  let n := pages_for (footprint ls) in
  parse (proc_data p) = Some elf → Forall (λ ph, 0 ≤ p_vaddr ph ∧ 0 ≤ p_memsz ph) ls → 0 < footprint ls →
  0 ≤ more → region_ok base n → frames_for (frames k) (n + more) → fresh_range (mapper k) base n →
  ∃ m' f' frs, zlen frs = n ∧ page_map m' = map_pages base frs user_flags (page_map (mapper k)) ∧
    frames_for f' more ∧ (∀ q, huge m' q → huge (mapper k) q) ∧
    init parse p k =
      (mem ← load_loop (proc_data p) base (program_headers elf) (memory k);
       e ← elf_entry elf +[64] base;
       Ret (inr (), mkProcess (pid p) (stack_addr p) (proc_data p) (Some e),
            mkMachine (mkStatics (NEXT_VIRT (statics k)) (base + 4096 * n)) m' f' mem)).
Proof.
  intros ls base n Hparse Hsz Hfp Hmore Hreg Hf Hfr. pose proof Hreg as (_ & Hb & Hend & _).
  pose proof (pages_for_enough (footprint ls) ltac:(lia)) as Hen. fold n in Hen.
  destruct (alloc_pages_user_result (statics k) (mapper k) (frames k) n more)
    as (m' & f' & frs & Ha & Hlen & Hpm & Hf' & Hh); [unfold n, pages_for; lia|done..|].
  exists m', f', frs. split_and!; [done|done|done|done|]. unfold init. rewrite Hparse.
  assert (Hsize : size_loop 0 (program_headers elf) = Ret (footprint ls)).
  { apply size_loop_footprint; [lia|exact Hsz|]. change (footprint ls < 2 ^ 64). lia. }
  rewrite Hsize, bind_Ret. unfold alloc_user. rewrite (proj2 (Z.eqb_neq _ _)) by lia.
  change (Z.max (div_ceil (footprint ls) 4096) 2) with n. rewrite Ha. reflexivity.
Qed.
End laws.

(** What [init] leaves, with room for [more] pages. *)
Lemma init_loads_more `{X86Laws} {M : Type} `{MapperLaws M} {F : Type} `{FrameContract F}
    (parse : list Z → option Elf) (p : Process) (k : machine M F) (elf : Elf) (more : Z) :
  let ls := loads elf in
  let base := NEXT_VIRT_USER (statics k) in
  let n := pages_for (footprint ls) in
  parse (proc_data p) = Some elf → zlen (proc_data p) < 2 ^ 63 →
  Forall (segment_ok (proc_data p)) ls → separated (extent <$> ls) → 0 < footprint ls →
  0 ≤ elf_entry elf → elf_entry elf + base < 2 ^ 64 → 0 ≤ more →
  region_ok base n → frames_for (frames k) (n + more) → fresh_range (mapper k) base n →
  returns (init parse p k) (λ '(r, p', k'),
    r = inr () ∧ entrypoint p' = Some (elf_entry elf + base) ∧ stack_addr p' = stack_addr p ∧
    statics k' = mkStatics (NEXT_VIRT (statics k)) (base + 4096 * n) ∧
    (∃ frs, zlen frs = n ∧ page_map (mapper k') = map_pages base frs user_flags (page_map (mapper k))) ∧
    (∀ ph a, ph ∈ ls → in_segment base ph a →
       base ≤ a < base + 4096 * n ∧ memory k' a = image (proc_data p) base ph a) ∧
    (∀ a, (∀ ph, ph ∈ ls → ¬ in_segment base ph a) → memory k' a = memory k a) ∧
    frames_for (frames k') more ∧ (∀ q, huge (mapper k') q → huge (mapper k) q)).
Proof.
  intros ls base n Hparse Hlen Hok Hsep Hfp He0 He Hmore Hreg Hf Hfr. pose proof Hreg as (_ & Hb & Hend & _).
  pose proof (segments_sized _ _ Hok) as Hsz.
  destruct (init_allocates parse p k elf more) as (m' & f' & frs & Hfl & Hpm & Hf' & Hh & ->); [done..|].
  pose proof (pages_for_enough (footprint ls) ltac:(lia)) as Hen. fold n in Hen.
  destruct (footprint_bounds 0 ls ltac:(lia) Hsz) as [_ Hin]. change (foldl grow 0 ls) with (footprint ls) in Hin.
  eapply returns_bind.
  - apply load_loop_image; [exact Hok| |exact Hsep|exact Hb|exact Hlen].
    eapply Forall_impl; [exact Hin|]. intros ph Hph. fold base. cbn beta in Hph |- *. lia.
  - intros mem [Hm1 Hm2]. fold base. checked_step. apply returns_Ret.
    cbn [entrypoint stack_addr statics mapper frames memory]. split_and!; try done.
    + by exists frs.
    + intros ph a Hph Ha. split; [|by apply Hm1].
      rewrite Forall_forall in Hin, Hsz. specialize (Hin ph Hph). specialize (Hsz ph Hph).
      unfold in_segment in Ha. lia.
Qed.

(** [switch] of a program that is loaded and has no stack yet. *)
Lemma switch_loaded `{X86Laws} {M : Type} `{MapperLaws M} {F : Type} `{FrameContract F}
    (parse : list Z → option Elf) (p p1 : Process) (k k1 : machine M F) (pages e : Z) :
  entrypoint p = None → init parse p k = Ret (inr (), p1, k1) → entrypoint p1 = Some e → stack_addr p1 = None →
  0 < pages → region_ok (NEXT_VIRT_USER (statics k1)) pages → frames_for (frames k1) pages →
  fresh_range (mapper k1) (NEXT_VIRT_USER (statics k1)) pages →
  ∃ p' k' frs, switch parse pages p k = Ret (Jump e (NEXT_VIRT_USER (statics k1)), p', k') ∧
    memory k' = memory k1 ∧ zlen frs = pages ∧
    page_map (mapper k') = map_pages (NEXT_VIRT_USER (statics k1)) frs user_flags (page_map (mapper k1)).
Proof.
  intros Hn Hi He Hs Hp Hreg Hf Hfr.
  destruct (alloc_pages_user_result (statics k1) (mapper k1) (frames k1) pages 0)
    as (m' & f' & frs & Ha & Hlen & Hpm & _); [done|done|done|by rewrite Z.add_0_r|done|].
  unfold switch. rewrite Hn, Hi, bind_Ret, Hs. unfold alloc_stack. rewrite Ha, !bind_Ret.
  cbn [entrypoint stack_addr]. rewrite He. cbn [unwrap]. rewrite !bind_Ret. by eexists _, _, frs.
Qed.

#[local] Existing Instances amd64 amd64_laws sample_Mapper sample_MapperLaws sample_FA sample_FC.

(** ** Properties *)

(** C5: Loading a program whose segments lie within the file and do not
    overlap succeeds: consecutive user pages are mapped from the next free user
    address, every segment lies inside of them, and its bytes are those of the
    file, followed by zeros up to its size in memory; no other byte of memory
    changes, and the entry point is relocated by the same base. A segment is no
    larger in the file than in memory, there are segments at all, the pages from
    the next free user address on are unmapped and inside the address space, and
    there are frames for them. *)
Theorem elf_init_loads `{X86Laws} {M : Type} `{MapperLaws M} {F : Type} `{FrameContract F}
    (parse : list Z → option Elf) (p : Process) (k : machine M F) (elf : Elf) :
  let ls := loads elf in
  let base := NEXT_VIRT_USER (statics k) in
  let n := pages_for (footprint ls) in
  parse (proc_data p) = Some elf → zlen (proc_data p) < 2 ^ 63 →
  Forall (segment_ok (proc_data p)) ls → separated (extent <$> ls) → 0 < footprint ls →
  0 ≤ elf_entry elf → elf_entry elf + base < 2 ^ 64 →
  region_ok base n → frames_for (frames k) n → fresh_range (mapper k) base n →
  returns (init parse p k) (λ '(r, p', k'),
    r = inr () ∧ entrypoint p' = Some (elf_entry elf + base) ∧ stack_addr p' = stack_addr p ∧
    NEXT_VIRT_USER (statics k') = base + 4096 * n ∧
    (∃ frs, zlen frs = n ∧ page_map (mapper k') = map_pages base frs user_flags (page_map (mapper k))) ∧
    (∀ ph a, ph ∈ ls → in_segment base ph a →
       base ≤ a < base + 4096 * n ∧ memory k' a = image (proc_data p) base ph a) ∧
    (∀ a, (∀ ph, ph ∈ ls → ¬ in_segment base ph a) → memory k' a = memory k a)).
Proof.
  intros ls base n Hparse Hlen Hok Hsep Hfp He0 He Hreg Hf Hfr.
  eapply returns_mono; [apply (init_loads_more parse p k elf 0); try done; by rewrite Z.add_0_r|].
  intros [[r p'] k'] (Hr & Hen & Hs & Hst & Hpm & Hm & Hm' & _). rewrite Hst. by split_and!.
Qed.

(** A file with one segment: three bytes, zeroed to eight. *)
Definition sample_elf : Elf := mkElf [mkPh PT_LOAD 1 0x100 3 8; mkPh 2 0 0 0 0] 0x100.
Definition sample_process : Process := process_new [9; 1; 2; 3].
Definition sample_kernel : machine (gmap Z (Z * Z)) (BootInfoFrameAllocator (MemoryRegionKind:=bool)) :=
  mkMachine statics0 ∅ sample_frames (λ _, 0xCC).

Lemma user_area_ok n : 0 < n ≤ 1000 → region_ok (NEXT_VIRT_USER statics0) n.
Proof. intros Hn. split_and!; [done|done|cbn; lia|]. intros i Hi. right. cbn. lia. Qed.

Lemma elf_init_loads_witness :
  returns (init (λ _, Some sample_elf) sample_process sample_kernel) (λ '(r, p', k'),
    r = inr () ∧ entrypoint p' = Some (0x100 + NEXT_VIRT_USER statics0) ∧
    memory k' (NEXT_VIRT_USER statics0 + 0x101) = 2 ∧ memory k' (NEXT_VIRT_USER statics0 + 0x104) = 0).
Proof.
  eapply returns_mono.
  - apply (elf_init_loads (λ _, Some sample_elf) sample_process sample_kernel sample_elf eq_refl);
      [done| | |done|done|done|by apply user_area_ok|by apply sample_frames_for|apply empty_fresh].
    + apply Forall_singleton. repeat split; vm_compute; discriminate.
    + split; [constructor|done].
  - intros [[r p'] k'] (Hr & He & _ & _ & _ & Hm & _). split_and!; [exact Hr|exact He| |].
    + destruct (Hm (mkPh PT_LOAD 1 0x100 3 8) (NEXT_VIRT_USER statics0 + 0x101)) as [_ ->];
        [by left|split; vm_compute; first [reflexivity|discriminate]|reflexivity].
    + destruct (Hm (mkPh PT_LOAD 1 0x100 3 8) (NEXT_VIRT_USER statics0 + 0x104)) as [_ ->];
        [by left|split; vm_compute; first [reflexivity|discriminate]|reflexivity].
Defined.

(** [switch] passes the start of the stack's pages as the top of the
    stack: all of the pages it maps lie at or above that address, and the page
    that the program's first push writes to, the one below it, is whatever was
    mapped there, the last page of the program itself. *)
Theorem switch_stack_upside_down `{X86Laws} {M : Type} `{MapperLaws M} {F : Type} `{FrameContract F}
    (parse : list Z → option Elf) (p : Process) (k : machine M F) (pages e : Z) :
  let sp := NEXT_VIRT_USER (statics k) in
  entrypoint p = Some e → stack_addr p = None → 0 < pages →
  region_ok sp pages → frames_for (frames k) pages → fresh_range (mapper k) sp pages →
  returns (switch parse pages p k) (λ '(r, p', k'),
    r = Jump e sp ∧
    (∃ frs, zlen frs = pages ∧ page_map (mapper k') = map_pages sp frs user_flags (page_map (mapper k))) ∧
    page_map (mapper k') !! (sp - 4096) = page_map (mapper k) !! (sp - 4096) ∧
    memory k' = memory k).
Proof.
  intros sp He Hs Hp Hreg Hf Hfr.
  destruct (alloc_pages_user_result (statics k) (mapper k) (frames k) pages 0)
    as (m' & f' & frs & Ha & Hlen & Hpm & _); [done|done|done|by rewrite Z.add_0_r|done|].
  unfold switch. rewrite He, bind_Ret, Hs. unfold alloc_stack. rewrite Ha, !bind_Ret.
  cbn [entrypoint stack_addr]. rewrite He. cbn [unwrap]. rewrite !bind_Ret. apply returns_Ret.
  cbn [mapper memory]. split_and!; [done|by exists frs| |done].
  rewrite Hpm. apply map_pages_below. lia.
Qed.

Lemma switch_stack_upside_down_witness :
  returns (switch (λ _, None) 10 (mkProcess None None [] (Some 0x400000)) sample_kernel) (λ '(r, _, _),
    r = Jump 0x400000 (NEXT_VIRT_USER statics0)).
Proof.
  eapply returns_mono.
  - apply (switch_stack_upside_down (λ _, None) (mkProcess None None [] (Some 0x400000)) sample_kernel 10 0x400000);
      [done|done|done|by apply user_area_ok|by apply sample_frames_for|apply empty_fresh].
  - intros [[r p'] k'] [Hr _]. exact Hr.
Defined.

(** A file whose first segment claims more bytes than the file has makes
    the kernel panic after its pages have been mapped, instead of the error for
    an invalid file. *)
Theorem elf_truncated_panics `{X86Laws} {M : Type} `{MapperLaws M} {F : Type} `{FrameContract F}
    (parse : list Z → option Elf) (p : Process) (k : machine M F) (elf : Elf) (ph : ProgramHeader)
    (phs : list ProgramHeader) :
  let n := pages_for (footprint (loads elf)) in
  let base := NEXT_VIRT_USER (statics k) in
  parse (proc_data p) = Some elf → program_headers elf = ph :: phs → p_type ph = PT_LOAD →
  Forall (λ ph, 0 ≤ p_vaddr ph ∧ 0 ≤ p_memsz ph) (loads elf) → 0 < footprint (loads elf) →
  0 ≤ p_offset ph → 0 ≤ p_filesz ph → zlen (proc_data p) < p_offset ph + p_filesz ph < 2 ^ 64 →
  region_ok base n → frames_for (frames k) n → fresh_range (mapper k) base n →
  init parse p k = Panic IndexOutOfBounds.
Proof.
  intros n base Hparse Hphs Ht Hsz Hfp Ho Hfs Hbad Hreg Hf Hfr. pose proof Hreg as (_ & Hb & Hend & _).
  destruct (init_allocates parse p k elf 0) as (m' & f' & frs & _ & _ & _ & _ & ->);
    [done|done|done|done|done|by rewrite Z.add_0_r|done|]. fold base.
  pose proof (pages_for_enough (footprint (loads elf)) ltac:(lia)) as Hen. fold n in Hen.
  destruct (footprint_bounds 0 (loads elf) ltac:(lia) Hsz) as [_ Hin].
  change (foldl grow 0 (loads elf)) with (footprint (loads elf)) in Hin.
  assert (Hmem : ph ∈ loads elf).
  { unfold loads. rewrite Hphs. apply list_elem_of_filter. split; [done|by left]. }
  rewrite Forall_forall in Hin, Hsz. specialize (Hin ph Hmem). specialize (Hsz ph Hmem). cbn beta in Hin, Hsz.
  rewrite Hphs. cbn [load_loop]. rewrite (proj2 (Z.eqb_eq _ _) Ht). simpl negb. cbv iota.
  unfold load_segment. rewrite !bind_assoc. checked_step. rewrite !bind_assoc. checked_step.
  unfold slice. rewrite (proj2 (Z.leb_gt (p_offset ph + p_filesz ph) _)) by lia. by rewrite andb_false_r.
Qed.

Lemma elf_truncated_panics_witness :
  init (λ _, Some sample_elf) (process_new [9; 1]) sample_kernel = Panic IndexOutOfBounds.
Proof.
  apply (elf_truncated_panics (λ _, Some sample_elf) (process_new [9; 1]) sample_kernel sample_elf
    (mkPh PT_LOAD 1 0x100 3 8) [mkPh 2 0 0 0 0]);
    [done|done|done| |done|done|done|done|by apply user_area_ok|by apply sample_frames_for|apply empty_fresh].
  apply Forall_singleton. split; vm_compute; discriminate.
Defined.
