(* ===== verification/Ide.v ===== *)
(** * The IDE driver (kernel/src/drivers/ide.rs)

    Register access over two channels, polling, PIO transfers, ATAPI packets.
    The module is not built (drivers/mod.rs leaves it out: "Probably doesn't
    work").  Every static is behind a spin lock, and Rust keeps the guard of
    [X.lock()] until the end of the statement it stands in: the model takes and
    drops the locks at the same places.  Log lines are left out where they
    take no lock. *)

From S2P Require Import Prelude Arch Hardware Sync FrameAllocator Paging Pci Interrupts.
Open Scope Z_scope.
Open Scope rust_scope.

(** ** Constants *)

Definition ATA_SR_BSY : Z := 0x80.
Definition ATA_SR_DF : Z := 0x20.
Definition ATA_SR_DRQ : Z := 0x08.
Definition ATA_SR_ERR : Z := 0x01.

Definition ATA_ER_BBK : Z := 0x80.
Definition ATA_ER_UNC : Z := 0x40.
Definition ATA_ER_MC : Z := 0x20.
Definition ATA_ER_IDNF : Z := 0x10.
Definition ATA_ER_MCR : Z := 0x08.
Definition ATA_ER_ABRT : Z := 0x04.
Definition ATA_ER_TK0NF : Z := 0x02.
Definition ATA_ER_AMNF : Z := 0x01.

Definition ATA_CMD_READ_PIO : Z := 0x20.
Definition ATA_CMD_READ_PIO_EXT : Z := 0x24.
Definition ATA_CMD_READ_DMA : Z := 0xC8.
Definition ATA_CMD_READ_DMA_EXT : Z := 0x25.
Definition ATA_CMD_WRITE_PIO : Z := 0x30.
Definition ATA_CMD_WRITE_PIO_EXT : Z := 0x34.
Definition ATA_CMD_WRITE_DMA : Z := 0xCA.
Definition ATA_CMD_WRITE_DMA_EXT : Z := 0x35.
Definition ATA_CMD_CACHE_FLUSH : Z := 0xE7.
Definition ATA_CMD_CACHE_FLUSH_EXT : Z := 0xEA.
Definition ATA_CMD_PACKET : Z := 0xA0.
Definition ATA_CMD_IDENTIFY_PACKET : Z := 0xA1.
Definition ATA_CMD_IDENTIFY : Z := 0xEC.
Definition ATAPI_CMD_READ : Z := 0xA8.
Definition ATAPI_CMD_EJECT : Z := 0x1B.

Definition ATA_IDENT_DEVICETYPE : Z := 0.
Definition ATA_IDENT_MODEL : Z := 54.
Definition ATA_IDENT_CAPABILITIES : Z := 98.
Definition ATA_IDENT_MAX_LBA : Z := 120.
Definition ATA_IDENT_COMMANDSETS : Z := 164.
Definition ATA_IDENT_MAX_LBA_EXT : Z := 200.

Definition IDE_ATA : Z := 0x00.
Definition IDE_ATAPI : Z := 0x01.

Definition ATA_REG_DATA : Z := 0x00.
Definition ATA_REG_ERROR : Z := 0x01.
Definition ATA_REG_FEATURES : Z := 0x01.
Definition ATA_REG_SECCOUNT0 : Z := 0x02.
Definition ATA_REG_LBA0 : Z := 0x03.
Definition ATA_REG_LBA1 : Z := 0x04.
Definition ATA_REG_LBA2 : Z := 0x05.
Definition ATA_REG_HDDEVSEL : Z := 0x06.
Definition ATA_REG_COMMAND : Z := 0x07.
Definition ATA_REG_STATUS : Z := 0x07.
Definition ATA_REG_SECCOUNT1 : Z := 0x08.
Definition ATA_REG_LBA3 : Z := 0x09.
Definition ATA_REG_LBA4 : Z := 0x0A.
Definition ATA_REG_LBA5 : Z := 0x0B.
Definition ATA_REG_CONTROL : Z := 0x0C.
Definition ATA_REG_ALTSTATUS : Z := 0x0C.

Definition ATA_PRIMARY : Z := 0x00.
Definition ATA_SECONDARY : Z := 0x01.
Definition ATA_READ : Z := 0x00.

(** ** Data *)

Record IDEChannelRegs : Type := mkChannel { base : Z; ctrl : Z; bmide : Z; nien : Z }.

Record IDEDevice : Type := mkDevice {
  rsv0 : Z; channel : Z; drive : Z; typ : Z; sig : Z; capabilities : Z;
  cmdsets : Z; sz : Z; model : list Z;
}.

Inductive static : Type := CHANNELS | IDE_BUF | IDE_IRQ_INVOKED | ATAPI_PACKET | IDE_DEVICES.

#[export] Instance static_eq_dec : EqDecision static.
Proof. solve_decision. Defined.

#[export] Instance static_countable : Countable static.
Proof.
  refine (inj_countable'
    (λ s, match s with CHANNELS => 0 | IDE_BUF => 1 | IDE_IRQ_INVOKED => 2 | ATAPI_PACKET => 3 | IDE_DEVICES => 4 end)
    (λ n, match n with 0 => CHANNELS | 1 => IDE_BUF | 2 => IDE_IRQ_INVOKED | 3 => ATAPI_PACKET | _ => IDE_DEVICES end) _).
  by intros [].
Defined.

(** The statics, which of them are locked, memory and the devices. *)
Record machine (H : Type) : Type := mkMachine {
  channels : list IDEChannelRegs;
  ide_buf : list Z;
  irq_invoked : Z;
  atapi_packet : list Z;
  ide_devices : list IDEDevice;
  held : gset static;
  memory : Z → Z;
  hw : H;
}.
Arguments mkMachine {H}.
Arguments channels {H}. Arguments ide_buf {H}. Arguments irq_invoked {H}. Arguments atapi_packet {H}.
Arguments ide_devices {H}. Arguments held {H}. Arguments memory {H}. Arguments hw {H}.

(** [lba_mode], the six bytes of [lba_io], [head]. *)
Definition lba_split (lba capabilities : Z) : outcome (Z * list Z * Z) :=
  if 0x10000000 <=? lba then
    Ret (2, [Z.land lba 0xFF; Z.shiftr (Z.land lba 0xFF00) 8; Z.shiftr (Z.land lba 0xFF0000) 16;
             Z.shiftr (Z.land lba 0xFF000000) 24; 0; 0], 0)
  else if negb (Z.land capabilities 0x200 =? 0) then
    Ret (1, [Z.land lba 0xFF; Z.shiftr (Z.land lba 0xFF00) 8; Z.shiftr (Z.land lba 0xFF0000) 16; 0; 0; 0],
         wrap 8 (Z.shiftr (Z.land lba 0xF000000) 24))
  else
    s ← (lba mod 63) +[32] 1;
    let sect := wrap 8 s in
    t ← lba +[32] 1;
    t ← t -[32] sect;
    let cyl := wrap 16 (t / (16 * 63)) in
    let head := wrap 8 (t mod (16 * 63) / 63) in
    Ret (0, [sect; Z.land cyl 0xFF; Z.land (Z.shiftr cyl 8) 0xFF; 0; 0; 0], head).

(** The twelve tests that choose [cmd]. *)
Definition ata_command (lba_mode dma direction : Z) : Z :=
  let on m d r c cmd := if (lba_mode =? m) && (dma =? d) && (direction =? r) then c else cmd in
  let cmd := 0 in
  let cmd := on 0 0 0 ATA_CMD_READ_PIO cmd in
  let cmd := on 1 0 0 ATA_CMD_READ_PIO cmd in
  let cmd := on 2 0 0 ATA_CMD_READ_PIO_EXT cmd in
  let cmd := on 0 1 0 ATA_CMD_READ_DMA cmd in
  let cmd := on 1 1 0 ATA_CMD_READ_DMA cmd in
  let cmd := on 2 1 0 ATA_CMD_READ_DMA_EXT cmd in
  let cmd := on 0 0 1 ATA_CMD_WRITE_PIO cmd in
  let cmd := on 1 0 1 ATA_CMD_WRITE_PIO cmd in
  let cmd := on 2 0 1 ATA_CMD_WRITE_PIO_EXT cmd in
  let cmd := on 0 1 1 ATA_CMD_WRITE_DMA cmd in
  let cmd := on 1 1 1 ATA_CMD_WRITE_DMA cmd in
  on 2 1 1 ATA_CMD_WRITE_DMA_EXT cmd.

(** What [fmt_error] makes of the error register: the last test that holds. *)
Definition error_code (st : Z) : Z :=
  let on bit code ret := if negb (Z.land st bit =? 0) then code else ret in
  let ret := 0 in
  let ret := on ATA_ER_AMNF 7 ret in
  let ret := on ATA_ER_TK0NF 3 ret in
  let ret := on ATA_ER_ABRT 20 ret in
  let ret := on ATA_ER_MCR 3 ret in
  let ret := on ATA_ER_IDNF 21 ret in
  let ret := on ATA_ER_MC 3 ret in
  let ret := on ATA_ER_UNC 22 ret in
  on ATA_ER_BBK 13 ret.

(** [ptr::read_unaligned] of a little-endian integer in a byte buffer. *)
Fixpoint le_value (bs : list Z) : Z :=
  match bs with [] => 0 | b :: bs => b + 2 ^ 8 * le_value bs end.
Definition le_bytes (w : Z) : list Z := (λ i, w / 2 ^ (8 * i) mod 2 ^ 8) <$> seqZ 0 4.
Definition read_unaligned (buf : list Z) (o n : Z) : Z := le_value (sub_list buf o (o + n)).

(** The [u32]s of a byte buffer, and back. *)
Definition as_u32s (buf : list Z) : list Z := (λ i, read_unaligned buf (4 * i) 4) <$> seqZ 0 (zlen buf / 4).
Definition of_u32s (ws : list Z) : list Z := ws ≫= le_bytes.

(** ** Operations *)

Section ide.
Context {H : Type} `{Hardware H} `{Spinlock}.
Abbreviation M := (machine H).

Definition get {A} (f : M → A) : io M A := λ m, Ret (f m, m).

Definition set_held (b : gset static) (m : M) : M :=
  mkMachine (channels m) (ide_buf m) (irq_invoked m) (atapi_packet m) (ide_devices m) b (memory m) (hw m).
Definition set_hw (h : H) (m : M) : M :=
  mkMachine (channels m) (ide_buf m) (irq_invoked m) (atapi_packet m) (ide_devices m) (held m) (memory m) h.
Definition put_channels (l : list IDEChannelRegs) : io M unit := λ m, Ret ((),
  mkMachine l (ide_buf m) (irq_invoked m) (atapi_packet m) (ide_devices m) (held m) (memory m) (hw m)).
Definition put_buf (l : list Z) : io M unit := λ m, Ret ((),
  mkMachine (channels m) l (irq_invoked m) (atapi_packet m) (ide_devices m) (held m) (memory m) (hw m)).
Definition put_irq (v : Z) : io M unit := λ m, Ret ((),
  mkMachine (channels m) (ide_buf m) v (atapi_packet m) (ide_devices m) (held m) (memory m) (hw m)).
Definition put_packet (l : list Z) : io M unit := λ m, Ret ((),
  mkMachine (channels m) (ide_buf m) (irq_invoked m) l (ide_devices m) (held m) (memory m) (hw m)).
Definition put_devices (l : list IDEDevice) : io M unit := λ m, Ret ((),
  mkMachine (channels m) (ide_buf m) (irq_invoked m) (atapi_packet m) l (held m) (memory m) (hw m)).
Definition put_memory (f : Z → Z) : io M unit := λ m, Ret ((),
  mkMachine (channels m) (ide_buf m) (irq_invoked m) (atapi_packet m) (ide_devices m) (held m) f (hw m)).

Definition on_hw {A} (op : io H A) : io M A := λ m, '(a, h) ← op (hw m); Ret (a, set_hw h m).

(** Setting a lock, [s.lock()], the drop of its guard, and a statement that holds the guard. *)
Definition set_lock (s : static) (b : bool) (l : gset static) : gset static :=
  if b then {[s]} ∪ l else l ∖ {[s]}.
Definition lock (s : static) : io M unit := λ m,
  b ← spin_lock (bool_decide (s ∈ held m)); Ret ((), set_held (set_lock s b (held m)) m).
Definition unlock (s : static) : io M unit := λ m,
  Ret ((), set_held (set_lock s (spin_unlock (bool_decide (s ∈ held m))) (held m)) m).
Definition with_lock {A} (s : static) (body : io M A) : io M A :=
  _ ← lock s; a ← body; _ ← unlock s; ret a.

(** [CHANNELS.lock()[c]] and [IDE_DEVICES.lock()[d]] in a statement [body]. *)
Definition at_channel {A} (c : Z) (body : IDEChannelRegs → io M A) : io M A :=
  with_lock CHANNELS (cs ← get channels; r ← lift (index cs c); body r).
Definition at_device {A} (d : Z) (body : IDEDevice → io M A) : io M A :=
  with_lock IDE_DEVICES (ds ← get ide_devices; r ← lift (index ds d); body r).

Definition set_nien (c v : Z) : io M unit :=
  with_lock CHANNELS (cs ← get channels; r ← lift (index cs c);
    cs ← lift (store cs c (mkChannel (base r) (ctrl r) (bmide r) v)); put_channels cs).

(** [IDE_DEVICES.lock()[d].field = ..]. *)
Definition set_device (d : Z) (f : IDEDevice → IDEDevice) : io M unit :=
  with_lock IDE_DEVICES (ds ← get ide_devices; r ← lift (index ds d);
    ds ← lift (store ds d (f r)); put_devices ds).

(** The address arithmetic and the access in the middle of [ide_write] and
    [ide_read], the guard held until the access is done. *)
Definition port_write (c reg data : Z) : io M unit :=
  if reg <? 0x08 then at_channel c (λ r, p ← lift (base r +[16] reg); on_hw (out8 p data))
  else if reg <? 0x0C then
    at_channel c (λ r, p ← lift (base r +[16] reg); p ← lift (p -[16] 0x06); on_hw (out8 p data))
  else if reg <? 0x0E then
    at_channel c (λ r, p ← lift (base r +[16] reg); p ← lift (p -[16] 0x0A); on_hw (out8 p data))
  else if reg <? 0x16 then
    at_channel c (λ r, p ← lift (base r +[16] reg); p ← lift (p -[16] 0x0E); on_hw (out8 p data))
  else ret ().

Definition port_read (c reg : Z) : io M (option Z) :=
  if reg <? 0x08 then at_channel c (λ r, p ← lift (base r +[16] reg); v ← on_hw (in8 p); ret (Some v))
  else if reg <? 0x0C then
    at_channel c (λ r, p ← lift (base r +[16] reg); p ← lift (p -[16] 0x06); v ← on_hw (in8 p); ret (Some v))
  else if reg <? 0x0E then
    at_channel c (λ r, p ← lift (base r +[16] reg); p ← lift (p -[16] 0x0A); v ← on_hw (in8 p); ret (Some v))
  else if reg <? 0x16 then
    at_channel c (λ r, p ← lift (base r +[16] reg); p ← lift (p -[16] 0x0E); v ← on_hw (in8 p); ret (Some v))
  else ret None.

(** [ide_write(channel, ATA_REG_CONTROL, f(CHANNELS.lock()[channel].nien))]: the
    guard in the argument lives through the call.  For the control register
    [ide_write] does not call itself again. *)
Definition write_control (c : Z) (f : Z → Z) : io M unit :=
  at_channel c (λ r, port_write c ATA_REG_CONTROL (f (nien r))).

Definition banked (reg : Z) : bool := (0x07 <? reg) && (reg <? 0x0C).

Definition ide_write (c reg data : Z) : io M unit :=
  _ ← (if banked reg then write_control c (Z.lor 0x80) else ret ());
  _ ← port_write c reg data;
  if banked reg then write_control c id else ret ().

Definition ide_read (c reg : Z) : io M Z :=
  _ ← (if banked reg then write_control c (Z.lor 0x80) else ret ());
  o ← port_read c reg;
  match o with
  | Some v => ret v                         (* [return] leaves the bank selected *)
  | None => _ ← (if banked reg then write_control c id else ret ()); ret 0
  end.

(** [buffer[i] = p.read()] for [i] in [0..quads]. *)
Fixpoint read_quads (p : Z) (buffer : list Z) (i : Z) (n : nat) : io M (list Z) :=
  match n with
  | O => ret buffer
  | S n => v ← on_hw (in32 p); buffer ← lift (store buffer i v); read_quads p buffer (i + 1) n
  end.

Definition ide_read_buffer (c reg : Z) (buffer : list Z) (quads : Z) : io M (list Z) :=
  _ ← (if banked reg then write_control c (Z.lor 0x80) else ret ());
  o ← (if reg <? 0x08 then at_channel c (λ r, p ← lift (base r +[16] reg); ret (Some p))
       else if reg <? 0x0C then
         at_channel c (λ r, p ← lift (base r +[16] reg); p ← lift (p -[16] 0x06); ret (Some p))
       else if reg <? 0x0E then
         at_channel c (λ r, p ← lift (ctrl r +[16] reg); p ← lift (p -[16] 0x0A); ret (Some p))
       else if reg <? 0x16 then
         at_channel c (λ r, p ← lift (bmide r +[16] reg); p ← lift (p -[16] 0x0E); ret (Some p))
       else ret None);
  match o with
  | None => ret buffer
  | Some p =>
      buffer ← read_quads p buffer 0 (Z.to_nat quads);
      _ ← (if banked reg then write_control c id else ret ());
      ret buffer
  end.

Fixpoint times (n : nat) (op : io M unit) : io M unit :=
  match n with O => ret () | S n => _ ← op; times n op end.

(** [while ide_read(c, ATA_REG_STATUS) & mask != 0 {}]. *)
Fixpoint wait_clear (fuel : nat) (c mask : Z) : io M unit :=
  match fuel with
  | O => λ _, OutOfFuel
  | S fuel => v ← ide_read c ATA_REG_STATUS;
              if Z.land v mask =? 0 then ret () else wait_clear fuel c mask
  end.

Definition ide_polling (fuel : nat) (c advanced_check : Z) : io M Z :=
  _ ← times 4 (_ ← ide_read c ATA_REG_ALTSTATUS; ret ());
  _ ← wait_clear fuel c ATA_SR_BSY;
  if negb (advanced_check =? 0) then
    state ← ide_read c ATA_REG_STATUS;
    if negb (Z.land state ATA_SR_ERR =? 0) then ret 2
    else if negb (Z.land state ATA_SR_DF =? 0) then ret 1
    else if Z.land state ATA_SR_DRQ =? 0 then ret 3
    else ret 0
  else ret 0.

Definition fmt_error (drive err : Z) : io M Z :=
  if err =? 0 then ret err
  else if err =? 1 then ret 19
  else if err =? 2 then
    st ← at_device drive (λ d, ide_read (channel d) ATA_REG_ERROR);
    ret (error_code st)
  else if err =? 3 then ret 23
  else if err =? 4 then ret 8
  else ret 0.

(** The countdown of [ide_cache_flush]. *)
Fixpoint flush_loop (timeout : nat) (c : Z) : io M bool :=
  match timeout with
  | O => ret false
  | S timeout =>
      stat ← ide_read c ATA_REG_STATUS;
      if Z.land stat ATA_SR_BSY =? 0 then ret true else flush_loop timeout c
  end.

Definition ide_cache_flush (c lba_mode : Z) : io M bool :=
  _ ← ide_write c ATA_REG_COMMAND
        (if lba_mode =? 2 then ATA_CMD_CACHE_FLUSH_EXT else ATA_CMD_CACHE_FLUSH);
  flush_loop (Z.to_nat 100000) c.

(** [rep insw] and [rep outsw] of [n] words at [edi]. *)
Fixpoint insw (port edi : Z) (n : nat) : io M unit :=
  match n with
  | O => ret ()
  | S n => v ← on_hw (in16 port);
           mem ← get memory;
           _ ← put_memory (write_bytes mem edi [v mod 2 ^ 8; v / 2 ^ 8]);
           insw port (edi + 2) n
  end.
Fixpoint outsw (port edi : Z) (n : nat) : io M unit :=
  match n with
  | O => ret ()
  | S n => mem ← get memory;
           _ ← on_hw (out16 port (le_value (read_bytes mem edi 2)));
           outsw port (edi + 2) n
  end.

(** The sector loops of [ide_ata_access]; [Some err] is the early return. *)
Fixpoint read_loop (fuel : nat) (c bus words edi err : Z) (n : nat) : io M (option Z) :=
  match n with
  | O => ret None
  | S n =>
      p ← ide_polling fuel c 1;
      if err =? p then ret (Some err)
      else
        _ ← insw bus edi (Z.to_nat words);
        edi ← lift (edi +[32] words * 2);
        read_loop fuel c bus words edi err n
  end.

Fixpoint write_loop (fuel : nat) (c bus words edi : Z) (n : nat) : io M unit :=
  match n with
  | O => ret ()
  | S n =>
      _ ← ide_polling fuel c 0;
      _ ← outsw bus edi (Z.to_nat words);
      edi ← lift (edi +[32] words * 2);
      write_loop fuel c bus words edi n
  end.

(** [edi] is the address of the buffer. *)
Definition ide_ata_access (fuel : nat) (direction drv lba numsects selector edi : Z) : io M Z :=
  let dma := 0 in
  c ← at_device drv (λ d, ret (channel d));
  childbit ← at_device drv (λ d, ret (drive d));
  bus ← at_channel c (λ r, ret (base r));
  let words := 256 in
  let err := 0 in
  _ ← with_lock IDE_IRQ_INVOKED (put_irq 0);
  v ← with_lock IDE_IRQ_INVOKED (v ← get irq_invoked; lift (v +[8] 0x02));
  _ ← set_nien c v;
  _ ← with_lock IDE_IRQ_INVOKED (v ← get irq_invoked; v ← lift (v +[8] 0x02);
        ide_write c ATA_REG_CONTROL v);
  caps ← at_device drv (λ d, ret (capabilities d));
  '(lba_mode, lba_io, head) ← lift (lba_split lba caps);
  let lba_byte i := default 0 (lba_io !! Z.to_nat i) in
  _ ← wait_clear fuel c ATA_SR_BSY;
  _ ← ide_write c ATA_REG_HDDEVSEL
        (Z.lor (Z.lor (if lba_mode =? 0 then 0xA0 else 0xE0) (shl 8 childbit 4)) head);
  _ ← (if lba_mode =? 2 then
         _ ← ide_write c ATA_REG_SECCOUNT1 0;
         _ ← ide_write c ATA_REG_LBA3 (lba_byte 3);
         _ ← ide_write c ATA_REG_LBA4 (lba_byte 4);
         ide_write c ATA_REG_LBA5 (lba_byte 5)
       else ret ());
  _ ← ide_write c ATA_REG_SECCOUNT0 numsects;
  _ ← ide_write c ATA_REG_LBA0 (lba_byte 0);
  _ ← ide_write c ATA_REG_LBA1 (lba_byte 1);
  _ ← ide_write c ATA_REG_LBA2 (lba_byte 2);
  _ ← ide_write c ATA_REG_COMMAND (ata_command lba_mode dma direction);
  if negb (dma =? 0) then ret 0
  else if direction =? 0 then
    o ← read_loop fuel c bus words edi err (Z.to_nat numsects);
    match o with Some err => ret err | None => ret 0 end
  else
    _ ← write_loop fuel c bus words edi (Z.to_nat numsects);
    ok ← ide_cache_flush c lba_mode;
    if negb ok then ret (uint_max 8)
    else _ ← ide_polling fuel c 0; ret 0.

(** [ide_irq], and the wait for it; [irq_at i]: the interrupt comes before the
    [i]-th look at the flag. *)
Definition ide_irq : io M unit := with_lock IDE_IRQ_INVOKED (put_irq 1).

Fixpoint ide_wait_irq (fuel : nat) (irq_at : nat → bool) (i : nat) : io M unit :=
  match fuel with
  | O => λ _, OutOfFuel
  | S fuel =>
      _ ← (if irq_at i then ide_irq else ret ());
      v ← with_lock IDE_IRQ_INVOKED (get irq_invoked);
      if negb (unot 8 v =? 0) then ide_wait_irq fuel irq_at (S i)
      else with_lock IDE_IRQ_INVOKED (put_irq 0)
  end.

Section atapi.
Context (fuel : nat) (irq_at : nat → bool).
(** Where [ATAPI_PACKET] lies, and what [rdi] holds at the [rep insw] of
    [ide_atapi_read], which sets [esi] only. *)
Context (packet_addr stale_rdi : Z).

(** The packet lies in memory at [packet_addr]; it is sent from
    [ATAPI_PACKET.data_ptr() as u32]. *)
Definition send_packet (bus : Z) : io M unit :=
  mem ← get memory; p ← get atapi_packet;
  _ ← put_memory (write_bytes mem packet_addr p);
  outsw bus (wrap 32 packet_addr) 6.

Fixpoint atapi_loop (c bus words edi : Z) (n : nat) : io M (option Z) :=
  match n with
  | O => ret None
  | S n =>
      _ ← ide_wait_irq fuel irq_at 0;
      err ← ide_polling fuel c 1;
      if negb (err =? 0) then ret (Some err)
      else
        _ ← insw bus stale_rdi (Z.to_nat words);
        edi ← lift (edi +[32] words * 2);
        atapi_loop c bus words edi n
  end.

Definition read_packet (lba numsects : Z) : list Z :=
  [ATAPI_CMD_READ; 0; Z.land (Z.shiftr lba 26) 0xFF; Z.land (Z.shiftr lba 16) 0xFF;
   Z.land (Z.shiftr lba 8) 0xFF; Z.land lba 0xFF; 0; 0; 0; numsects; 0; 0].

Definition ide_atapi_read (drv lba numsects selector edi : Z) : io M Z :=
  c ← at_device drv (λ d, ret (channel d));
  childbit ← at_device drv (λ d, ret (drive d));
  bus ← at_channel c (λ r, ret (base r));
  let words := 1024 in
  _ ← with_lock IDE_IRQ_INVOKED (put_irq 0);
  _ ← with_lock CHANNELS (                    (* the guard of [if let] lives through its body *)
        cs ← get channels;
        match cs !! Z.to_nat c with
        | Some cr =>
            cs ← lift (store cs c (mkChannel (base cr) (ctrl cr) (bmide cr) 0));
            _ ← put_channels cs;
            ide_write c ATA_REG_CONTROL 0
        | None => ret ()
        end);
  with_lock ATAPI_PACKET (
    _ ← put_packet (read_packet lba numsects);
    _ ← ide_write c ATA_REG_HDDEVSEL (shl 8 childbit 4);
    _ ← times 4 (_ ← ide_read c ATA_REG_ALTSTATUS; ret ());
    _ ← ide_write c ATA_REG_FEATURES 0;
    _ ← ide_write c ATA_REG_LBA1 (Z.land (words * 2) 0xFF);
    _ ← ide_write c ATA_REG_LBA2 (wrap 8 (Z.shiftr (words * 2) 8));
    _ ← ide_write c ATA_REG_COMMAND ATA_CMD_PACKET;
    err ← ide_polling fuel c 1;
    if negb (err =? 0) then ret err
    else
      _ ← send_packet bus;
      o ← atapi_loop c bus words edi (Z.to_nat numsects);
      match o with
      | Some err => ret err
      | None =>
          _ ← ide_wait_irq fuel irq_at 0;
          _ ← wait_clear fuel c (Z.lor ATA_SR_BSY ATA_SR_DRQ);
          ret 0
      end).

(** The ATAPI loop of [ide_read_sectors] and of [ide_write_sectors]. *)
Fixpoint atapi_sectors (drv lba es edi i err : Z) (n : nat) : io M Z :=
  match n with
  | O => ret err
  | S n =>
      a ← lift (lba +[32] i);
      o ← lift (i *[32] 2048);
      e ← lift (edi +[32] o);
      err ← ide_atapi_read drv a 1 es e;
      atapi_sectors drv lba es edi (i + 1) err n
  end.

(** [drive > 3 || IDE_DEVICES.lock()[drive].rsv0 == 0]. *)
Definition no_drive (drv : Z) : io M bool :=
  if 3 <? drv then ret true else r ← at_device drv (λ d, ret (rsv0 d)); ret (r =? 0).

Definition past_end (drv numsects lba : Z) : io M bool :=
  e ← lift (lba +[32] numsects);
  s ← at_device drv (λ d, ret (sz d));
  if s <? e then t ← at_device drv (λ d, ret (typ d)); ret (t =? IDE_ATA) else ret false.

Definition ide_read_sectors (drv numsects lba es edi : Z) : io M Z :=
  bad ← no_drive drv;
  if (bad : bool) then ret 0x1 else
  past ← past_end drv numsects lba;
  if (past : bool) then ret 0x2 else
  t ← at_device drv (λ d, ret (typ d));
  err ← (if t =? IDE_ATA then ide_ata_access fuel ATA_READ drv lba numsects es edi
         else t ← at_device drv (λ d, ret (typ d));
              if t =? IDE_ATAPI then atapi_sectors drv lba es edi 0 0 (Z.to_nat numsects)
              else ret 0);
  fmt_error drv err.

Definition ide_write_sectors (drv numsects lba es edi : Z) : io M Z :=
  bad ← no_drive drv;
  if (bad : bool) then ret 0x1 else
  past ← past_end drv numsects lba;
  if (past : bool) then ret 0x2 else
  t ← at_device drv (λ d, ret (typ d));
  err ← (if t =? IDE_ATA then ide_ata_access fuel ATA_READ drv lba numsects es edi
         else t ← at_device drv (λ d, ret (typ d));
              if t =? IDE_ATAPI then atapi_sectors drv lba es edi 0 0 (Z.to_nat numsects)
              else ret 0);
  fmt_error drv err.

Definition ide_atapi_eject (drv : Z) : io M Z :=
  c ← at_device drv (λ d, ret (channel d));
  childbit ← at_device drv (λ d, ret (drive d));
  bus ← at_channel c (λ r, ret (base r));
  _ ← with_lock IDE_IRQ_INVOKED (put_irq 0);
  bad ← no_drive drv;
  if (bad : bool) then ret 0x1 else
  t ← at_device drv (λ d, ret (typ d));
  if t =? IDE_ATA then ret 20 else
  _ ← with_lock IDE_IRQ_INVOKED (put_irq 0);
  v ← with_lock IDE_IRQ_INVOKED (get irq_invoked);
  _ ← set_nien c v;
  _ ← at_channel c (λ r, ide_write c ATA_REG_CONTROL (nien r));
  with_lock ATAPI_PACKET (
    _ ← put_packet [ATAPI_CMD_EJECT; 0; 0; 0; 0; 0; 0; 0; 0; 0; 0; 0];
    _ ← ide_write c ATA_REG_HDDEVSEL (shl 8 childbit 4);
    _ ← times 4 (_ ← ide_read c ATA_REG_ALTSTATUS; ret ());
    _ ← ide_write c ATA_REG_COMMAND ATA_CMD_PACKET;
    err ← ide_polling fuel c 1;
    err ← (if err =? 0 then
             _ ← send_packet bus;
             _ ← ide_wait_irq fuel irq_at 0;
             err ← ide_polling fuel c 1;
             ret (if err =? 3 then 0 else err)
           else ret err);
    fmt_error drv err).
End atapi.

(** ** Initialisation *)

Section init.
Context `{X86} {MP : Type} `{Mapper MP} {F : Type} `{FrameAllocator F}.
Context (fuel : nat) (ecam : Z) (ticks : H → nat → Z).

(** [Sleep::ms]. *)
Definition sleep (ms : Z) : io M unit := λ m, _ ← sleep_ms fuel (ticks (hw m)) ms; Ret ((), m).

(** The [loop] that waits for the answer to IDENTIFY; the result is [err]. *)
Fixpoint identify_loop (fuel : nat) (c : Z) : io M Z :=
  match fuel with
  | O => λ _, OutOfFuel
  | S fuel =>
      status ← ide_read c ATA_REG_STATUS;
      if negb (Z.land status ATA_SR_ERR =? 0) then ret 1
      else if negb (Z.land (unot 8 status) ATA_SR_BSY =? 0) && negb (Z.land status ATA_SR_DRQ =? 0) then ret 0
      else identify_loop fuel c
  end.

(** The statements that fill [IDE_DEVICES[count]] from [IDE_BUF]. *)
Definition buf_value (o n : Z) : io M Z := with_lock IDE_BUF (b ← get ide_buf; ret (read_unaligned b o n)).

Fixpoint model_loop (count k : Z) (n : nat) : io M unit :=
  match n with
  | O => ret ()
  | S n =>
      let kk := k * 2 in
      let copy at_ from :=
        v ← with_lock IDE_BUF (b ← get ide_buf; lift (index b from));
        with_lock IDE_DEVICES (ds ← get ide_devices; r ← lift (index ds count);
          mo ← lift (store (model r) at_ v);
          ds ← lift (store ds count (mkDevice (rsv0 r) (channel r) (drive r) (typ r) (sig r)
                                       (capabilities r) (cmdsets r) (sz r) mo));
          put_devices ds) in
      _ ← copy kk (ATA_IDENT_MODEL + kk + 1);
      _ ← copy (kk + 1) (ATA_IDENT_MODEL + kk);
      model_loop count (k + 1) n
  end.

Definition record_device (count ty i j : Z) : io M unit :=
  _ ← set_device count (λ r, mkDevice 1 (channel r) (drive r) (typ r) (sig r) (capabilities r) (cmdsets r) (sz r) (model r));
  _ ← set_device count (λ r, mkDevice (rsv0 r) (channel r) (drive r) ty (sig r) (capabilities r) (cmdsets r) (sz r) (model r));
  _ ← set_device count (λ r, mkDevice (rsv0 r) i (drive r) (typ r) (sig r) (capabilities r) (cmdsets r) (sz r) (model r));
  _ ← set_device count (λ r, mkDevice (rsv0 r) (channel r) j (typ r) (sig r) (capabilities r) (cmdsets r) (sz r) (model r));
  v ← buf_value ATA_IDENT_DEVICETYPE 2;
  _ ← set_device count (λ r, mkDevice (rsv0 r) (channel r) (drive r) (typ r) v (capabilities r) (cmdsets r) (sz r) (model r));
  v ← buf_value ATA_IDENT_CAPABILITIES 2;
  _ ← set_device count (λ r, mkDevice (rsv0 r) (channel r) (drive r) (typ r) (sig r) v (cmdsets r) (sz r) (model r));
  v ← buf_value ATA_IDENT_COMMANDSETS 4;
  _ ← set_device count (λ r, mkDevice (rsv0 r) (channel r) (drive r) (typ r) (sig r) (capabilities r) v (sz r) (model r));
  cs ← at_device count (λ d, ret (cmdsets d));
  v ← (if negb (Z.land cs (Z.shiftl 1 26) =? 0) then buf_value ATA_IDENT_MAX_LBA_EXT 4
       else buf_value ATA_IDENT_MAX_LBA 4);
  _ ← set_device count (λ r, mkDevice (rsv0 r) (channel r) (drive r) (typ r) (sig r) (capabilities r) (cmdsets r) v (model r));
  _ ← model_loop count 0 20;
  with_lock IDE_DEVICES (ds ← get ide_devices; r ← lift (index ds count);
    mo ← lift (store (model r) 40 0);
    ds ← lift (store ds count (mkDevice (rsv0 r) (channel r) (drive r) (typ r) (sig r) (capabilities r)
                                 (cmdsets r) (sz r) mo));
    put_devices ds).

(** One round of the loops over channels and drives; [(count, typ)] is carried. *)
Definition probe_drive (i j : Z) '((count, ty) : Z * Z) : io M (Z * Z) :=
  _ ← set_device count (λ r, mkDevice 0 (channel r) (drive r) (typ r) (sig r) (capabilities r) (cmdsets r) (sz r) (model r));
  _ ← ide_write i ATA_REG_HDDEVSEL (Z.lor 0xA0 (shl 8 j 4));
  _ ← sleep 1;
  _ ← ide_write i ATA_REG_COMMAND ATA_CMD_IDENTIFY;
  _ ← sleep 1;
  st ← ide_read i ATA_REG_STATUS;
  if st =? 0 then ret (count, ty) else
  err ← identify_loop fuel i;
  o ← (if negb (err =? 0) then
         cl ← ide_read i ATA_REG_LBA1;
         ch ← ide_read i ATA_REG_LBA2;
         if ((cl =? 0x14) && (ch =? 0xEB)) || ((cl =? 0x69) && (ch =? 0x96)) then
           _ ← ide_write i ATA_REG_COMMAND ATA_CMD_IDENTIFY_PACKET;
           _ ← sleep 1;
           ret (Some IDE_ATAPI)
         else ret None
       else ret (Some ty));
  match o with
  | None => ret (count, ty)
  | Some ty =>
      _ ← with_lock IDE_BUF (            (* [as_mut_ptr], then [len] in the same statement *)
            b ← get ide_buf;
            _ ← with_lock IDE_BUF (
                  ws ← ide_read_buffer i ATA_REG_DATA (as_u32s b) 128;
                  put_buf (of_u32s ws));
            ret ());
      _ ← record_device count ty i j;
      ret (count + 1, ty)
  end.

(** The last loop logs the drives it has found; the three uses of
    [IDE_DEVICES.lock()] stand in one statement, the first in a condition. *)
Fixpoint report (ixs : list Z) : io M unit :=
  match ixs with
  | [] => ret ()
  | i :: ixs =>
      r ← at_device i (λ d, ret (rsv0 d));
      _ ← (if r =? 1 then
             _ ← at_device i (λ d, ret (typ d));
             at_device i (λ d, at_device i (λ e, ret ()))
           else ret ());
      report ixs
  end.

Definition init_ide (dev : PCIDevice) (mapper : MP) (f : F) : io M (MP * F) :=
  '(o, f) ← lift (allocate_frame f);
  frame ← lift (unwrap o);
  o ← on_hw (bar_address ecam dev 4);
  a ← lift (unwrap o);
  va ← lift (virt_new a);
  '(r, mapper, f) ← lift (map_to mapper (containing_address va) frame (Z.lor PRESENT WRITABLE) f);
  _ ← lift (expect r);
  _ ← with_lock CHANNELS (               (* [let mut channels = CHANNELS.lock()] *)
    cs ← get channels;
    _ ← put_channels (cs ++ [mkChannel 0 0 0 0; mkChannel 0 0 0 0]);
    cs ← get channels;
    c0 ← lift (index cs ATA_PRIMARY);
    cs ← lift (store cs ATA_PRIMARY (mkChannel 0x1F0 0x3F6 (bmide c0) (nien c0)));
    c1 ← lift (index cs ATA_SECONDARY);
    cs ← lift (store cs ATA_SECONDARY (mkChannel 0x170 0x376 (bmide c1) (nien c1)));
    b ← on_hw (read_bar ecam dev 4);
    b ← lift (unwrap b);
    let bar4 := Z.land b.1.1 0xFFFFFFFC in
    c0 ← lift (index cs ATA_PRIMARY);
    cs ← lift (store cs ATA_PRIMARY (mkChannel (base c0) (ctrl c0) (wrap 16 bar4) (nien c0)));
    c1 ← lift (index cs ATA_SECONDARY);
    cs ← lift (store cs ATA_SECONDARY (mkChannel (base c1) (ctrl c1) (wrap 16 (wrap 16 bar4 + 8)) (nien c1)));
    _ ← put_channels cs;
    _ ← ide_write ATA_PRIMARY ATA_REG_CONTROL 2;
    _ ← ide_write ATA_SECONDARY ATA_REG_CONTROL 2;
    s ← probe_drive 0 0 (0, IDE_ATA);
    s ← probe_drive 0 1 s;
    s ← probe_drive 1 0 s;
    _ ← probe_drive 1 1 s;
    report [0; 1; 2; 3]);
  ret (mapper, f).
End init.
End ide.

(** ** The locks *)

(** One statement whose outcome is known. *)
Ltac run H := rewrite (io_bind_Ret _ _ _ _ _ H).

Lemma machine_eta {H} (m : machine H) :
  mkMachine (channels m) (ide_buf m) (irq_invoked m) (atapi_packet m) (ide_devices m) (held m) (memory m) (hw m) = m.
Proof. by destruct m. Qed.

Section facts.
Context {H : Type} `{Hardware H} `{SpinlockLaws}.
Abbreviation M := (machine H).
Implicit Types (m : M) (s : static).

(** A statement that takes a free lock, and one that takes a held one. *)
Lemma with_lock_run {A} s (body : io M A) m a m' :
  s ∉ held m → body (set_held ({[s]} ∪ held m) m) = Ret (a, m') → held m' = {[s]} ∪ held m →
  with_lock s body m = Ret (a, set_held (held m) m').
Proof.
  intros Hs Hb Hh. unfold with_lock, lock, unlock, mbind, io_bind.
  rewrite bool_decide_eq_false_2 by done. rewrite spin_lock_free. cbn [outcome_bind set_lock].
  rewrite Hb, spin_unlock_frees. unfold set_lock, ret. rewrite Hh.
  do 3 f_equal. set_solver.
Qed.

Lemma with_lock_stuck {A} s (body : io M A) m : s ∈ held m → with_lock s body m = OutOfFuel.
Proof.
  intros Hs. unfold with_lock, lock, mbind, io_bind. rewrite bool_decide_eq_true_2 by done.
  by rewrite spin_lock_held.
Qed.

Lemma set_held_held m m' l : held m' = held m → set_held (held m) (set_held l m') = m'.
Proof. intros <-. by destruct m'. Qed.

(** The same, for a known final state. *)
Lemma with_lock_exact {A} s (body : io M A) m a m' :
  s ∉ held m → body (set_held ({[s]} ∪ held m) m) = Ret (a, set_held ({[s]} ∪ held m) m') → held m' = held m →
  with_lock s body m = Ret (a, m').
Proof.
  intros Hs Hb Hh. rewrite (with_lock_run s body m a _ Hs Hb eq_refl). by rewrite set_held_held.
Qed.

(** A body that does not end keeps the statement from ending. *)
Lemma with_lock_hangs {A} s (body : io M A) m :
  s ∉ held m → body (set_held ({[s]} ∪ held m) m) = OutOfFuel → with_lock s body m = OutOfFuel.
Proof.
  intros Hs Hb. unfold with_lock, lock, mbind, io_bind. rewrite bool_decide_eq_false_2 by done.
  rewrite spin_lock_free. cbn [outcome_bind set_lock]. by rewrite Hb.
Qed.

Lemma io_bind_hangs {A B} (op : io M A) (f : A → io M B) m : op m = OutOfFuel → (op ≫= f) m = OutOfFuel.
Proof. intros Hm. unfold mbind, io_bind. by rewrite Hm. Qed.

(** The channel [c] can be used and its registers are [r]. *)
Definition usable m (c : Z) (r : IDEChannelRegs) : Prop :=
  channels m !! Z.to_nat c = Some r ∧ CHANNELS ∉ held m.

Lemma at_channel_run {A} c (body : IDEChannelRegs → io M A) m r a m' :
  usable m c r → body r (set_held ({[CHANNELS]} ∪ held m) m) = Ret (a, m') →
  held m' = {[CHANNELS]} ∪ held m → at_channel c body m = Ret (a, set_held (held m) m').
Proof.
  intros [Hc Hl] Hb Hh. apply with_lock_run; [done| |done]. unfold get, index, lift, mbind, io_bind.
  cbn [channels set_held]. rewrite Hc. exact Hb.
Qed.

Lemma at_channel_hangs {A} c (body : IDEChannelRegs → io M A) m r :
  usable m c r → body r (set_held ({[CHANNELS]} ∪ held m) m) = OutOfFuel → at_channel c body m = OutOfFuel.
Proof.
  intros [Hc Hl] Hb. apply with_lock_hangs; [done|]. unfold get, index, lift, mbind, io_bind.
  cbn [channels set_held]. rewrite Hc. exact Hb.
Qed.

(** ** Register access *)

(** The port the driver uses for a register of a channel at [b]. *)
Definition reg_port (b reg : Z) : Z :=
  if reg <? 0x08 then b + reg else if reg <? 0x0C then b + reg - 0x06
  else if reg <? 0x0E then b + reg - 0x0A else b + reg - 0x0E.

Definition base_ok (r : IDEChannelRegs) : Prop := 0 ≤ base r ∧ base r + 0x16 ≤ 2 ^ 16.

Lemma port_write_run c reg v m r :
  usable m c r → base_ok r → 0 ≤ reg < 0x16 →
  port_write c reg v m = Ret ((), set_hw (port_out 1 (reg_port (base r) reg) v (hw m)) m).
Proof.
  intros Hu [Hb1 Hb2] Hr. unfold port_write, reg_port.
  assert (Hrun : ∀ (op : IDEChannelRegs → io M ()) p,
    op r (set_held ({[CHANNELS]} ∪ held m) m) =
      Ret ((), set_hw (port_out 1 p v (hw m)) (set_held ({[CHANNELS]} ∪ held m) m)) →
    at_channel c op m = Ret ((), set_hw (port_out 1 p v (hw m)) m)).
  { intros op p Hop. erewrite at_channel_run; [|exact Hu|exact Hop|done].
    unfold set_held, set_hw. simpl. reflexivity. }
  repeat (match goal with |- context [reg <? ?k] => destruct (Z.ltb_spec reg k) end;
    [apply Hrun; cbv beta; repeat io_checked; reflexivity|]). lia.
Qed.

Lemma port_read_run c reg m r v h' :
  usable m c r → base_ok r → 0 ≤ reg < 0x16 →
  port_in 1 (reg_port (base r) reg) (hw m) = (v, h') → port_read c reg m = Ret (Some v, set_hw h' m).
Proof.
  intros Hu [Hb1 Hb2] Hr. unfold port_read, reg_port.
  assert (Hrun : ∀ (op : IDEChannelRegs → io M (option Z)),
    op r (set_held ({[CHANNELS]} ∪ held m) m) = Ret (Some v, set_hw h' (set_held ({[CHANNELS]} ∪ held m) m)) →
    at_channel c op m = Ret (Some v, set_hw h' m)).
  { intros op Hop. erewrite at_channel_run; [|exact Hu|exact Hop|done].
    unfold set_held, set_hw. simpl. reflexivity. }
  repeat (match goal with |- context [reg <? ?k] => destruct (Z.ltb_spec reg k) end;
    [intros Hin; apply Hrun; cbv beta; repeat io_checked; unfold on_hw, in8, mbind, io_bind; cbn [hw set_held];
     rewrite Hin; reflexivity|]). lia.
Qed.

Lemma ide_write_run c reg v m r :
  usable m c r → base_ok r → 0 ≤ reg < 0x16 → banked reg = false →
  ide_write c reg v m = Ret ((), set_hw (port_out 1 (reg_port (base r) reg) v (hw m)) m).
Proof.
  intros Hu Hb Hr Hn. unfold ide_write. rewrite Hn. change (ret ()) with (@ret M _ ()).
  rewrite io_bind_ret. erewrite io_bind_Ret; [|by apply (port_write_run c reg v m r)]. done.
Qed.

Lemma ide_read_run c reg m r v h' :
  usable m c r → base_ok r → 0 ≤ reg < 0x16 → banked reg = false →
  port_in 1 (reg_port (base r) reg) (hw m) = (v, h') → ide_read c reg m = Ret (v, set_hw h' m).
Proof.
  intros Hu Hb Hr Hn Hin. unfold ide_read. rewrite Hn. change (ret ()) with (@ret M _ ()).
  rewrite io_bind_ret. erewrite io_bind_Ret; [|by eapply port_read_run]. done.
Qed.

(** Selecting the second bank of registers takes the lock twice. *)
Lemma write_control_hangs c f m r : usable m c r → write_control c f m = OutOfFuel.
Proof.
  intros Hu. eapply at_channel_hangs; [exact Hu|]. cbv beta. unfold port_write, at_channel.
  apply with_lock_stuck. cbn [held set_held]. set_solver.
Qed.

Lemma banked_spec reg : banked reg = true ↔ 8 ≤ reg < 12.
Proof. unfold banked. lia. Qed.

(** ** A device whose status does not change *)

(** Reads of a byte answer [st] and change nothing. *)
Definition steady (st : Z) : Prop := ∀ (p : Z) (h : H), port_in 1 p h = (st, h).

Lemma set_hw_id m : set_hw (hw m) m = m.
Proof. by destruct m. Qed.

Lemma ide_read_steady st c reg m r :
  steady st → usable m c r → base_ok r → 0 ≤ reg < 0x16 → banked reg = false →
  ide_read c reg m = Ret (st, m).
Proof.
  intros Hs Hu Hb Hr Hn. erewrite ide_read_run; [|exact Hu|exact Hb|exact Hr|exact Hn|apply Hs].
  by rewrite set_hw_id.
Qed.

Lemma wait_clear_steady st fuel c mask m r :
  steady st → usable m c r → base_ok r → Z.land st mask = 0 → (0 < fuel)%nat →
  wait_clear fuel c mask m = Ret ((), m).
Proof.
  intros Hs Hu Hb Hm Hf. destruct fuel as [|fuel]; [lia|]. cbn [wait_clear].
  erewrite io_bind_Ret; [|by eapply ide_read_steady]. rewrite Hm. done.
Qed.

Lemma ide_polling_steady st fuel c m r :
  steady st → usable m c r → base_ok r → (0 < fuel)%nat →
  Z.land st ATA_SR_BSY = 0 → Z.land st ATA_SR_ERR = 0 → Z.land st ATA_SR_DF = 0 → Z.land st ATA_SR_DRQ ≠ 0 →
  ide_polling fuel c 1 m = Ret (0, m).
Proof.
  intros Hs Hu Hb Hf Hbsy Herr Hdf Hdrq. unfold ide_polling.
  assert (Halt : ∀ B (k : Z → io M B), (ide_read c ATA_REG_ALTSTATUS ≫= k) m = k st m).
  { intros B k. erewrite io_bind_Ret; [done|]. by eapply ide_read_steady. }
  assert (Ht : ∀ n, times n (_ ← ide_read c ATA_REG_ALTSTATUS; ret ()) m = Ret ((), m)).
  { induction n as [|n IH]; [done|]. cbn [times]. erewrite io_bind_Ret; [exact IH|]. by rewrite Halt. }
  erewrite io_bind_Ret; [|apply Ht]. erewrite io_bind_Ret; [|by eapply wait_clear_steady].
  cbn [negb Z.eqb]. erewrite io_bind_Ret; [|by eapply ide_read_steady].
  rewrite Herr, Hdf. cbn [negb Z.eqb]. by rewrite (proj2 (Z.eqb_neq _ _)).
Qed.

(** ** Looking at the statics *)

Definition attached m (drv : Z) (d : IDEDevice) : Prop :=
  ide_devices m !! Z.to_nat drv = Some d ∧ IDE_DEVICES ∉ held m.

Lemma at_device_get {A} drv (f : IDEDevice → A) m d :
  attached m drv d → at_device drv (λ d, ret (f d)) m = Ret (f d, m).
Proof.
  intros [Hd Hl]. apply with_lock_exact; [done| |done].
  unfold get, index, lift, mbind, io_bind. cbn [ide_devices set_held]. by rewrite Hd.
Qed.

Lemma at_channel_get {A} c (f : IDEChannelRegs → A) m r :
  usable m c r → at_channel c (λ r, ret (f r)) m = Ret (f r, m).
Proof.
  intros [Hc Hl]. apply with_lock_exact; [done| |done].
  unfold get, index, lift, mbind, io_bind. cbn [channels set_held]. by rewrite Hc.
Qed.

Definition with_irq (v : Z) (m : M) : M :=
  mkMachine (channels m) (ide_buf m) v (atapi_packet m) (ide_devices m) (held m) (memory m) (hw m).
Definition with_channels (l : list IDEChannelRegs) (m : M) : M :=
  mkMachine l (ide_buf m) (irq_invoked m) (atapi_packet m) (ide_devices m) (held m) (memory m) (hw m).

Lemma put_irq_run v m : IDE_IRQ_INVOKED ∉ held m → with_lock IDE_IRQ_INVOKED (put_irq v) m = Ret ((), with_irq v m).
Proof. intros Hl. by apply with_lock_exact. Qed.

Lemma get_irq_run m :
  IDE_IRQ_INVOKED ∉ held m → with_lock IDE_IRQ_INVOKED (get irq_invoked) m = Ret (irq_invoked m, m).
Proof. intros Hl. by apply with_lock_exact. Qed.

Definition no_irq (v : Z) (r : IDEChannelRegs) : IDEChannelRegs := mkChannel (base r) (ctrl r) (bmide r) v.

Lemma set_nien_run c v m r :
  usable m c r → set_nien c v m = Ret ((), with_channels (<[Z.to_nat c := no_irq v r]> (channels m)) m).
Proof.
  intros [Hc Hl]. apply with_lock_exact; [done| |done].
  unfold get, index, lift, mbind, io_bind. cbn [channels set_held]. rewrite Hc. cbn [outcome_bind].
  rewrite store_ok; [reflexivity|]. apply lookup_lt_Some in Hc. unfold zlen. lia.
Qed.

Lemma usable_no_irq c v m r :
  usable m c r → usable (with_channels (<[Z.to_nat c := no_irq v r]> (channels m)) m) c (no_irq v r).
Proof.
  intros [Hc Hl]. split; [|done]. cbn. apply list_lookup_insert_eq. by apply lookup_lt_Some in Hc.
Qed.

(** ** A PIO access *)

(** The eight writes of an access to sector [(mode, lbas, head)]: the "control"
    write first. *)
Definition issue (b child : Z) '((mode, lbas, head) : Z * list Z * Z) (n cmd : Z) (h : H) : H :=
  let w reg v h := port_out 1 (reg_port b reg) v h in
  let l i := default 0 (lbas !! Z.to_nat i) in
  w ATA_REG_COMMAND cmd (w ATA_REG_LBA2 (l 2) (w ATA_REG_LBA1 (l 1) (w ATA_REG_LBA0 (l 0)
    (w ATA_REG_SECCOUNT0 n
      (w ATA_REG_HDDEVSEL (Z.lor (Z.lor (if mode =? 0 then 0xA0 else 0xE0) (shl 8 child 4)) head)
        (w ATA_REG_CONTROL 2 h)))))).

Lemma lba_split_small lba caps :
  0 ≤ lba < 2 ^ 28 → ∃ mode lbas head, lba_split lba caps = Ret (mode, lbas, head) ∧ (mode = 0 ∨ mode = 1).
Proof.
  intros Hl. unfold lba_split. rewrite (proj2 (Z.leb_gt _ _)) by lia. destruct (negb _).
  { eexists _, _, _. split; [reflexivity|by right]. }
  pose proof (Z.mod_pos_bound lba 63 ltac:(lia)). checked_step. checked_step.
  assert (Hs : wrap 8 (lba mod 63 + 1) = lba mod 63 + 1) by (apply in_width_wrap; unfold in_width; lia).
  rewrite Hs. pose proof (Z.mod_le lba 63 ltac:(lia) ltac:(lia)). checked_step.
  eexists _, _, _. split; [reflexivity|by left].
Qed.

(** The drive is ready: no error, data requested. *)
Definition ready (st : Z) : Prop :=
  Z.land st ATA_SR_BSY = 0 ∧ Z.land st ATA_SR_ERR = 0 ∧ Z.land st ATA_SR_DF = 0 ∧ Z.land st ATA_SR_DRQ ≠ 0.

Lemma read_loop_steady st fuel c bus words edi n m r :
  steady st → ready st → usable m c r → base_ok r → (0 < fuel)%nat →
  ∃ o, read_loop fuel c bus words edi 0 n m = Ret (o, m) ∧ default 0 o = 0.
Proof.
  intros Hs (H1' & H2' & H3' & H4') Hu Hb Hf. destruct n as [|n]; [by exists None|]. exists (Some 0).
  cbn [read_loop]. erewrite io_bind_Ret; [|by eapply ide_polling_steady]. done.
Qed.

Definition after_read (c : Z) (r : IDEChannelRegs) (h : H) (m : M) : M :=
  set_hw h (with_irq 0 (with_channels (<[Z.to_nat c := no_irq 2 r]> (channels m)) m)).

Lemma ide_ata_access_steady st fuel drv lba n es edi m d r mode lbas head :
  steady st → ready st → attached m drv d → usable m (channel d) r → base_ok r → IDE_IRQ_INVOKED ∉ held m →
  (0 < fuel)%nat → lba_split lba (capabilities d) = Ret (mode, lbas, head) → mode = 0 ∨ mode = 1 →
  ide_ata_access fuel ATA_READ drv lba n es edi m =
    Ret (0, after_read (channel d) r (issue (base r) (drive d) (mode, lbas, head) n ATA_CMD_READ_PIO (hw m)) m).
Proof.
  intros Hs Hr Hd Hu Hb Hi Hf Hl Hm. unfold ide_ata_access.
  pose proof (usable_no_irq (channel d) 2 (with_irq 0 m) r Hu) as Hu2.
  set (m2 := with_channels _ _) in Hu2.
  set (r2 := no_irq 2 r) in Hu2. assert (Hb2 : base_ok r2) by exact Hb.
  run (at_device_get drv channel m d Hd). run (at_device_get drv drive m d Hd).
  run (at_channel_get (channel d) base m r Hu). run (put_irq_run 0 m Hi).
  erewrite io_bind_Ret; [|apply (with_lock_exact _ _ (with_irq 0 m) 2 (with_irq 0 m)); [done|reflexivity|done]].
  run (set_nien_run (channel d) 2 (with_irq 0 m) r Hu). fold r2. fold m2.
  erewrite io_bind_Ret; [|apply (with_lock_exact _ _ m2 () (set_hw (port_out 1 (reg_port (base r) ATA_REG_CONTROL) 2 (hw m)) m2)); [done| |done]].
  2:{ erewrite io_bind_Ret; [|reflexivity]. cbv beta. erewrite io_bind_Ret; [|reflexivity]. cbv beta.
      erewrite (ide_write_run (channel d) ATA_REG_CONTROL 2 _ r2);
        [reflexivity|split; [apply Hu2|cbn; destruct Hu; set_solver]|done|done|done]. }
  set (m3 := set_hw _ m2). 
  run (at_device_get drv capabilities m3 d Hd). rewrite Hl, io_bind_lift. cbv beta iota zeta.
  destruct Hr as (Hbsy & Herr & Hdf & Hdrq).
  erewrite io_bind_Ret; [|by apply (wait_clear_steady st fuel (channel d) ATA_SR_BSY m3 r2)].
  assert (Hw : ∀ reg v h B (k : () → io M B), 0 ≤ reg < 8 →
    (ide_write (channel d) reg v ≫= k) (set_hw h m2) = k () (set_hw (port_out 1 (reg_port (base r) reg) v h) m2)).
  { intros reg v h B k Hreg. erewrite io_bind_Ret; [reflexivity|].
    apply (ide_write_run (channel d) reg v (set_hw h m2) r2); [done|done|lia|]. unfold banked. lia. }
  unfold m3. rewrite Hw by done.
  assert (Hm2 : (mode =? 2) = false) by (destruct Hm as [->| ->]; done).
  assert (Hcmd : ata_command mode 0 ATA_READ = ATA_CMD_READ_PIO) by (destruct Hm as [->| ->]; done). rewrite Hm2, Hcmd.
  change (ret ()) with (@ret M _ ()). rewrite io_bind_ret. rewrite !Hw by done. cbv beta iota zeta. cbn [negb Z.eqb].
  change (ATA_READ =? 0) with true. cbv iota.
  set (m4 := set_hw _ m2). destruct (read_loop_steady st fuel (channel d) (base r) 256 edi (Z.to_nat n) m4 r2) as (o & Ho & Ho0);
    [done|done|exact Hu2|done|done|].
  run Ho.
  destruct o; simpl in Ho0; subst; reflexivity.
Qed.

(** ** What returns *)

Lemma with_lock_inv {A} s (body : io M A) m a m' :
  with_lock s body m = Ret (a, m') →
  s ∉ held m ∧ ∃ m1, body (set_held ({[s]} ∪ held m) m) = Ret (a, m1).
Proof.
  intros Hr. destruct (decide (s ∈ held m)) as [Hs|Hs]; [by rewrite with_lock_stuck in Hr|].
  split; [done|]. unfold with_lock, lock in Hr. apply io_bind_inv in Hr as (? & m1 & Hl & Hr).
  rewrite bool_decide_eq_false_2, spin_lock_free in Hl by done. cbn in Hl. injection Hl as <- <-.
  apply io_bind_inv in Hr as (a' & m2 & Hb & Hr). apply io_bind_inv in Hr as ([] & m3 & _ & Hr).
  injection Hr as <- <-. by exists m2.
Qed.

(** [op] leaves the locks alone when it returns. *)
Definition keeps_locks {A} (op : io M A) : Prop := ∀ m a m', op m = Ret (a, m') → held m' = held m.

Lemma keeps_ret {A} (a : A) : keeps_locks (ret a).
Proof. by intros m b m' [= _ <-]. Qed.
Lemma keeps_lift {A} (o : outcome A) : keeps_locks (lift o).
Proof. intros m a m'. unfold lift. destruct o; [|done..]. by intros [= _ <-]. Qed.
Lemma keeps_get {A} (f : M → A) : keeps_locks (get f).
Proof. by intros m a m' [= _ <-]. Qed.
Lemma keeps_put_channels l : keeps_locks (put_channels l).
Proof. by intros m a m' [= _ <-]. Qed.
Lemma keeps_on_hw {A} (op : io H A) : keeps_locks (on_hw op).
Proof. intros m a m'. unfold on_hw. destruct (op (hw m)) as [[b h]| |]; [|done..]. by intros [= _ <-]. Qed.

(** With [CHANNELS] locked, [ide_write] never returns. *)
Lemma ide_write_locked c reg v m x :
  CHANNELS ∈ held m → 0 ≤ reg < 0x16 → ide_write c reg v m ≠ Ret x.
Proof.
  intros Hl Hr. assert (Hat : ∀ (body : IDEChannelRegs → io M ()), at_channel c body m = OutOfFuel)
    by (intros; by apply with_lock_stuck).
  unfold ide_write. destruct (banked reg).
  - unfold write_control at 1. by rewrite io_bind_hangs by apply Hat.
  - change (ret ()) with (@ret M _ ()). rewrite io_bind_ret. unfold port_write.
    repeat (match goal with |- context [reg <? ?k] => destruct (Z.ltb_spec reg k) end;
      [by rewrite io_bind_hangs by apply Hat|]). lia.
Qed.

(** Whatever comes before it under the lock. *)
Definition doomed {A} (op : io M A) : Prop := ∀ m x, CHANNELS ∈ held m → op m ≠ Ret x.

Lemma doomed_bind {A B} (op : io M A) (f : A → io M B) : keeps_locks op → (∀ a, doomed (f a)) → doomed (op ≫= f).
Proof.
  intros Hk Hf m [b m'] Hl Hr. apply io_bind_inv in Hr as (a & m1 & Ho & Hr).
  apply (Hf a m1 (b, m')); [|done]. by rewrite (Hk _ _ _ Ho).
Qed.

Lemma doomed_now {A B} (op : io M A) (f : A → io M B) : doomed op → doomed (op ≫= f).
Proof. intros Ho m [b m'] Hl Hr. apply io_bind_inv in Hr as (a & m1 & Hop & _). by apply (Ho m (a, m1)). Qed.

Lemma doomed_write c reg v : 0 ≤ reg < 0x16 → doomed (ide_write c reg v).
Proof. intros Hr m x Hl. by apply ide_write_locked. Qed.

Lemma doomed_under_lock {A} (op : io M A) m x : doomed op → with_lock CHANNELS op m ≠ Ret x.
Proof.
  intros Ho Hr. destruct x as [a m']. apply with_lock_inv in Hr as (_ & m1 & Hr).
  apply (Ho _ _) in Hr; [done|]. cbn. set_solver.
Qed.

Lemma at_channel_doomed {A} c (body : IDEChannelRegs → io M A) m x :
  (∀ r, doomed (body r)) → at_channel c body m ≠ Ret x.
Proof.
  intros Hb. apply doomed_under_lock. apply doomed_bind; [apply keeps_get|intros cs].
  apply doomed_bind; [apply keeps_lift|exact Hb].
Qed.

Lemma at_channel_inv {A} c (body : IDEChannelRegs → io M A) m x :
  at_channel c body m = Ret x → ∃ r, usable m c r.
Proof.
  destruct x as [a m']. intros Hr. apply with_lock_inv in Hr as [Hl (m1 & Hr)].
  unfold get, index, lift, mbind, io_bind in Hr. cbn [channels set_held] in Hr.
  destruct (channels m !! Z.to_nat c) as [r|] eqn:Hc; [|done]. by exists r.
Qed.
End facts.

Create HintDb ide.
#[export] Hint Resolve keeps_ret keeps_lift keeps_get keeps_put_channels keeps_on_hw : ide.

(** Walk through the statements under the lock to the first [ide_write]. *)
Ltac doom :=
  repeat first
    [ apply doomed_write; lia
    | apply doomed_now; apply doomed_write; unfold ATA_REG_CONTROL; lia
    | apply doomed_bind; [solve [auto with ide]|intros ?] ].

Section theorems.
Context {H : Type} `{Hardware H} `{SpinlockLaws}.
Abbreviation M := (machine H).

(** C39: [init_ide] never returns, on any hardware and with any mapper: it
    keeps the lock of the channels while [ide_write] takes it again. *)
Theorem init_ide_never_returns `{X86} {MP : Type} `{Mapper MP} {F : Type} `{FrameAllocator F}
    (fuel : nat) (ecam : Z) (ticks : H → nat → Z) (dev : PCIDevice) (mapper : MP) (f : F) (m : M) r :
  init_ide fuel ecam ticks dev mapper f m ≠ Ret r.
Proof.
  unfold init_ide. destruct r as [r m']. intros Hr.
  repeat match goal with
  | Hr : (lift _ ≫= _) _ = Ret _ |- _ => apply io_bind_inv in Hr as (? & ? & _ & Hr); cbv beta in Hr
  | Hr : (on_hw _ ≫= _) _ = Ret _ |- _ => apply io_bind_inv in Hr as (? & ? & _ & Hr); cbv beta in Hr
  | Hr : (match ?p with (_, _) => _ end) _ = Ret _ |- _ => destruct p
  end.
  apply io_bind_inv in Hr as (? & ? & Hr & _). revert Hr. apply doomed_under_lock. doom.
Qed.

(** The registers of the second bank, 0x08 to 0x0B, cannot be read or
    written: selecting the bank takes the lock of the channels while the
    argument of the call holds it.  An access beyond sector 2^28 needs them. *)
Theorem ide_second_bank_hangs (c reg v quads : Z) (buffer : list Z) (m : M) (r : IDEChannelRegs) :
  usable m c r → 8 ≤ reg < 12 →
  ide_write c reg v m = OutOfFuel ∧ ide_read c reg m = OutOfFuel ∧
  ide_read_buffer c reg buffer quads m = OutOfFuel.
Proof.
  intros Hu Hr. apply banked_spec in Hr. unfold ide_write, ide_read, ide_read_buffer. rewrite Hr.
  rewrite !io_bind_hangs by (by eapply write_control_hangs). done.
Qed.

(** The wait for the drive's interrupt never ends, whenever the interrupt
    comes: the flag is 0 or 1 and its bitwise complement never 0. *)
Theorem ide_wait_irq_never_ends (fuel : nat) (irq_at : nat → bool) (i : nat) (m : M) :
  IDE_IRQ_INVOKED ∉ held m → 0 ≤ irq_invoked m ≤ 1 → ide_wait_irq fuel irq_at i m = OutOfFuel.
Proof.
  revert i m. induction fuel as [|fuel IH]; intros i m Hl Hv; [done|]. cbn [ide_wait_irq].
  assert (Hirq : ∃ m1, (if irq_at i then ide_irq else ret ()) m = Ret ((), m1) ∧
    IDE_IRQ_INVOKED ∉ held m1 ∧ 0 ≤ irq_invoked m1 ≤ 1).
  { destruct (irq_at i); [|by exists m]. exists (with_irq 1 m). split; [by apply put_irq_run|]. by split. }
  destruct Hirq as (m1 & Hi & Hl1 & Hv1). run Hi. run (get_irq_run m1 Hl1).
  unfold unot. rewrite (proj2 (Z.eqb_neq _ _)) by lia. cbn [negb]. by apply IH.
Qed.

(** The sector a drive finds at [lba_split]'s registers. *)
Definition sector_of '((mode, lbas, head) : Z * list Z * Z) : Z :=
  let l i := default 0 (lbas !! Z.to_nat i) in
  if mode =? 0 then ((l 1 + 2 ^ 8 * l 2) * 16 + head) * 63 + l 0 - 1
  else l 0 + 2 ^ 8 * l 1 + 2 ^ 16 * l 2 + 2 ^ 24 * head.

Lemma sector_of_chs a b c h l : sector_of (0, a :: b :: c :: l, h) = ((b + 2 ^ 8 * c) * 16 + h) * 63 + a - 1.
Proof. reflexivity. Qed.

Lemma sector_of_lba a b c h l : sector_of (1, a :: b :: c :: l, h) = a + 2 ^ 8 * b + 2 ^ 16 * c + 2 ^ 24 * h.
Proof. reflexivity. Qed.

Lemma land_byte v k : 0 ≤ v → 0 ≤ k → Z.shiftr (Z.land v (Z.shiftl 0xFF k)) k = v / 2 ^ k mod 2 ^ 8.
Proof.
  intros Hv Hk. rewrite Z.shiftr_land, Z.shiftr_shiftl_l, Z.sub_diag, Z.shiftl_0_r by lia.
  change 0xFF with (2 ^ 8 - 1). by rewrite land_low_mask, Z.shiftr_div_pow2 by lia.
Qed.

Lemma chs_sector lba caps :
  0 ≤ lba < 2 ^ 28 → Z.land caps 0x200 = 0 →
  let cyl := lba / (16 * 63) mod 2 ^ 16 in
  lba_split lba caps = Ret (0, [lba mod 63 + 1; cyl mod 2 ^ 8; cyl / 2 ^ 8; 0; 0; 0], lba mod (16 * 63) / 63).
Proof.
  intros Hl Hcap cyl. unfold lba_split. rewrite (proj2 (Z.leb_gt _ _)) by lia. rewrite Hcap.
  cbn [negb Z.eqb]. pose proof (Z.mod_pos_bound lba 63 ltac:(lia)) as Hm. checked_step. checked_step.
  assert (Hs : wrap 8 (lba mod 63 + 1) = lba mod 63 + 1) by (apply in_width_wrap; unfold in_width; lia).
  rewrite Hs. pose proof (Z.mod_le lba 63 ltac:(lia) ltac:(lia)). checked_step.
  replace (lba + 1 - (lba mod 63 + 1)) with (63 * (lba / 63))
    by (pose proof (Z.div_mod lba 63 ltac:(lia)); lia).
  assert (Hq : 63 * (lba / 63) / (16 * 63) = lba / (16 * 63)).
  { rewrite (Z.mul_comm 16 63), Z.div_mul_cancel_l by lia. rewrite Z.div_div by lia. done. }
  assert (Hh : 63 * (lba / 63) mod (16 * 63) / 63 = lba mod (16 * 63) / 63).
  { rewrite (Z.mul_comm 16 63), Z.mul_mod_distr_l by lia. rewrite (Z.mul_comm 63), Z.div_mul by lia.
    rewrite Z.rem_mul_r by lia. rewrite (Z.mul_comm 63), Z.div_add by lia.
    rewrite (Z.div_small (lba mod 63)) by lia. lia. }
  rewrite Hq, Hh. change (wrap 16 (lba / (16 * 63))) with cyl.
  assert (Hc : 0 ≤ cyl < 2 ^ 16) by (apply Z.mod_pos_bound; lia).
  change 0xFF with (2 ^ 8 - 1). rewrite !land_low_mask, Z.shiftr_div_pow2 by lia.
  rewrite (Z.mod_small (cyl / 2 ^ 8)) by (split; [apply Z.div_pos|apply Z.div_lt_upper_bound]; lia).
  rewrite (in_width_wrap 8); [done|]. pose proof (Z.mod_pos_bound lba (16 * 63) ltac:(lia)).
  split; [apply Z.div_pos; lia|]. apply Z.div_lt_upper_bound; lia.
Qed.

Lemma lba28_sector lba caps :
  0 ≤ lba < 2 ^ 28 → Z.land caps 0x200 ≠ 0 →
  lba_split lba caps = Ret (1, [lba mod 2 ^ 8; lba / 2 ^ 8 mod 2 ^ 8; lba / 2 ^ 16 mod 2 ^ 8; 0; 0; 0], lba / 2 ^ 24).
Proof.
  intros Hl Hcap. unfold lba_split. rewrite (proj2 (Z.leb_gt _ _)) by lia. rewrite (proj2 (Z.eqb_neq _ _)) by done.
  cbn [negb]. pose proof (land_byte lba 8 ltac:(lia) ltac:(lia)) as H8.
  pose proof (land_byte lba 16 ltac:(lia) ltac:(lia)) as H16.
  change (Z.shiftl 0xFF 8) with 0xFF00 in H8. change (Z.shiftl 0xFF 16) with 0xFF0000 in H16.
  rewrite H8, H16. change 0xFF with (2 ^ 8 - 1). rewrite land_low_mask by lia. do 2 f_equal.
  change 0xF000000 with (Z.shiftl 0xF 24). rewrite Z.shiftr_land, Z.shiftr_shiftl_l, Z.sub_diag, Z.shiftl_0_r by lia.
  change 0xF with (2 ^ 4 - 1). rewrite land_low_mask, Z.shiftr_div_pow2 by lia.
  assert (0 ≤ lba / 2 ^ 24 < 2 ^ 4) by (split; [apply Z.div_pos|apply Z.div_lt_upper_bound]; lia).
  rewrite Z.mod_small by lia. apply in_width_wrap. unfold in_width. lia.
Qed.

(** The registers an access below sector 2^28 is given name that sector, by
    LBA when the drive has it; by cylinder, head and sector, whose cylinder has
    16 bits, they name it modulo 65536 * 16 * 63.  Every field fits its
    register. *)
Theorem ata_sector_encoding (lba caps : Z) :
  0 ≤ lba < 2 ^ 28 →
  ∃ mode lbas head, lba_split lba caps = Ret (mode, lbas, head) ∧
    Forall (in_width 8) lbas ∧ in_width 4 head ∧
    sector_of (mode, lbas, head) = (if Z.land caps 0x200 =? 0 then lba mod (2 ^ 16 * (16 * 63)) else lba).
Proof.
  intros Hl. destruct (Z.eqb_spec (Z.land caps 0x200) 0) as [Hc|Hc].
  - eexists _, _, _. split; [by apply chs_sector|]. set (cyl := lba / (16 * 63) mod 2 ^ 16).
    assert (Hcyl : 0 ≤ cyl < 2 ^ 16) by (apply Z.mod_pos_bound; lia).
    pose proof (Z.mod_pos_bound lba 63 ltac:(lia)). pose proof (Z.mod_pos_bound cyl (2 ^ 8) ltac:(lia)).
    assert (0 ≤ cyl / 2 ^ 8 < 2 ^ 8) by (split; [apply Z.div_pos|apply Z.div_lt_upper_bound]; lia).
    pose proof (Z.mod_pos_bound lba (16 * 63) ltac:(lia)) as Hm.
    assert (0 ≤ lba mod (16 * 63) / 63 < 16) by (split; [apply Z.div_pos|apply Z.div_lt_upper_bound]; lia).
    split_and!; [repeat (apply Forall_cons; split; [unfold in_width; lia|]); constructor|unfold in_width; lia|].
    rewrite sector_of_chs. rewrite (Z.mul_comm (2 ^ 16)), (Z.rem_mul_r lba (16 * 63)) by lia. fold cyl.
    pose proof (Z.div_mod cyl (2 ^ 8) ltac:(lia)). pose proof (Z.div_mod (lba mod (16 * 63)) 63 ltac:(lia)) as Hd.
    replace (lba mod (16 * 63) mod 63) with (lba mod 63) in Hd; [lia|].
    rewrite (Z.mul_comm 16 63), Z.rem_mul_r, Z.mul_comm, Z.mod_add by lia. by rewrite Z.mod_mod by lia.
  - eexists _, _, _. split; [by apply lba28_sector|].
    pose proof (Z.mod_pos_bound lba (2 ^ 8) ltac:(lia)). pose proof (Z.mod_pos_bound (lba / 2 ^ 8) (2 ^ 8) ltac:(lia)).
    pose proof (Z.mod_pos_bound (lba / 2 ^ 16) (2 ^ 8) ltac:(lia)).
    assert (0 ≤ lba / 2 ^ 24 < 2 ^ 4) by (split; [apply Z.div_pos|apply Z.div_lt_upper_bound]; lia).
    split_and!; [repeat (apply Forall_cons; split; [unfold in_width; lia|]); constructor|unfold in_width; lia|].
    rewrite sector_of_lba. change (2 ^ 24) with (2 ^ 8 * (2 ^ 8 * 2 ^ 8)). change (2 ^ 16) with (2 ^ 8 * 2 ^ 8).
    rewrite <- !Z.div_div by lia. pose proof (Z.div_mod lba (2 ^ 8) ltac:(lia)).
    pose proof (Z.div_mod (lba / 2 ^ 8) (2 ^ 8) ltac:(lia)).
    pose proof (Z.div_mod (lba / 2 ^ 8 / 2 ^ 8) (2 ^ 8) ltac:(lia)). lia.
Qed.

(** A drive in range for the request. *)
Definition in_range (d : IDEDevice) (numsects lba : Z) : Prop :=
  rsv0 d ≠ 0 ∧ typ d = IDE_ATA ∧ 0 ≤ numsects ∧ lba + numsects ≤ sz d < 2 ^ 32.

(** Reading or writing sectors of a drive that is ready succeeds without
    moving a byte: both requests issue the same READ SECTORS command (the
    first write, meant for the device control port, lands in the sector count
    register), and the success of the first poll is taken for the error. *)
Theorem ide_transfers_nothing (st : Z) (fuel : nat) (irq_at : nat → bool) (packet_addr stale_rdi : Z)
    (drv numsects lba es edi : Z) (m : M) (d : IDEDevice) (r : IDEChannelRegs) :
  steady st → ready st → (0 < fuel)%nat → 0 ≤ drv ≤ 3 → attached m drv d → in_range d numsects lba →
  usable m (channel d) r → base_ok r → IDE_IRQ_INVOKED ∉ held m → 0 ≤ lba < 2 ^ 28 →
  ∃ e, lba_split lba (capabilities d) = Ret e ∧
    let m' := after_read (channel d) r (issue (base r) (drive d) e numsects ATA_CMD_READ_PIO (hw m)) m in
    ide_read_sectors fuel irq_at packet_addr stale_rdi drv numsects lba es edi m = Ret (0, m') ∧
    ide_write_sectors fuel irq_at packet_addr stale_rdi drv numsects lba es edi m = Ret (0, m') ∧
    memory m' = memory m.
Proof.
  intros Hs Hr Hf Hdrv Hd (Hrsv & Hty & Hn & Hsz) Hu Hb Hi Hl.
  destruct (lba_split_small lba (capabilities d) Hl) as (mode & lbas & head & He & Hm).
  exists (mode, lbas, head). split; [done|]. intros m'.
  assert (Hread : ide_read_sectors fuel irq_at packet_addr stale_rdi drv numsects lba es edi m = Ret (0, m')).
  { unfold ide_read_sectors.
    assert (Hno : no_drive drv m = Ret (false, m)).
    { unfold no_drive. rewrite (proj2 (Z.ltb_ge _ _)) by lia. run (at_device_get drv rsv0 m d Hd).
      by rewrite (proj2 (Z.eqb_neq _ _)). }
    assert (Hpast : past_end drv numsects lba m = Ret (false, m)).
    { unfold past_end. io_checked. run (at_device_get drv sz m d Hd). by rewrite (proj2 (Z.ltb_ge _ _)) by lia. }
    run Hno. run Hpast. run (at_device_get drv typ m d Hd). rewrite Hty, Z.eqb_refl.
    by run (ide_ata_access_steady st fuel drv lba numsects es edi m d r mode lbas head Hs Hr Hd Hu Hb Hi Hf He Hm). }
  split_and!; [exact Hread|exact Hread|done].
Qed.

(** The answers of [n] reads of the status register in a row. *)
Fixpoint statuses (n : nat) (p : Z) (h : H) : list Z :=
  match n with O => [] | S n => let '(v, h') := port_in 1 p h in v :: statuses n p h' end.

Lemma flush_loop_answer n c m r :
  usable m c r → base_ok r →
  returns (flush_loop n c m) (λ '(b, m'),
    b = existsb (λ v, Z.land v ATA_SR_BSY =? 0) (statuses n (base r + ATA_REG_STATUS) (hw m))).
Proof.
  revert m. induction n as [|n IH]; intros m Hu Hb; [by eexists|]. cbn [flush_loop statuses].
  destruct (port_in 1 (base r + ATA_REG_STATUS) (hw m)) as [v h'] eqn:Hin.
  rewrite (io_bind_Ret _ _ _ _ _ (ide_read_run c ATA_REG_STATUS m r v h' Hu Hb ltac:(done) eq_refl Hin)).
  cbn [existsb]. destruct (Z.land v ATA_SR_BSY =? 0); [by eexists|]. cbn [orb].
  exact (IH (set_hw h' m) Hu Hb).
Qed.

(** Flushing the cache ends on any hardware, and tells whether one of the
    100000 reads of the status that follow the command was not busy. *)
Theorem ide_cache_flush_ends (c lba_mode : Z) (m : M) (r : IDEChannelRegs) :
  usable m c r → base_ok r →
  let cmd := if lba_mode =? 2 then ATA_CMD_CACHE_FLUSH_EXT else ATA_CMD_CACHE_FLUSH in
  let h := port_out 1 (base r + ATA_REG_COMMAND) cmd (hw m) in
  returns (ide_cache_flush c lba_mode m) (λ '(b, m'),
    b = existsb (λ v, Z.land v ATA_SR_BSY =? 0) (statuses (Z.to_nat 100000) (base r + ATA_REG_STATUS) h)).
Proof.
  intros Hu Hb cmd h. unfold ide_cache_flush. generalize (Z.to_nat 100000). intros n.
  rewrite (io_bind_Ret _ _ _ _ _ (ide_write_run c ATA_REG_COMMAND cmd m r Hu Hb ltac:(done) eq_refl)).
  exact (flush_loop_answer n c (set_hw h m) r Hu Hb).
Qed.

(** A packet read never returns, and an eject returns only for a drive that
    is absent (1) or not ATAPI (20): both take the lock of the channels twice. *)
Theorem ide_atapi_never_runs (fuel : nat) (irq_at : nat → bool) (packet_addr stale_rdi drv lba n es edi : Z) (m : M) :
  (∀ x, ide_atapi_read fuel irq_at packet_addr stale_rdi drv lba n es edi m ≠ Ret x) ∧
  (∀ v m', ide_atapi_eject fuel irq_at packet_addr drv m = Ret (v, m') → v = 1 ∨ v = 20).
Proof.
  split.
  - intros [v m'] Hr. unfold ide_atapi_read in Hr.
    apply io_bind_inv in Hr as (c & m1 & _ & Hr). apply io_bind_inv in Hr as (child & m2 & _ & Hr).
    apply io_bind_inv in Hr as (bus & m3 & Hbus & Hr). destruct (at_channel_inv _ _ _ _ Hbus) as [r Hu].
    rewrite (at_channel_get c base m2 r Hu) in Hbus. injection Hbus as _ <-.
    apply io_bind_inv in Hr as ([] & m4 & Hirq & Hr). destruct (with_lock_inv _ _ _ _ _ Hirq) as [Hi _].
    rewrite (put_irq_run 0 m2 Hi) in Hirq. injection Hirq as <-.
    apply io_bind_inv in Hr as ([] & m5 & Hc & _). apply with_lock_inv in Hc as [_ (m6 & Hx)].
    unfold get in Hx. apply io_bind_inv in Hx as (cs & m8 & Hg & Hx). injection Hg as <- <-.
    cbn [channels set_held with_irq] in Hx. rewrite (proj1 Hu) in Hx.
    apply io_bind_inv in Hx as (cs' & m9 & Hs & Hx). apply io_bind_inv in Hx as ([] & m10 & Hp & Hx).
    revert Hx. apply ide_write_locked; [|unfold ATA_REG_CONTROL; lia].
    rewrite (keeps_put_channels cs' _ _ _ Hp), (keeps_lift _ _ _ _ Hs). cbn. set_solver.
  - intros v m' Hr. unfold ide_atapi_eject in Hr.
    do 5 (apply io_bind_inv in Hr as (? & ? & _ & Hr); cbv beta in Hr).
    match type of Hr with (if ?b then _ else _) _ = _ => destruct b end; [injection Hr as <- _; by left|].
    apply io_bind_inv in Hr as (ty & ? & _ & Hr). cbv beta in Hr.
    destruct (ty =? IDE_ATA); [injection Hr as <- _; by right|].
    do 3 (apply io_bind_inv in Hr as (? & ? & _ & Hr); cbv beta in Hr).
    apply io_bind_inv in Hr as (? & ? & Hr & _). exfalso. revert Hr. apply at_channel_doomed.
    intros r. apply doomed_write. unfold ATA_REG_CONTROL. lia.
Qed.
End theorems.

(** ** Sample runs: a drive that is always ready, and logs its writes *)

#[local] Instance ready_drive : Hardware (list (Z * Z)) := {
  mmio_read _ _ h := (0, h); mmio_write _ _ _ h := h;
  port_in _ _ h := (0x48, h); port_out _ p v h := h ++ [(p, v)];
  msr_read _ h := (0, h); msr_write _ _ h := h;
}.
#[local] Existing Instances flag_Spinlock flag_SpinlockLaws.

Definition sample_drive : IDEDevice := mkDevice 1 0 0 IDE_ATA 0 0x200 0 1000 [].
Definition sample_machine : machine (list (Z * Z)) :=
  mkMachine [mkChannel 0x1F0 0x3F6 0 0; mkChannel 0x170 0x376 8 0] [] 0 [] [sample_drive] ∅ (λ _, 0) [].

Lemma sample_usable : usable sample_machine 0 (mkChannel 0x1F0 0x3F6 0 0).
Proof. by split. Qed.

#[local] Existing Instances amd64 sample_Mapper sample_FA.

Lemma init_ide_never_returns_witness :
  init_ide 1000 0 (λ _ _, 0) sample_dev (∅ : gmap Z (Z * Z)) sample_frames sample_machine ≠
    Ret ((∅, sample_frames), sample_machine).
Proof. apply (init_ide_never_returns 1000 0 (λ _ _, 0) sample_dev ∅ sample_frames sample_machine). Defined.

Lemma ide_second_bank_hangs_witness :
  ide_write 0 ATA_REG_SECCOUNT1 0 sample_machine = OutOfFuel ∧ ide_read 0 ATA_REG_LBA3 sample_machine = OutOfFuel.
Proof.
  split.
  - apply (ide_second_bank_hangs 0 ATA_REG_SECCOUNT1 0 0 [] sample_machine _ sample_usable). done.
  - apply (ide_second_bank_hangs 0 ATA_REG_LBA3 0 0 [] sample_machine _ sample_usable). done.
Defined.

Lemma ide_wait_irq_never_ends_witness :
  ide_wait_irq 1000 (λ i, bool_decide (i = 3%nat)) 0 sample_machine = OutOfFuel.
Proof. by apply ide_wait_irq_never_ends. Defined.

Lemma ata_sector_encoding_witness :
  ∃ mode lbas head, lba_split 0x1234567 0x200 = Ret (mode, lbas, head) ∧ sector_of (mode, lbas, head) = 0x1234567.
Proof.
  destruct (ata_sector_encoding 0x1234567 0x200) as (mode & lbas & head & He & _ & _ & Hs); [done|].
  exists mode, lbas, head. by split.
Defined.

(** Two sectors "read" into 0x8000 from sector 5. *)
Lemma ide_transfers_nothing_witness :
  ∃ m', ide_read_sectors 10 (λ _, false) 0 0 0 2 5 0 0x8000 sample_machine = Ret (0, m') ∧
    ide_write_sectors 10 (λ _, false) 0 0 0 2 5 0 0x8000 sample_machine = Ret (0, m') ∧
    memory m' = memory sample_machine.
Proof.
  destruct (ide_transfers_nothing 0x48 10 (λ _, false) 0 0 0 2 5 0 0x8000 sample_machine sample_drive
    (mkChannel 0x1F0 0x3F6 0 0)) as (e & _ & Hr); [done|done|lia|lia|by split|done|exact sample_usable|done|done|lia|].
  eexists. exact Hr.
Defined.

Lemma ide_cache_flush_ends_witness :
  ∃ b m', ide_cache_flush 0 1 sample_machine = Ret (b, m').
Proof.
  destruct (ide_cache_flush_ends 0 1 sample_machine _ sample_usable) as ([b m'] & Hr & _); [done|]. by exists b, m'.
Defined.

Lemma ide_atapi_never_runs_witness :
  ∀ v m', ide_atapi_eject 10 (λ _, false) 0 0 sample_machine = Ret (v, m') → v = 1 ∨ v = 20.
Proof. apply (ide_atapi_never_runs 10 (λ _, false) 0 0 0 0 0 0 0 sample_machine). Defined.
