(* ===== verification/Acpi.v ===== *)
(** * ACPI: where the PCIe configuration window is (kernel/src/acpi.rs)

    [init_pcie_from_acpi] reads the entries of the MCFG table, chooses the one
    of segment 0, maps its ECAM window at the physical memory offset and tells
    pci.rs where it is.  The table itself is found by the crate [acpi]: its
    answer, the size of a table header and memory are arguments. *)

From S2P Require Import Prelude Arch FrameAllocator Paging Hardware Pci.
Open Scope Z_scope.
Open Scope rust_scope.

(** ** Data *)

Record McfgEntry : Type := mkMcfg {
  base_address : Z; pci_segment_group : Z; start_bus : Z; end_bus : Z;
}.

Definition MCFG_ENTRY_SIZE : Z := 16.

(** Address and length of the table, as [find_table] maps it. *)
Record Mcfg : Type := mkTable { virtual_start : Z; table_length : Z }.

(** The messages of the error type [&'static str]. *)
Inductive pcie_error : Type :=
| TableNotFound | NoEntries | BadSize | ZeroEntries | NoSegment0 | EcamOverflow | MapFailed.

(** [Translate::translate_addr] of the page tables. *)
Class Translate (M : Type) := { translate_addr : M → Z → option Z }.

(** A mapped page translates to its frame; a page that is neither mapped nor
    part of a huge page does not; mapping a page leaves the addresses that have
    a translation as they are, those of huge pages included. *)
Class TranslateLaws (M : Type) `{MapperLaws M} `{Translate M} : Prop := {
  translate_mapped m p off fr fl :
    page_aligned p → page_map m !! p = Some (fr, fl) → 0 ≤ off < 4096 → translate_addr m (p + off) = Some (fr + off);
  translate_unmapped m p off :
    page_aligned p → page_map m !! p = None → ¬ huge m p → 0 ≤ off < 4096 → translate_addr m (p + off) = None;
  translate_map_to {F : Type} `{FrameAllocator F} m p fr fl (f : F) r m' f' a pa :
    map_to m p fr fl f = Ret (r, m', f') → translate_addr m a = Some pa → translate_addr m' a = Some pa;
}.

Section acpi.
Context `{X86} `{X86Phys} {M : Type} `{Mapper M} `{!Translate M} {F : Type} `{FrameAllocator F}.
Context (PMO : Z) (sdt_header_size : Z).

(** One entry out of memory; the structure is packed. *)
Fixpoint le (bs : list Z) : Z := match bs with [] => 0 | b :: bs => b + 2 ^ 8 * le bs end.

Definition read_entry (mem : Z → Z) (p : Z) : McfgEntry :=
  mkMcfg (le (read_bytes mem p 8)) (le (read_bytes mem (p + 8) 2)) (mem (p + 10)) (mem (p + 11)).

(** The loop that looks for segment 0; [i] counts up. *)
Fixpoint choose (mem : Z → Z) (entries_ptr i : Z) (n : nat) : option McfgEntry :=
  match n with
  | O => None
  | S n =>
      let e := read_entry mem (entries_ptr + MCFG_ENTRY_SIZE * i) in
      if pci_segment_group e =? 0 then Some e else choose mem entries_ptr (i + 1) n
  end.

(** The loop over the frames; [None] for its early returns. *)
Fixpoint map_frames (page frame flags : Z) (n : nat) (m : M) (f : F) : outcome (option unit * M * F) :=
  match n with
  | O => Ret (Some (), m, f)
  | S n =>
      '(r, m, f) ← map_to m page frame flags f;
      match r with
      | inl _ => Ret (None, m, f)
      | inr _ =>
          va ← virt_add page 4096;
          match from_start_address va with
          | None => Ret (None, m, f)
          | Some page =>
              pa ← phys_add frame 4096;
              match from_start_address pa with
              | None => Ret (None, m, f)
              | Some frame => map_frames page frame flags n m f
              end
          end
      end
  end.

Definition map_ecam_region (phys_base size_bytes : Z) (m : M) (f : F) : outcome (option Z * M * F) :=
  let start_frame := containing_address phys_base in
  e ← phys_add phys_base size_bytes;
  end_phys ← phys_sub e 1;
  let end_frame := containing_address end_phys in
  d ← end_frame -[64] start_frame;
  frame_count ← (d / 4096) +[64] 1;
  a ← phys_base +[64] PMO;
  virt_base ← virt_new a;
  match translate_addr m virt_base with
  | Some mapped_phys =>
      if mapped_phys =? start_frame then Ret (Some virt_base, m, f) else Ret (None, m, f)
  | None =>
      let flags := Z.lor PRESENT WRITABLE in
      '(o, m, f) ← map_frames (containing_address virt_base) start_frame flags (Z.to_nat frame_count) m f;
      match o with
      | None => Ret (None, m, f)
      | Some _ => Ret (Some virt_base, m, f)
      end
  end.

(** The result is the error, or the base [set_ecam_base] is given. *)
Definition init_pcie_from_acpi (find_table : option Mcfg) (mem : Z → Z) (m : M) (f : F) :
    outcome ((pcie_error + Z) * M * F) :=
  match find_table with
  | None => Ret (inl TableNotFound, m, f)
  | Some t =>
      let hdr_size := sdt_header_size + 8 in
      if table_length t <=? hdr_size then Ret (inl NoEntries, m, f) else
      entries_bytes ← table_length t -[64] hdr_size;
      if negb (entries_bytes mod MCFG_ENTRY_SIZE =? 0) then Ret (inl BadSize, m, f) else
      let entry_count := entries_bytes / MCFG_ENTRY_SIZE in
      if entry_count =? 0 then Ret (inl ZeroEntries, m, f) else
      match choose mem (virtual_start t + hdr_size) 0 (Z.to_nat entry_count) with
      | None => Ret (inl NoSegment0, m, f)
      | Some entry =>
          bus_count ← saturating_sub (end_bus entry) (start_bus entry) +[64] 1;
          let ecam_size := shl 64 bus_count 20 in     (* [checked_shl(20)] is never [None] *)
          phys_base ← phys_new (base_address entry);
          '(o, m, f) ← map_ecam_region phys_base ecam_size m f;
          match o with
          | None => Ret (inl MapFailed, m, f)
          | Some virt_base => Ret (inr virt_base, m, f)
          end
      end
  end.

(** [Handler::map_physical_region]: the address the crate reads a table at;
    [NonNull::new] refuses the null pointer. *)
Definition map_physical_region (physical_address : Z) : outcome Z :=
  a ← physical_address +[64] PMO;
  if a =? 0 then Panic UnwrapFailed else Ret a.
End acpi.

(** ** Consecutive frames *)

Fixpoint consecutive (a : Z) (n : nat) : list Z :=
  match n with O => [] | S n => a :: consecutive (a + 4096) n end.

Lemma consecutive_length a n : zlen (consecutive a n) = Z.of_nat n.
Proof.
  revert a. induction n as [|n IH]; intros a; [done|]. cbn [consecutive]. rewrite zlen_cons, IH. lia.
Qed.

Lemma consecutive_lookup a n (i : nat) : (i < n)%nat → consecutive a n !! i = Some (a + 4096 * Z.of_nat i).
Proof.
  revert a i. induction n as [|n IH]; intros a [|i] Hi; [lia|lia|cbn; f_equal; lia|].
  cbn [consecutive lookup list_lookup]. etransitivity; [apply IH; lia|]. f_equal. lia.
Qed.

(** ** Mapping the window *)

Section window.
Context `{X86Laws} `{X86PhysLaws} {M : Type} `{MapperLaws M} {F : Type} `{FrameContract F}.

(** [n] pages at [page] and frames at [frame] that the crate accepts, with the
    page and the frame after them, which the loop computes as well. *)
Definition window_ok (page frame n : Z) : Prop :=
  page_aligned page ∧ page_aligned frame ∧ 0 ≤ page ∧ 0 ≤ frame ∧ frame + 4096 * n < 2 ^ 52 ∧
  ∀ i, 0 ≤ i ≤ n → canonical (page + 4096 * i).

Lemma window_ok_next page frame n : 0 < n → window_ok page frame n → window_ok (page + 4096) (frame + 4096) (n - 1).
Proof.
  intros Hn (Hp & Hf & Hp0 & Hf0 & He & Hc).
  pose proof (page_aligned_step page 1 Hp). pose proof (page_aligned_step frame 1 Hf).
  rewrite Z.mul_1_r in *. split_and!; [done|done|lia|lia|lia|]. intros i Hi.
  replace (page + 4096 + 4096 * i) with (page + 4096 * (i + 1)) by lia. apply Hc. lia.
Qed.

Lemma map_frames_ok fl (n : nat) page frame (m : M) (f : F) k :
  window_ok page frame (Z.of_nat n) → 0 ≤ k → frames_for f (Z.of_nat n + k) → fresh_range m page (Z.of_nat n) →
  ∃ m' f', map_frames page frame fl n m f = Ret (Some (), m', f') ∧ (∀ q, huge m' q → huge m q) ∧
    page_map m' = map_pages page (consecutive frame n) fl (page_map m) ∧ frames_for f' k.
Proof.
  revert page frame m f. induction n as [|n IH]; intros page frame m f Hw Hk Hf Hfr; cbn [map_frames consecutive].
  { exists m, f. by split_and!. }
  pose proof Hw as (Hp & Hfa & Hp0 & Hf0 & He & Hc). destruct (Hfr 0) as [Hn0 Hh0]; [lia|].
  rewrite Z.mul_0_r, Z.add_0_r in Hn0, Hh0. destruct Hf as [Hi Hlen].
  destruct (map_to_ok m page frame fl f _ Hi) as (m1 & f1 & k1 & Hm & Hpm & Hh & Hk1 & Hf1 & Hi1);
    [lia|unfold zlen in Hlen; lia|done|done|]. rewrite Hm, bind_Ret.
  assert (Hc0 : canonical page) by (replace page with (page + 4096 * 0) by lia; apply Hc; lia).
  assert (Hc1 : canonical (page + 4096)) by (replace 4096 with (4096 * 1) by lia; apply Hc; lia).
  rewrite virt_add_ok, bind_Ret by (done || lia).
  pose proof (window_ok_next page frame (Z.of_nat (S n)) ltac:(lia) Hw) as Hw'. pose proof Hw' as (Hp' & Hfa' & _ & _ & _ & _).
  rewrite from_start_aligned by (done || lia).
  rewrite phys_add_ok, bind_Ret by (unfold in_width; lia). rewrite from_start_aligned by (done || lia).
  destruct (IH (page + 4096) (frame + 4096) m1 f1) as (m' & f' & Hl & Hh' & Hpm' & Hk').
  - by replace (Z.of_nat n) with (Z.of_nat (S n) - 1) by lia.
  - done.
  - split; [eapply fa_inv_le; [|exact Hi1]; lia|]. unfold zlen in *. rewrite Hf1, length_drop. lia.
  - intros i Hi'. destruct (Hfr (i + 1)) as [Hn1 Hh1]; [lia|].
    replace (page + 4096 * (i + 1)) with (page + 4096 + 4096 * i) in Hn1, Hh1 by lia.
    rewrite Hpm, lookup_insert_ne by lia. split; [done|]. by intros ?%Hh.
  - exists m', f'. split_and!; [done|naive_solver|by rewrite Hpm', Hpm|done].
Qed.

Context `{!Translate M} `{!TranslateLaws M}.

(** A window of [n] pages that is free is mapped page by page. *)
Lemma map_ecam_region_maps PMO phys n (m : M) (f : F) k :
  0 < n → 0 ≤ k → 0 ≤ PMO → phys + PMO + 4096 * n < 2 ^ 64 → window_ok (phys + PMO) phys n → frames_for f (n + k) →
  fresh_range m (phys + PMO) n →
  ∃ m' f', map_ecam_region PMO phys (4096 * n) m f = Ret (Some (phys + PMO), m', f') ∧
    (∀ q, huge m' q → huge m q) ∧
    page_map m' = map_pages (phys + PMO) (consecutive phys (Z.to_nat n)) (Z.lor PRESENT WRITABLE) (page_map m) ∧
    frames_for f' k.
Proof.
  intros Hn Hk HP Hend Hw Hf Hfr. pose proof Hw as (Hp & Hfa & Hp0 & Hf0 & He & Hc). unfold map_ecam_region.
  rewrite phys_add_ok, bind_Ret by (unfold in_width; lia). rewrite phys_sub_ok, bind_Ret by (unfold in_width; lia).
  rewrite (containing_address_aligned phys) by done.
  assert (Hlast : containing_address (phys + 4096 * n - 1) = phys + 4096 * (n - 1)).
  { rewrite containing_address_eq by lia. unfold page_aligned in Hfa. pose proof (Z.div_mod phys 4096 ltac:(lia)).
    replace (phys + 4096 * n - 1) with (4095 + (phys / 4096 + n - 1) * 4096) at 2 by lia.
    rewrite Z.mod_add by lia. change (4095 mod 4096) with 4095. lia. }
  rewrite Hlast. checked_step. replace (phys + 4096 * (n - 1) - phys) with ((n - 1) * 4096) by lia.
  rewrite Z.div_mul by lia. checked_step. checked_step. replace (n - 1 + 1) with n by lia.
  rewrite virt_new_ok, bind_Ret by (specialize (Hc 0); rewrite Z.add_0_r in Hc; apply Hc; lia).
  destruct (Hfr 0) as [Hn0 Hh0]; [lia|]. rewrite Z.mul_0_r, Z.add_0_r in Hn0, Hh0.
  pose proof (translate_unmapped m (phys + PMO) 0 Hp Hn0 Hh0 ltac:(lia)) as Ht. rewrite Z.add_0_r in Ht. rewrite Ht.
  rewrite containing_address_aligned by done.
  destruct (map_frames_ok (Z.lor PRESENT WRITABLE) (Z.to_nat n) (phys + PMO) phys m f k) as (m' & f' & Hl & Hh & Hpm & Hk');
    [by rewrite Z2Nat.id by lia|done|by rewrite Z2Nat.id by lia|by rewrite Z2Nat.id by lia|].
  rewrite Hl, bind_Ret. by exists m', f'.
Qed.

(** ** The entries of the table *)

(** Memory holds the entries [es] after the header. *)
Definition table_holds (hdr : Z) (mem : Z → Z) (t : Mcfg) (es : list McfgEntry) : Prop :=
  table_length t = hdr + 8 + MCFG_ENTRY_SIZE * zlen es ∧
  ∀ (i : nat) e, es !! i = Some e → read_entry mem (virtual_start t + (hdr + 8) + MCFG_ENTRY_SIZE * Z.of_nat i) = e.

Definition segment0 (e : McfgEntry) : bool := pci_segment_group e =? 0.

Lemma choose_find mem p es i :
  (∀ (k : nat) e, es !! k = Some e → read_entry mem (p + MCFG_ENTRY_SIZE * (i + Z.of_nat k)) = e) →
  choose mem p i (length es) = List.find segment0 es.
Proof.
  revert i. induction es as [|e es IH]; intros i He; [done|]. cbn [choose length List.find].
  pose proof (He 0%nat e eq_refl) as H0'. rewrite Z.add_0_r in H0'. rewrite H0'. unfold segment0 at 1.
  destruct (pci_segment_group e =? 0); [done|]. apply IH. intros k e' Hk.
  rewrite <- (He (S k) e' Hk). f_equal. lia.
Qed.

Lemma init_chooses PMO hdr t mem es (m : M) (f : F) :
  0 ≤ hdr → table_holds hdr mem t es → table_length t < 2 ^ 64 → es ≠ [] →
  init_pcie_from_acpi PMO hdr (Some t) mem m f =
    match List.find segment0 es with
    | None => Ret (inl NoSegment0, m, f)
    | Some entry =>
        bus_count ← saturating_sub (end_bus entry) (start_bus entry) +[64] 1;
        phys_base ← phys_new (base_address entry);
        '(o, m, f) ← map_ecam_region PMO phys_base (shl 64 bus_count 20) m f;
        match o with
        | None => Ret (inl MapFailed, m, f)
        | Some virt_base => Ret (inr virt_base, m, f)
        end
    end.
Proof.
  intros Hh [Hlen Hes] Hlt Hne. unfold init_pcie_from_acpi.
  assert (Hz : 0 < zlen es) by (destruct es; [done|]; rewrite zlen_cons; pose proof (zlen_nonneg es); lia).
  unfold MCFG_ENTRY_SIZE in *. rewrite (proj2 (Z.leb_gt _ _)) by lia. checked_step.
  replace (table_length t - (hdr + 8)) with (zlen es * 16) by lia. rewrite Z.mod_mul, Z.div_mul by lia.
  cbn [negb Z.eqb]. rewrite (proj2 (Z.eqb_neq _ _)) by lia.
  assert (Hn : Z.to_nat (zlen es) = length es) by (unfold zlen; lia).
  rewrite Hn, (choose_find mem _ es 0); [done|]. intros k e Hk. rewrite <- (Hes k e Hk). done.
Qed.

(** Buses the window of an entry is mapped for. *)
Definition bus_count (e : McfgEntry) : Z := Z.max 0 (end_bus e - start_bus e) + 1.

(** The table names a window whose addresses the crate accepts. *)
Definition names_window (PMO hdr : Z) (t : Mcfg) (mem : Z → Z) (e : McfgEntry) : Prop :=
  0 ≤ hdr ∧ table_length t < 2 ^ 64 ∧ (∃ es, table_holds hdr mem t es ∧ List.find segment0 es = Some e) ∧
  in_width 8 (start_bus e) ∧ in_width 8 (end_bus e) ∧ 0 ≤ PMO ∧
  window_ok (base_address e + PMO) (base_address e) (256 * bus_count e).

Lemma bus_count_range e : in_width 8 (start_bus e) → in_width 8 (end_bus e) → 1 ≤ bus_count e ≤ 256.
Proof. unfold in_width, bus_count. lia. Qed.

Lemma init_pcie_more PMO hdr t mem e (m : M) (f : F) k :
  names_window PMO hdr t mem e → 0 ≤ k → frames_for f (256 * bus_count e + k) →
  fresh_range m (base_address e + PMO) (256 * bus_count e) →
  ∃ m' f', init_pcie_from_acpi PMO hdr (Some t) mem m f = Ret (inr (base_address e + PMO), m', f') ∧
    (∀ q, huge m' q → huge m q) ∧ frames_for f' k ∧
    page_map m' = map_pages (base_address e + PMO) (consecutive (base_address e) (Z.to_nat (256 * bus_count e)))
                    (Z.lor PRESENT WRITABLE) (page_map m).
Proof.
  intros (Hh & Hlt & (es & Ht & He) & Hs8 & He8 & HP & Hw) Hk Hf Hfr.
  pose proof (bus_count_range e Hs8 He8) as Hcnt. pose proof Hw as (Hpa & Hfa & Hp0 & Hf0 & Hf1 & Hc).
  rewrite (init_chooses PMO hdr t mem es m f) by (done || by intros ->). rewrite He.
  change (saturating_sub (end_bus e) (start_bus e)) with (Z.max 0 (end_bus e - start_bus e)).
  rewrite checked_ok, bind_Ret by (unfold in_width, bus_count in *; lia). fold (bus_count e).
  rewrite phys_new_ok, bind_Ret by (unfold in_width; lia).
  assert (Hsz : shl 64 (bus_count e) 20 = 4096 * (256 * bus_count e)).
  { unfold shl. rewrite Z.shiftl_mul_pow2 by lia. rewrite in_width_wrap by (unfold in_width; lia). lia. }
  assert (Htop : base_address e + PMO + 4096 * (256 * bus_count e) < 2 ^ 64).
  { pose proof (Hc (256 * bus_count e) ltac:(lia)) as [?|?]; lia. }
  rewrite Hsz. destruct (map_ecam_region_maps PMO (base_address e) (256 * bus_count e) m f k) as (m' & f' & Hl & Hhuge & Hpm & Hk');
    [lia|done|lia|lia|done|done|done|].
  rewrite Hl, bind_Ret. by exists m', f'.
Qed.
End window.

(** ** What stays mapped *)

Section kept.
Context `{X86} `{X86Phys} {M : Type} `{MapperLaws M} `{!Translate M} `{!TranslateLaws M} {F : Type} `{FrameAllocator F}.

(** Every address with a translation keeps it. *)
Definition still_mapped (m m' : M) : Prop := ∀ a pa, translate_addr m a = Some pa → translate_addr m' a = Some pa.

Lemma heap_loop_kept pages m (f : F) r m' f' : heap_loop pages m f = Ret (r, m', f') → still_mapped m m'.
Proof.
  revert m f. induction pages as [|p pages IH]; intros m f; cbn [heap_loop]; [by intros [= _ <- _] a pa|].
  intros ([o f1] & _ & E)%bind_Ret_inv. destruct o as [fr|]; [|by injection E as _ <- _; intros a pa].
  apply bind_Ret_inv in E as ([[x m1] f2] & E1 & E). intros a pa Ha.
  pose proof (translate_map_to _ _ _ _ _ _ _ _ _ _ E1 Ha) as Ha1. destruct x as [err|u]; [by injection E as _ <- _|].
  by eapply IH.
Qed.

Lemma init_heap_kept b m (f : F) r b' m' f' : init_heap b m f = Ret (r, b', m', f') → still_mapped m m'.
Proof.
  unfold init_heap. intros (? & _ & (? & _ & (? & _ & ([[x m1] f1] & E1 & E)%bind_Ret_inv)%bind_Ret_inv)%bind_Ret_inv)%bind_Ret_inv.
  apply heap_loop_kept in E1. destruct x; by injection E as _ _ <- _.
Qed.

Lemma map_frames_kept fl n p fr m (f : F) r m' f' : map_frames p fr fl n m f = Ret (r, m', f') → still_mapped m m'.
Proof.
  revert p fr m f. induction n as [|n IH]; intros p fr m f; cbn [map_frames]; [by intros [= _ <- _] a pa|].
  intros ([[x m1] f1] & E1 & E)%bind_Ret_inv a pa Ha.
  pose proof (translate_map_to _ _ _ _ _ _ _ _ _ _ E1 Ha) as Ha1. destruct x as [err|u]; [by injection E as _ <- _|].
  apply bind_Ret_inv in E as (va & _ & E). destruct (from_start_address va) as [p'|]; [|by injection E as _ <- _].
  apply bind_Ret_inv in E as (fa & _ & E). destruct (from_start_address fa) as [fr'|]; [|by injection E as _ <- _].
  by eapply IH.
Qed.

Lemma map_ecam_region_kept PMO phys size m (f : F) r m' f' :
  map_ecam_region PMO phys size m f = Ret (r, m', f') → still_mapped m m'.
Proof.
  unfold map_ecam_region. intros E. do 6 (apply bind_Ret_inv in E as (? & _ & E)).
  destruct (translate_addr m _) as [pa0|]; [by destruct (_ =? _); injection E as _ <- _; intros a pa|].
  apply bind_Ret_inv in E as ([[o m1] f1] & E1 & E). apply map_frames_kept in E1. by destruct o; injection E as _ <- _.
Qed.

Lemma init_pcie_kept PMO hdr o mem m (f : F) r m' f' :
  init_pcie_from_acpi PMO hdr o mem m f = Ret (r, m', f') → still_mapped m m'.
Proof.
  assert (Hs : still_mapped m m) by by intros a pa.
  unfold init_pcie_from_acpi. intros E. destruct o as [t|]; [|by injection E as _ <- _].
  destruct (_ <=? _); [by injection E as _ <- _|]. apply bind_Ret_inv in E as (? & _ & E).
  destruct (negb _); [by injection E as _ <- _|]. destruct (_ =? 0); [by injection E as _ <- _|].
  destruct (choose _ _ _ _) as [e|]; [|by injection E as _ <- _].
  do 2 (apply bind_Ret_inv in E as (? & _ & E)). apply bind_Ret_inv in E as ([[y m1] f1] & E1 & E).
  apply map_ecam_region_kept in E1. by destruct y; injection E as _ <- _.
Qed.
End kept.

(** ** Properties *)

Section theorems.
Context `{X86Laws} `{X86PhysLaws} {M : Type} `{MapperLaws M} `{!Translate M} `{!TranslateLaws M}.
Context {F : Type} `{FrameContract F}.

Lemma key_page b s fn r :
  bdf_ok b s fn → 0 ≤ r < 256 →
  key b s fn r = 4096 * (256 * b + 8 * s + fn) + r ∧ 0 ≤ 256 * b + 8 * s + fn < 256 * (b + 1).
Proof. unfold bdf_ok, key. lia. Qed.

(** C25: Where the table names a window for segment 0, the pages of all 256 buses
    behind its base are unmapped and there are frames to map those of the
    entry's range (256 a bus), initialisation maps these: an access of the
    configuration code to a bus of the range, counted from 0, reaches the
    physical address [base + key] of the register; an access to a later bus,
    which the scan of all 256 buses makes, finds no mapping. *)
Theorem init_pcie_maps_window (PMO hdr : Z) (t : Mcfg) (mem : Z → Z) (es : list McfgEntry) (e : McfgEntry) (m : M) (f : F) :
  0 ≤ hdr → table_holds hdr mem t es → table_length t < 2 ^ 64 → List.find segment0 es = Some e →
  in_width 8 (start_bus e) → in_width 8 (end_bus e) → 0 ≤ PMO →
  let n := 256 * bus_count e in
  let base := base_address e + PMO in
  window_ok base (base_address e) n → base + 2 ^ 28 ≤ 2 ^ 64 → frames_for f n → fresh_range m base (256 * 256) →
  returns (init_pcie_from_acpi PMO hdr (Some t) mem m f) (λ '(r, m', f'),
    r = inr base ∧
    ∀ b s fn reg, bdf_ok b s fn → 0 ≤ reg < 256 →
      returns (ecam_address base b s fn reg) (λ a,
        translate_addr m' a = if b <? bus_count e then Some (base_address e + key b s fn reg) else None)).
Proof.
  intros Hh Ht Hlt He Hs8 He8 HP n base Hw Hend Hf Hfr. pose proof (bus_count_range e Hs8 He8) as Hcnt.
  pose proof Hw as (Hpa & Hfa & Hp0 & Hf0 & Hf1 & Hc).
  destruct (init_pcie_more PMO hdr t mem e m f 0) as (m' & f' & Hl & Hhuge & _ & Hpm);
    [split_and!; try done; by exists es|done|by rewrite Z.add_0_r|intros i Hi; apply Hfr; lia|].
  rewrite Hl. apply returns_Ret. split; [done|]. intros b s fn reg Hbdf Hreg.
  destruct (key_page b s fn reg Hbdf Hreg) as [Hk Hkr]. set (i := 256 * b + 8 * s + fn) in *.
  rewrite (ecam_address_key base b s fn reg) by (done || lia). apply returns_Ret. rewrite Hk.
  replace (base + (4096 * i + reg)) with (base + 4096 * i + reg) by lia.
  assert (Hb : b < 256) by (destruct Hbdf; lia). destruct (Z.ltb_spec b (bus_count e)) as [Hlt'|Hge].
  - rewrite (translate_mapped m' (base + 4096 * i) reg (base_address e + 4096 * i) (Z.lor PRESENT WRITABLE));
      [f_equal; lia|by apply page_aligned_step| |lia].
    rewrite Hpm. replace i with (Z.of_nat (Z.to_nat i)) at 1 by lia. rewrite (map_pages_lookup _ _ _ _ _ (base_address e + 4096 * i)); [done|].
    rewrite consecutive_lookup by lia. f_equal. lia.
  - assert (Hi : n ≤ i) by (unfold n, i in *; destruct Hbdf as (? & ? & ?); lia).
    destruct (Hfr i) as [Hnone Hnh]; [lia|].
    apply translate_unmapped; [by apply page_aligned_step| | |lia].
    + rewrite Hpm, map_pages_outside; [exact Hnone|]. intros j Hj. rewrite consecutive_length in Hj. lia.
    + intros Hq. by apply Hnh, Hhuge.
Qed.

(** Each way initialisation fails, with the page tables as they were: no
    table; a table without entries; entries cut short; no entry for segment 0.
    A table with a header and a multiple of the entry's size has an entry, so
    that the fourth check never fails. *)
Theorem init_pcie_errors (PMO hdr : Z) (o : option Mcfg) (mem : Z → Z) (m : M) (f : F) :
  0 ≤ hdr → (∀ t, o = Some t → in_width 64 (table_length t)) →
  init_pcie_from_acpi PMO hdr o mem m f ≠ Ret (inl ZeroEntries, m, f) ∧
  match o with
  | None => init_pcie_from_acpi PMO hdr o mem m f = Ret (inl TableNotFound, m, f)
  | Some t =>
      let k := table_length t - (hdr + 8) in
      (k ≤ 0 → init_pcie_from_acpi PMO hdr o mem m f = Ret (inl NoEntries, m, f)) ∧
      (0 < k → k mod 16 ≠ 0 → init_pcie_from_acpi PMO hdr o mem m f = Ret (inl BadSize, m, f)) ∧
      (∀ es, table_holds hdr mem t es → es ≠ [] → Forall (λ e, pci_segment_group e ≠ 0) es →
         init_pcie_from_acpi PMO hdr o mem m f = Ret (inl NoSegment0, m, f))
  end.
Proof.
  intros Hh Ho. destruct o as [t|]; [|by split]. specialize (Ho t eq_refl). unfold in_width in Ho.
  assert (Hk : 0 < table_length t - (hdr + 8) → (table_length t <=? hdr + 8) = false) by lia.
  split; [|split_and!].
  - unfold init_pcie_from_acpi, MCFG_ENTRY_SIZE. destruct (Z.leb_spec (table_length t) (hdr + 8)); [done|].
    checked_step. set (k := table_length t - (hdr + 8)). destruct (Z.eqb_spec (k mod 16) 0) as [Hm|]; [|done].
    cbn [negb]. pose proof (Z.div_mod k 16 ltac:(lia)) as Hd. rewrite (proj2 (Z.eqb_neq (k / 16) 0)) by lia.
    destruct (choose _ _ _ _) as [e|]; [|done]. intros Hr. inv_ret. destruct r1 as [[[?|] ?] ?]; inv_ret.
  - intros Hle. unfold init_pcie_from_acpi. by rewrite (proj2 (Z.leb_le _ _)) by lia.
  - intros Hlt Hmod. unfold init_pcie_from_acpi, MCFG_ENTRY_SIZE. rewrite Hk by done. checked_step.
    by rewrite (proj2 (Z.eqb_neq _ _)).
  - intros es Hes Hne Hseg. rewrite (init_chooses PMO hdr t mem es m f) by (done || lia).
    assert (Hf : List.find segment0 es = None); [|by rewrite Hf].
    clear -Hseg. induction Hseg as [|e es He _ IH]; [done|]. cbn. unfold segment0 at 1.
    by rewrite (proj2 (Z.eqb_neq _ _)).
Qed.

(** Where the first address of the window translates to the window's, the
    whole window, however long, is taken for mapped and nothing is added. *)
Lemma map_ecam_region_mapped (PMO phys size : Z) (m : M) (f : F) :
  page_aligned phys → page_aligned (phys + PMO) → 0 ≤ phys → 0 < size → phys + size < 2 ^ 52 →
  0 ≤ PMO → canonical (phys + PMO) → translate_addr m (phys + PMO) = Some phys →
  map_ecam_region PMO phys size m f = Ret (Some (phys + PMO), m, f).
Proof.
  intros Hp Hv H0' Hs He HP Hc Ht. unfold map_ecam_region.
  rewrite phys_add_ok, bind_Ret by (unfold in_width; lia). rewrite phys_sub_ok, bind_Ret by (unfold in_width; lia).
  rewrite (containing_address_aligned phys) by done.
  assert (Hlast : phys ≤ containing_address (phys + size - 1) ≤ phys + size).
  { rewrite containing_address_eq by lia. unfold page_aligned in Hp.
    pose proof (Z.mod_pos_bound (phys + size - 1) 4096 ltac:(lia)).
    pose proof (Z.mod_le (size - 1) 4096 ltac:(lia) ltac:(lia)).
    assert (Hmm : (phys + size - 1) mod 4096 = (size - 1) mod 4096).
    { replace (phys + size - 1) with ((size - 1) + (phys / 4096) * 4096) by
        (pose proof (Z.div_mod phys 4096 ltac:(lia)); lia). by rewrite Z.mod_add by lia. }
    lia. }
  revert Hlast. generalize (containing_address (phys + size - 1)). intros l Hlast. checked_step.
  pose proof (Z.div_pos (l - phys) 4096 ltac:(lia) ltac:(lia)).
  pose proof (Z.div_le_upper_bound (l - phys) 4096 (2 ^ 52) ltac:(lia) ltac:(lia)).
  checked_step. rewrite checked_ok, bind_Ret by (unfold in_width; destruct Hc; lia). rewrite virt_new_ok, bind_Ret by done.
  by rewrite Ht, Z.eqb_refl.
Qed.

(** So a single page, the first, is enough. *)
Theorem ecam_mapped_by_first_page (PMO phys size : Z) (m : M) (f : F) (fl : Z) :
  page_aligned phys → page_aligned (phys + PMO) → 0 ≤ phys → 0 < size → phys + size < 2 ^ 52 →
  0 ≤ PMO → canonical (phys + PMO) → page_map m !! (phys + PMO) = Some (phys, fl) →
  map_ecam_region PMO phys size m f = Ret (Some (phys + PMO), m, f).
Proof.
  intros Hp Hv H0' Hs He HP Hc Hm. apply map_ecam_region_mapped; try done.
  pose proof (translate_mapped m (phys + PMO) 0 phys fl Hv Hm ltac:(lia)) as Ht. by rewrite !Z.add_0_r in Ht.
Qed.

(** The same for the window of the table. *)
Lemma init_pcie_mapped (PMO hdr : Z) (t : Mcfg) (mem : Z → Z) (e : McfgEntry) (m : M) (f : F) :
  names_window PMO hdr t mem e → translate_addr m (base_address e + PMO) = Some (base_address e) →
  init_pcie_from_acpi PMO hdr (Some t) mem m f = Ret (inr (base_address e + PMO), m, f).
Proof.
  intros (Hh & Hlt & (es & Ht & He) & Hs8 & He8 & HP & Hw) Htr.
  pose proof (bus_count_range e Hs8 He8) as Hcnt. pose proof Hw as (Hpa & Hfa & Hp0 & Hf0 & Hf1 & Hc).
  rewrite (init_chooses PMO hdr t mem es m f) by (done || by intros ->). rewrite He.
  change (saturating_sub (end_bus e) (start_bus e)) with (Z.max 0 (end_bus e - start_bus e)).
  rewrite checked_ok, bind_Ret by (unfold in_width, bus_count in *; lia). fold (bus_count e).
  rewrite phys_new_ok, bind_Ret by (unfold in_width; lia).
  assert (Hsz : shl 64 (bus_count e) 20 = 4096 * (256 * bus_count e)).
  { unfold shl. rewrite Z.shiftl_mul_pow2 by lia. rewrite in_width_wrap by (unfold in_width; lia). lia. }
  rewrite Hsz, map_ecam_region_mapped; [done|done|done|lia|lia|lia|done| |done].
  specialize (Hc 0 ltac:(lia)). by rewrite Z.add_0_r in Hc.
Qed.
End theorems.

(** ** Sample runs *)

#[local] Existing Instances amd64 amd64_laws amd64_phys amd64_phys_laws sample_Mapper sample_MapperLaws sample_FA sample_FC.

#[local] Instance sample_Translate : Translate (gmap Z (Z * Z)) := {
  translate_addr m a := match m !! (a - a mod 4096) with Some (fr, _) => Some (fr + a mod 4096) | None => None end;
}.

Lemma page_offset p off : p mod 4096 = 0 → 0 ≤ off < 4096 → (p + off) mod 4096 = off.
Proof.
  intros Hp Ho. rewrite Z.add_mod, Hp, Z.add_0_l, Z.mod_mod by lia. by apply Z.mod_small.
Qed.

#[local] Instance sample_TranslateLaws : TranslateLaws (gmap Z (Z * Z)).
Proof.
  split; [intros m p off; intros; unfold page_aligned in *; cbn [translate_addr sample_Translate];
    rewrite page_offset by done; replace (p + off - off) with p by lia..|].
  - by match goal with H : page_map m !! p = _ |- _ => change (m !! p = Some (fr, fl)) in H; rewrite H end.
  - by match goal with H : page_map m !! p = _ |- _ => change (m !! p = None) in H; rewrite H end.
  - intros F ? m p fr fl f r m' f' a pa Hmap. cbn in Hmap |- *. destruct (m !! p) as [x|] eqn:Hp; simplify_eq; [done|].
    intros Ha. rewrite lookup_insert_ne; [done|]. intros ->. by rewrite Hp in Ha.
Qed.

(** A table with a header of 36 bytes and two entries: buses 0 to 1 of segment
    0 at 0xB0000000. *)
Definition table_bytes : list Z :=
  [0; 0; 0; 0xC0; 0; 0; 0; 0; 1; 0; 0; 255; 0; 0; 0; 0;
   0; 0; 0; 0xB0; 0; 0; 0; 0; 0; 0; 0; 1; 0; 0; 0; 0].
Definition table_memory : Z → Z := write_bytes (λ _, 0) (0x1000 + 44) table_bytes.
Definition sample_table : Mcfg := mkTable 0x1000 76.
Definition sample_entries : list McfgEntry := [mkMcfg 0xC0000000 1 0 255; mkMcfg 0xB0000000 0 0 1].

Lemma sample_table_holds : table_holds 36 table_memory sample_table sample_entries.
Proof. split; [done|]. intros [|[|i]] e Hi; cbn in Hi; [injection Hi as <-; by vm_compute..|done]. Qed.

Lemma init_pcie_maps_window_witness :
  returns (init_pcie_from_acpi 0x10000000000 36 (Some sample_table) table_memory (∅ : gmap Z (Z * Z)) sample_frames)
    (λ '(r, m', f'), r = inr 0x100B0000000 ∧
       translate_addr m' (0x100B0000000 + 2 ^ 20 + 2 ^ 15) = Some (0xB0000000 + 2 ^ 20 + 2 ^ 15) ∧
       translate_addr m' (0x100B0000000 + 2 * 2 ^ 20) = None).
Proof.
  eapply returns_mono.
  - apply (init_pcie_maps_window 0x10000000000 36 sample_table table_memory sample_entries (mkMcfg 0xB0000000 0 0 1));
      [lia|exact sample_table_holds|done|done|done|done|lia| |done|apply sample_frames_for; done|apply empty_fresh].
    split_and!; [done|done|done|done|done|]. intros i Hi. left. change (256 * bus_count _) with 512 in Hi. cbn [base_address]. lia.
  - intros [[r m'] f'] [Hr Hb]. split; [exact Hr|]. split.
    + destruct (Hb 1 1 0 0) as (a & Ha & Ht); [done|done|]. injection Ha as <-. exact Ht.
    + destruct (Hb 2 0 0 0) as (a & Ha & Ht); [done|done|]. injection Ha as <-. exact Ht.
Defined.

Lemma init_pcie_errors_witness :
  init_pcie_from_acpi 0x10000000000 36 (Some (mkTable 0x1000 77)) table_memory (∅ : gmap Z (Z * Z)) sample_frames =
    Ret (inl BadSize, ∅, sample_frames).
Proof.
  destruct (init_pcie_errors 0x10000000000 36 (Some (mkTable 0x1000 77)) table_memory (∅ : gmap Z (Z * Z)) sample_frames)
    as (_ & _ & Hb & _); [lia|by intros t [= <-]|]. by apply Hb.
Defined.

Lemma ecam_mapped_by_first_page_witness :
  map_ecam_region 0x10000000000 0xB0000000 (2 ^ 28) (<[0x100B0000000 := (0xB0000000, 3)]> ∅ : gmap Z (Z * Z)) sample_frames =
    Ret (Some 0x100B0000000, <[0x100B0000000 := (0xB0000000, 3)]> ∅, sample_frames).
Proof.
  apply (ecam_mapped_by_first_page 0x10000000000 0xB0000000 (2 ^ 28) _ sample_frames 3); try done.
  by left.
Defined.
