(* ===== verification/Usermode.v ===== *)
(** * Descriptors and the way to ring 3 (kernel/src/gdt.rs, [jump_to_usermode] of
    kernel/src/syscall.rs)

    The descriptor table and the task state segment as their statics build
    them, the registers [gdt::init] loads, and the instructions that enter a
    program.  The table is the crate's: a class with the layout the crate
    documents. *)

From S2P Require Import Prelude Arch Interrupts.
Open Scope Z_scope.
Open Scope rust_scope.

(** ** The crate's descriptor table *)

Inductive descriptor : Type :=
| kernel_code_segment | kernel_data_segment | user_code_segment | user_data_segment | tss_segment.

(** [append] gives the selector of the new entry. *)
Class DescriptorTable (T : Type) := {
  gdt_new : T;
  gdt_append : T → descriptor → Z * T;
}.

(** Eight bytes an entry, the first one unused; the segment of a task takes
    two; the low two bits of a selector are the privilege level. *)
Definition entries (d : descriptor) : Z := match d with tss_segment => 2 | _ => 1 end.
Definition privilege (d : descriptor) : Z :=
  match d with user_code_segment | user_data_segment => 3 | _ => 0 end.

Class DescriptorTableLaws (T : Type) `{DescriptorTable T} := {
  gdt_next : T → Z;
  gdt_next_new : gdt_next gdt_new = 1;
  gdt_append_entry t d : gdt_next t + entries d ≤ 8 →
    ∃ t', gdt_append t d = (8 * gdt_next t + privilege d, t') ∧ gdt_next t' = gdt_next t + entries d;
}.

(** ** The statics *)

Definition STACK_SIZE : Z := 4096 * 5.
Definition KSTACK_SIZE : Z := 4096 * 5.

Record TaskStateSegment : Type := mkTSS { interrupt_stack_table : gmap Z Z; privilege_stack_table : gmap Z Z }.

Section gdt.
Context `{X86} {T : Type} `{DescriptorTable T}.

(** [stack] and [kstack] are where the two static arrays lie. *)
Definition TSS (stack kstack : Z) : outcome TaskStateSegment :=
  ist_top ← virt_add stack STACK_SIZE;
  rsp0 ← virt_add kstack KSTACK_SIZE;
  Ret (mkTSS {[ DOUBLE_FAULT_IST_INDEX := ist_top ]} {[ 0 := rsp0 ]}).

(** A static of kernel/src/syscall.rs over an array of its own, used nowhere. *)
Definition SYSCALL_STACK (kstack : Z) : outcome Z := virt_add kstack KSTACK_SIZE.

Record Selectors : Type := mkSelectors {
  kernel_code_selector : Z; user_code_selector : Z; kernel_data_selector : Z;
  user_data_selector : Z; tss_selector : Z;
}.

Definition GDT : T * Selectors :=
  let gdt := gdt_new in
  let '(kernel_code_selector, gdt) := gdt_append gdt kernel_code_segment in
  let '(kernel_data_selector, gdt) := gdt_append gdt kernel_data_segment in
  let '(user_code_selector, gdt) := gdt_append gdt user_code_segment in
  let '(user_data_selector, gdt) := gdt_append gdt user_data_segment in
  let '(tss_selector, gdt) := gdt_append gdt tss_segment in
  (gdt, mkSelectors kernel_code_selector user_code_selector kernel_data_selector user_data_selector tss_selector).

(** The segment registers after [init]. *)
Record Segments : Type := mkSegments { cs : Z; ds : Z; es : Z; fs : Z; gs : Z; ss : Z; tr : Z }.

Definition init (s : Segments) : Segments :=
  let sel := GDT.2 in
  mkSegments (kernel_code_selector sel) (kernel_data_selector sel) (kernel_data_selector sel) (fs s) (gs s)
    (kernel_data_selector sel) (tss_selector sel).
End gdt.

(** ** [jump_to_usermode] *)

(** The general registers the compiler may keep the two operands in. *)
Inductive reg : Type := RAX | Other (i : Z).

#[export] Instance reg_eq_dec : EqDecision reg.
Proof. solve_decision. Defined.

(** Registers, flags, segments and the stack, lowest address first. *)
Record Cpu : Type := mkCpu {
  regs : reg → Z; rflags : Z; rip : Z; rsp : Z; segments : Segments; stack : list Z;
}.

Definition set_rax (v : Z) (f : reg → Z) : reg → Z := λ r, if decide (r = RAX) then v else f r.

(** [mov ax, v]. *)
Definition mov_ax (v : Z) (f : reg → Z) : reg → Z := set_rax (f RAX - f RAX mod 2 ^ 16 + v) f.

(** [in(reg) user_stack_top] in [r_top], [in(reg) entry] in [r_entry]; the
    result is the processor after [iretq]. *)
Definition jump_to_usermode (r_top r_entry : reg) (c : Cpu) : option Cpu :=
  let f := mov_ax 0x23 (regs c) in
  let seg := mkSegments (cs (segments c)) 0x23 0x23 0x23 0x23 (ss (segments c)) (tr (segments c)) in
  let st := 0x23 :: stack c in              (* push 0x23 *)
  let st := f r_top :: st in                (* push {user_stack_top} *)
  let st := rflags c :: st in               (* pushfq *)
  match st with                             (* pop rax *)
  | [] => None
  | v :: st =>
      let f := set_rax (Z.lor v 0x200) f in (* or rax, 0x200 *)
      let st := f RAX :: st in              (* push rax *)
      let st := 0x1b :: st in               (* push 0x1b *)
      let st := f r_entry :: st in          (* push {entry} *)
      match st with                         (* iretq *)
      | ip :: c' :: fl :: sp :: s' :: st =>
          Some (mkCpu f fl ip sp (mkSegments c' (ds seg) (es seg) (fs seg) (gs seg) s' (tr seg)) st)
      | _ => None
      end
  end.

(** ** Properties *)

Section theorems.
Context `{X86Laws} {T : Type} `{DescriptorTableLaws T}.

Lemma GDT_selectors : (GDT (T:=T)).2 = mkSelectors 0x08 0x1b 0x10 0x23 0x28.
Proof.
  unfold GDT. pose proof gdt_next_new as Hn.
  destruct (gdt_append_entry gdt_new kernel_code_segment) as (t1 & -> & N1); [rewrite Hn; cbn; lia|].
  destruct (gdt_append_entry t1 kernel_data_segment) as (t2 & -> & N2); [rewrite N1, Hn; cbn; lia|].
  destruct (gdt_append_entry t2 user_code_segment) as (t3 & -> & N3); [rewrite N2, N1, Hn; cbn; lia|].
  destruct (gdt_append_entry t3 user_data_segment) as (t4 & -> & N4); [rewrite N3, N2, N1, Hn; cbn; lia|].
  destruct (gdt_append_entry t4 tss_segment) as (t5 & -> & _); [rewrite N4, N3, N2, N1, Hn; cbn; lia|].
  by rewrite N4, N3, N2, N1, Hn.
Qed.

(** C37: Entering a program gives the processor the entry point, the stack it
    asks for, interrupts enabled, and in every segment register a selector of
    ring 3 that the kernel's descriptor table defines: code in [cs], data in
    the others; provided that the compiler keeps neither operand in [rax],
    which the instructions overwrite without declaring it. *)
Theorem jump_enters_ring3 (r_top r_entry : reg) (c : Cpu) :
  r_top ≠ RAX → r_entry ≠ RAX →
  let sel := (GDT (T:=T)).2 in
  ∃ c', jump_to_usermode r_top r_entry c = Some c' ∧
    rip c' = regs c r_entry ∧ rsp c' = regs c r_top ∧ rflags c' = Z.lor (rflags c) 0x200 ∧ stack c' = stack c ∧
    cs (segments c') = user_code_selector sel ∧ user_code_selector sel mod 4 = 3 ∧
    Forall (λ s, s = user_data_selector sel ∧ s mod 4 = 3)
      [ds (segments c'); es (segments c'); fs (segments c'); gs (segments c'); ss (segments c')].
Proof.
  intros Ht He sel. unfold sel. rewrite GDT_selectors. eexists. split; [reflexivity|]. cbn.
  unfold mov_ax, set_rax. rewrite !decide_False by done. split_and!; try done. by repeat constructor.
Qed.

(** An operand that the compiler puts in [rax] is lost: as the entry point
    it becomes the flags. *)
Theorem jump_loses_rax (r_top : reg) (c : Cpu) :
  ∃ c', jump_to_usermode r_top RAX c = Some c' ∧ rip c' = Z.lor (rflags c) 0x200.
Proof. eexists. split; [reflexivity|]. done. Qed.

(** From ring 3, the only vector a program may raise is 0x80; the processor
    then switches to the top of the kernel's own stack, which does not overlap
    the stack of double faults where the two arrays do not. *)
Theorem ring3_gate_and_stacks (stack_ kstack : Z) :
  canonical stack_ → canonical (stack_ + STACK_SIZE) → canonical kstack → canonical (kstack + KSTACK_SIZE) →
  apart (stack_, STACK_SIZE) (kstack, KSTACK_SIZE) →
  (∀ v, 0 ≤ v < 256 → (∃ e, IDT !! v = Some e ∧ ring3 e = true) ↔ v = 0x80) ∧
  returns (TSS stack_ kstack) (λ t, ∃ ist rsp0,
    interrupt_stack_table t !! DOUBLE_FAULT_IST_INDEX = Some ist ∧ privilege_stack_table t !! 0 = Some rsp0 ∧
    ∀ a b, ist - STACK_SIZE ≤ a < ist → rsp0 - KSTACK_SIZE ≤ b < rsp0 → a ≠ b).
Proof.
  intros Hs Hse Hk Hke Ha. split.
  - intros v Hv. rewrite IDT_lookup by done. unfold vector_handler. split.
    + intros (e & He & Hr). repeat (split_guard; [simplify_eq; cbn in Hr; first [discriminate Hr|lia]|]). done.
    + intros ->. eexists. split; [reflexivity|done].
  - unfold TSS. rewrite !virt_add_ok by (done || (unfold STACK_SIZE, KSTACK_SIZE; lia)). rewrite !bind_Ret.
    apply returns_Ret. eexists _, _. cbn [interrupt_stack_table privilege_stack_table].
    rewrite !lookup_singleton_eq. split_and!; [done|done|]. unfold apart, r_end in Ha. cbn in Ha.
    intros a b. lia.
Qed.
End theorems.

(** ** Sample runs *)

#[local] Instance count_table : DescriptorTable Z := {
  gdt_new := 1; gdt_append n d := (8 * n + privilege d, n + entries d);
}.
#[local] Instance count_table_laws : DescriptorTableLaws Z.
Proof. refine {| gdt_next n := n |}; [done|]. intros t d _. eexists. by split. Defined.
#[local] Existing Instances amd64 amd64_laws.

Definition sample_cpu : Cpu :=
  mkCpu (λ r, if decide (r = RAX) then 7 else if decide (r = Other 1) then 0x400000 else 0x7000)
    2 0 0 (mkSegments 0x08 0x10 0x10 0 0 0x10 0x28) [].

Lemma jump_enters_ring3_witness :
  ∃ c', jump_to_usermode (Other 2) (Other 1) sample_cpu = Some c' ∧ rip c' = 0x400000 ∧ rsp c' = 0x7000.
Proof.
  destruct (jump_enters_ring3 (T:=Z) (Other 2) (Other 1) sample_cpu) as (c' & Hc & Hi & Hs & _); [done|done|].
  by exists c'.
Defined.

Lemma ring3_gate_and_stacks_witness :
  returns (TSS 0x10000 0x20000) (λ t, ∃ rsp0, privilege_stack_table t !! 0 = Some rsp0).
Proof.
  eapply returns_mono.
  - apply (ring3_gate_and_stacks 0x10000 0x20000); [by left|by left|by left|by left|by left].
  - intros t (ist & rsp0 & _ & Hr & _). by exists rsp0.
Defined.
