(* ===== verification/User.v ===== *)
(** * The programs of ring 3 (src/init.asm, SYSCALLS.md)

    The init program, instruction by instruction, on the system calls of
    [Syscall]: interrupt 0x80 goes through the gate of [Interrupts.IDT] into
    the stub, which keeps the stack pointer and puts the result into rax; the
    other registers are whatever the handler leaves in them, which is where the
    step relation is not deterministic.  Beside it, [acts]: what any code at all
    can do in ring 3, by its instructions or through a gate. *)

From Stdlib Require Import String.
From S2P Require Import Ustar Prelude Text Console Interrupts Syscall.
Open Scope Z_scope.
Open Scope rust_scope.

(** ** The instructions of init.asm *)

Inductive reg : Type := RAX | RDI | RSI | RDX | R10 | R8 | R9.

(** A [lea] of a label gives its address; targets of jumps are indices. *)
Inductive instr : Type :=
| Mov (r : reg) (v : Z) | Lea (r : reg) (a : Z) | Int (v : Z) | Jmp (target : nat).

Definition set_reg (r : reg) (v : Z) (c : Cpu) : Cpu :=
  let v := wrap 64 v in
  match r with
  | RAX => mkCpu v (rdi c) (rsi c) (rdx c) (r10 c) (r8 c) (r9 c) (rsp c)
  | RDI => mkCpu (rax c) v (rsi c) (rdx c) (r10 c) (r8 c) (r9 c) (rsp c)
  | RSI => mkCpu (rax c) (rdi c) v (rdx c) (r10 c) (r8 c) (r9 c) (rsp c)
  | RDX => mkCpu (rax c) (rdi c) (rsi c) v (r10 c) (r8 c) (r9 c) (rsp c)
  | R10 => mkCpu (rax c) (rdi c) (rsi c) (rdx c) v (r8 c) (r9 c) (rsp c)
  | R8 => mkCpu (rax c) (rdi c) (rsi c) (rdx c) (r10 c) v (r9 c) (rsp c)
  | R9 => mkCpu (rax c) (rdi c) (rsi c) (rdx c) (r10 c) (r8 c) v (rsp c)
  end.

Definition with_rsp (sp : Z) (c : Cpu) : Cpu :=
  mkCpu (rax c) (rdi c) (rsi c) (rdx c) (r10 c) (r8 c) (r9 c) sp.

Definition cpu_ok (c : Cpu) : Prop :=
  0 ≤ rax c < 2 ^ 64 ∧ 0 ≤ rdi c < 2 ^ 64 ∧ 0 ≤ rsi c < 2 ^ 64 ∧ 0 ≤ rdx c < 2 ^ 64 ∧
  0 ≤ r10 c < 2 ^ 64 ∧ 0 ≤ r8 c < 2 ^ 64 ∧ 0 ≤ r9 c < 2 ^ 64.

Lemma set_reg_ok r v c : cpu_ok c → cpu_ok (set_reg r v c).
Proof.
  pose proof (Z.mod_pos_bound v (2 ^ 64)). unfold cpu_ok, set_reg, wrap. destruct r; cbn; intuition lia.
Qed.

(** ** The init program *)

(** [msg], its length [len], [space]. *)
Definition msg : text := NL ++ txt "Successfully entered init program!" ++ NL.
Definition len : Z := zlen msg.
Definition space : text := txt " ".

(** With the addresses the linker gave to [msg] and [space]. *)
Definition init_program (msg_at space_at : Z) : list instr :=
  [Mov RAX 6; Mov RDI 1; Int 0x80;
   Mov RAX 1; Mov RDI 1; Lea RSI space_at; Mov RDX 1; Int 0x80;
   Mov RAX 6; Mov RDI 2; Int 0x80;
   Mov RAX 1; Mov RDI 1; Lea RSI msg_at; Mov RDX len; Int 0x80;
   Jmp 16].

(** ** Steps *)

Section user.
Context {C : Type} `{Console C} {R : Type} (rdrand : R → option Z * R) (present : access → Z → bool).
Context (here : Z → text) (ticks : nat → Z) (sleep_fuel : nat).

(** The kernel stack the processor switches to (the privilege stack of the
    task state segment) and the code. *)
Context (rsp0 : Z) (code : list instr).

Record user : Type := mkUser { cpu : Cpu; rip : nat; sys : machine (C:=C) (R:=R) }.

(** The processor pushes ss, rsp, rflags, cs and rip. *)
Definition trap_frame : Z := 40.

Inductive step : user → user → Prop :=
| step_mov c n m r v : code !! n = Some (Mov r v) → step (mkUser c n m) (mkUser (set_reg r v c) (S n) m)
| step_lea c n m r a : code !! n = Some (Lea r a) → step (mkUser c n m) (mkUser (set_reg r a c) (S n) m)
| step_jmp c n m t : code !! n = Some (Jmp t) → step (mkUser c n m) (mkUser c t m)
| step_int c n m v e stack ret sp m' c' :
    code !! n = Some (Int v) → IDT !! v = Some e → ring3 e = true → handler_fn e = Interrupts.int80_entry →
    Syscall.int80_entry rdrand present here ticks sleep_fuel (with_rsp (rsp0 - trap_frame) c) stack m = Ret (ret, sp, m') →
    (* [iretq] finds the frame *)
    sp = rsp0 - trap_frame →
    (* the handler is free with the registers of the calling convention *)
    cpu_ok c' → rax c' = ret → rsp c' = rsp c →
    step (mkUser c n m) (mkUser c' (S n) m').

(** Any code of ring 3.  Its instructions are not named: one that is not a
    software interrupt can give the registers any contents, draw from the random
    source and store in any of the bytes [owned], those of the pages that are
    mapped for ring 3 and writable - its own code among them, so which
    instruction comes next is open too.  The ones that would do more (a store
    elsewhere, a port, a privileged instruction) fault; a fault is not a step. A
    software interrupt of any vector goes through the gate. *)
Context (owned : Z → bool).

Inductive acts : Cpu * machine (C:=C) (R:=R) → option Z → Cpu * machine (C:=C) (R:=R) → Prop :=
| acts_compute c m c' mem' r' :
    cpu_ok c' → (∀ a, mem' a ≠ memory m a → owned a = true ∧ 0 ≤ mem' a < 256) →
    acts (c, m) None (c', mkMachine (console m) mem' r')
| acts_int c m v e stack ret sp m' c' :
    IDT !! v = Some e → ring3 e = true → handler_fn e = Interrupts.int80_entry →
    Syscall.int80_entry rdrand present here ticks sleep_fuel (with_rsp (rsp0 - trap_frame) c) stack m = Ret (ret, sp, m') →
    sp = rsp0 - trap_frame → cpu_ok c' → rax c' = ret → rsp c' = rsp c →
    acts (c, m) (Some v) (c', m').

Definition does (s s' : Cpu * machine (C:=C) (R:=R)) : Prop := ∃ v, acts s v s'.

(** What a system call does to the machine, by the registers alone. *)
Definition call (c : Cpu) (m : machine) : outcome (Z * machine) :=
  syscall_handler rdrand present here ticks sleep_fuel (rax c) (rdi c) (rsi c) (rdx c) (r10 c) (r8 c) (r9 c) m.

Lemma gate_0x80 : IDT !! 0x80 = Some (mkEntry Interrupts.int80_entry None true).
Proof. reflexivity. Qed.


(** The stub hands the handler the registers, and leaves the frame. *)
Lemma int80_entry_call c stack m :
  Syscall.int80_entry rdrand present here ticks sleep_fuel (with_rsp (rsp0 - trap_frame) c) stack m =
    ('(ret, m) ← call c m; Ret (ret, rsp0 - trap_frame, m)).
Proof. by rewrite int80_passes_registers. Qed.

(** A step over [Int 0x80] is a system call. *)
Lemma step_int_inv c n m s' :
  step (mkUser c n m) s' → code !! n = Some (Int 0x80) →
  ∃ ret, call c m = Ret (ret, sys s') ∧ rip s' = S n ∧ cpu_ok (cpu s') ∧ rax (cpu s') = ret.
Proof.
  intros Hs Hc. inversion Hs; subst; try congruence. match goal with E : code !! n = Some (Int ?v) |- _ =>
    assert (v = 0x80) as -> by congruence end.
  match goal with E : Syscall.int80_entry _ _ _ _ _ _ _ _ = _ |- _ =>
    rewrite int80_entry_call in E; apply bind_Ret_inv in E as ([r m1] & Hcall & Hret) end.
  injection Hret as -> ->. cbn [sys cpu rip]. eexists. by split_and!.
Qed.

Lemma step_int_intro c n m ret m' c' :
  code !! n = Some (Int 0x80) → call c m = Ret (ret, m') → cpu_ok c' → rax c' = ret → rsp c' = rsp c →
  step (mkUser c n m) (mkUser c' (S n) m').
Proof.
  intros Hc Hcall Hok Hret Hrsp. eapply (step_int _ _ _ _ _ (λ _, 0)); [done|exact gate_0x80|done|done| |done..].
  by rewrite int80_entry_call, Hcall.
Qed.

(** ** What every run does *)

(** After [k] steps, which there are, [P] holds, whatever is chosen in them. *)
Fixpoint must (k : nat) (P : user → Prop) (s : user) : Prop :=
  match k with
  | O => P s
  | S k => (∃ s', step s s') ∧ ∀ s', step s s' → must k P s'
  end.

Lemma must_mono k (P P' : user → Prop) s : (∀ s, P s → P' s) → must k P s → must k P' s.
Proof.
  intros HP. revert s. induction k as [|k IH]; intros s; [apply HP|]. intros [Hex Hall]. split; [done|].
  intros s' Hs. by apply IH, Hall.
Qed.

Lemma must_set k P c n m i r v :
  code !! n = Some i → i = Mov r v ∨ i = Lea r v → must k P (mkUser (set_reg r v c) (S n) m) →
  must (S k) P (mkUser c n m).
Proof.
  intros Hc Hi Hk. split.
  - destruct Hi as [-> | ->]; eexists; [by eapply step_mov|by eapply step_lea].
  - intros s' Hs. destruct Hi as [-> | ->]; inversion Hs; subst; try congruence;
      match goal with E : code !! n = Some _ |- _ => rewrite Hc in E; injection E as <- <- end; done.
Qed.

Lemma must_int k P c n m ret m' :
  code !! n = Some (Int 0x80) → call c m = Ret (ret, m') → 0 ≤ ret < 2 ^ 64 →
  (∀ c', must k P (mkUser c' (S n) m')) → must (S k) P (mkUser c n m).
Proof.
  intros Hc Hcall Hret Hk. split.
  - exists (mkUser (mkCpu ret 0 0 0 0 0 0 (rsp c)) (S n) m'). eapply step_int_intro; [done..| |done|done].
    unfold cpu_ok. cbn. lia.
  - intros s' Hs. destruct (step_int_inv c n m s' Hs Hc) as (ret' & Hcall' & Hrip & _). rewrite Hcall in Hcall'.
    injection Hcall' as _ Hm. destruct s' as [c' n' m1]. cbn in Hrip, Hm. subst. apply Hk.
Qed.

Lemma call_face c m (b : bool) :
  rax c = 6 → rdi c = (if b then 1 else 2) →
  call c m = (m ← with_console m (if b then yay_macro else sad_macro); Ret (0, m)).
Proof. unfold call, syscall_handler, sys_face. intros -> ->. by destruct b. Qed.

Lemma call_print c m a (t : text) :
  rax c = 1 → rdi c = 1 → rsi c = a → rdx c = zlen t → 0 < a → 1 ≤ zlen t ≤ 4096 → Forall is_scalar t →
  pages_at present Reading a (zlen t) → read_bytes (memory m) a (zlen t) = as_bytes t →
  call c m = (m ← with_console m (print [t]); Ret (zlen t, m)).
Proof.
  intros Ha Hd Hs Hx Hpos Hlen Hsc Hp Hr. unfold call, syscall_handler, sys_print, MAX_PRINT. rewrite Ha, Hd, Hs, Hx.
  rewrite utf8_read_present, bind_Ret by (by rewrite Z2Nat.id by lia). rewrite Z2Nat.id, Hr by lia.
  rewrite as_bytes_valid, chars_as_bytes by done.
  by rewrite (proj2 (Z.eqb_neq (zlen t) 0)), (proj2 (Z.ltb_ge 4096 (zlen t))), (proj2 (Z.eqb_neq a 0)) by lia.
Qed.

(** ** Every program *)

Context `{!ConsoleLaws C} (Hhere : ∀ n, Forall char_ok (here n)).
Context (Hrand : ∀ r v r', rdrand r = (Some v, r') → 0 ≤ v < 2 ^ 64).





(** The program of init.asm is one of them. *)
Lemma step_acts s s' : cpu_ok (cpu s) → step s s' → does (cpu s, sys s) (cpu s', sys s').
Proof.
  intros Hc Hs. destruct Hs as [c n m r v _|c n m r a _|c n m t _|c n m v e stack ret sp m' c' _ Hi H3 Hf Hcall Hsp Hc' Hret Hrsp]; cbn [cpu sys] in *.
  1-3: exists None; destruct m; by apply acts_compute; [apply set_reg_ok || exact Hc|].
  exists (Some v). exact (acts_int c m v e stack ret sp m' c' Hi H3 Hf Hcall Hsp Hc' Hret Hrsp).
Qed.







(** ** Properties *)

(** What the init program is to show. *)
Definition init_shows (c : C) : outcome C :=
  c ← yay_macro c; c ← print [space] c; c ← sad_macro c; print [msg] c.

Lemma texts_scalar : Forall is_scalar msg ∧ Forall is_scalar space.
Proof. split; by apply ascii_scalar. Qed.

Lemma init_shows_ok c : console_ok c → returns (init_shows c) console_ok.
Proof.
  intros Hc. destruct texts_scalar as [Hm Hs]. unfold init_shows.
  eapply returns_bind; [by apply yay_macro_ok|]. intros c1 H1.
  eapply returns_bind; [apply print_ok; [done|]; repeat constructor; done|]. intros c2 H2.
  eapply returns_bind; [by apply sad_macro_ok|]. intros c3 H3.
  apply print_ok; [done|]. constructor; [by apply scalar_ok|constructor].
Qed.
End user.

Section init.
Context {C : Type} `{ConsoleLaws C} {R : Type} (rdrand : R → option Z * R) (present : access → Z → bool).
Context (here : Z → text) (ticks : nat → Z) (sleep_fuel : nat) (rsp0 : Z).

(** The init program does what its source says: from any registers, and
    whatever the system calls leave in the registers they need not keep, after
    its sixteen instructions it has shown the smiling face, a space, the sad face
    and its message, in this order, has changed no memory, and stands at a jump
    to itself, from which it does not move. *)
Theorem init_program_shows (c0 : Cpu) (m : machine (C:=C) (R:=R)) (msg_at space_at : Z) :
  console_ok (console m) → 0 < msg_at < 2 ^ 64 → 0 < space_at < 2 ^ 64 →
  pages_at present Reading msg_at len → pages_at present Reading space_at 1 →
  read_bytes (memory m) msg_at len = as_bytes msg → read_bytes (memory m) space_at 1 = as_bytes space →
  let code := init_program msg_at space_at in
  let step := step rdrand present here ticks sleep_fuel rsp0 code in
  returns (init_shows (console m)) (λ shown,
    must rdrand present here ticks sleep_fuel rsp0 code 16 (λ s,
      sys s = mkMachine shown (memory m) (entropy m) ∧ ∀ s', step s s' ↔ s' = s) (mkUser c0 0 m)).
Proof.
  intros Hc Hma Hsa Hpm Hps Hmsg Hsp code stp. destruct (init_shows_ok (console m) Hc) as (shown & Hsh & _).
  exists shown. split; [exact Hsh|]. unfold init_shows in Hsh. destruct texts_scalar as [Hms Hss].
  apply bind_Ret_inv in Hsh as (c1 & E1 & Hsh). apply bind_Ret_inv in Hsh as (c2 & E2 & Hsh).
  apply bind_Ret_inv in Hsh as (c3 & E3 & E4).
  assert (Hw : ∀ v, 0 ≤ v < 2 ^ 64 → wrap 64 v = v) by (intros; by apply Z.mod_small).
  do 2 (eapply must_set; [reflexivity|by left|]).
  eapply must_int with (ret := 0); [reflexivity| |lia|intros d1].
  { rewrite (call_face _ _ _ _ _ _ _ true) by done. unfold with_console. rewrite E1. reflexivity. }
  do 2 (eapply must_set; [reflexivity|by left|]). eapply must_set; [reflexivity|by right|].
  eapply must_set; [reflexivity|by left|].
  eapply must_int with (ret := zlen space); [reflexivity| |done|intros d2].
  { rewrite (call_print _ _ _ _ _ _ _ space_at space); [|reflexivity|reflexivity|by cbn; apply Hw; lia|reflexivity|lia|done|done|done|done].
    unfold with_console. cbn [console]. rewrite E2. reflexivity. }
  do 2 (eapply must_set; [reflexivity|by left|]).
  eapply must_int with (ret := 0); [reflexivity| |lia|intros d3].
  { rewrite (call_face _ _ _ _ _ _ _ false) by done. unfold with_console. cbn [console]. rewrite E3. reflexivity. }
  do 2 (eapply must_set; [reflexivity|by left|]). eapply must_set; [reflexivity|by right|].
  eapply must_set; [reflexivity|by left|].
  eapply must_int with (ret := zlen msg); [reflexivity| |done|intros d4].
  { rewrite (call_print _ _ _ _ _ _ _ msg_at msg); [|reflexivity|reflexivity|by cbn; apply Hw; lia|reflexivity|lia|done|done|done|done].
    unfold with_console. cbn [console]. rewrite E4. reflexivity. }
  cbn [must sys]. split; [done|]. intros s'. split.
  - intros Hs. inversion Hs; subst; try discriminate. by simplify_eq/=.
  - intros ->. by apply step_jmp.
Qed.
End init.

Section programs.
Context {C : Type} `{ConsoleLaws C} {R : Type} (rdrand : R → option Z * R) (present : access → Z → bool).
Context (here : Z → text) (ticks : nat → Z) (sleep_fuel : nat) (rsp0 : Z).


End programs.

(** ** Samples *)

#[local] Existing Instances log_Console log_ConsoleLaws.


Definition sample_user_machine : machine (C:=Log) (R:=unit) :=
  mkMachine (mkLog [] [] []) (write_bytes (write_bytes (λ _, 0) 0x402000 (as_bytes msg)) 0x402030 (as_bytes space)) ().

Lemma init_program_shows_witness :
  must sample_rdrand (λ _ _, true) (λ _, []) (λ _, 0) 1 0x8000 (init_program 0x402000 0x402030) 16
    (λ s, log_tty (console (sys s)) = [space; msg] ∧ log_faces (console (sys s)) = [true; false])
    (mkUser (mkCpu 1 2 3 4 5 6 7 8) 0 sample_user_machine).
Proof.
  destruct (init_program_shows sample_rdrand (λ _ _, true) (λ _, []) (λ _, 0) 1 0x8000 (mkCpu 1 2 3 4 5 6 7 8) sample_user_machine
    0x402000 0x402030) as (shown & Hs & Hm); [done|lia|lia|done|done|vm_compute; reflexivity|vm_compute; reflexivity|].
  vm_compute in Hs. injection Hs as <-. revert Hm. apply must_mono. by intros s [-> _].
Defined.


(** The pointer of inttostr is not looked at: five instructions put digits of
    the program's choice at any address the kernel itself can write, its own
    stacks, heap and tables included. *)
Theorem ring3_writes_anywhere {C : Type} `{Console C} {R : Type} (rdrand : R → option Z * R) (present : access → Z → bool)
    (here : Z → text) (ticks : nat → Z) (sleep_fuel : nat) (rsp0 p n : Z) (c : Cpu) (m : machine (C:=C) (R:=R)) :
  0 < p < 2 ^ 64 → 0 ≤ n < 2 ^ 64 → pages_at present Writing p (zlen (decimal n)) →
  must rdrand present here ticks sleep_fuel rsp0 [Mov RAX 5; Mov RDI p; Mov RSI 20; Mov RDX n; Int 0x80] 5
    (λ s, read_bytes (memory (sys s)) p (zlen (decimal n)) = decimal n) (mkUser c 0 m).
Proof.
  intros Hp Hn Hpg. destruct (decimal_spec n Hn) as (_ & Hl & Hne & Hf).
  assert (Hw : ∀ v, 0 ≤ v < 2 ^ 64 → wrap 64 v = v) by (intros; by apply Z.mod_small).
  assert (Hd : 0 < zlen (decimal n)) by (unfold zlen; destruct (decimal n); [done|cbn; lia]).
  do 4 (eapply must_set; [reflexivity|by left|]).
  eapply must_int; [reflexivity| | |intros c'].
  - unfold call, syscall_handler. cbn [rax rdi rsi rdx set_reg]. rewrite !Hw by lia. cbn [Z.eqb Pos.eqb].
    unfold sys_inttostr. rewrite digits_as_bytes, Z.min_l, (proj2 (Z.eqb_neq _ 0)), slice_ok, bind_Ret, touch_present, bind_Ret by (done || lia).
    reflexivity.
  - lia.
  - cbn [must sys memory]. rewrite sub_list_full. apply read_write_bytes.
Qed.

Lemma ring3_writes_anywhere_witness :
  must sample_rdrand (λ _ _, true) (λ _, []) (λ _, 0) 1 0x8000
    [Mov RAX 5; Mov RDI 0xffff900000000000; Mov RSI 20; Mov RDX 77; Int 0x80] 5
    (λ s, read_bytes (memory (sys s)) 0xffff900000000000 2 = [0x37; 0x37])
    (mkUser (mkCpu 1 2 3 4 5 6 7 8) 0 sample_user_machine).
Proof. by apply (ring3_writes_anywhere sample_rdrand (λ _ _, true) (λ _, []) (λ _, 0) 1 0x8000 0xffff900000000000 77). Defined.
