(* ===== verification/Preempt.v ===== *)
(** * Programs under the interrupts of devices (kernel/src/interrupts.rs, kernel/src/syscall.rs)

    [jump_to_usermode] enters a program with interrupts enabled, and the gate
    of a system call disables them until its [iretq]: so a device may
    interrupt between any two instructions of a program, a system call being
    one.  The transition system here is that interleaving, over the program of
    [User], the statics of [Interrupts] and the hardware; its runs are
    simulated by the runs of the program alone. *)

From Stdlib Require Import String.
From S2P Require Import Ustar Prelude Hardware Arch Sync Keyboard Apic Rtl8139 Text Console Interrupts Syscall User.
Open Scope Z_scope.
Open Scope rust_scope.

(** ** What happens, and when *)

(** An instruction of the program; or the processor takes vector [v], with
    [sc] in the keyboard controller's output buffer. *)
Inductive event : Type := Instruction | Device (v sc : Z).

#[export] Instance event_eq_dec : EqDecision event.
Proof. solve_decision. Defined.

(** The instructions, the ticks of the timer and the scancodes of a run. *)
Definition instructions (es : list event) : nat := length (filter (λ e, e = Instruction) es).
Definition is_tick (e : event) : bool := match e with Device v _ => v =? 48 | Instruction => false end.
Definition ticks_of (es : list event) : Z := zlen (filter (λ e, is_tick e = true) es).
Definition scancode_of (e : event) : option Z :=
  match e with Device v sc => if v =? 51 then Some sc else None | Instruction => None end.
Definition scancodes_of (es : list event) : list Z := omap scancode_of es.

Section preempt.
Context {C : Type} `{ConsoleLaws C} {R : Type} (rdrand : R → option Z * R) (present : access → Z → bool).
Context (here : Z → text) (sleep_fuel : nat) (rsp0 : Z) (code : list instr).
Context {Q W : Type} `{ArrayQueueLaws Q Z} `{AtomicWakerLaws W Z} {HW : Type} `{Hardware HW}.
Context (rx_base : Z) (rx_fuel : nat).

Record state : Type := mkState { prog : user (C:=C) (R:=R); kern : kernel Q W; hw : HW }.

(** While an instruction runs, a system call included, the tick counter stands.
    The handler of an interrupt gives the program all its registers back. *)
Inductive step : event → state → state → Prop :=
| step_instruction u u' k h :
    User.step rdrand present here (λ _, TICK_COUNT k) sleep_fuel rsp0 code u u' →
    step Instruction (mkState u k h) (mkState u' k h)
| step_device v m u k h k' h' :
    32 ≤ v < 256 → dispatch rx_base rx_fuel v k = Some m → m h = Ret (k', h') →
    step (Device v (port_in 1 0x60 h).1) (mkState u k h) (mkState u k' h').


Inductive run : list event → state → state → Prop :=
| run_nil s : run [] s s
| run_cons e es s s1 s2 : step e s s1 → run es s1 s2 → run (e :: es) s s2.

(** The kernel a program is entered in: the local APIC is known; there is no
    network card, the scancode queue exists, and no task waits on it. *)
Definition lapic_known (k : kernel Q W) : Prop := ∃ l, LAPIC k = Some l ∧ 0 ≤ lapic_address l ≤ 2 ^ 64 - 0x400.
Definition quiet (k : kernel Q W) : Prop :=
  RTL8139 k = None ∧ 0 ≤ TICK_COUNT k < 2 ^ 64 ∧
  (∃ q, SCANCODE_QUEUE (keyboard k) = Some q ∧ zlen (aq_items q) ≤ aq_capacity q) ∧ aw_slot (WAKER (keyboard k)) = None.
Definition kern_ok (k : kernel Q W) : Prop := lapic_known k ∧ quiet k.

(** The scancodes that wait, and how many can. *)
Definition waiting (k : kernel Q W) : list Z := from_option aq_items [] (SCANCODE_QUEUE (keyboard k)).
Definition room (k : kernel Q W) : nat := Z.to_nat (from_option aq_capacity 0 (SCANCODE_QUEUE (keyboard k))).

(** ** The simulation *)

(** No tick passes in a call: a sleep returns at once or not at all. *)
Lemma sleep_in_gate fuel t t' ms n :
  0 ≤ t < 2 ^ 64 → 0 ≤ t' < 2 ^ 64 → 0 ≤ ms < 2 ^ 64 → sleep_ms fuel (λ _, t) ms = Ret n → sleep_ms fuel (λ _, t') ms = Ret n.
Proof.
  intros Ht Ht' Hms. destruct (decide (ms = 0)) as [->|Hne].
  - unfold sleep_ms. rewrite !(checked_ok 64 (_ + 0)), !bind_Ret by (unfold in_width; lia). destruct fuel; [done|]. cbn [sleep_loop].
    by rewrite !(proj2 (Z.leb_le _ _)) by lia.
  - unfold sleep_ms. intros (goal & Hg & Hl)%bind_Ret_inv. apply checked_inv in Hg as (-> & _).
    by rewrite sleep_loop_stuck in Hl by (intros; lia).
Qed.

Lemma call_ticks t t' c (m : machine (C:=C) (R:=R)) x :
  0 ≤ t < 2 ^ 64 → 0 ≤ t' < 2 ^ 64 → 0 ≤ rdi c < 2 ^ 64 →
  call rdrand present here (λ _, t) sleep_fuel c m = Ret x → call rdrand present here (λ _, t') sleep_fuel c m = Ret x.
Proof.
  intros Ht Ht' Hd. unfold call, syscall_handler. repeat (destruct (rax c =? _); [try done|]); [|done].
  intros (n & Hs & Hr)%bind_Ret_inv. by rewrite (sleep_in_gate _ _ _ _ _ Ht Ht' Hd Hs).
Qed.

Lemma step_ticks t t' (u u' : user (C:=C) (R:=R)) :
  0 ≤ t < 2 ^ 64 → 0 ≤ t' < 2 ^ 64 → cpu_ok (cpu u) →
  User.step rdrand present here (λ _, t) sleep_fuel rsp0 code u u' → User.step rdrand present here (λ _, t') sleep_fuel rsp0 code u u'.
Proof.
  intros Ht Ht' Hok Hs. destruct Hs as [| | |c n m v e stack ret sp m' c' Hc Hi Hr3 Hfn Hcall Hsp Hc' Hret Hrsp];
    [by apply step_mov|by apply step_lea|by apply step_jmp|].
  refine (User.step_int _ _ _ _ _ _ _ c n m v e stack ret sp m' c' Hc Hi Hr3 Hfn _ Hsp Hc' Hret Hrsp).
  rewrite int80_entry_call in Hcall. rewrite int80_entry_call. apply bind_Ret_inv in Hcall as (x & Hcall & Hx).
  by rewrite (call_ticks t t' c m x Ht Ht' (proj1 (proj2 Hok)) Hcall).
Qed.

Lemma step_cpu_ok ticks (u u' : user (C:=C) (R:=R)) :
  cpu_ok (cpu u) → User.step rdrand present here ticks sleep_fuel rsp0 code u u' → cpu_ok (cpu u').
Proof. intros Hok Hs. destruct Hs; cbn [cpu] in *; [by apply set_reg_ok..|done|done]. Qed.

(** A key: taken when there is room. *)
Lemma add_scancode_take s q sc s' :
  SCANCODE_QUEUE s = Some q → zlen (aq_items q) ≤ aq_capacity q → add_scancode s sc = Ret s' → aw_slot (WAKER s) = None →
  ∃ q', SCANCODE_QUEUE s' = Some q' ∧ aq_capacity q' = aq_capacity q ∧ zlen (aq_items q') ≤ aq_capacity q' ∧
    aq_items q' = take (Z.to_nat (aq_capacity q)) (aq_items q ++ [sc]) ∧ aw_slot (WAKER s') = None.
Proof.
  intros Hq Hle Hadd Hslot. destruct (add_scancode_spec s q sc s' Hq Hadd) as [(_ & -> & Hfull)|(q' & Hp & Hq' & Hi & Hc & Hw & _)].
  - exists q. split_and!; [done..| |done]. rewrite take_app_le, take_ge by (unfold zlen in *; lia). done.
  - assert (Hroom : zlen (aq_items q) < aq_capacity q).
    { destruct (decide (zlen (aq_items q) < aq_capacity q)); [done|]. by rewrite aq_push_full in Hp by lia. }
    exists q'. split_and!; [done|done| | |done].
    + rewrite Hi, Hc, zlen_app. unfold zlen at 2. cbn [length]. lia.
    + rewrite Hi, take_ge; [done|]. rewrite length_app. cbn [length]. unfold zlen in Hroom. lia.
Qed.


(** One interrupt. *)
Lemma device_effect v m (k k' : kernel Q W) (h h' : HW) :
  kern_ok k → 32 ≤ v < 256 → dispatch rx_base rx_fuel v k = Some m → m h = Ret (k', h') →
  kern_ok k' ∧ TICK_COUNT k' = TICK_COUNT k + (if v =? 48 then 1 else 0) ∧ room k' = room k ∧
  waiting k' = take (room k) (waiting k ++ (if v =? 51 then [(port_in 1 0x60 h).1] else [])).
Proof.
  intros ((l & Hl & Hla) & Hnet & Ht & (q & Hq & Hle) & Hslot) Hv Hd Hm.
  assert (H80 : v ≠ 0x80) by (intros ->; vm_compute in Hd; discriminate).
  assert (Htick : v = 48 → 0 ≤ TICK_COUNT k < 2 ^ 64 - 1).
  { intros ->. destruct (decide (TICK_COUNT k = 2 ^ 64 - 1)) as [E|E]; [|lia].
    destruct (dispatch_last_tick rx_base rx_fuel k E) as (m1 & Hd1 & Hm1). rewrite Hd in Hd1. injection Hd1 as <-.
    by rewrite Hm1 in Hm. }
  destruct (dispatch_exact rx_base rx_fuel v k l h Hv H80 (λ _, Hnet) Hl Hla Htick) as (m1 & Hd1 & Hm1).
  rewrite Hd in Hd1. injection Hd1 as <-. rewrite Hm in Hm1. clear Hd Hm m.
  unfold waiting, room. destruct (Z.eqb_spec v 51) as [->|H51].
  - destruct (port_in 1 0x60 h) as [sc h1]. destruct (add_scancode (keyboard k) sc) as [s| |] eqn:Hadd; [|done..].
    injection Hm1 as -> _. destruct (add_scancode_take _ q sc s Hq Hle Hadd Hslot) as (q' & Hq' & Hc & Hle' & Hi & Hw').
    cbn [TICK_COUNT keyboard Z.eqb Pos.eqb fst]. rewrite Hq, Hq'. cbn [from_option]. rewrite Hc. split; [|split; [lia|by split]].
    split; [by exists l|]. split_and!; cbn; [done|lia|lia|by exists q'|done].
  - injection Hm1 as -> _. cbn [TICK_COUNT keyboard]. rewrite Hq. cbn [from_option]. rewrite app_nil_r.
    split; [|split; [|split]].
    + split; [by exists l|]. split_and!; cbn; [done|destruct (Z.eqb_spec v 48) as [Hv48|]; [specialize (Htick Hv48)|]; lia
      |destruct (Z.eqb_spec v 48) as [Hv48|]; [specialize (Htick Hv48)|]; lia|by exists q|done].
    + destruct (v =? 48); lia.
    + done.
    + rewrite take_ge; [done|unfold zlen in Hle; lia].
Qed.


(** One step, on the program and on the kernel. *)
Lemma step_effect e s s1 :
  cpu_ok (cpu (prog s)) → kern_ok (kern s) → step e s s1 →
  let plain := User.step rdrand present here (λ _, 0) sleep_fuel rsp0 code in
  (cpu_ok (cpu (prog s1)) ∧ kern_ok (kern s1)) ∧ nsteps plain (instructions [e]) (prog s) (prog s1) ∧
  TICK_COUNT (kern s1) = TICK_COUNT (kern s) + ticks_of [e] ∧ room (kern s1) = room (kern s) ∧
  waiting (kern s1) = take (room (kern s)) (waiting (kern s) ++ scancodes_of [e]).
Proof.
  intros Hc Hk Hs plain. destruct Hs as [u u' k h Hs|v m u k h k' h' Hv Hd Hm]; cbn [prog kern] in *.
  - pose proof Hk as (_ & _ & Ht & (q & Hq & Hle) & _). split_and!.
    + by eapply step_cpu_ok.
    + done.
    + eapply nsteps_once, (step_ticks (TICK_COUNT k) 0); [exact Ht|lia|exact Hc|exact Hs].
    + change (ticks_of [Instruction]) with 0. lia.
    + done.
    + unfold waiting, room. rewrite Hq. cbn. rewrite app_nil_r, take_ge; [done|unfold zlen in Hle; lia].
  - destruct (device_effect v m k k' h h' Hk Hv Hd Hm) as (Hk' & Ht & Hr & Hw). split_and!; [done|done| | |done|].
    + apply nsteps_O.
    + rewrite Ht. unfold ticks_of. rewrite filter_cons. cbn [is_tick]. by destruct (v =? 48).
    + rewrite Hw. unfold scancodes_of. cbn. by destruct (v =? 51).
Qed.

Lemma events_cons e es :
  instructions (e :: es) = (instructions [e] + instructions es)%nat ∧ ticks_of (e :: es) = ticks_of [e] + ticks_of es ∧
  scancodes_of (e :: es) = scancodes_of [e] ++ scancodes_of es.
Proof.
  unfold instructions, ticks_of, scancodes_of, zlen. change (e :: es) with ([e] ++ es).
  by rewrite !filter_app, !length_app, Nat2Z.inj_add, omap_app.
Qed.

Lemma take_take_app {A} n (l k : list A) : take n (take n l ++ k) = take n (l ++ k).
Proof.
  destruct (decide (n ≤ length l)%nat) as [Hn|Hn].
  - rewrite !take_app_le by (rewrite ?length_take; lia). by rewrite take_take, Nat.min_id.
  - by rewrite (take_ge l) by lia.
Qed.

(** A run with interrupts and the run without them that it simulates. *)
Lemma run_effect es s s' :
  cpu_ok (cpu (prog s)) → kern_ok (kern s) → run es s s' →
  let plain := User.step rdrand present here (λ _, 0) sleep_fuel rsp0 code in
  (cpu_ok (cpu (prog s')) ∧ kern_ok (kern s')) ∧ nsteps plain (instructions es) (prog s) (prog s') ∧
  TICK_COUNT (kern s') = TICK_COUNT (kern s) + ticks_of es ∧ room (kern s') = room (kern s) ∧
  waiting (kern s') = take (room (kern s)) (waiting (kern s) ++ scancodes_of es).
Proof.
  intros Hc Hk Hr plain. induction Hr as [s|e es s s1 s2 Hs _ IH].
  - pose proof Hk as (_ & _ & _ & (q & Hq & Hle) & _). split_and!; [done|done|apply nsteps_O|change (ticks_of []) with 0; lia|done|].
    unfold waiting, room. rewrite Hq. cbn. rewrite app_nil_r, take_ge; [done|unfold zlen in Hle; lia].
  - destruct (step_effect e s s1 Hc Hk Hs) as ((Hc1 & Hk1) & Hn1 & Ht1 & Hr1 & Hw1).
    destruct (IH Hc1 Hk1) as (Hok & Hn & Ht & Hrm & Hw). destruct (events_cons e es) as (-> & -> & ->).
    split; [exact Hok|]. split_and!.
    + by eapply nsteps_trans.
    + lia.
    + congruence.
    + by rewrite Hw, Hr1, Hw1, take_take_app, <- app_assoc.
Qed.

(** ** Properties *)


(** What a program is sure to reach and not to leave, it reaches under interrupts. *)
Lemma must_nsteps k (P : user → Prop) (u u' : user (C:=C) (R:=R)) ticks :
  must rdrand present here ticks sleep_fuel rsp0 code k P u →
  nsteps (User.step rdrand present here ticks sleep_fuel rsp0 code) k u u' → P u'.
Proof.
  revert u. induction k as [|k IH]; intros u Hm Hn; inversion Hn; subst; [exact Hm|]. destruct Hm as [_ Hall].
  eapply IH; [by apply Hall|done].
Qed.

Lemma must_undisturbed k (P : user → Prop) es s s' :
  cpu_ok (cpu (prog s)) → kern_ok (kern s) →
  must rdrand present here (λ _, 0) sleep_fuel rsp0 code k P (prog s) →
  (∀ u u', P u → User.step rdrand present here (λ _, 0) sleep_fuel rsp0 code u u' → P u') →
  run es s s' → (k ≤ instructions es)%nat → P (prog s').
Proof.
  intros Hc Hk Hm Hst Hr Hle. destruct (run_effect es s s' Hc Hk Hr) as (_ & Hn & _).
  replace (instructions es) with (k + (instructions es - k))%nat in Hn by lia.
  apply nsteps_add_inv in Hn as (u & Hn1 & Hn2). pose proof (must_nsteps k P _ u _ Hm Hn1) as HP. clear Hn1.
  revert HP. induction Hn2 as [u|n u u1 u2 Hs _ IH]; intros HP; [done|]. by apply IH, (Hst u).
Qed.
End preempt.

(** ** A sample: two instructions, a tick and a key between them *)

#[local] Existing Instances log_Console log_ConsoleLaws list_ArrayQueue list_ArrayQueueLaws option_AtomicWaker
  option_AtomicWakerLaws sample_card_hw.



