(* ===== verification/Host.v ===== *)
(** * The host programs (src/build.rs, src/src/main.rs)

    The build script packs the kernel into two disk images and tells cargo
    where they are; the runner copies the image and starts the emulator.  The
    host (processes, the environment, the crates bootloader and ovmf_prebuilt)
    is the class [Host]; the [cfg] of the target is an argument.  Paths are
    texts: a path that is not Unicode is outside of the model. *)

From Stdlib Require Import String.
From S2P Require Import Hardware Prelude Text.
Open Scope Z_scope.
Open Scope rust_scope.

(** [target_os]. *)
Inductive target_os : Type := linux | macos | windows | other_os.

#[export] Instance target_os_eq_dec : EqDecision target_os.
Proof. solve_decision. Defined.

Inductive firmware : Type := UefiBoot | BiosBoot.

(** [std::process::Command]. *)
Record Command : Type := mkCommand { program : text; args : list text }.
Definition command_new (p : text) : Command := mkCommand p [].
Definition arg (a : text) (c : Command) : Command := mkCommand (program c) (args c ++ [a]).

(** A child is what [spawn] names it. *)
Class Host (H : Type) := {
  var_os : text → H → option text;
  create_disk_image : firmware → text → text → H → bool * H;   (* kernel, image *)
  spawn : Command → H → option Z * H;
  wait : Z → H → option Z * H;                                 (* the exit status *)
  stdout : text → H → H;                                       (* a line *)
  ovmf_pure_efi : text;
}.

Section host.
Context {H : Type} `{Host H} (os : target_os).

Definition separator : text := if decide (os = windows) then txt "\" else txt "/".

(** [PathBuf::join] of a file name to a directory. *)
Definition join (dir file : text) : text :=
  match last dir with
  | None => file
  | Some c => if bool_decide ([c] = separator) || bool_decide ([c] = txt "/") then dir ++ file else dir ++ separator ++ file
  end.

Definition host_println (t : text) : io H unit := λ h, Ret ((), stdout t h).
Definition env_var (name : text) : io H text := λ h, v ← unwrap (var_os name h); Ret (v, h).

Definition disk_image (f : firmware) (kernel image : text) : io H unit := λ h,
  let '(ok, h) := create_disk_image f kernel image h in
  if ok : bool then Ret ((), h) else Panic UnwrapFailed.

(** build.rs. *)
Definition build : io H unit :=
  od ← env_var (txt "OUT_DIR");
  kernel ← env_var (txt "CARGO_BIN_FILE_KERNEL_kernel");
  let uefi_path := join od (txt "uefi.img") in
  let bios_path := join od (txt "bios.img") in
  _ ← disk_image UefiBoot kernel uefi_path;
  _ ← disk_image BiosBoot kernel bios_path;
  _ ← host_println (txt "cargo:rustc-env=UEFI_PATH=" ++ uefi_path);
  host_println (txt "cargo:rustc-env=BIOS_PATH=" ++ bios_path).

(** [cmd.spawn().unwrap()], then [child.wait().unwrap()]: the status is dropped. *)
Definition spawn_and_wait (c : Command) : io H unit := λ h,
  let '(child, h) := spawn c h in
  child ← unwrap child;
  let '(status, h) := wait child h in
  _ ← unwrap status; Ret ((), h).

Definition copy_command (uefi : bool) (up bp : text) : Command :=
  let copy := if decide (os = windows) then command_new (txt "copy") else command_new (txt "cp") in
  if uefi then
    if decide (os = windows) then arg (txt ".\target\uefi.img") (arg up copy)
    else arg (txt "./target/uefi.img") (arg up copy)
  else
    if decide (os = windows) then arg (txt ".\target\bios.img") (arg bp copy)
    else arg (txt "./target/bios.img") (arg bp copy).

Definition emulator_command (uefi : bool) (up bp : text) : Command :=
  let cmd := command_new (txt "qemu-system-x86_64") in
  let cmd :=
    if uefi then
      let cmd := arg ovmf_pure_efi (arg (txt "-bios") cmd) in
      arg (txt "format=raw,file=" ++ up) (arg (txt "-drive") cmd)
    else arg (txt "format=raw,file=" ++ bp) (arg (txt "-drive") cmd) in
  let cmd :=
    match os with
    | linux => arg (txt "kvm") (arg (txt "-accel") cmd)
    | macos => arg (txt "hvf") (arg (txt "-accel") cmd)
    | windows => arg (txt "whpx") (arg (txt "-accel") cmd)
    | other_os => cmd
    end in
  let cmd := arg (txt "4G") (arg (txt "-m") cmd) in
  let cmd := arg (txt "stdio") (arg (txt "-serial") cmd) in
  let cmd := arg (txt "vmware-svga") (arg (txt "-device") cmd) in
  let cmd := arg (txt "q35") (arg (txt "-machine") cmd) in
  let cmd := arg (txt "nic,model=rtl8139") (arg (txt "-net") cmd) in
  let cmd := arg (txt "user") (arg (txt "-net") cmd) in
  arg (txt "host") (arg (txt "-cpu") cmd).

(** main.rs, with the paths that [env!] had when it was compiled. *)
Definition main (up bp : text) : io H unit :=
  _ ← host_println (txt "UEFI Path: " ++ up ++ NL ++ txt "BIOS Path: " ++ bp);
  let uefi := true in
  _ ← spawn_and_wait (copy_command uefi up bp);
  spawn_and_wait (emulator_command uefi up bp).
End host.
Arguments Host : clear implicits.

(** ** Cargo *)

(** The environment in which cargo compiles the runner, given what the build
    script printed. *)
Class Cargo := { rustc_env : list text → text → option text }.
Class CargoLaws `{Cargo} : Prop := {
  rustc_env_line (out : list text) k v :
    txt "cargo:rustc-env=" ++ k ++ txt "=" ++ v ∈ out → ¬ 61 ∈ k → ¬ 10 ∈ v →
    (∀ v', txt "cargo:rustc-env=" ++ k ++ txt "=" ++ v' ∈ out → v' = v) → rustc_env out k = Some v;
}.

(** ** A host that records what it is asked for *)

Inductive asked : Type :=
| Image (f : firmware) (kernel image : text) | Spawned (c : Command) | Waited (child : Z) | Printed (line : text).

(** [fail]: what is refused.  The environment, the requests so far. *)
Record record : Type := mkRecord { environment : gmap (list Z) (list Z); requests : list asked }.

Section recorder.
Context (fail : asked → bool) (efi : text).

Definition request (a : asked) (r : record) : record := mkRecord (environment r) (requests r ++ [a]).

Instance record_Host : Host record := {|
  var_os name r := environment r !! name;
  create_disk_image f k i r := (negb (fail (Image f k i)), request (Image f k i) r);
  spawn c r := (if fail (Spawned c) then None else Some (zlen (requests r)), request (Spawned c) r);
  wait n r := (if fail (Waited n) then None else Some 0, request (Waited n) r);
  stdout t r := request (Printed t) r;
  ovmf_pure_efi := efi;
|}.

(** The images the script makes, in order, the paths it prints. *)
Lemma build_record os r od kernel :
  environment r !! txt "OUT_DIR" = Some od → environment r !! txt "CARGO_BIN_FILE_KERNEL_kernel" = Some kernel →
  (∀ f k i, fail (Image f k i) = false) →
  let up := join os od (txt "uefi.img") in
  let bp := join os od (txt "bios.img") in
  build os r = Ret ((), mkRecord (environment r) (requests r ++
    [Image UefiBoot kernel up; Image BiosBoot kernel bp; Printed (txt "cargo:rustc-env=UEFI_PATH=" ++ up);
     Printed (txt "cargo:rustc-env=BIOS_PATH=" ++ bp)])).
Proof.
  intros Hod Hk Hf up bp. unfold build, env_var, disk_image, host_println, mbind, io_bind. cbn [var_os record_Host].
  rewrite Hod. cbn [unwrap]. rewrite bind_Ret. rewrite Hk. cbn [unwrap]. rewrite bind_Ret.
  cbn [create_disk_image record_Host]. rewrite Hf. cbn [negb]. rewrite Hf. cbn [negb].
  cbn [stdout record_Host]. unfold request. cbn [environment requests]. by rewrite <- !app_assoc.
Qed.

(** The processes the runner starts; it goes no further than the first that
    cannot be started or waited for. *)
Lemma main_record os up bp r :
  (∀ a, fail a = false) →
  main os up bp r = Ret ((), mkRecord (environment r) (requests r ++
    [Printed (txt "UEFI Path: " ++ up ++ NL ++ txt "BIOS Path: " ++ bp);
     Spawned (copy_command os true up bp); Waited (zlen (requests r) + 1);
     Spawned (emulator_command os true up bp); Waited (zlen (requests r) + 3)])).
Proof.
  intros Hf. unfold main, host_println, spawn_and_wait, mbind, io_bind. cbn [stdout record_Host spawn].
  rewrite Hf. cbn [unwrap]. rewrite bind_Ret. cbn [wait record_Host]. rewrite Hf. cbn [unwrap]. rewrite bind_Ret.
  cbn [spawn wait record_Host]. rewrite Hf. cbn [unwrap]. rewrite bind_Ret. cbn [wait record_Host]. rewrite Hf. cbn [unwrap].
  rewrite bind_Ret. unfold request. cbn [environment requests]. rewrite <- !app_assoc. cbn [app]. by rewrite !zlen_app.
Qed.

Lemma main_no_copy os up bp r :
  fail (Spawned (copy_command os true up bp)) = true → main os up bp r = Panic UnwrapFailed.
Proof.
  intros Hf. unfold main, host_println, spawn_and_wait, mbind, io_bind. cbn [stdout record_Host spawn]. by rewrite Hf.
Qed.
End recorder.

(** An option and its value among the arguments. *)
Fixpoint has_option (k v : text) (args : list text) : Prop :=
  match args with
  | a :: ((b :: _) as args) => (a = k ∧ b = v) ∨ has_option k v args
  | _ => False
  end.

(** ** Properties *)

(** The emulator boots the image that was built. Where nothing is refused, the
    build script makes both images of the kernel, and the runner that cargo
    compiles with what the script printed starts, on every host system, the
    emulator with the UEFI image as its drive, with the network card and the
    serial port that the kernel drives. *)
Theorem emulator_boots_built_image `{CargoLaws} (os : target_os) (r : record) (od kernel efi : text) :
  environment r !! txt "OUT_DIR" = Some od → environment r !! txt "CARGO_BIN_FILE_KERNEL_kernel" = Some kernel →
  requests r = [] → ¬ 10 ∈ od →
  let host := record_Host (λ _, false) efi in
  ∃ r1 up bp, @build _ host os r = Ret ((), r1) ∧
    Image UefiBoot kernel up ∈ requests r1 ∧ Image BiosBoot kernel bp ∈ requests r1 ∧
    let env k := rustc_env (omap (λ a, match a with Printed l => Some l | _ => None end) (requests r1)) k in
    env (txt "UEFI_PATH") = Some up ∧ env (txt "BIOS_PATH") = Some bp ∧
    ∀ r2, ∃ cp qemu r3, @main _ host os up bp r2 = Ret ((), r3) ∧
      omap (λ a, match a with Spawned c => Some c | _ => None end) (requests r3) =
        omap (λ a, match a with Spawned c => Some c | _ => None end) (requests r2) ++ [cp; qemu] ∧
      head (args cp) = Some up ∧ program qemu = txt "qemu-system-x86_64" ∧
      has_option (txt "-drive") (txt "format=raw,file=" ++ up) (args qemu) ∧ has_option (txt "-bios") efi (args qemu) ∧
      has_option (txt "-net") (txt "nic,model=rtl8139") (args qemu) ∧ has_option (txt "-serial") (txt "stdio") (args qemu).
Proof.
  intros Hod Hk Hr Hnl host. eexists _, _, _. split; [by apply build_record|]. rewrite Hr. cbn [requests app].
  assert (Hj : ∀ f, ¬ 10 ∈ txt f → ¬ 10 ∈ join os od (txt f)).
  { intros f Hf. unfold join, separator. destruct (last od); [|done].
    destruct (_ || _); rewrite ?elem_of_app; [by intros [|]|]. intros [|[Hs|]]; [done| |done]. destruct (decide _);
      by apply list_elem_of_singleton in Hs. }
  split; [by left|]. split; [by right; left|]. cbn [omap list_omap].
  assert (Hup : ¬ 10 ∈ join os od (txt "uefi.img")) by (apply Hj, (bool_decide_unpack _); vm_compute; exact I).
  assert (Hbp : ¬ 10 ∈ join os od (txt "bios.img")) by (apply Hj, (bool_decide_unpack _); vm_compute; exact I).
  assert (Henv : ∀ k1 k2 v1 v2, (k1, k2) = (txt "UEFI_PATH", txt "BIOS_PATH") → 
    let line k v := txt "cargo:rustc-env=" ++ k ++ txt "=" ++ v in
    ¬ 10 ∈ v1 → ¬ 10 ∈ v2 →
    rustc_env [line k1 v1; line k2 v2] k1 = Some v1 ∧ rustc_env [line k1 v1; line k2 v2] k2 = Some v2).
  { intros k1 k2 v1 v2 [= -> ->] line Hv1 Hv2. split; apply rustc_env_line; try done.
    - by left.
    - apply (bool_decide_unpack _); vm_compute; exact I.
    - intros v'. rewrite elem_of_cons, list_elem_of_singleton. intros [E|E]; [|discriminate E].
      by repeat apply app_inv_head in E.
    - right. by left.
    - apply (bool_decide_unpack _); vm_compute; exact I.
    - intros v'. rewrite elem_of_cons, list_elem_of_singleton. intros [E|E]; [discriminate E|].
      by repeat apply app_inv_head in E. }
  destruct (Henv _ _ _ _ eq_refl Hup Hbp) as [E1 E2]. split; [exact E1|]. split; [exact E2|]. clear Henv E1 E2.
  intros r2. eexists _, _, _. split; [by apply main_record|]. cbn [requests]. rewrite omap_app.
  split; [reflexivity|]. split_and!; destruct os; try reflexivity;
    cbn; repeat first [left; split; reflexivity|right].
Qed.

(** ** A sample *)

(** The first line that sets the variable. *)
Definition first_env (out : list text) (k : text) : option text :=
  let p := txt "cargo:rustc-env=" ++ k ++ txt "=" in
  head (omap (λ l, if starts_with p l then Some (drop (length p) l) else None) out).

#[local] Instance sample_Cargo : Cargo := {| rustc_env := first_env |}.
#[local] Instance sample_CargoLaws : CargoLaws.
Proof.
  split. intros out k v Hin _ _ Hall. cbn [rustc_env sample_Cargo]. unfold first_env.
  set (p := txt "cargo:rustc-env=" ++ k ++ txt "="). cbv zeta.
  assert (Hp : ∀ v, txt "cargo:rustc-env=" ++ k ++ txt "=" ++ v = p ++ v) by (intros; unfold p; by rewrite <- !app_assoc).
  rewrite Hp in Hin. setoid_rewrite Hp in Hall. clearbody p. clear Hp. induction out as [|l out IH]; [by apply elem_of_nil in Hin|].
  cbn [omap list_omap]. unfold starts_with. case_bool_decide as Hl.
  - cbn [head]. f_equal. apply Hall. rewrite <- Hl at 1. rewrite take_drop. by left.
  - apply IH.
    + apply elem_of_cons in Hin as [Hin|]; [|done]. exfalso. apply Hl. by rewrite <- Hin, take_app_length.
    + intros v' Hv'. apply Hall. by right.
Qed.

Lemma emulator_boots_built_image_witness :
  let r := mkRecord {[ txt "OUT_DIR" := txt "/out"; txt "CARGO_BIN_FILE_KERNEL_kernel" := txt "/k" ]} [] in
  ∃ r1, @build _ (record_Host (λ _, false) (txt "ovmf")) linux r = Ret ((), r1) ∧
    rustc_env (omap (λ a, match a with Printed l => Some l | _ => None end) (requests r1)) (txt "UEFI_PATH") =
      Some (txt "/out/uefi.img").
Proof.
  intros r. destruct (emulator_boots_built_image linux r (txt "/out") (txt "/k") (txt "ovmf")) as (r1 & up & bp & Hb & _ & _ & Hu & _).
  - reflexivity.
  - vm_compute. reflexivity.
  - reflexivity.
  - apply (bool_decide_unpack _). vm_compute. exact I.
  - exists r1. split; [exact Hb|]. etransitivity; [exact Hu|]. vm_compute in Hb. injection Hb as <-. vm_compute in Hu.
    injection Hu as <-. reflexivity.
Defined.
