(* ===== verification/Boot.v ===== *)
(** * The end of the boot (kernel/src/main.rs, [kernel_main] and [init_ramdisk])

    The network devices, the RAM disk, and the choice between the init program
    of the RAM disk and the shell: virtual memory, archive and program loader
    put together.  The steps of [kernel_main] before them are [KernelMain]'s. *)

From Stdlib Require Import String.
From S2P Require Import Text Prelude Arch Hardware FrameAllocator Paging Pci Rtl8139 Ustar Elf.
Open Scope Z_scope.
Open Scope rust_scope.

(** What [Display] writes of a device. *)
Definition fmt_PCIDevice (d : PCIDevice) : text :=
  let hexa n := txt "0x" ++ hex n in
  txt "Vendor ID: " ++ hexa (vendor_id d) ++ txt " | Device ID: " ++ hexa (device_id d) ++
  txt " | Class code: " ++ hexa (class_code d) ++ txt " | Subclass: " ++ hexa (subclass d) ++
  txt " | Bus: " ++ decimal (bus d) ++ txt " | Slot: " ++ decimal (slot d) ++ txt " | Func: " ++ hexa (func d).

(** ** The network devices *)

Section network.
Context {H : Type} `{Hardware H} `{X86} {M : Type} `{Mapper M} (PMO rx_buffer_base : Z).

(** The accesses to device registers with the page tables as they are. *)
Context (mmio : M → Mmio H).

(** The loop over the devices of the bus. The vector it fills is dropped at the
    end of [kernel_main]; the static [RTL8139] keeps its initial [None]. *)
Fixpoint init_network (fuel : nat) (ecam : Z) (devs : list PCIDevice) (mapper : M) :
    io H (list (option Rtl8139) * M) :=
  match devs with
  | [] => ret ([], mapper)
  | dev :: devs =>
      if (vendor_id dev =? PCI_VENDOR_ID) && (device_id dev =? PCI_DEVICE_ID) then
        '(o, mapper) ← Rtl8139.init (MM := mmio mapper) PMO rx_buffer_base fuel ecam dev mapper;
        '(os, mapper) ← init_network fuel ecam devs mapper;
        ret (o :: os, mapper)
      else init_network fuel ecam devs mapper
  end.
End network.

(** ** The init program *)

Definition init_name : list Z := as_bytes (txt "init").

(** What the processor goes on with: a program, or the shell. *)
Inductive started : Type := Program (entry stack_top : Z) | Shell.

Section boot.
Context `{X86} {M : Type} `{Mapper M} {F : Type} `{FrameAllocator F}.
Context (parse : list Z → option Elf).

(** The copy of the image into the mapped pages; [FS] is the copy. *)
Definition load_ramdisk (k : machine M F) (mib : Z) (ramdisk_data : list Z) : outcome (list Z * machine M F) :=
  '(start, m, f) ← init_ramdisk (mapper k) (frames k) mib;
  let mem := write_bytes (memory k) start ramdisk_data in
  Ret (read_bytes mem start (zlen ramdisk_data), mkMachine (statics k) m f mem).

Definition start (k : machine M F) (ramdisk_data : list Z) : outcome (started * machine M F) :=
  '(fs, k) ← load_ramdisk k 50 ramdisk_data;
  o ← read_file fs init_name;
  match o with
  | Some i =>
      '(r, p, k) ← switch parse 10 (process_new (read_all i)) k;
      match r with
      | Jump entry stack_top => Ret (Program entry stack_top, k)
      | Err _ => Panic ExplicitPanic
      end
  | None => Ret (Shell, k)
  end.
End boot.

(** ** The pages of the RAM disk *)

Definition RAMDISK_START : Z := 0x500000000000.
Definition RAMDISK_PAGES : Z := 12801.

Definition ramdisk_pages : list Z := page_range_inclusive RAMDISK_START (RAMDISK_START + 50 * 2 ^ 20).

Lemma zlen_ramdisk_pages : zlen ramdisk_pages = RAMDISK_PAGES.
Proof. unfold zlen, ramdisk_pages, page_range_inclusive. by rewrite length_fmap, length_seqZ. Qed.

Lemma elem_of_ramdisk_pages p :
  p ∈ ramdisk_pages ↔ ∃ i, 0 ≤ i < RAMDISK_PAGES ∧ p = RAMDISK_START + 4096 * i.
Proof.
  unfold ramdisk_pages, page_range_inclusive.
  change ((RAMDISK_START + 50 * 2 ^ 20 - RAMDISK_START) / 4096 + 1) with RAMDISK_PAGES.
  rewrite list_elem_of_fmap. setoid_rewrite elem_of_seqZ. split.
  - intros (i & -> & Hi). exists i. split; [lia|done].
  - intros (i & Hi & ->). exists i. split; [done|lia].
Qed.

Lemma NoDup_ramdisk_pages : NoDup ramdisk_pages.
Proof. unfold ramdisk_pages, page_range_inclusive. apply NoDup_fmap_2; [intros i j; lia|apply NoDup_seqZ]. Qed.

Section laws.
Context `{X86Laws} {M : Type} `{MapperLaws M} {F : Type} `{FrameContract F}.

Lemma init_ramdisk_maps (m : M) (f : F) more :
  0 ≤ more → frames_for f (RAMDISK_PAGES + more) → fresh_range m RAMDISK_START RAMDISK_PAGES →
  ∃ m' f', init_ramdisk m f 50 = Ret (RAMDISK_START, m', f') ∧
    (∀ p, p ∈ ramdisk_pages → ∃ fr, page_map m' !! p = Some (fr, Z.lor WRITABLE PRESENT)) ∧
    (∀ p, p ∉ ramdisk_pages → page_map m' !! p = page_map m !! p) ∧
    frames_for f' more ∧ (∀ q, huge m' q → huge m q).
Proof.
  intros Hm Hf Hfr. unfold init_ramdisk. fold RAMDISK_START.
  assert (Hc : ∀ a, 0 ≤ a < 2 ^ 47 → canonical a) by (intros; by left).
  rewrite virt_new_ok, bind_Ret by (apply Hc; unfold RAMDISK_START; lia). checked_step. checked_step.
  change (50 * 1024 * 1024) with (50 * 2 ^ 20).
  rewrite virt_add_ok, bind_Ret by (first [apply Hc; unfold RAMDISK_START; lia|lia]).
  rewrite !containing_address_aligned by done. fold ramdisk_pages.
  destruct (ramdisk_loop_maps ramdisk_pages m f more) as (m' & f' & Hl & Hin & Hout & Hf' & Hh);
    [exact NoDup_ramdisk_pages|done|by rewrite zlen_ramdisk_pages| |].
  { apply Forall_forall. intros p (i & Hi & ->)%elem_of_ramdisk_pages. by apply Hfr. }
  rewrite Hl, bind_Ret. by exists m', f'.
Qed.

Lemma load_ramdisk_result (k : machine M F) ramdisk_data more :
  0 ≤ more → frames_for (frames k) (RAMDISK_PAGES + more) → fresh_range (mapper k) RAMDISK_START RAMDISK_PAGES →
  ∃ m' f', load_ramdisk k 50 ramdisk_data =
      Ret (ramdisk_data, mkMachine (statics k) m' f' (write_bytes (memory k) RAMDISK_START ramdisk_data)) ∧
    (∀ p, p ∈ ramdisk_pages → ∃ fr, page_map m' !! p = Some (fr, Z.lor WRITABLE PRESENT)) ∧
    (∀ p, p ∉ ramdisk_pages → page_map m' !! p = page_map (mapper k) !! p) ∧
    frames_for f' more ∧ (∀ q, huge m' q → huge (mapper k) q).
Proof.
  intros Hm Hf Hfr. unfold load_ramdisk.
  destruct (init_ramdisk_maps (mapper k) (frames k) more Hm Hf Hfr) as (m' & f' & Hl & Hrest).
  rewrite Hl, bind_Ret, read_write_bytes. by exists m', f'.
Qed.

(** Pages outside of the RAM disk stay free. *)
Lemma fresh_after_ramdisk (k : machine M F) m' base n :
  (∀ p, p ∉ ramdisk_pages → page_map m' !! p = page_map (mapper k) !! p) →
  (∀ q, huge m' q → huge (mapper k) q) → RAMDISK_START + 4096 * RAMDISK_PAGES ≤ base →
  fresh_range (mapper k) base n → fresh_range m' base n.
Proof.
  intros Hout Hh Hb Hfr i Hi. destruct (Hfr i Hi) as [Hn Hnh]. split; [|by intros ?%Hh].
  rewrite Hout; [done|]. intros (j & Hj & ?)%elem_of_ramdisk_pages. lia.
Qed.
End laws.

(** ** Properties *)

(** Booting with an archive that holds a program named [init] enters that
    program: the RAM disk is mapped and holds the archive, the program's
    segments are in user pages as [Elf] lays them out, ten more user pages
    follow, and the processor is given the relocated entry point (and, as the
    stack, the start of those ten pages). *)
Theorem boot_enters_init `{X86Laws} {M : Type} `{MapperLaws M} {F : Type} `{FrameContract F}
    (parse : list Z → option Elf) (k : machine M F) (es : list (list Z * list Z)) (prog : list Z) (elf : Elf) :
  let ls := loads elf in
  let base := NEXT_VIRT_USER (statics k) in
  let n := pages_for (footprint ls) in
  Forall entry_ok es → zlen (archive es) ≤ 50 * 2 ^ 20 →
  head (filter (λ e, e.1 = init_name) es) = Some (init_name, prog) → zlen prog < 2 ^ 63 →
  parse prog = Some elf → Forall (segment_ok prog) ls → separated (extent <$> ls) → 0 < footprint ls →
  0 ≤ elf_entry elf → elf_entry elf + base < 2 ^ 64 →
  RAMDISK_START + 4096 * RAMDISK_PAGES ≤ base → region_ok base (n + 10) →
  frames_for (frames k) (RAMDISK_PAGES + (n + 10)) →
  fresh_range (mapper k) RAMDISK_START RAMDISK_PAGES → fresh_range (mapper k) base (n + 10) →
  returns (start parse k (archive es)) (λ '(s, k'),
    s = Program (elf_entry elf + base) (base + 4096 * n) ∧
    (∀ ph a, ph ∈ ls → in_segment base ph a → memory k' a = image prog base ph a) ∧
    read_bytes (memory k') RAMDISK_START (zlen (archive es)) = archive es ∧
    (∀ i, 0 ≤ i < n + 10 → ∃ fr, page_map (mapper k') !! (base + 4096 * i) = Some (fr, user_flags))).
Proof.
  intros ls base n Hes Hlen Hhead Hpl Hparse Hok Hsep Hfp He0 He Hbase Hreg Hf Hrd Hfr.
  assert (Hn : 0 ≤ n) by (unfold n, pages_for; lia).
  destruct (load_ramdisk_result k (archive es) (n + 10)) as (m' & f' & Hl & _ & Hout & Hf' & Hh); [lia|done|done|].
  unfold start. rewrite Hl, bind_Ret.
  rewrite (read_file_archive es init_name (init_name, prog)) by (done || lia).
  rewrite bind_Ret. change (read_all (entry_file (init_name, prog))) with prog.
  pose proof (fresh_after_ramdisk k m' base (n + 10) Hout Hh Hbase Hfr) as Hfr1.
  destruct (region_ok_split base n 10 Hn ltac:(lia) Hreg) as [Hreg1 Hreg2].
  destruct (fresh_range_split m' base n 10 Hn ltac:(lia) Hfr1) as [Hfr2 Hfr3].
  set (k0 := mkMachine (statics k) m' f' _).
  destruct (init_loads_more parse (process_new prog) k0 elf 10)
    as ([[r p1] k1] & Hinit & -> & Hen & Hst & Hsta & (frs & Hfrs & Hpm) & Him & Hother & Hf1 & Hh1);
    [done|done|done|done|done|done|done|lia|done|done|done|].
  change (NEXT_VIRT_USER (statics k0)) with base in *. fold ls n in Hsta, Hfrs, Him.
  assert (Hsu : NEXT_VIRT_USER (statics k1) = base + 4096 * n) by (by rewrite Hsta).
  destruct (switch_loaded parse (process_new prog) p1 k0 k1 10 (elf_entry elf + base)) as (p' & k' & frs2 & Hsw & Hmem & Hfrs2 & Hpm2);
    [done|done|done|by rewrite Hst|lia|by rewrite Hsu|done| |].
  { rewrite Hsu, <- Hfrs. eapply fresh_range_behind; [exact Hpm|exact Hh1|by rewrite Hfrs]. }
  rewrite Hsw, bind_Ret, Hsu. apply returns_Ret. split_and!; [done| | |].
  - intros ph a Hph Ha. rewrite Hmem. by apply Him.
  - rewrite <- (read_write_bytes (memory k) RAMDISK_START (archive es)) at 2. unfold read_bytes.
    apply list_fmap_ext. intros i a Ha. apply lookup_seqZ in Ha as [-> Hi].
    rewrite Hmem, Hother; [done|]. intros ph Hph Hin. destruct (Him ph _ Hph Hin) as [Hb _].
    unfold RAMDISK_PAGES in Hbase. lia.
  - intros i Hi. rewrite Hpm2, Hsu. destruct (decide (i < n)).
    + rewrite map_pages_below by lia. rewrite Hpm.
      destruct (lookup_lt_is_Some_2 frs (Z.to_nat i)) as [fr Hfri]; [unfold zlen in Hfrs; lia|]. exists fr.
      replace i with (Z.of_nat (Z.to_nat i)) by lia. by apply map_pages_lookup.
    + destruct (lookup_lt_is_Some_2 frs2 (Z.to_nat (i - n))) as [fr Hfri]; [unfold zlen in Hfrs2; lia|]. exists fr.
      replace (base + 4096 * i) with (base + 4096 * n + 4096 * Z.of_nat (Z.to_nat (i - n))) by lia.
      by apply map_pages_lookup.
Qed.

(** ** Sample run: an archive with a note and the sample program *)

#[local] Existing Instances amd64 amd64_laws sample_Mapper sample_MapperLaws sample_FA sample_FC.

Definition big_kernel : machine (gmap Z (Z * Z)) (BootInfoFrameAllocator (MemoryRegionKind:=bool)) :=
  mkMachine statics0 ∅ (FrameAllocator.init (one_region 60000)) (λ _, 0xCC).

Definition sample_archive : list (list Z * list Z) := [([0x61], [1; 2; 3]); (init_name, [9; 1; 2; 3])].

Lemma sample_archive_ok : Forall entry_ok sample_archive.
Proof. repeat (constructor; [split_and!; vm_compute; first [reflexivity|discriminate|repeat constructor; discriminate]|]). constructor. Qed.

Lemma boot_enters_init_witness :
  returns (start (λ _, Some sample_elf) big_kernel (archive sample_archive)) (λ '(s, k'),
    s = Program (0x100 + 0xffffffff90000000) (0xffffffff90000000 + 4096 * 2) ∧
    memory k' (0xffffffff90000000 + 0x101) = 2).
Proof.
  eapply returns_mono.
  - apply (boot_enters_init (λ _, Some sample_elf) big_kernel sample_archive [9; 1; 2; 3] sample_elf);
      [exact sample_archive_ok|by vm_compute|by vm_compute|done|done| |by split; [constructor|]|done|done|done|done
      |by apply user_area_ok|by apply one_region_frames_for|apply empty_fresh|apply empty_fresh].
    apply Forall_singleton. repeat split; vm_compute; discriminate.
  - intros [s k'] (Hs & Him & _). split; [exact Hs|].
    rewrite (Him (mkPh PT_LOAD 1 0x100 3 8) (0xffffffff90000000 + 0x101)); [done|by left|].
    split; vm_compute; first [reflexivity|discriminate].
Defined.
