(* ===== verification/Faults.v ===== *)
(** * Faults, panics and the locks of the output (kernel/src/interrupts.rs,
    logging.rs, serial.rs, main.rs)

    What the fault handlers and the panic handler do, at the level of the locks
    their messages take.  The code is a list of statements, each the list of
    actions it is made of; device interrupts come between any two actions while
    they are enabled.  The console's operations take the lock of the
    framebuffer under that of [TTY], for a step each; kernel_main, png.rs and the
    command res take it alone.  The lock of [RTL8139] (only the card's handler
    takes it) is left out, with what that handler logs: the static is never set.
    Locks that no handler takes ([FS], the registry of commands) do not occur. *)

From Stdlib Require Import String.
From S2P Require Import Prelude Text Framebuffer Tty Console Hardware Sync Keyboard Rtl8139 Apic Interrupts.
Open Scope Z_scope.
Open Scope rust_scope.

(** ** The code *)

Inductive lock : Type := SERIAL1 | TTY_lock | FRAMEBUFFER_lock.

#[export] Instance lock_eq_dec : EqDecision lock.
Proof. solve_decision. Defined.

#[export] Instance lock_countable : Countable lock.
Proof.
  refine (inj_countable' (λ l, match l with SERIAL1 => 0%nat | TTY_lock => 1%nat | FRAMEBUFFER_lock => 2%nat end)
    (λ n, match n with 0%nat => SERIAL1 | 1%nat => TTY_lock | _ => FRAMEBUFFER_lock end) _).
  by intros [].
Defined.

(** Steps that take no lock: [interrupts::enable()], [ScancodeStream::new()],
    a device's handler, [loop {}] (or [hlt_loop]). *)
Inductive op : Type := Enable | NewStream | Handle (f : handler) | Forever.

(** What is done with the framebuffer outside of the console: its size is read
    (main.rs, commandline.rs), or an image is drawn (png.rs). *)
Inductive fb_op : Type := Resolution | DrawPng.

(** [Without] and [Restore] are the two ends of [without_interrupts]. *)
Inductive act : Type :=
| Lock (l : lock) | Unlock (l : lock)
| Without | RestoreFlag
| SerialWrite (p : text)
| TtyWrite (p : text) | TtyFace (b : bool) (color : rgba) | TtyClear
| FbUse (o : fb_op)
| Op (o : op).

Inductive stmt : Type :=
| AllPrint (ps : list text)     (* [all_print!] *)
| Print (ps : list text)        (* [print!] *)
| SerialPrint (ps : list text)  (* [serial_print!] *)
| Face (b : bool) (color : rgba)  (* [if let Some(tty) = TTY.lock().as_mut() { tty.yay(..) }], or sad *)
| Clear                         (* [clear!] *)
| UseFb (o : fb_op)             (* [if let Some(fb) = FRAMEBUFFER.lock().as_mut() { .. }] *)
| Do (o : op).

(** What the panic handler is told, and what the processor tells a fault's. *)
Record PanicInfo : Type := mkPanic { message : list text; file : text; line : Z; column : Z }.

(** The page fault: the address, the error code, the stack frame, as the
    crate prints them. *)
Record Fault : Type := mkFault { cr2 : text; error_code : text; stack_frame : list text }.

Definition FACE : text := [0x2639].
Definition FAULT_RED : rgba := (243, 139, 168, 255).

Section code.
Context (here : text).   (* where the [error!] stands in its file *)

Definition panic_handler (i : PanicInfo) : list stmt :=
  [AllPrint (error_pieces here
     ([NL ++ txt "Uh-oh! The Lemoncake kernel needed to panic." ++ NL ++ txt "Here's what happened:" ++ NL
         ++ txt "Panic Message: " ++ esc ++ txt "[31m"] ++ message i ++
      [esc ++ txt "[0m" ++ NL ++ txt "Location: " ++ esc ++ txt "[33m"; file i; txt "@L"; decimal (line i);
       txt ":"; decimal (column i); esc ++ txt "[0m"]));
   SerialPrint [FACE]; Face false RED; Do Forever].

Definition page_fault_code (f : Fault) : list stmt :=
  [AllPrint (error_pieces here
     ([NL ++ txt "Uh-oh! The Lemoncake kernel page-faulted." ++ NL ++ txt "Here's what happened:" ++ NL
         ++ txt "Accessed Address: "; cr2 f; NL ++ txt "Error Code: "; error_code f; NL ++ txt "Stack Frame:" ++ NL]
      ++ stack_frame f));
   Face false FAULT_RED; SerialPrint [FACE]; Do Forever].

(** The double fault and the general protection fault. *)
Definition other_fault_code (name : text) (f : Fault) : list stmt :=
  [AllPrint (error_pieces here
     ([NL ++ txt "Uh-oh! The Lemoncake kernel " ++ name ++ txt "-faulted." ++ NL
         ++ txt "Here's the stack frame:" ++ NL] ++ stack_frame f ++ [NL ++ txt "Error Code: "; error_code f]));
   Face false FAULT_RED; SerialPrint [FACE]; Do Forever].

Definition double_fault_code : Fault → list stmt := other_fault_code (txt "double").
Definition gp_fault_code : Fault → list stmt := other_fault_code (txt "GP").

Definition breakpoint_code (f : Fault) : list stmt :=
  [AllPrint (info_pieces ([txt "Breakpoint" ++ NL] ++ stack_frame f))].
End code.

(** ** The machine *)

Section machine.
Context {C : Type} `{Console C} `{Spinlock}.
Context {Q : Type} `{ArrayQueue Q Z} {W : Type} `{AtomicWaker W Z}.
Context {HW : Type} `{Hardware HW} (rx_buffer_base : Z) (rx_fuel : nat).
Context (here : text) (panic_info : reason → PanicInfo).

(** [png::draw_png] of an image, on the screen behind the console. *)
Context (draw_png : C → outcome C).

(** A suspended or the running code: the rest of its statement, the flag that
    [without_interrupts] saved, the statements after. *)
Record frame : Type := mkFrame { acts : list act; were_enabled : bool; rest : list stmt }.

Record machine : Type := mkMachine {
  running : frame;
  suspended : list frame;
  held : gset lock;
  IF : bool;
  kern : kernel Q W;
  hw : HW;
  out : C;
}.

(** The serial port's [_print]. *)
Definition serial_acts (ps : list text) : list act :=
  Without :: Lock SERIAL1 :: (SerialWrite <$> ps) ++ [Unlock SERIAL1; RestoreFlag].

(** The actions of a statement; whether there is a console never changes. *)
Definition code (c : C) (s : stmt) : list act :=
  match s with
  | AllPrint ps =>
      serial_acts ps ++ Lock TTY_lock :: (if tty_present c then TtyWrite <$> ps else []) ++ [Unlock TTY_lock]
  | Print ps =>
      if tty_present c then Lock TTY_lock :: (TtyWrite <$> ps) ++ [Unlock TTY_lock]
      else Lock TTY_lock :: Unlock TTY_lock :: serial_acts [txt "No TTY available!" ++ NL]
  | SerialPrint ps => serial_acts ps
  | Face b color => Lock TTY_lock :: (if tty_present c then [TtyFace b color] else []) ++ [Unlock TTY_lock]
  | Clear => Lock TTY_lock :: (if tty_present c then [TtyClear] else []) ++ [Unlock TTY_lock]
  | UseFb o => [Lock FRAMEBUFFER_lock; FbUse o; Unlock FRAMEBUFFER_lock]
  | Do o => [Op o]
  end.

Definition set_acts (m : machine) (l : list act) : machine :=
  mkMachine (mkFrame l (were_enabled (running m)) (rest (running m)))
    (suspended m) (held m) (IF m) (kern m) (hw m) (out m).
Definition set_held (m : machine) (h : gset lock) : machine :=
  mkMachine (running m) (suspended m) h (IF m) (kern m) (hw m) (out m).
Definition set_out (m : machine) (c : C) : machine :=
  mkMachine (running m) (suspended m) (held m) (IF m) (kern m) (hw m) c.
Definition set_flag (m : machine) (saved flag : bool) : machine :=
  mkMachine (mkFrame (acts (running m)) saved (rest (running m)))
    (suspended m) (held m) flag (kern m) (hw m) (out m).
Definition set_kern (m : machine) (k : kernel Q W) (h : HW) : machine :=
  mkMachine (running m) (suspended m) (held m) (IF m) k h (out m).

(** A panic calls the handler where it happens: no guard is dropped. *)
Definition panics (m : machine) (r : reason) : machine :=
  mkMachine (mkFrame [] (were_enabled (running m)) (panic_handler here (panic_info r)))
    (suspended m) (held m) (IF m) (kern m) (hw m) (out m).

(** The end of an action: on, to the panic handler, or nowhere. *)
Definition ends {A} (m : machine) (r : outcome A) (f : A → machine) : option machine :=
  match r with Ret a => Some (f a) | Panic r => Some (panics m r) | OutOfFuel => None end.

Definition run_op (o : op) (m : machine) : option machine :=
  match o with
  | Enable => Some (set_flag m (were_enabled (running m)) true)
  | NewStream =>
      let k := kern m in
      ends m (scancode_stream_new (keyboard k))
        (λ s, set_kern m (mkKernel (TICK_COUNT k) (LAPIC k) (RTL8139 k) s) (hw m))
  | Handle f =>
      h ← run_handler rx_buffer_base rx_fuel f (kern m);
      ends m (h (hw m)) (λ r, set_kern m r.1 r.2)
  | Forever => None
  end.

(** An operation of the console that takes the lock of [FRAMEBUFFER] inside. *)
Definition under_fb (takes : bool) (m : machine) (r : option machine) : option machine :=
  if takes then
    match spin_lock (bool_decide (FRAMEBUFFER_lock ∈ held m)) with Ret _ => r | _ => None end
  else r.

Definition fb_effect (o : fb_op) (c : C) : outcome C := match o with Resolution => Ret c | DrawPng => draw_png c end.

(** [m] stands behind the action. *)
Definition exec (a : act) (m : machine) : option machine :=
  match a with
  | Lock l =>
      match spin_lock (bool_decide (l ∈ held m)) with
      | Ret _ => Some (set_held m ({[l]} ∪ held m))
      | _ => None
      end
  | Unlock l => Some (set_held m (held m ∖ {[l]}))
  | Without => Some (set_flag m (IF m) false)
  | RestoreFlag => Some (set_flag m (were_enabled (running m)) (IF m || were_enabled (running m)))
  | SerialWrite p => Some (set_out m (serial_write p (out m)))
  | TtyWrite p => under_fb (tty_draws p (out m)) m (ends m (tty_write p (out m)) (set_out m))
  | TtyFace b color => under_fb true m (ends m (tty_face b color (out m)) (set_out m))
  | TtyClear => under_fb true m (ends m (tty_clear (out m)) (set_out m))
  | FbUse o => ends m (fb_effect o (out m)) (set_out m)
  | Op o => run_op o m
  end.

(** One step of the running code; at the end of a handler, [iret]. *)
Definition cpu_step (m : machine) : option machine :=
  match acts (running m), rest (running m), suspended m with
  | a :: l, _, _ => exec a (set_acts m l)
  | [], s :: r, _ =>
      Some (mkMachine (mkFrame (code (out m) s) (were_enabled (running m)) r)
              (suspended m) (held m) (IF m) (kern m) (hw m) (out m))
  | [], [], f :: fs => Some (mkMachine f fs (held m) true (kern m) (hw m) (out m))
  | [], [], [] => None
  end.

(** Vector [v] is taken: the table's gates disable interrupts. *)
Definition interrupt (v : Z) (m : machine) : option machine :=
  if IF m then
    e ← IDT !! v;
    match handler_fn e with
    | (timer_interrupt_handler | timer_interrupt_handler2 | generic_interrupt_handler | ioapic_handler _) as f =>
        Some (mkMachine (mkFrame [] false [Do (Handle f)]) (running m :: suspended m)
                (held m) false (kern m) (hw m) (out m))
    | _ => None
    end
  else None.

Inductive step : machine → machine → Prop :=
| step_cpu m m' : cpu_step m = Some m' → step m m'
| step_interrupt v m m' : interrupt v m = Some m' → step m m'.

(** Before the first statement: no lock is taken, no interrupt under way. *)
Definition start (main : list stmt) (flag : bool) (k : kernel Q W) (h : HW) (c : C) : machine :=
  mkMachine (mkFrame [] false main) [] ∅ flag k h c.

(** Runs without an interrupt. *)
Definition runs : machine → machine → Prop := rtc (λ m m', cpu_step m = Some m').

(** ** The serial port's lock *)

Context `{!SpinlockLaws} `{!ConsoleLaws C}.

(** Where the running code is: outside of [without_interrupts], inside of it,
    inside of it with the serial port's lock. *)
Inductive place : Type := Outside | Quiet | Holding.

Fixpoint shape (p : place) (l : list act) : bool :=
  match p, l with
  | Outside, [] => true
  | Outside, Without :: l => shape Quiet l
  | Outside, (Lock TTY_lock | Lock FRAMEBUFFER_lock | Unlock TTY_lock | Unlock FRAMEBUFFER_lock |
              TtyWrite _ | TtyFace _ _ | TtyClear | FbUse _ | Op _) :: l => shape Outside l
  | Quiet, Lock SERIAL1 :: l => shape Holding l
  | Quiet, RestoreFlag :: l => shape Outside l
  | Holding, SerialWrite _ :: l => shape Holding l
  | Holding, Unlock SERIAL1 :: l => shape Quiet l
  | _, _ => false
  end.

Definition at_place (p : place) (m : machine) : Prop :=
  shape p (acts (running m)) = true ∧ (SERIAL1 ∈ held m ↔ p = Holding) ∧ (p ≠ Outside → IF m = false) ∧
  Forall (λ f, shape Outside (acts f) = true) (suspended m).

Definition inv (m : machine) : Prop := ∃ p, at_place p m.

Lemma shape_serial ps l : shape Outside l = true → shape Outside (serial_acts ps ++ l) = true.
Proof. intros Hl. unfold serial_acts. simpl. induction ps as [|p ps IH]; simpl; auto. Qed.

Lemma shape_tty ps l : shape Outside l = true → shape Outside ((TtyWrite <$> ps) ++ l) = true.
Proof. intros Hl. induction ps as [|p ps IH]; simpl; auto. Qed.

Lemma shape_code c s : shape Outside (code c s) = true.
Proof.
  destruct s as [ps|ps|ps|b col| |o|o]; cbn [code]; try done.
  - apply shape_serial. simpl. destruct (tty_present c); [by apply shape_tty|done].
  - destruct (tty_present c); [by apply shape_tty|reflexivity].
  - rewrite <- (app_nil_r (serial_acts ps)). by apply shape_serial.
  - by destruct (tty_present c).
  - by destruct (tty_present c).
Qed.

(** A step that ends outside of [without_interrupts]. *)
Lemma inv_outside m : shape Outside (acts (running m)) = true → SERIAL1 ∉ held m →
  Forall (λ f, shape Outside (acts f) = true) (suspended m) → inv m.
Proof. intros Ha Hh Hs. exists Outside. split_and!; [done|naive_solver|done|done]. Qed.

Lemma ends_inv {A} m (r : outcome A) f m' :
  ends m r f = Some m' → SERIAL1 ∉ held m → Forall (λ f, shape Outside (acts f) = true) (suspended m) →
  (∀ a, inv (f a)) → inv m'.
Proof. intros He Hh Hs Hf. destruct r; simplify_eq/=; [done|]. by apply inv_outside. Qed.

Lemma run_op_inv o m m' :
  run_op o m = Some m' → shape Outside (acts (running m)) = true → SERIAL1 ∉ held m →
  Forall (λ f, shape Outside (acts f) = true) (suspended m) → inv m'.
Proof.
  intros Hr Ha Hh Hs. destruct o as [| |f|]; cbn [run_op] in Hr; simplify_eq.
  - by apply inv_outside.
  - eapply ends_inv; [done..|]. intros s. by apply inv_outside.
  - destruct (run_handler _ _ f _) as [h|]; simplify_eq/=. eapply ends_inv; [done..|].
    intros r. by apply inv_outside.
Qed.

Lemma under_fb_inv b m r m' : under_fb b m r = Some m' → r = Some m'.
Proof. unfold under_fb. destruct b; [|done]. by destruct (spin_lock _). Qed.

Lemma exec_inv a l p m m' :
  shape p (a :: l) = true → at_place p m → exec a (set_acts m l) = Some m' → inv m'.
Proof.
  intros Hl (_ & Hh & Hf & Hs) He.
  assert (Hends : ∀ (r : outcome C) m0, SERIAL1 ∉ held m → shape Outside l = true → m0 = set_acts m l →
    ends m0 r (set_out m0) = Some m' → inv m').
  { intros r m0 Hn Hl' -> E. eapply ends_inv; [exact E|done|done|]. intros c. by apply inv_outside. }
  destruct p, a as [[]|[]| | |t|t|b col| |o|o]; simpl in Hl; try discriminate Hl;
    cbn [exec] in He; try (apply under_fb_inv in He);
    try (eapply Hends; [by intros Hin%Hh|exact Hl|reflexivity|exact He]);
    cbn [set_acts held out suspended IF running were_enabled] in He.
  - destruct (spin_lock _); simplify_eq. apply inv_outside; cbn; [done| |done]. set_solver.
  - destruct (spin_lock _); simplify_eq. apply inv_outside; cbn; [done| |done]. set_solver.
  - simplify_eq. apply inv_outside; cbn; [done| |done]. set_solver.
  - simplify_eq. apply inv_outside; cbn; [done| |done]. set_solver.
  - simplify_eq. exists Quiet. split_and!; cbn; [done|naive_solver|done|done].
  - eapply run_op_inv; cbn; naive_solver.
  - destruct (spin_lock _); simplify_eq. exists Holding. split_and!; cbn; [done|set_solver|naive_solver|done].
  - simplify_eq. apply inv_outside; cbn; naive_solver.
  - simplify_eq. exists Quiet. split_and!; cbn; [done|set_solver|naive_solver|done].
  - simplify_eq. exists Holding. split_and!; cbn; naive_solver.
Qed.

Lemma step_inv m m' : step m m' → inv m → inv m'.
Proof.
  intros [m0 m1 Hc|v m0 m1 Hi] [p Hp].
  - unfold cpu_step in Hc. destruct (acts (running m0)) as [|a l] eqn:Ha.
    + destruct Hp as (Hsh & Hh & Hf & Hs). rewrite Ha in Hsh. destruct p; try discriminate Hsh.
      destruct (rest (running m0)) as [|s r], (suspended m0) as [|f fs]; simplify_eq; inversion Hs; subst;
        (apply inv_outside; cbn; [by (apply shape_code || assumption)|naive_solver|done]).
    + eapply exec_inv; [|exact Hp|exact Hc]. destruct Hp as [Hsh _]. by rewrite Ha in Hsh.
  - unfold interrupt in Hi. destruct (IF m0) eqn:HIF; [|done].
    destruct Hp as (Hsh & Hh & Hf & Hs). rewrite HIF in Hf.
    assert (p = Outside) as -> by (destruct p; [done|by specialize (Hf ltac:(done))..]).
    destruct (IDT !! v) as [e|]; simpl in Hi; [|done].
    destruct (handler_fn e); simplify_eq; (apply inv_outside; cbn; [done|naive_solver|by constructor]).
Qed.

Lemma run_inv main flag k h c m : rtc step (start main flag k h c) m → inv m.
Proof.
  intros Hr. assert (Hs : inv (start main flag k h c)) by by apply inv_outside.
  induction Hr as [|m1 m2 m3 H12 H23 IH]; [done|]. apply IH. by eapply step_inv.
Qed.

(** ** Uninterrupted runs *)

#[local] Abbreviation M l w r su h f k hw c := (mkMachine (mkFrame l w r) su h f k hw c).

Lemma runs_step m m' m'' : cpu_step m = Some m' → runs m' m'' → runs m m''.
Proof. intros. by eapply rtc_l. Qed.

Lemma runs_trans m m' m'' : runs m m' → runs m' m'' → runs m m''.
Proof. unfold runs. by etrans. Qed.

Lemma runs_serial_writes ps l w r su h f k x c :
  runs (M ((SerialWrite <$> ps) ++ l) w r su h f k x c) (M l w r su h f k x (serial_pieces ps c)).
Proof.
  revert c. induction ps as [|p ps IH]; intros c; [by apply rtc_refl|].
  eapply runs_step; [done|]. apply IH.
Qed.

Lemma runs_serial ps l w r su h f k x c : SERIAL1 ∉ h →
  runs (M (serial_acts ps ++ l) w r su h f k x c) (M l f r su h f k x (serial_pieces ps c)).
Proof.
  intros Hh. unfold serial_acts. cbn [app]. rewrite <- app_assoc. cbn [app].
  eapply runs_step; [done|]. eapply runs_step.
  { cbn. rewrite bool_decide_eq_false_2, spin_lock_free by done. done. }
  cbn. eapply runs_trans; [apply runs_serial_writes|].
  eapply runs_step; [done|]. eapply runs_step; [done|]. cbn.
  replace (({[SERIAL1]} ∪ h) ∖ {[SERIAL1]}) with h by set_solver. apply rtc_refl.
Qed.

(** The console can draw: the framebuffer's lock is free, or there is no console. *)
Definition fb_free (h : gset lock) (c : C) : Prop := FRAMEBUFFER_lock ∉ h ∨ tty_present c = false.

Lemma under_fb_free b m r : FRAMEBUFFER_lock ∉ held m → under_fb b m r = r.
Proof. intros Hh. unfold under_fb. destruct b; [|done]. by rewrite bool_decide_eq_false_2, spin_lock_free. Qed.

Lemma runs_tty_writes ps l w r su h f k x c c' :
  FRAMEBUFFER_lock ∉ h → write_pieces ps c = Ret c' →
  runs (M ((TtyWrite <$> ps) ++ l) w r su h f k x c) (M l w r su h f k x c').
Proof.
  intros Hh. revert c. induction ps as [|p ps IH]; intros c Hc; cbn [write_pieces] in Hc; [simplify_eq; by apply rtc_refl|].
  apply bind_Ret_inv in Hc as (c1 & Hp & Hc). eapply runs_step; [|by apply IH].
  cbn [cpu_step acts running exec fmap list_fmap app set_acts out]. rewrite under_fb_free by done. by rewrite Hp.
Qed.

(** Under the console's lock. *)
Lemma runs_tty body l w r su h f k x c c' : TTY_lock ∉ h →
  (∀ l, runs (M (body ++ l) w r su ({[TTY_lock]} ∪ h) f k x c) (M l w r su ({[TTY_lock]} ∪ h) f k x c')) →
  runs (M (Lock TTY_lock :: body ++ Unlock TTY_lock :: l) w r su h f k x c) (M l w r su h f k x c').
Proof.
  intros Hh Hb. eapply runs_step.
  { cbn. rewrite bool_decide_eq_false_2, spin_lock_free by done. done. }
  cbn. eapply runs_trans; [apply Hb|]. eapply runs_step; [done|]. cbn.
  replace (({[TTY_lock]} ∪ h) ∖ {[TTY_lock]}) with h by set_solver. apply rtc_refl.
Qed.

(** One operation on the console, if there is one. *)
Lemma runs_tty_act a op w r su h f k x c c' :
  (∀ m, exec a m = under_fb true m (ends m (op (out m)) (set_out m))) →
  TTY_lock ∉ h → fb_free h c → (if tty_present c then op c else Ret c) = Ret c' →
  runs (M (Lock TTY_lock :: (if tty_present c then [a] else []) ++ [Unlock TTY_lock]) w r su h f k x c)
    (M [] w r su h f k x c').
Proof.
  intros Ha Ht Hf Hop. apply (runs_tty _ []); [done|]. intros l. destruct (tty_present c) eqn:Hp.
  - destruct Hf as [Hf|]; [|congruence]. eapply runs_step; [|apply rtc_refl].
    cbn [cpu_step acts running app]. rewrite Ha, under_fb_free by (cbn; set_solver). cbn [out set_acts]. by rewrite Hop.
  - simplify_eq. apply rtc_refl.
Qed.

(** What the statements of a handler do to the output. *)
Definition effect (s : stmt) (c : C) : outcome C :=
  match s with
  | AllPrint ps => all_print ps c
  | Print ps => print ps c
  | SerialPrint ps => Ret (serial_pieces ps c)
  | Face b color => if tty_present c then tty_face b color c else Ret c
  | Clear => clear_macro c
  | UseFb _ | Do _ => OutOfFuel
  end.

Fixpoint effects (ss : list stmt) (c : C) : outcome C :=
  match ss with [] => Ret c | s :: ss => c ← effect s c; effects ss c end.

Lemma present_serial ps c : tty_present (serial_pieces ps c) = tty_present c.
Proof.
  unfold serial_pieces. revert c. induction ps as [|p ps IH]; intros c; [done|].
  simpl. by rewrite IH, tty_present_serial.
Qed.

Lemma effect_absent s c c' : tty_present c = false → effect s c = Ret c' → tty_present c' = false.
Proof.
  intros Hc. destruct s as [ps|ps|ps|b col| |o|o]; cbn [effect]; unfold all_print, print, clear_macro;
    rewrite ?present_serial, ?Hc; intros He; simplify_eq; by rewrite ?present_serial, ?tty_present_serial.
Qed.

(** With the locks free a statement does what [Console] says it does. *)
Lemma statement_runs s r w su h f k x c c' : SERIAL1 ∉ h → TTY_lock ∉ h → fb_free h c →
  effect s c = Ret c' → ∃ w', runs (M [] w (s :: r) su h f k x c) (M [] w' r su h f k x c').
Proof.
  intros Hs Ht Hfb He. assert (Hgo : ∃ w', runs (M (code c s) w r su h f k x c) (M [] w' r su h f k x c')).
  2:{ destruct Hgo as [w' Hgo]. exists w'. by eapply runs_step. }
  destruct s as [ps|ps|ps|b col| |o|o]; cbn [effect code] in *; [| | | | |done|done].
  - exists f. eapply runs_trans; [by apply runs_serial|].
    unfold all_print in He. rewrite present_serial in He. apply (runs_tty _ []); [done|]. intros l.
    destruct (tty_present c) eqn:Hp; [|simplify_eq; apply rtc_refl].
    destruct Hfb as [Hfb|]; [|congruence]. apply runs_tty_writes; [set_solver|done].
  - unfold print in He. destruct (tty_present c) eqn:Hp.
    + exists w. apply (runs_tty _ []); [done|]. intros l. destruct Hfb as [Hfb|]; [|congruence].
      apply runs_tty_writes; [set_solver|done].
    + exists f. eapply runs_trans; [apply (runs_tty [] _ _ _ _ _ _ _ _ _ c); [done|]; intros; apply rtc_refl|].
      rewrite <- (app_nil_r (serial_acts _)). simplify_eq. by apply (runs_serial [_]).
  - exists f. rewrite <- (app_nil_r (serial_acts _)). simplify_eq. by apply runs_serial.
  - exists w. by apply (runs_tty_act _ (tty_face b col)).
  - exists w. by apply (runs_tty_act _ tty_clear).
Qed.

Lemma statements_run ss r w su h f k x c c' : SERIAL1 ∉ h → TTY_lock ∉ h → fb_free h c → effects ss c = Ret c' →
  ∃ w', runs (M [] w (ss ++ r) su h f k x c) (M [] w' r su h f k x c').
Proof.
  intros Hs Ht. revert w c. induction ss as [|s ss IH]; intros w c Hfb He.
  { exists w. replace c' with c by by injection He. apply rtc_refl. }
  cbn [effects] in He. apply bind_Ret_inv in He as (c1 & Hc1 & He).
  destruct (statement_runs s (ss ++ r) w su h f k x c c1) as [w1 R1]; [done..|].
  destruct (IH w1 c1) as [w2 R2]; [|done|].
  { destruct Hfb as [Hfb|Hfb]; [by left|right]. by eapply effect_absent. }
  exists w2. by eapply runs_trans.
Qed.

(** A message with the console's lock taken: all of it on the serial port, then the wait. *)
Lemma message_waits ps r w su h f k x c : SERIAL1 ∉ h → TTY_lock ∈ h →
  ∃ l, runs (M [] w (AllPrint ps :: r) su h f k x c) (M (Lock TTY_lock :: l) f r su h f k x (serial_pieces ps c)) ∧
    cpu_step (M (Lock TTY_lock :: l) f r su h f k x (serial_pieces ps c)) = None.
Proof.
  intros Hs Ht. eexists. split.
  - eapply runs_step; [done|]. by apply runs_serial.
  - cbn. by rewrite bool_decide_eq_true_2, spin_lock_held.
Qed.

(** A message with the framebuffer's lock taken: all of it on the serial port,
    then the wait inside of the console's lock, at the first glyph. *)
Lemma message_stuck color p ch t ps r w su h f k x c c1 :
  SERIAL1 ∉ h → TTY_lock ∉ h → FRAMEBUFFER_lock ∈ h → console_ok c → tty_present c = true →
  color = ESC :: txt "[31m" → p = ch :: t → 0x20 ≤ ch → ch ≠ 0x7F →
  tty_write color (serial_pieces (color :: p :: ps) c) = Ret c1 →
  ∃ m', runs (M [] w (AllPrint (color :: p :: ps) :: r) su h f k x c) m' ∧ cpu_step m' = None ∧
    out m' = c1 ∧ IF m' = f ∧ TTY_lock ∈ held m'.
Proof.
  intros Hs Ht Hf Hc Hp -> -> H20 H7F Hw. eexists. split; [|split_and!].
  - eapply runs_step; [done|]. cbn [code running rest out]. rewrite Hp. eapply runs_trans; [by apply runs_serial|].
    eapply runs_step.
    { cbn [cpu_step acts running exec set_acts held]. rewrite bool_decide_eq_false_2, spin_lock_free by done. reflexivity. }
    eapply runs_step; [|apply rtc_refl].
    cbn [cpu_step acts running exec fmap list_fmap app set_acts set_held out]. rewrite tty_draws_color. cbn [under_fb].
    rewrite Hw. reflexivity.
  - cbn [cpu_step acts running exec set_out set_acts set_held out rest suspended were_enabled IF kern hw held fmap list_fmap app].
    rewrite tty_draws_glyph; [|by eapply (returns_Ret_inv _ _ ltac:(rewrite <- Hw; apply tty_write_ok; [by apply serial_pieces_ok|apply esc_ok, txt_ok]))
      |by rewrite (tty_present_write _ _ _ Hw), present_serial|done|done].
    unfold under_fb. cbn [held]. by rewrite bool_decide_eq_true_2, spin_lock_held by set_solver.
  - done.
  - done.
  - cbn. set_solver.
Qed.

Lemma runs_steps m m' : runs m m' → rtc step m m'.
Proof. induction 1; [done|]. eapply rtc_l; [|done]. by apply step_cpu. Qed.

(** What the panic handler prints. *)
Definition report (i : PanicInfo) : list text :=
  match panic_handler here i with AllPrint ps :: _ => ps | _ => [] end.

(** The kernel's start of input (main.rs). *)
Definition start_input : list stmt :=
  [Do Enable; AllPrint (info_pieces [txt "Initializing scancode queue..."]); Do NewStream].

(** ** Properties *)

(** C34: The serial port never keeps a message back: whatever interrupts came
    between the steps of the kernel's code, its lock is held only with
    interrupts disabled, nothing ever waits for it, and a message that is due
    goes to the port piece by piece, whole and in order. *)
Theorem serial_lock_never_waits main flag k h c m :
  rtc step (start main flag k h c) m →
  (SERIAL1 ∈ held m → IF m = false) ∧
  (∀ l, acts (running m) = Lock SERIAL1 :: l → is_Some (cpu_step m)) ∧
  (∀ ps r, acts (running m) = [] → rest (running m) = AllPrint ps :: r →
    ∃ m', runs m m' ∧ out m' = serial_pieces ps (out m) ∧ held m' = held m).
Proof.
  intros Hr. apply run_inv in Hr as (p & Hsh & Hh & Hf & Hs). split_and!.
  - intros Hin. apply Hf. by rewrite (proj1 Hh Hin).
  - intros l Hl. rewrite Hl in Hsh. destruct p; try discriminate Hsh.
    unfold cpu_step. rewrite Hl. cbn. rewrite bool_decide_eq_false_2, spin_lock_free by naive_solver. by eexists.
  - intros ps r Ha Hps. rewrite Ha in Hsh. destruct p; try discriminate Hsh.
    destruct m as [[l w ss] su hs f kn x o]. cbn in *. subst. eexists. split.
    + eapply runs_step; [done|]. apply runs_serial. naive_solver.
    + done.
Qed.

(** C35: When a panic is seen on the screen.  Wherever the kernel panics: if
    the locks of [TTY] and of [FRAMEBUFFER] are free (or there is no console, and the
    second does not matter), the handler runs to its loop with the message on
    the serial port and on the console, and the sad face after it; if the code
    that panicked, or the code it interrupted, was using the console, then the
    message is on the serial port only, and the handler waits for the console's
    lock; if it was using the framebuffer alone (the logo, the resolution), then
    the message is on the serial port, the handler takes the console's lock and
    waits in it at the first glyph, with no more than the color set; and in
    these two cases, from inside an interrupt, nothing ever runs again. *)
Theorem panic_report main flag k h c i m :
  rtc step (start main flag k h c) m →
  acts (running m) = [] → rest (running m) = panic_handler here i →
  console_ok (out m) → pieces_ok (report i) →
  (TTY_lock ∉ held m → fb_free (held m) (out m) → ∃ m' c', runs m m' ∧ acts (running m') = [Op Forever] ∧ out m' = c' ∧
     (c1 ← all_print (report i) (out m); sad_macro (serial_pieces [FACE] c1)) = Ret c') ∧
  (TTY_lock ∈ held m → ∃ m', runs m m' ∧ out m' = serial_pieces (report i) (out m) ∧ cpu_step m' = None ∧
     (IF m = false → ∀ m'', ¬ step m' m'')) ∧
  (TTY_lock ∉ held m → ¬ fb_free (held m) (out m) → ∃ m', runs m m' ∧
     tty_write (ESC :: txt "[31m") (serial_pieces (report i) (out m)) = Ret (out m') ∧ cpu_step m' = None ∧
     (IF m = false → ∀ m'', ¬ step m' m'')).
Proof.
  intros Hr Ha Hrest Hc Hp. apply run_inv in Hr as (p & Hsh & Hh & _). rewrite Ha in Hsh.
  destruct p; try discriminate Hsh. destruct m as [[l w ss] su hs f kn x o]. cbn [running acts rest held out IF] in *. subst l ss.
  assert (HS : SERIAL1 ∉ hs) by naive_solver.
  assert (Hstop : ∀ m', cpu_step m' = None → IF m' = false → ∀ m'', ¬ step m' m'').
  { intros m' Hw Hif m'' Hst. inversion Hst as [? ? Hc'|v ? ? Hi]; subst; [by rewrite Hw in Hc'|].
    unfold interrupt in Hi. by rewrite Hif in Hi. }
  split_and!.
  - intros Ht Hfb. destruct (all_print_ok (report i) o Hc Hp) as (c1 & He1 & Hc1).
    destruct (sad_macro_ok (serial_pieces [FACE] c1)) as (c2 & He2 & Hc2); [by apply serial_pieces_ok|].
    destruct (statements_run [AllPrint (report i); SerialPrint [FACE]; Face false RED] [Do Forever]
      w su hs f kn x o c2) as [w' Hrun]; [done..| |].
    { cbn [effects effect]. rewrite He1. cbn [mbind outcome_bind]. unfold sad_macro in He2. by rewrite He2. }
    eexists _, c2. split_and!.
    + eapply runs_trans; [exact Hrun|]. eapply runs_step; [done|]. apply rtc_refl.
    + done.
    + done.
    + cbn [out]. by rewrite He1.
  - intros Ht. destruct (message_waits (report i) (drop 1 (panic_handler here i)) w su hs f kn x o HS Ht) as (l & Hrun & Hw).
    eexists. split_and!; [exact Hrun|done|exact Hw|]. intros ->. by apply Hstop.
  - intros Ht Hfb. assert (HF : FRAMEBUFFER_lock ∈ hs ∧ tty_present o = true).
    { unfold fb_free in Hfb. destruct (decide (FRAMEBUFFER_lock ∈ hs)), (tty_present o); tauto. }
    destruct HF as [HF Hpr].
    destruct (tty_write_ok (ESC :: txt "[31m") (serial_pieces (report i) o)) as (c1 & Hw & _);
      [by apply serial_pieces_ok|by apply esc_ok, txt_ok|].
    assert (Hshape : ∃ ps, report i = (ESC :: txt "[31m") :: txt "(X_X) " :: ps) by by eexists.
    destruct Hshape as [ps Hps]. rewrite Hps in Hw.
    destruct (message_stuck (ESC :: txt "[31m") (txt "(X_X) ") 0x28 (txt "X_X) ") ps (drop 1 (panic_handler here i))
      w su hs f kn x o c1) as (m' & Hrun & Hst & Ho & Hif & _); [done..|].
    exists m'. rewrite Ho. split_and!; [|by rewrite Hps|exact Hst|].
    + change (panic_handler here i) with (AllPrint (report i) :: drop 1 (panic_handler here i)). by rewrite Hps.
    + intros ->. by apply Hstop.
Qed.

Lemma early_key (k : kernel Q W) (h : HW) :
  SCANCODE_QUEUE (keyboard k) = None → keyboard_interrupt k h = Panic ExplicitPanic.
Proof.
  intros Hq. unfold keyboard_interrupt, in8, mbind, io_bind. destruct (port_in 1 0x60 h) as [sc h1].
  unfold lift, add_scancode. by rewrite Hq.
Qed.

(** [kernel_main] enables interrupts before it makes the scancode queue and
    prints a line between the two: a key at that moment panics in the
    interrupt handler; the report reaches the serial port, the console stays as
    it is, and the kernel hangs for ever. *)
Theorem early_key_hangs_silently k h c :
  SCANCODE_QUEUE (keyboard k) = None →
  ∃ m, rtc step (start start_input false k h c) m ∧ (∀ m', ¬ step m m') ∧
    out m = serial_pieces (report (panic_info ExplicitPanic))
              (serial_pieces (info_pieces [txt "Initializing scancode queue..."]) c).
Proof.
  intros Hq. set (ps := info_pieces [txt "Initializing scancode queue..."]).
  set (c1 := serial_pieces ps c). set (r := [Do NewStream]).
  set (tl := (if tty_present c then TtyWrite <$> ps else []) ++ [Unlock TTY_lock]).
  assert (H_in : rtc step (start start_input false k h c) (M tl true r [] {[TTY_lock]} true k h c1)).
  { apply runs_steps. eapply runs_step; [done|]. eapply runs_step; [done|]. eapply runs_step; [done|].
    eapply runs_trans; [apply (runs_serial ps); set_solver|]. eapply runs_step.
    { cbn. rewrite bool_decide_eq_false_2, spin_lock_free by set_solver. done. }
    cbn. replace ({[TTY_lock]} ∪ ∅) with ({[TTY_lock]} : gset lock) by set_solver. apply rtc_refl. }
  set (su := [mkFrame tl true r]).
  destruct (message_waits (report (panic_info ExplicitPanic)) (drop 1 (panic_handler here (panic_info ExplicitPanic)))
    false su {[TTY_lock]} false k h c1) as (l & Hrun & Hw); [set_solver..|].
  eexists. split_and!; [|intros m' Hst|]; cycle 1.
  - inversion Hst as [? ? Hc'|v ? ? Hi]; subst; [by rewrite Hw in Hc'|done].
  - done.
  - etrans; [exact H_in|]. eapply rtc_l; [apply (step_interrupt 51); reflexivity|].
    eapply rtc_l; [by apply step_cpu|]. etrans; [|apply runs_steps, Hrun].
    apply rtc_once, step_cpu. change (ends (M [] false [] su {[TTY_lock]} false k h c1)
      (keyboard_interrupt k h) (λ r, set_kern (M [] false [] su {[TTY_lock]} false k h c1) r.1 r.2) =
      Some (panics (M [] false [] su {[TTY_lock]} false k h c1) ExplicitPanic)).
    by rewrite early_key.
Qed.

End machine.

(** ** Sample runs *)

#[local] Existing Instances log_Console log_ConsoleLaws flag_Spinlock flag_SpinlockLaws
  list_ArrayQueue option_AtomicWaker sample_card_hw.

Definition sample_panic (r : reason) : PanicInfo := mkPanic [txt "oops"] (txt "src/lib.rs") 7 1.
Definition sample_kern : kernel (list_queue Z) (option Z) :=
  mkKernel 0 (Some (mkLapic 0xFEE00000)) None (mkInput None None (mkLQ 100 [])).
Definition sample_here : text := txt "main.rs@L345:5".

Lemma serial_lock_never_waits_witness : ∃ m',
  runs 0 10 sample_here sample_panic (λ c, Ret c)
    (start [AllPrint (info_pieces [txt "hello"])] true sample_kern (mkCard 0 0 0 []) (mkLog [] [] [])) m' ∧
  log_serial (out m') = info_pieces [txt "hello"].
Proof.
  destruct (serial_lock_never_waits 0 10 sample_here sample_panic (λ c, Ret c) [AllPrint (info_pieces [txt "hello"])] true sample_kern
    (mkCard 0 0 0 []) (mkLog [] [] []) _ (rtc_refl _ _)) as (_ & _ & Hm).
  destruct (Hm _ _ eq_refl eq_refl) as (m' & Hrun & Ho & _). exists m'. split; [exact Hrun|].
  rewrite Ho. reflexivity.
Defined.

(** The command res, and a key while it reads the resolution: the reader is
    registered, and the executor's queue (of one id here) is full. *)
Definition busy_kern : kernel (list_queue Z) (option Z) :=
  mkKernel 0 (Some (mkLapic 0xFEE00000)) None (mkInput (Some (mkLQ 100 [])) (Some 0) (mkLQ 1 [0])).

Definition res_start : machine (C:=Log) (Q:=list_queue Z) (W:=option Z) (HW:=sample_card) :=
  start [UseFb Resolution; Print [txt "Current resolution: "]] true busy_kern (mkCard 0 0 0 []) (mkLog [] [] []).

Definition res_interrupted : option (machine (C:=Log) (Q:=list_queue Z) (W:=option Z) (HW:=sample_card)) :=
  let cpu := cpu_step 0 10 sample_here sample_panic (λ c, Ret c) in
  m ← cpu res_start; m ← cpu m; m ← interrupt 51 m; m ← cpu m; cpu m.

Lemma res_interrupted_reached m :
  res_interrupted = Some m → rtc (step 0 10 sample_here sample_panic (λ c, Ret c)) res_start m.
Proof.
  unfold res_interrupted. intros H0. repeat (apply bind_Some in H0 as (? & ? & H0)).
  repeat (eapply rtc_l; [first [by apply step_cpu|by eapply step_interrupt]|]). apply rtc_refl.
Qed.

Lemma panic_report_witness :
  (∃ m' c', runs 0 10 sample_here sample_panic (λ c, Ret c)
     (start (panic_handler sample_here (sample_panic ExplicitPanic)) true sample_kern (mkCard 0 0 0 []) (mkLog [] [] [])) m' ∧
   out m' = c' ∧ log_faces c' = [false] ∧ log_tty c' = report sample_here (sample_panic ExplicitPanic)) ∧
  (∃ m, res_interrupted = Some m ∧ ∃ m', runs 0 10 sample_here sample_panic (λ c, Ret c) m m' ∧
     log_tty (out m') = [ESC :: txt "[31m"] ∧ ∀ m'', ¬ step 0 10 sample_here sample_panic (λ c, Ret c) m' m'').
Proof.
  split.
  - destruct (panic_report 0 10 sample_here sample_panic (λ c, Ret c) (panic_handler sample_here (sample_panic ExplicitPanic)) true
      sample_kern (mkCard 0 0 0 []) (mkLog [] [] []) (sample_panic ExplicitPanic) _ (rtc_refl _ _)) as [Hm _].
    + reflexivity.
    + reflexivity.
    + done.
    + vm_compute. repeat constructor; try discriminate.
    + destruct (Hm (not_elem_of_empty TTY_lock) (or_introl (not_elem_of_empty FRAMEBUFFER_lock))) as (m' & c' & Hrun & _ & Ho & He).
      exists m', c'. split; [exact Hrun|]. split; [exact Ho|]. vm_compute in He. injection He as <-. split; reflexivity.
  - destruct res_interrupted as [m|] eqn:Hm; [|by vm_compute in Hm]. exists m. split; [done|].
    pose proof (res_interrupted_reached m Hm) as Hr.
    assert (Hs : acts (running m) = [] ∧ rest (running m) = panic_handler sample_here (sample_panic UnwrapFailed) ∧
      IF m = false ∧ out m = mkLog [] [] [] ∧ held m = {[FRAMEBUFFER_lock]}).
    { vm_compute in Hm. injection Hm as <-. split_and!; reflexivity. }
    destruct Hs as (Ha & Hrest & Hif & Ho & Hh).
    destruct (panic_report 0 10 sample_here sample_panic (λ c, Ret c) [UseFb Resolution; Print [txt "Current resolution: "]] true
      busy_kern (mkCard 0 0 0 []) (mkLog [] [] []) (sample_panic UnwrapFailed) m Hr Ha Hrest) as (_ & _ & Hstuck).
    + by rewrite Ho.
    + vm_compute. repeat constructor; try discriminate.
    + destruct Hstuck as (m' & Hrun & Hw & _ & Hstop).
      * rewrite Hh. by apply not_elem_of_singleton.
      * rewrite Hh, Ho. intros [Hn|]; [by apply Hn, elem_of_singleton_2|done].
      * exists m'. split; [exact Hrun|]. split; [|exact (Hstop Hif)].
        rewrite Ho in Hw. injection Hw as <-. reflexivity.
Defined.
