(* ===== verification/Nvme.v ===== *)
(** * The NVMe driver (kernel/src/drivers/nvme.rs)

    Registers, the start of a controller, queues, completions, namespaces and
    the preparation of a transfer.  The module is not built (drivers/mod.rs).
    [Volatile::new(x)] of the crate [volatile] wraps the value [x] it is given:
    where the code gives it an address, reading the wrapper gives the address.
    The submission of a command and the start of a controller are in
    [NvmeInit].  What [init] and [probe_controller] do after the test for the
    NVM command set are arguments, [enable] and [identify]; [init_fails] shows
    that [init] never gets there with an answer. *)

From S2P Require Import Prelude Arch Hardware FrameAllocator Paging Pci.
Open Scope Z_scope.
Open Scope rust_scope.

(** ** Constants *)

Definition NVME_PCI_CLASS : Z := 0x01.
Definition NVME_PCI_SUBCLASS : Z := 0x08.
Definition NVME_PCI_PROG_IF : Z := 0x02.
Definition NVME_REG_CAP : Z := 0x00.
Definition NVME_REG_CC : Z := 0x14.
Definition NVME_REG_CSTS : Z := 0x1C.
Definition NVME_CC_EN : Z := Z.shiftl 1 0.
Definition NVME_CSTS_RDY : Z := Z.shiftl 1 0.
Definition NVME_CSTS_CFS : Z := Z.shiftl 1 1.
Definition NVME_MAX_IO_QUEUES : Z := 8.
Definition NVME_RESET_TIMEOUT_MS : Z := 5000.
Definition NVME_ADMIN_CREATE_CQ : Z := 0x05.
Definition NVME_ADMIN_CREATE_SQ : Z := 0x01.
Definition NVME_IO_READ : Z := 0x02.
Definition NVME_IO_WRITE : Z := 0x01.
Definition NVME_SC_SUCCESS : Z := 0x00.

(** ** Data *)

Inductive NVMeError : Type :=
| NotFound | InitFailed | Timeout | InvalidParam | NoMemory | DeviceError | NotReady | CommandFailed
| NotInitialized | OutOfMemory | NoQueue | RWRegError | NamespaceNotFound.

#[export] Instance NVMeError_eq_dec : EqDecision NVMeError.
Proof. solve_decision. Defined.

(** The records hold the fields that the operations below use: of a command all
    but the reserved [rsv0], of a queue all but the two shifts nothing reads. *)
Record NVMeCommand : Type := mkCommand {
  opcode : Z; flags : Z; command_id : Z; nsid : Z; metadata : Z; prp1 : Z; prp2 : Z;
  cdw10 : Z; cdw11 : Z; cdw12 : Z; cdw13 : Z; cdw14 : Z; cdw15 : Z;
}.

(** Sizes of [NVMeCommand] and [NVMeCompletion], and the fields of the latter. *)
Definition COMMAND_SIZE : Z := 64.
Definition COMPLETION_SIZE : Z := 16.
Definition COMPLETION_ID : Z := 12.
Definition COMPLETION_STATUS : Z := 14.

Record NVMeQueue : Type := mkQueue {
  sq_cmds : Z; cqes : Z; sq_db : Z; cq_db : Z; sq_tail : Z; cq_head : Z;
  qid : Z; q_depth : Z; cq_phase : Z;
}.

Record NVMeNamespace : Type := mkNs { ns_id : Z; size : Z; lba_size : Z; valid : bool; ns_data : Z }.

Record NVMeController : Type := mkController {
  pci_dev : PCIDevice; bar0 : Z; stride : Z; page_size : Z; max_queue_entries : Z;
  enabled : bool; namespaces : list NVMeNamespace; next_cmd_id : Z;
}.

(** [1 << n] and the like on [u32]: an amount of 32 or more panics. *)
Definition checked_shl32 (v n : Z) : outcome Z :=
  if n <? 32 then Ret (shl 32 v n) else Panic ArithmeticOverflow.

Fixpoint le_value (bs : list Z) : Z :=
  match bs with [] => 0 | b :: bs => b + 2 ^ 8 * le_value bs end.

Section nvme.
Context {H : Type} `{Hardware H} `{X86} {MP : Type} `{Mapper MP} {F : Type} `{FrameAllocator F}.
Context (PMO ecam : Z).

(** [matches!(e, MapToError::PageAlreadyMapped(_))], and the size the compiler
    gives to [NVMeController]. *)
Context (PageAlreadyMapped : MapToError (M:=MP) → bool) (CONTROLLER_SIZE : Z).

Record machine : Type := mkMachine { statics : Statics; mapper : MP; frames : F; memory : Z → Z; hw : H }.

Definition on_hw {A} (op : io H A) : io machine A := λ m,
  '(a, h) ← op (hw m); Ret (a, mkMachine (statics m) (mapper m) (frames m) (memory m) h).
Definition get {A} (f : machine → A) : io machine A := λ m, Ret (f m, m).
Definition set_memory (mem : Z → Z) : io machine unit := λ m,
  Ret ((), mkMachine (statics m) (mapper m) (frames m) mem (hw m)).
Definition on_pages {A} (op : Statics → MP → F → outcome (A * Statics * MP * F)) : io machine A := λ m,
  '(a, st, mp, f) ← op (statics m) (mapper m) (frames m); Ret (a, mkMachine st mp f (memory m) (hw m)).
Definition on_mapper {A} (op : MP → outcome (A * MP)) : io machine A := λ m,
  '(a, mp) ← op (mapper m); Ret (a, mkMachine (statics m) mp (frames m) (memory m) (hw m)).

Definition new_frame : io machine (option Z) := λ m,
  '(o, f) ← allocate_frame (frames m); Ret (o, mkMachine (statics m) (mapper m) f (memory m) (hw m)).
Definition map_frame (page fr flags : Z) : io machine (MapToError (M:=MP) + unit) := λ m,
  '(r, mp, f) ← map_to (mapper m) page fr flags (frames m);
  Ret (r, mkMachine (statics m) mp f (memory m) (hw m)).

(** ** Registers *)

Definition read_reg32 (c : NVMeController) (offset : Z) : io machine (option Z) :=
  o ← on_hw (read_bar ecam (pci_dev c) 0);
  match o with
  | Some b => v ← lift (b.1.1 +[32] offset); ret (Some v)
  | None => ret None
  end.

Definition write_reg32 (c : NVMeController) (offset val : Z) : io machine (option Z) :=
  o ← on_hw (read_bar ecam (pci_dev c) 0);
  match o with
  | Some b => _ ← lift (b.1.1 +[32] offset); ret (Some val)
  | None => ret None
  end.

(** [*p] of a [*const u64]. *)
Definition deref64 (p : Z) : io machine Z :=
  if p mod 8 =? 0 then mem ← get memory; ret (le_value (read_bytes mem p 8))
  else lift (Panic MisalignedPointer).

Definition read_reg64 (c : NVMeController) (offset : Z) : io machine (option Z) :=
  o ← on_hw (read_bar ecam (pci_dev c) 0);
  match o with
  | Some b => reg_addr ← lift (b.1.1 +[32] offset); v ← deref64 reg_addr; ret (Some v)
  | None => ret None
  end.

Definition write_reg64 (c : NVMeController) (offset val : Z) : io machine (option Z) :=
  o ← on_hw (read_bar ecam (pci_dev c) 0);
  match o with
  | Some b => _ ← lift (b.1.1 +[32] offset); v ← deref64 val; ret (Some v)
  | None => ret None
  end.

(** The sleep between two looks is up to the timer. *)
Fixpoint wait_ready (c : NVMeController) (ready : bool) (timeout_ms : nat) (sleep : io machine unit) :
    io machine (NVMeError + unit) :=
  match timeout_ms with
  | O => ret (inl Timeout)
  | S n =>
      o ← read_reg32 c NVME_REG_CSTS;
      match o with
      | None => ret (inl RWRegError)
      | Some csts =>
          let is_ready := negb (Z.land csts NVME_CSTS_RDY =? 0) in
          if Bool.eqb is_ready ready then ret (inr ())
          else if negb (Z.land csts NVME_CSTS_CFS =? 0) then ret (inl DeviceError)
          else _ ← sleep; wait_ready c ready n sleep
      end
  end.

Definition reset (c : NVMeController) (sleep : io machine unit) : io machine (NVMeError + unit) :=
  o ← read_reg32 c NVME_REG_CC;
  match o with
  | None => ret (inl RWRegError)
  | Some v =>
      _ ← write_reg32 c NVME_REG_CC (Z.land v (unot 32 NVME_CC_EN));
      wait_ready c false (Z.to_nat NVME_RESET_TIMEOUT_MS) sleep
  end.

(** [init] up to the test for the NVM command set; [enable] stands for the
    admin queue and the enable bit after it. *)
Definition init (enable : NVMeController → Z → io machine ((NVMeError + unit) * NVMeController))
    (c : NVMeController) : io machine ((NVMeError + unit) * NVMeController) :=
  o ← read_reg64 c NVME_REG_CAP;
  match o with
  | None => ret (inl RWRegError, c)
  | Some cap =>
      mqe ← lift (wrap 16 cap +[16] 1);
      st ← lift (checked_shl32 4 (wrap 8 (Z.shiftr cap 32)));
      let mpsmin := wrap 8 (Z.shiftr cap 48) in
      n ← lift (12 +[8] mpsmin);
      ps ← lift (checked_shl32 1 n);
      let c := mkController (pci_dev c) (bar0 c) st ps mqe (enabled c) (namespaces c) (next_cmd_id c) in
      let nvm_supported := Z.land (Z.shiftr cap 37) 1 in
      if nvm_supported =? 0 then ret (inl InitFailed, c) else enable c cap
  end.

(** ** Queues *)

(** One ring: its pages, zeroed. *)
Definition alloc_ring (bytes : Z) : io machine (option Z) :=
  n ← lift (bytes +[64] 4096);
  n ← lift (n -[64] 1);
  let pages := n / 4096 in
  o ← on_pages (λ st mp f, alloc_pages st mp f pages);
  match o with
  | None => ret None
  | Some v =>
      mem ← get memory;
      _ ← set_memory (write_bytes mem v (replicate (Z.to_nat bytes) 0));
      ret (Some v)
  end.

(** The two rings have the size of the submission ring. *)
Definition alloc_queue (c : NVMeController) (q : NVMeQueue) (qid_ size_ : Z) :
    io machine ((NVMeError + unit) * NVMeQueue) :=
  let q := mkQueue (sq_cmds q) (cqes q) (sq_db q) (cq_db q) 0 0 qid_ size_ 0 in
  o ← alloc_ring (size_ * COMMAND_SIZE);
  match o with
  | None => ret (inl OutOfMemory, q)
  | Some sq =>
      let q := mkQueue sq (cqes q) (sq_db q) (cq_db q) 0 0 qid_ size_ 0 in
      o ← alloc_ring (size_ * COMMAND_SIZE);
      match o with
      | None => ret (inl OutOfMemory, q)
      | Some cq =>
          let doorbell_base := bar0 c + 0x1000 in
          (* [add] on [*mut u32]: four bytes a step *)
          let '(sdb, cdb) :=
            if qid_ =? 0 then (doorbell_base, doorbell_base + 4 * stride c)
            else (doorbell_base + 4 * (2 * qid_ * stride c), doorbell_base + 4 * ((2 * qid_ + 1) * stride c)) in
          ret (inr (), mkQueue sq cq sdb cdb 0 0 qid_ size_ 0)
      end
  end.

(** [free_queue]; an error of [free] is only logged.  Each caller passes the
    address of a field, so that the test for a null queue never fires. *)
Definition free_at (p bytes : Z) : io machine (UnmapError (M:=MP) + unit) :=
  v ← lift (virt_new p);
  on_mapper (λ mp, free mp v bytes).

Definition free_ring (p bytes : Z) : io machine unit := _ ← free_at p bytes; ret ().

Definition free_queue (q : NVMeQueue) : io machine ((NVMeError + unit) * NVMeQueue) :=
  q ← (if negb (sq_cmds q =? 0) then
         _ ← free_ring (sq_cmds q) (q_depth q * COMMAND_SIZE + 4096 - 1);
         ret (mkQueue 0 (cqes q) (sq_db q) (cq_db q) (sq_tail q) (cq_head q) (qid q) (q_depth q) (cq_phase q))
       else ret q);
  q ← (if negb (cqes q =? 0) then
         _ ← free_ring (cqes q) (q_depth q * COMPLETION_SIZE + 4096 - 1);
         ret (mkQueue (sq_cmds q) 0 (sq_db q) (cq_db q) (sq_tail q) (cq_head q) (qid q) (q_depth q) (cq_phase q))
       else ret q);
  ret (inr (), q).

(** ** Completions *)

(** The entry at the head of the ring, in memory as the device leaves it. *)
Definition cqe_field (mem : Z → Z) (q : NVMeQueue) (offset : Z) : Z :=
  le_value (read_bytes mem (cqes q + COMPLETION_SIZE * cq_head q + offset) 2).

(** One look: the entry with the phase and the number waited for, if it is that.
    [copy]: what becomes of a [completion] that is not null, nothing else. *)
Definition look (copy : io machine unit) (q : NVMeQueue) (cmd_id : Z) :
    io machine (option ((NVMeError + unit) * NVMeQueue)) :=
  mem ← get memory;
  let status := cqe_field mem q COMPLETION_STATUS in
  let phase_match := Z.land status 1 =? cq_phase q in
  let cmd_match := cqe_field mem q COMPLETION_ID =? cmd_id in
  if phase_match && cmd_match then
    _ ← copy;
    h ← lift (cq_head q +[16] 1);
    let '(h, ph) := if q_depth q <=? h then (0, Z.lxor (cq_phase q) 1) else (h, cq_phase q) in
    let q := mkQueue (sq_cmds q) (cqes q) (sq_db q) h (sq_tail q) h (qid q) (q_depth q) ph in
    let status_code := Z.shiftr (wrap 8 status) 1 in
    ret (Some (if negb (status_code =? NVME_SC_SUCCESS) then inl CommandFailed else inr (), q))
  else ret None.

(** The loop; [device]: what the device does before a look. *)
Fixpoint wait_loop (device copy : io machine unit) (timeout_loops : nat) (q : NVMeQueue) (cmd_id : Z) :
    io machine ((NVMeError + unit) * NVMeQueue) :=
  match timeout_loops with
  | O => ret (inl Timeout, q)
  | S n =>
      _ ← device;
      o ← look copy q cmd_id;
      match o with
      | Some r => ret r
      | None => wait_loop device copy n q cmd_id
      end
  end.

Definition wait_completion (device copy : io machine unit) (q : NVMeQueue) (cmd_id timeout_ms : Z) :
    io machine ((NVMeError + unit) * NVMeQueue) :=
  timeout_loops ← lift (timeout_ms *[32] 1000);
  wait_loop device copy (Z.to_nat timeout_loops) q cmd_id.

Definition get_next_cmd_id (c : NVMeController) : outcome (Z * NVMeController) :=
  cmd_id ← next_cmd_id c +[16] 1;
  let c := if next_cmd_id c =? 0
           then mkController (pci_dev c) (bar0 c) (stride c) (page_size c) (max_queue_entries c) (enabled c)
                  (namespaces c) 1
           else c in
  Ret (cmd_id, c).

(** The tail of the submission ring, after the copy. *)
Definition next_tail (q : NVMeQueue) : outcome Z :=
  if q_depth q <=? sq_tail q then sq_tail q +[16] 1 else Ret 0.

(** ** Namespaces and transfers *)

Definition get_namespace (c : NVMeController) (n : Z) : outcome (NVMeError + NVMeNamespace) :=
  if (n =? 0) || (256 <? n) then Ret (inl NamespaceNotFound)
  else ns ← index (namespaces c) (n - 1);
       Ret (if valid ns then inr ns else inl NamespaceNotFound).

(** The loop that fills the list of pages, [i] from 0. *)
Fixpoint prp_loop (prp_list buffer ps i : Z) (n : nat) (mem : Z → Z) : outcome (Z → Z) :=
  match n with
  | O => Ret mem
  | S n =>
      d ← i *[32] ps;
      v ← wrap 32 buffer +[32] d;
      j ← i -[64] 1;
      prp_loop prp_list buffer ps (i + 1) n
        (write_bytes mem (prp_list + 4 * j) [v mod 2 ^ 8; v / 2 ^ 8 mod 2 ^ 8; v / 2 ^ 16 mod 2 ^ 8; v / 2 ^ 24])
  end.

(** [read_blocks] and [write_blocks] up to the submission; they differ in how
    [cdw12] is cut, [cut]. *)
Definition prepare (cut : Z → Z) (c : NVMeController) (n lba num_blocks buffer : Z) :
    io machine (NVMeError + NVMeCommand) :=
  r ← lift (get_namespace c n);
  match r with
  | inl e => ret (inl e)
  | inr ns =>
      if negb (valid ns) then ret (inl InvalidParam) else
      last ← lift (num_blocks -[32] 1);
      let cmd p1 p2 :=
        mkCommand NVME_IO_READ 0 0 n 0 p1 p2 (wrap 32 lba) (wrap 32 (Z.shiftr lba 32)) (cut last) 0 0 0 in
      transfer_size ← lift (num_blocks *[32] lba_size ns);
      t ← lift (transfer_size +[32] page_size c);
      t ← lift (t -[32] 1);
      num_pages ← lift (if page_size c =? 0 then Panic ExplicitPanic else Ret (t / page_size c));
      let p1 := buffer - PMO in
      if num_pages =? 1 then ret (inr (cmd p1 0))
      else if num_pages =? 2 then
        p2 ← lift (buffer +[64] page_size c);
        p2 ← lift (p2 -[64] PMO);
        ret (inr (cmd p1 p2))
      else
        bytes ← lift (num_pages -[64] 1);
        bytes ← lift (bytes *[64] 8);
        o ← on_pages (λ st mp f, alloc st mp f bytes);
        match o with
        | None => ret (inl OutOfMemory)
        | Some prp_list =>
            mem ← get memory;
            mem ← lift (prp_loop prp_list buffer (page_size c) 0 (Z.to_nat num_pages) mem);
            _ ← set_memory mem;
            p2 ← lift (prp_list -[64] PMO);
            ret (inr (cmd p1 p2))
        end
  end.

Definition read_blocks_command := prepare id.
Definition write_blocks_command := prepare (λ v, Z.land v 0xFFFF).

(** What [submit_io_cmd] does to the command before it is submitted. *)
Definition submit_io (c : NVMeController) (cmd : NVMeCommand) (buffer : Z) : outcome (NVMeCommand * NVMeController) :=
  '(i, c) ← get_next_cmd_id c;
  '(p1, p2) ← (if negb (buffer =? 0) then p ← buffer -[64] PMO; Ret (p, 0) else Ret (prp1 cmd, prp2 cmd));
  Ret (mkCommand (opcode cmd) (flags cmd) i (nsid cmd) (metadata cmd) p1 p2 (cdw10 cmd) (cdw11 cmd) (cdw12 cmd)
         (cdw13 cmd) (cdw14 cmd) (cdw15 cmd), c).

(** What [submit_admin_cmd] does to the command before it is submitted. *)
Definition submit_admin (c : NVMeController) (cmd : NVMeCommand) (buffer : Z) : outcome (NVMeCommand * NVMeController) :=
  '(i, c) ← get_next_cmd_id c;
  p1 ← (if negb (buffer =? 0) then buffer +[64] PMO else Ret 0);
  Ret (mkCommand (opcode cmd) (flags cmd) i (nsid cmd) (metadata cmd) p1 0 (cdw10 cmd) (cdw11 cmd) (cdw12 cmd)
         (cdw13 cmd) (cdw14 cmd) (cdw15 cmd), c).

(** The commands of [create_cq] and [create_sq], which differ in the opcode, the
    ring and [cdw11]. *)
Definition create_command (op : Z) (ring : NVMeQueue → Z) (low : Z → Z) (io_queues : list NVMeQueue) (qid_ size_ : Z) :
    outcome NVMeCommand :=
  i ← qid_ -[64] 1;
  q ← index io_queues i;
  p1 ← ring q -[64] PMO;
  n ← size_ -[32] 1;
  Ret (mkCommand op 0 0 0 0 p1 0 (Z.lor n (shl 32 qid_ 16)) (low qid_) 0 0 0 0).

Definition create_cq_command := create_command NVME_ADMIN_CREATE_CQ cqes (λ _, 0x1).
Definition create_sq_command := create_command NVME_ADMIN_CREATE_SQ sq_cmds (λ q, Z.lor (shl 32 q 16) 0x1).

(** ** Device memory and the search for controllers *)

(** The two loops of [map_device_memory]; an error of the first is only logged. *)
Fixpoint unmap_loop (virt_base i : Z) (n : nat) : io machine unit :=
  match n with
  | O => ret ()
  | S n =>
      d ← lift (i *[64] 4096);
      a ← lift (virt_add virt_base d);
      _ ← on_mapper (λ mp, free mp a 4096);
      unmap_loop virt_base (i + 1) n
  end.

Fixpoint map_loop (virt_base phys_addr i : Z) (n : nat) : io machine (option unit) :=
  match n with
  | O => ret (Some ())
  | S n =>
      d ← lift (i *[64] 4096);
      virt_page ← lift (virt_base +[64] d);
      phys_page ← lift (phys_addr +[64] d);
      r ← on_mapper (λ mp, map_page mp virt_page phys_page (Z.lor PRESENT WRITABLE));
      match r with
      | inl _ => ret None
      | inr _ => map_loop virt_base phys_addr (i + 1) n
      end
  end.

Definition map_device_memory (phys_addr size_ : Z) : io machine (option Z) :=
  if phys_addr <? 0x100000000 then
    a ← lift (phys_addr +[64] PMO);
    v ← lift (virt_new a);
    ret (Some v)
  else
    let pages_needed := div_ceil size_ 4096 in
    o ← on_pages (λ st mp f, alloc_pages st mp f pages_needed);
    match o with
    | None => ret None
    | Some virt_base =>
        _ ← unmap_loop virt_base 0 (Z.to_nat pages_needed);
        o ← map_loop virt_base phys_addr 0 (Z.to_nat pages_needed);
        match o with
        | None => ret None
        | Some _ => ret (Some virt_base)
        end
    end.

Definition alloc_aligned_buffer (size_ : Z) : io machine (option Z) :=
  n ← lift (size_ +[64] 4096);
  n ← lift (n -[64] 1);
  let pages := n / 4096 in
  o ← on_pages (λ st mp f, alloc_pages st mp f pages);
  match o with
  | None => ret None
  | Some buf =>
      phys ← lift (buf -[64] PMO);
      if negb (Z.land phys (4096 - 1) =? 0) then
        bytes ← lift (pages *[64] 4096);
        r ← on_mapper (λ mp, free mp buf bytes);
        _ ← lift (expect r);
        ret None
      else ret (Some buf)
  end.

(** [probe_controller]; [raw]: what the memory of the controller holds. *)
Definition probe_controller (enable : NVMeController → Z → io machine ((NVMeError + unit) * NVMeController))
    (identify : Z → NVMeController → io machine (NVMeError + unit)) (raw : NVMeController) (dev : PCIDevice) :
    io machine (NVMeError + unit) :=
  o ← on_pages (λ st mp f, alloc st mp f CONTROLLER_SIZE);
  match o with
  | None => ret (inl OutOfMemory)
  | Some controller =>
      let c := mkController dev (bar0 raw) (stride raw) (page_size raw) (max_queue_entries raw) (enabled raw)
                 (namespaces raw) (next_cmd_id raw) in
      o ← on_hw (bar_address ecam dev 0);
      match o with
      | None => ret (inl InitFailed)
      | Some a =>
          a ← lift (a +[64] PMO);
          v ← lift (virt_new a);
          o ← new_frame;
          match o with
          | None => ret (inl InitFailed)
          | Some fr =>
              r ← map_frame (containing_address v) fr (Z.lor PRESENT WRITABLE);
              let failed := match r with inr _ => false | inl e => negb (PageAlreadyMapped e) end in
              if failed then ret (inl InitFailed) else
              b ← on_hw (enable_bus_master ecam dev);
              if negb b then ret (inl InitFailed) else
              '(r, c) ← init enable c;
              match r with
              | inl e =>
                  v ← lift (virt_new controller);
                  _ ← on_mapper (λ mp, free mp v CONTROLLER_SIZE);
                  ret (inl e)
              | inr _ => identify controller c
              end
          end
      end
  end.

Fixpoint init_loop (probe : PCIDevice → io machine (NVMeError + unit)) (devs : list PCIDevice) :
    io machine (NVMeError + unit) :=
  match devs with
  | [] => ret (inr ())
  | dev :: devs =>
      nvme ← (if (class_code dev =? NVME_PCI_CLASS) && (subclass dev =? NVME_PCI_SUBCLASS)
              then p ← on_hw (prog_if ecam dev); ret (p =? NVME_PCI_PROG_IF) else ret false);
      if nvme : bool then
        r ← probe dev;
        match r with
        | inl e => ret (inl e)
        | inr _ => init_loop probe devs
        end
      else init_loop probe devs
  end.

Definition nvme_init (probe : PCIDevice → io machine (NVMeError + unit)) : io machine (NVMeError + unit) :=
  devs ← on_hw (scan_pci_bus ecam);
  init_loop probe devs.
End nvme.
Arguments machine : clear implicits.

(** ** Steps of the machine *)

Section machines.
Context {H : Type} `{Hardware H} `{X86} {MP : Type} `{Mapper MP} {F : Type} `{FrameAllocator F}.
Abbreviation M := (machine H MP F).
Implicit Types (m : M) (d : PCIDevice).

Definition with_hw m (h : H) : M := mkMachine (statics m) (mapper m) (frames m) (memory m) h.

Lemma on_hw_Ret {A} (op : io H A) m a h : op (hw m) = Ret (a, h) → on_hw op m = Ret (a, with_hw m h).
Proof. intros Hop. unfold on_hw. by rewrite Hop. Qed.

Context {ecam : Z} `{!ConfigSpace H ecam}.

(** [read_bar] of BAR 0: the raw register, its type bits included. *)
Lemma read_bar0 d m :
  dev_ok d → ∃ h fl, on_hw (read_bar ecam d 0) m =
    Ret (Some (config ecam (hw m) (dkey d 0x10), fl.1, fl.2), with_hw m h) ∧ config ecam h = config ecam (hw m).
Proof.
  intros Hd. destruct (read_config_spec d (0x10 + 0 * 4) (hw m) Hd) as (h & Hr & Hc); [done|].
  exists h. eexists (_, _). split; [|exact Hc]. apply on_hw_Ret. unfold read_bar.
  rewrite (proj2 (Z.ltb_ge _ _)) by lia. by rewrite (io_bind_Ret _ _ _ _ _ Hr).
Qed.

(** A 32-bit register access answers the address of the register. *)
Lemma read_reg32_address (c : NVMeController) off m :
  dev_ok (pci_dev c) → in_width 32 (config ecam (hw m) (dkey (pci_dev c) 0x10) + off) →
  ∃ h, read_reg32 ecam c off m = Ret (Some (config ecam (hw m) (dkey (pci_dev c) 0x10) + off), with_hw m h) ∧
       config ecam h = config ecam (hw m).
Proof.
  intros Hd Hw. destruct (read_bar0 (pci_dev c) m Hd) as (h & fl & Hr & Hc). exists h. split; [|done].
  unfold read_reg32. rewrite (io_bind_Ret _ _ _ _ _ Hr). cbn [fst snd]. by rewrite checked_ok, io_bind_lift by done.
Qed.

Lemma write_reg32_value (c : NVMeController) off v m :
  dev_ok (pci_dev c) → in_width 32 (config ecam (hw m) (dkey (pci_dev c) 0x10) + off) →
  ∃ h, write_reg32 ecam c off v m = Ret (Some v, with_hw m h) ∧ config ecam h = config ecam (hw m).
Proof.
  intros Hd Hw. destruct (read_bar0 (pci_dev c) m Hd) as (h & fl & Hr & Hc). exists h. split; [|done].
  unfold write_reg32. rewrite (io_bind_Ret _ _ _ _ _ Hr). cbn [fst snd]. by rewrite checked_ok, io_bind_lift by done.
Qed.

(** The two status bits of the address of CSTS. *)
Lemma csts_bits bar : 0 ≤ bar → bar mod 4 = 0 →
  Z.land (bar + NVME_REG_CSTS) NVME_CSTS_RDY = 0 ∧ Z.land (bar + NVME_REG_CSTS) NVME_CSTS_CFS = 0.
Proof.
  intros Hb Hm. unfold NVME_REG_CSTS, NVME_CSTS_RDY, NVME_CSTS_CFS.
  assert (E : bar + 0x1C = Z.shiftl (bar / 4 + 7) 2).
  { rewrite Z.shiftl_mul_pow2 by lia. Z.to_euclidean_division_equations; lia. }
  rewrite E.
  split; apply Z.eqb_eq; rewrite testbit_land_pow2, negb_true_iff by lia; by apply Z.shiftl_spec_low.
Qed.
End machines.

(** ** The start of a controller *)

Lemma shift_overflows cap : Z.testbit cap 37 = true → checked_shl32 4 (wrap 8 (Z.shiftr cap 32)) = Panic ArithmeticOverflow.
Proof.
  intros Hb. unfold checked_shl32. rewrite (proj2 (Z.ltb_ge _ _)); [done|]. apply Z.nlt_ge. intros Hlt.
  pose proof (wrap_in_width 8 (Z.shiftr cap 32) ltac:(lia)) as [Hw _].
  assert (Z.testbit (wrap 8 (Z.shiftr cap 32)) 5 = false) as Hf.
  { apply (testbit_above 5); [|done]. split; [done|]. by change (2 ^ 5) with 32. }
  rewrite wrap_testbit, Z.shiftr_spec in Hf by lia. change (5 + 32) with 37 in Hf. congruence.
Qed.

Lemma nvm_bit cap : (Z.land (Z.shiftr cap 37) 1 =? 0) = negb (Z.testbit cap 37).
Proof.
  change 1 with (Z.shiftl 1 0). rewrite testbit_land_pow2, Z.shiftr_spec by lia. done.
Qed.

Section starts.
Context {H : Type} `{Hardware H} `{X86} {MP : Type} `{Mapper MP} {F : Type} `{FrameAllocator F}.
Abbreviation M := (machine H MP F).
Implicit Types (m : M).

(** [init] never returns [Ok], and never enables the controller. *)
Lemma init_fails ecam enable (c : NVMeController) m r c' m' :
  init ecam enable c m = Ret ((r, c'), m') → ∃ e, r = inl e.
Proof.
  unfold init. intros (o & m1 & E1 & E)%io_bind_inv. destruct o as [cap|]; [|unfold ret in E; simplify_eq; by eexists].
  apply io_bind_inv in E as (mqe & m2 & [E2 ->]%lift_inv & E).
  apply io_bind_inv in E as (st & m3 & [E3 ->]%lift_inv & E).
  destruct (Z.testbit cap 37) eqn:Hb; [by rewrite shift_overflows in E3|].
  apply io_bind_inv in E as (n & m4 & [E4 ->]%lift_inv & E).
  apply io_bind_inv in E as (ps & m5 & [E5 ->]%lift_inv & E).
  rewrite nvm_bit, Hb in E. unfold ret in E. cbn in E. simplify_eq. by eexists.
Qed.

Lemma probe_fails PMO ecam already size_ enable identify raw d m r m' :
  probe_controller PMO ecam already size_ enable identify raw d m = Ret (r, m') → ∃ e, r = inl e.
Proof.
  unfold probe_controller. intros E.
  repeat match type of E with
  | (init _ _ _ ≫= _) _ = _ => apply io_bind_inv in E as ([r1 c1] & m1 & E1 & E); apply init_fails in E1 as [e ->]
  | (_ ≫= _) _ = Ret _ => apply io_bind_inv in E as (? & ? & _ & E)
  | ret _ _ = Ret _ => unfold ret in E; simplify_eq; by eexists
  | context [match ?x with _ => _ end] => destruct x
  end.
Qed.
End starts.

(** The functions [nvme_init] probes. *)
Definition is_nvme (c : Z → Z) (d : PCIDevice) : bool :=
  (class_code d =? NVME_PCI_CLASS) && (subclass d =? NVME_PCI_SUBCLASS) &&
  (Z.land (Z.shiftr (c (dkey d 8)) 8) 0xFF =? NVME_PCI_PROG_IF).

Section search.
Context {H : Type} `{Hardware H} `{X86} {MP : Type} `{Mapper MP} {F : Type} `{FrameAllocator F}.
Context {ecam : Z} `{!ConfigSpace H ecam}.
Abbreviation M := (machine H MP F).
Implicit Types (m : M).
Context (probe : PCIDevice → io M (NVMeError + unit)).
Context (probe_err : ∀ d m r m', probe d m = Ret (r, m') → ∃ e, r = inl e).

(** One turn of the loop. *)
Lemma init_loop_step d devs m :
  dev_ok d → ∃ h, config ecam h = config ecam (hw m) ∧
    init_loop ecam probe (d :: devs) m =
      if is_nvme (config ecam (hw m)) d
      then (r ← probe d; match r with inl e => ret (inl e) | inr _ => init_loop ecam probe devs end) (with_hw m h)
      else init_loop ecam probe devs (with_hw m h).
Proof.
  intros Hd. cbn [init_loop]. unfold is_nvme. destruct ((_ =? _) && (_ =? NVME_PCI_SUBCLASS)); cbn [andb].
  2: { exists (hw m). split; [done|]. rewrite io_bind_ret. by destruct m. }
  destruct (read_config_spec d 8 (hw m) Hd) as (h & Hr & Hc); [done|]. exists h. split; [done|].
  assert (E : on_hw (prog_if ecam d) m =
    Ret (Z.land (Z.shiftr (config ecam (hw m) (dkey d 8)) 8) 0xFF, with_hw m h)).
  { apply on_hw_Ret. unfold prog_if. by rewrite (io_bind_Ret _ _ _ _ _ Hr). }
  assert (E' : ∀ k, ((p ← on_hw (prog_if ecam d); ret (p =? NVME_PCI_PROG_IF)) ≫= k : io M (NVMeError + unit)) m =
    k (Z.land (Z.shiftr (config ecam (hw m) (dkey d 8)) 8) 0xFF =? NVME_PCI_PROG_IF) (with_hw m h)).
  { intros k. unfold mbind at 1, io_bind. by rewrite (io_bind_Ret _ _ _ _ _ E). }
  rewrite E'. by destruct (_ =? _).
Qed.

Lemma init_loop_none devs m :
  Forall dev_ok devs → existsb (is_nvme (config ecam (hw m))) devs = false →
  ∃ h, init_loop ecam probe devs m = Ret (inr (), with_hw m h) ∧ config ecam h = config ecam (hw m).
Proof.
  intros Hall. revert m. induction Hall as [|d devs Hd Hall IH]; intros m Hn.
  { exists (hw m). split; [by destruct m|done]. }
  destruct (init_loop_step d devs m Hd) as (h & Hc & ->). cbn [existsb] in Hn.
  apply orb_false_iff in Hn as [-> Hn]. destruct (IH (with_hw m h)) as (h' & Hl & Hc'); cbn [with_hw hw] in *;
    [by rewrite Hc|]. exists h'. rewrite Hl. split; [done|congruence].
Qed.

Lemma init_loop_some devs m r m' :
  Forall dev_ok devs → existsb (is_nvme (config ecam (hw m))) devs = true →
  init_loop ecam probe devs m = Ret (r, m') → ∃ e, r = inl e.
Proof.
  intros Hall. revert m. induction Hall as [|d devs Hd Hall IH]; intros m Hn Hr; [done|].
  destruct (init_loop_step d devs m Hd) as (h & Hc & E). rewrite E in Hr. clear E. cbn [existsb] in Hn.
  destruct (is_nvme _ d); cbn [orb] in Hn.
  - apply io_bind_inv in Hr as (r1 & m1 & [e ->]%probe_err & Hr). unfold ret in Hr. simplify_eq. by eexists.
  - apply (IH (with_hw m h)); [cbn [with_hw hw]; by rewrite Hc|done].
Qed.
End search.

(** ** Commands *)

Lemma split_words v : in_width 64 v → wrap 32 v + 2 ^ 32 * wrap 32 (Z.shiftr v 32) = v.
Proof.
  intros [H0 H1]. unfold wrap. rewrite Z.shiftr_div_pow2 by lia.
  rewrite (Z.mod_small (v / 2 ^ 32)); [pose proof (Z.div_mod v (2 ^ 32)); lia|].
  split; [apply Z.div_pos; lia|]. apply Z.div_lt_upper_bound; lia.
Qed.

(** A command with a buffer: a number that stays at most 2 and a first page. *)
Lemma submit_io_exact PMO (c : NVMeController) (cmd : NVMeCommand) buffer :
  0 ≤ PMO ≤ buffer → 0 < buffer < 2 ^ 64 → 0 ≤ next_cmd_id c < 2 ^ 16 - 1 →
  submit_io PMO c cmd buffer =
    Ret (mkCommand (opcode cmd) (flags cmd) (next_cmd_id c + 1) (nsid cmd) (metadata cmd) (buffer - PMO) 0
           (cdw10 cmd) (cdw11 cmd) (cdw12 cmd) (cdw13 cmd) (cdw14 cmd) (cdw15 cmd),
         mkController (pci_dev c) (bar0 c) (stride c) (page_size c) (max_queue_entries c) (enabled c)
           (namespaces c) (Z.max 1 (next_cmd_id c))).
Proof.
  intros HP Hb Hid. unfold submit_io, get_next_cmd_id. checked_step.
  rewrite (proj2 (Z.eqb_neq buffer 0)) by lia. cbn [negb]. rewrite checked_ok by (unfold in_width; lia).
  rewrite !bind_Ret. destruct (Z.eqb_spec (next_cmd_id c) 0) as [E|E].
  - by rewrite E.
  - rewrite Z.max_r by lia. by destruct c.
Qed.

(** ** Rings *)

Lemma map_pages_app base frs1 frs2 fl pm :
  map_pages base (frs1 ++ frs2) fl pm = map_pages (base + 4096 * zlen frs1) frs2 fl (map_pages base frs1 fl pm).
Proof.
  revert base pm. induction frs1 as [|fr frs1 IH]; intros base pm; cbn [app map_pages].
  - f_equal. unfold zlen. cbn. lia.
  - rewrite IH, zlen_cons. f_equal. lia.
Qed.

Section rings.
Context {H : Type} `{Hardware H} `{X86Laws} {MP : Type} `{MapperLaws MP} {F : Type} `{FrameContract F}.
Abbreviation M := (machine H MP F).
Implicit Types (m : M).

Definition ring_pages (bytes : Z) : Z := (bytes + 4096 - 1) / 4096.

Lemma alloc_pages_maps n k m :
  let base := NEXT_VIRT (statics m) in
  1 ≤ n → 0 ≤ k → region_ok base n → frames_for (frames m) (n + k) → fresh_range (mapper m) base n →
  ∃ mp f frs, on_pages (λ st mp f, alloc_pages st mp f n) m =
      Ret (Some base, mkMachine (mkStatics (base + 4096 * n) (NEXT_VIRT_USER (statics m))) mp f (memory m) (hw m)) ∧
    zlen frs = n ∧ page_map mp = map_pages base frs (Z.lor PRESENT WRITABLE) (page_map (mapper m)) ∧
    frames_for f k ∧ (∀ p, huge mp p → huge (mapper m) p).
Proof.
  intros base Hn Hk Hreg Hf Hfr. pose proof Hreg as (Hal & Hb0 & Hend & Hcan).
  destruct (alloc_pages_region_more (mapper m) (frames m) base (Z.lor PRESENT WRITABLE) n k)
    as (mp & f & frs & Hl & Hlen & Hpm & _ & Hf' & Hh); [lia|done..|].
  exists mp, f, frs. split; [|by split_and!].
  unfold on_pages, alloc_pages. fold base. do 2 (rewrite checked_ok, bind_Ret by (unfold in_width; lia)).
  rewrite Hl, bind_Ret. rewrite virt_new_ok by (specialize (Hcan 0); rewrite Z.add_0_r in Hcan; apply Hcan; lia).
  rewrite !bind_Ret. by replace (n * 4096) with (4096 * n) by lia.
Qed.

Lemma alloc_ring_maps bytes k m :
  let base := NEXT_VIRT (statics m) in
  let n := ring_pages bytes in
  0 < bytes < 2 ^ 63 → 0 ≤ k → region_ok base n → frames_for (frames m) (n + k) → fresh_range (mapper m) base n →
  ∃ mp f mem frs, alloc_ring bytes m =
      Ret (Some base, mkMachine (mkStatics (base + 4096 * n) (NEXT_VIRT_USER (statics m))) mp f mem (hw m)) ∧
    zlen frs = n ∧ page_map mp = map_pages base frs (Z.lor PRESENT WRITABLE) (page_map (mapper m)) ∧
    frames_for f k ∧ (∀ p, huge mp p → huge (mapper m) p).
Proof.
  intros base n Hb Hk Hreg Hf Hfr.
  assert (Hn : 1 ≤ n) by (unfold n, ring_pages; Z.to_euclidean_division_equations; lia).
  destruct (alloc_pages_maps n k m) as (mp & f & frs & Ha & Hl); [done..|].
  exists mp, f. eexists _, frs. split; [|exact Hl]. unfold alloc_ring.
  do 2 (rewrite checked_ok, io_bind_lift by (unfold in_width; lia)). fold (ring_pages bytes). fold n.
  by rewrite (io_bind_Ret _ _ _ _ _ Ha).
Qed.

Lemma free_at_mapped p bytes n frs fl pm m :
  div_ceil bytes 4096 = n → 0 < n → 0 < p → 0 < bytes → region_ok p n → n ≤ zlen frs →
  page_map (mapper m) = map_pages p frs fl pm → (∀ i, 0 ≤ i < zlen frs → pm !! (p + 4096 * i) = None) →
  ∃ mp, free_at p bytes m = Ret (inr (), mkMachine (statics m) mp (frames m) (memory m) (hw m)) ∧
    page_map mp = map_pages (p + 4096 * n) (drop (Z.to_nat n) frs) fl pm.
Proof.
  intros Hn Hn0 Hp Hb Hreg Hlen Hpm Hnone. pose proof Hreg as (Hal & Hp0 & Hend & Hcan).
  unfold zlen in Hlen, Hnone.
  destruct (free_loop_unmaps p (Z.to_nat n) 0 (mapper m)) as (mp & Hl & Hpm').
  - done.
  - by rewrite Z.add_0_l, Z2Nat.id by lia.
  - intros j Hj. destruct (lookup_lt_is_Some_2 frs (Z.to_nat j)) as [fr Hfr]; [lia|].
    exists (fr, fl). rewrite Hpm, <- (map_pages_lookup p _ fl pm _ _ Hfr). f_equal. lia.
  - exists mp. split.
    + unfold free_at. rewrite virt_new_ok by (specialize (Hcan 0); rewrite Z.add_0_r in Hcan; apply Hcan; lia).
      rewrite io_bind_lift. unfold on_mapper, free.
      rewrite (proj2 (Z.eqb_neq p 0)), (proj2 (Z.eqb_neq bytes 0)) by lia. cbn [orb]. by rewrite Hn, Hl.
    + rewrite Z.mul_0_r, Z.add_0_r, Hpm in Hpm'. rewrite Hpm', <- (take_drop (Z.to_nat n) frs) at 1.
      assert (Ht : length (take (Z.to_nat n) frs) = Z.to_nat n) by (rewrite length_take; lia).
      rewrite <- Ht at 1. rewrite unmap_map_pages; [by unfold zlen; rewrite Ht, Z2Nat.id by lia|].
      intros i Hi. apply Hnone. unfold zlen in Hi. lia.
Qed.

(** The first page is not mapped: [free] leaves by its error. *)
Lemma free_at_unmapped p bytes m :
  0 < p → 0 < bytes → page_aligned p → canonical p → p < 2 ^ 64 → page_map (mapper m) !! p = None →
  ∃ e mp, free_at p bytes m = Ret (inl e, mkMachine (statics m) mp (frames m) (memory m) (hw m)) ∧
    page_map mp = page_map (mapper m).
Proof.
  intros Hp Hb Hal Hcan Hlt Hnone. destruct (unmap_unmapped (mapper m) p Hnone) as (e & mp & Hu & Hpm).
  exists e, mp. split; [|done]. unfold free_at. rewrite virt_new_ok, io_bind_lift by done.
  unfold on_mapper, free.
  rewrite (proj2 (Z.eqb_neq p 0)), (proj2 (Z.eqb_neq bytes 0)) by lia. cbn [orb].
  assert (Hn : ∃ k, Z.to_nat (div_ceil bytes 4096) = S k).
  { exists (Z.to_nat (div_ceil bytes 4096 - 1)). unfold div_ceil. Z.to_euclidean_division_equations; lia. }
  destruct Hn as [k ->]. cbn [free_loop]. rewrite checked_ok, bind_Ret by done.
  rewrite virt_add_ok, bind_Ret by (rewrite ?Z.add_0_r; done || lia).
  rewrite Z.add_0_r, containing_address_aligned by (lia || done). by rewrite Hu.
Qed.

Lemma queue_pages size_ :
  0 < size_ < 2 ^ 16 → 1 ≤ ring_pages (64 * size_) ∧ (ring_pages (64 * size_) = 1 ↔ size_ ≤ 64).
Proof. unfold ring_pages. intros Hs. Z.to_euclidean_division_equations; lia. Qed.

(** The rings of a queue lie one after the other. *)
Lemma alloc_queue_maps (c : NVMeController) (q : NVMeQueue) id_ size_ m :
  let base := NEXT_VIRT (statics m) in
  let p := ring_pages (64 * size_) in
  0 < size_ < 2 ^ 16 → region_ok base (2 * p) → frames_for (frames m) (2 * p) → fresh_range (mapper m) base (2 * p) →
  ∃ q' m' frs, alloc_queue c q id_ size_ m = Ret ((inr (), q'), m') ∧ zlen frs = 2 * p ∧
    q' = mkQueue base (base + 4096 * p) (sq_db q') (cq_db q') 0 0 id_ size_ 0 ∧
    page_map (mapper m') = map_pages base frs (Z.lor PRESENT WRITABLE) (page_map (mapper m)) ∧
    sq_db q' = bar0 c + 0x1000 + (if id_ =? 0 then 0 else 8 * (id_ * stride c)).
Proof.
  intros base p Hs Hreg Hf Hfr. destruct (queue_pages size_ Hs) as [Hp _]. fold p in Hp.
  replace (2 * p) with (p + p) in * by lia.
  apply region_ok_split in Hreg as [Hreg1 Hreg2]; [|lia..]. apply fresh_range_split in Hfr as Hfr'; [|lia..].
  destruct Hfr' as [Hfr1 Hfr2]. unfold alloc_queue, COMMAND_SIZE. replace (size_ * 64) with (64 * size_) by lia.
  destruct (alloc_ring_maps (64 * size_) p m) as (mp1 & f1 & mem1 & frs1 & E1 & Hl1 & Hpm1 & Hf1 & Hh1);
    [lia|lia|done..|]. fold p base in E1, Hl1, Hpm1. rewrite (io_bind_Ret _ _ _ _ _ E1).
  destruct (alloc_ring_maps (64 * size_) 0
     (mkMachine (mkStatics (base + 4096 * p) (NEXT_VIRT_USER (statics m))) mp1 f1 mem1 (hw m)))
     as (mp2 & f2 & mem2 & frs2 & E2 & Hl2 & Hpm2 & _ & _); cbn [statics NEXT_VIRT mapper frames]; fold p;
    [lia|lia|done|by rewrite Z.add_0_r| |].
  { rewrite <- Hl1. eapply fresh_range_behind; [exact Hpm1|exact Hh1|]. by rewrite Hl1. }
  fold p in E2, Hl2, Hpm2. cbn [statics NEXT_VIRT NEXT_VIRT_USER mapper] in E2, Hpm2.
  rewrite (io_bind_Ret _ _ _ _ _ E2). cbv zeta.
  assert (Hm : page_map mp2 = map_pages base (frs1 ++ frs2) (Z.lor PRESENT WRITABLE) (page_map (mapper m))).
  { rewrite Hpm2, Hpm1, map_pages_app, Hl1. done. }
  destruct (id_ =? 0); eexists _, _, (frs1 ++ frs2); (split; [reflexivity|]); rewrite zlen_app; cbn [sq_db cq_db mapper];
    (split_and!; [lia|done|exact Hm|lia]).
Qed.

(** The submission ring goes with the first page of the completion ring. *)
Lemma free_queue_unmaps (q : NVMeQueue) size_ base frs pm m :
  let p := ring_pages (64 * size_) in
  sq_cmds q = base → cqes q = base + 4096 * p → q_depth q = size_ →
  0 < size_ < 2 ^ 16 → 0 < base → region_ok base (2 * p) → zlen frs = 2 * p →
  page_map (mapper m) = map_pages base frs (Z.lor PRESENT WRITABLE) pm →
  (∀ i, 0 ≤ i < 2 * p → pm !! (base + 4096 * i) = None) →
  ∃ q' m', free_queue q m = Ret ((inr (), q'), m') ∧ sq_cmds q' = 0 ∧ cqes q' = 0 ∧
    page_map (mapper m') = map_pages (base + 4096 * (p + 1)) (drop (Z.to_nat (p + 1)) frs) (Z.lor PRESENT WRITABLE) pm.
Proof.
  intros p Hsq Hcq Hd Hs Hb (Hal & Hb0 & Hend & Hcan) Hl Hpm Hnone. destruct (queue_pages size_ Hs) as [Hp _]. fold p in Hp.
  unfold free_queue, COMMAND_SIZE, COMPLETION_SIZE. rewrite Hsq, Hd.
  rewrite (proj2 (Z.eqb_neq base 0)) by lia. cbn [negb].
  destruct (free_at_mapped base (size_ * 64 + 4096 - 1) (p + 1) frs (Z.lor PRESENT WRITABLE) pm m) as (mp3 & E3 & Hpm3).
  - unfold div_ceil, p, ring_pages. Z.to_euclidean_division_equations; lia.
  - lia.
  - done.
  - lia.
  - split_and!; [done|done|lia|]. intros i Hi. apply Hcan. lia.
  - lia.
  - exact Hpm.
  - rewrite Hl. exact Hnone.
  - assert (Hn : page_map mp3 !! (base + 4096 * p) = None).
    { rewrite Hpm3, map_pages_below by lia. apply Hnone. lia. }
    destruct (free_at_unmapped (base + 4096 * p) (size_ * 16 + 4096 - 1)
      (mkMachine (statics m) mp3 (frames m) (memory m) (hw m))) as (err & mp4 & E4 & Hpm4);
      [lia|lia|by apply page_aligned_step|apply Hcan; lia|lia|done|].
    eexists _, _. split.
    { unfold free_ring. rewrite !io_bind_assoc, (io_bind_Ret _ _ _ _ _ E3). rewrite !io_bind_ret. cbn [cqes sq_cmds q_depth].
      rewrite Hcq, (proj2 (Z.eqb_neq (base + 4096 * p) 0)) by lia. cbn [negb].
      rewrite !io_bind_assoc, (io_bind_Ret _ _ _ _ _ E4). rewrite !io_bind_ret. reflexivity. }
    cbn [sq_cmds cqes mapper] in *. split_and!; [done|done|by rewrite Hpm4, Hpm3].
Qed.
End rings.

(** ** Properties *)

Section theorems.
Context {H : Type} `{Hardware H} `{X86Laws} {MP : Type} `{MapperLaws MP} {F : Type} `{FrameContract F}.
Context {ecam : Z} `{!ConfigSpace H ecam}.
Abbreviation M := (machine H MP F).
Implicit Types (m : M).

(** No register of the device is read: the status register reads as its own
    address, in which the ready bit and the failure bit are clear.  So [reset]
    succeeds at once, whatever the device does, and waiting for the controller to
    get ready times out after its last look, however long the sleeps. *)
Theorem controller_state_never_seen (c : NVMeController) m (sleep : io M unit) (n : nat) :
  let bar := config ecam (hw m) (dkey (pci_dev c) 0x10) in
  dev_ok (pci_dev c) → bar mod 4 = 0 → 0 ≤ bar < 2 ^ 32 - 0x1C →
  (∀ m, ∃ m', sleep m = Ret ((), m') ∧ config ecam (hw m') = config ecam (hw m)) →
  (∃ m', reset ecam c sleep m = Ret (inr (), m') ∧ config ecam (hw m') = config ecam (hw m)) ∧
  (∃ m', wait_ready ecam c true n sleep m = Ret (inl Timeout, m') ∧ config ecam (hw m') = config ecam (hw m)).
Proof.
  intros bar Hd Hm Hb Hsleep. subst bar.
  destruct (csts_bits (config ecam (hw m) (dkey (pci_dev c) 0x10))) as [Hrdy Hcfs]; [lia|done|]. split.
  - destruct (read_reg32_address c NVME_REG_CC m Hd) as (h1 & E1 & Hc1); [unfold in_width, NVME_REG_CC; lia|].
    unfold reset. rewrite (io_bind_Ret _ _ _ _ _ E1).
    destruct (write_reg32_value c NVME_REG_CC (Z.land (config ecam (hw m) (dkey (pci_dev c) 0x10) + NVME_REG_CC)
                (unot 32 NVME_CC_EN)) (with_hw m h1) Hd) as (h2 & E2 & Hc2);
      [cbn [with_hw hw]; rewrite Hc1; unfold in_width, NVME_REG_CC; lia|].
    rewrite (io_bind_Ret _ _ _ _ _ E2).
    change (Z.to_nat NVME_RESET_TIMEOUT_MS) with (S (Z.to_nat (NVME_RESET_TIMEOUT_MS - 1))). cbn [wait_ready].
    destruct (read_reg32_address c NVME_REG_CSTS (with_hw (with_hw m h1) h2) Hd) as (h3 & E3 & Hc3);
      [cbn [with_hw hw] in *; rewrite Hc2, Hc1; unfold in_width, NVME_REG_CSTS; lia|].
    rewrite (io_bind_Ret _ _ _ _ _ E3). cbn [with_hw hw] in *. rewrite Hc2, Hc1, Hrdy. cbn [Z.eqb negb Bool.eqb].
    eexists. split; [reflexivity|]. cbn [with_hw hw] in *. congruence.
  - revert m Hm Hb Hrdy Hcfs. induction n as [|n IH]; intros m Hm Hb Hrdy Hcfs; cbn [wait_ready].
    { by exists m. }
    destruct (read_reg32_address c NVME_REG_CSTS m Hd) as (h1 & E1 & Hc1); [unfold in_width, NVME_REG_CSTS; lia|].
    rewrite (io_bind_Ret _ _ _ _ _ E1), Hrdy, Hcfs. cbn [Z.eqb negb Bool.eqb].
    destruct (Hsleep (with_hw m h1)) as (m2 & E2 & Hc2). rewrite (io_bind_Ret _ _ _ _ _ E2).
    cbn [with_hw hw] in Hc2. destruct (IH m2) as (m' & Hw & Hc); [by rewrite Hc2, Hc1..|].
    exists m'. split; [done|congruence].
Qed.

(** [init] reads its capabilities from memory at the address in BAR 0 and
    has four ends there, none of them [Ok]: a BAR with a type bit set (a 64-bit
    one, say) is a misaligned pointer; a queue of 65536 entries overflows the
    [u16]; the bit that says that the NVM command set is there (bit 37) is part
    of the amount [4] is shifted by, and makes that shift overflow; without the
    bit, initialisation fails as the code says. *)
Theorem init_exact (enable : NVMeController → Z → io M ((NVMeError + unit) * NVMeController)) (c : NVMeController) m :
  let bar := config ecam (hw m) (dkey (pci_dev c) 0x10) in
  let cap := le_value (read_bytes (memory m) bar 8) in
  dev_ok (pci_dev c) → in_width 32 bar → in_width 64 cap →
  if negb (bar mod 8 =? 0) then init ecam enable c m = Panic MisalignedPointer
  else if (cap mod 2 ^ 16 =? 2 ^ 16 - 1) || Z.testbit cap 37 then init ecam enable c m = Panic ArithmeticOverflow
  else wrap 8 (Z.shiftr cap 32) < 32 → wrap 8 (Z.shiftr cap 48) < 20 →
    ∃ c' h, init ecam enable c m = Ret ((inl InitFailed, c'), with_hw m h) ∧
      config ecam h = config ecam (hw m) ∧ max_queue_entries c' = cap mod 2 ^ 16 + 1 ∧
      page_size c' = 2 ^ (12 + wrap 8 (Z.shiftr cap 48)).
Proof.
  intros bar cap Hd Hb Hcap. destruct (read_bar0 (pci_dev c) m Hd) as (h & fl & Hr & Hc). fold bar in Hr.
  unfold init, read_reg64. assert (Hadd : (bar +[32] NVME_REG_CAP) = Ret bar).
  { unfold NVME_REG_CAP. rewrite Z.add_0_r. by apply checked_ok. }
  assert (E : ∀ k, ((o ← on_hw (read_bar ecam (pci_dev c) 0);
      match o with
      | Some b => reg_addr ← lift (b.1.1 +[32] NVME_REG_CAP); v ← deref64 reg_addr; ret (Some v)
      | None => ret None
      end) ≫= k : io M ((NVMeError + unit) * NVMeController)) m =
      if bar mod 8 =? 0 then k (Some cap) (with_hw m h) else Panic MisalignedPointer).
  { intros k. unfold mbind at 1, io_bind at 1. rewrite (io_bind_Ret _ _ _ _ _ Hr). cbn [fst snd].
    rewrite Hadd, io_bind_lift. unfold deref64. by destruct (bar mod 8 =? 0). }
  rewrite E. destruct (bar mod 8 =? 0); cbn [negb]; [|done]. change (wrap 16 cap) with (cap mod 2 ^ 16).
  destruct (Z.eqb_spec (cap mod 2 ^ 16) (2 ^ 16 - 1)) as [Hq|Hq]; cbn [orb].
  { rewrite Hq. rewrite (checked_overflow 16) by lia. reflexivity. }
  pose proof (Z.mod_pos_bound cap (2 ^ 16) ltac:(done)).
  rewrite (checked_ok 16), io_bind_lift by (unfold in_width; lia).
  destruct (Z.testbit cap 37) eqn:H37; [by rewrite shift_overflows|]. intros Hst Hps.
  pose proof (wrap_in_width 8 (Z.shiftr cap 32) ltac:(lia)) as [Hs0 _].
  pose proof (wrap_in_width 8 (Z.shiftr cap 48) ltac:(lia)) as [Hp0 _].
  unfold checked_shl32. rewrite (proj2 (Z.ltb_lt _ _)), io_bind_lift by done.
  rewrite (checked_ok 8), io_bind_lift by (unfold in_width; lia).
  rewrite (proj2 (Z.ltb_lt _ _)), io_bind_lift by lia. rewrite nvm_bit, H37. cbn [negb].
  eexists _, h. split; [reflexivity|]. split; [done|]. cbn [max_queue_entries page_size]. split; [done|].
  unfold shl. rewrite Z.shiftl_1_l. apply in_width_wrap. split; [lia|]. apply Z.pow_lt_mono_r; lia.
Qed.

(** [nvme_init] returns [Ok] where the scan finds no NVMe controller, with
    nothing but the configuration registers looked at; where it finds one, it
    never does: it ends in a panic or an error before the controller is enabled
    or identified, whatever the hardware and memory hold. *)
Theorem nvme_init_ok_iff_none (PMO : Z) (already : MapToError (M:=MP) → bool) (size_ : Z)
    (enable : NVMeController → Z → io M ((NVMeError + unit) * NVMeController))
    (identify : Z → NVMeController → io M (NVMeError + unit)) (raw : NVMeController) m :
  let c := config ecam (hw m) in
  let run := nvme_init ecam (probe_controller PMO ecam already size_ enable identify raw) m in
  if existsb (is_nvme c) (all_found c)
  then ∀ r m', run = Ret (r, m') → ∃ e, r = inl e
  else ∃ h, run = Ret (inr (), with_hw m h) ∧ config ecam h = c.
Proof.
  intros c run. subst run. unfold nvme_init.
  destruct (reads_scan (ecam:=ecam) c (hw m)) as (h & E & Hc); [done|].
  rewrite (io_bind_Ret (on_hw (scan_pci_bus ecam)) _ m (all_found c) (with_hw m h) (on_hw_Ret _ _ _ _ E)).
  pose proof (all_found_ok c) as Hall. destruct (existsb _ _) eqn:Hex.
  - intros r m'. apply init_loop_some; [apply probe_fails|done|]. cbn [with_hw hw]. by rewrite Hc.
  - destruct (init_loop_none (probe_controller PMO ecam already size_ enable identify raw) (all_found c) (with_hw m h))
      as (h' & Hl & Hc'); [done|cbn [with_hw hw]; by rewrite Hc|].
    exists h'. rewrite Hl. cbn [with_hw hw] in Hc'. split; [done|congruence].
Qed.

(** A queue is two rings of [p] pages, the completions in the space of
    commands, with its doorbells at BAR 0 plus 4096.  [free_queue] frees the
    submission ring with one page too many, which is the first page of the
    completion ring; freeing that ring then fails at its first page, the error
    is logged, and its other [p - 1] pages stay mapped, with both pointers
    cleared.  A queue of at most 64 entries leaks nothing. *)
Theorem free_queue_leaks (c : NVMeController) (q : NVMeQueue) (id_ size_ : Z) m :
  let base := NEXT_VIRT (statics m) in
  let p := ring_pages (64 * size_) in
  0 < size_ < 2 ^ 16 → 0 < base → region_ok base (2 * p) → frames_for (frames m) (2 * p) →
  fresh_range (mapper m) base (2 * p) →
  ∃ q' m', alloc_queue c q id_ size_ m = Ret ((inr (), q'), m') ∧
    sq_cmds q' = base ∧ cqes q' = base + 4096 * p ∧
    sq_db q' = bar0 c + 0x1000 + (if id_ =? 0 then 0 else 8 * (id_ * stride c)) ∧
    ∃ q'' m'' frs, free_queue q' m' = Ret ((inr (), q''), m'') ∧ sq_cmds q'' = 0 ∧ cqes q'' = 0 ∧
      page_map (mapper m'') =
        map_pages (base + 4096 * (p + 1)) frs (Z.lor PRESENT WRITABLE) (page_map (mapper m)) ∧
      zlen frs = p - 1 ∧ (p = 1 ↔ size_ ≤ 64).
Proof.
  intros base p Hs Hb Hreg Hf Hfr. destruct (queue_pages size_ Hs) as [Hp Hp1]. fold p in Hp, Hp1.
  destruct (alloc_queue_maps c q id_ size_ m) as (q' & m' & frs & E & Hl & Hq & Hpm & Hdb); [done..|].
  fold p base in Hl, Hq, Hpm.
  assert (Hf1 : sq_cmds q' = base ∧ cqes q' = base + 4096 * p ∧ q_depth q' = size_) by (rewrite Hq; by split_and!).
  destruct Hf1 as (Hsq & Hcq & Hd). exists q', m'. split_and!; [done..|].
  destruct (free_queue_unmaps q' size_ base frs (page_map (mapper m)) m') as (q'' & m'' & E' & Hs' & Hc' & Hpm');
    [done..|intros i Hi; apply Hfr; lia|].
  exists q'', m'', (drop (Z.to_nat (p + 1)) frs). split_and!; [done|done|done|exact Hpm'| |exact Hp1].
  unfold zlen in *. rewrite length_drop. fold p in Hl. lia.
Qed.

(** The commands of [read_blocks] and [write_blocks] as they are submitted.
    Both carry the opcode of a read; the block address is split over two words
    and the count is one less (cut to 16 bits in a write, not in a read).  Of a
    transfer of two pages the second page is prepared and dropped again, so that
    the device is told of the first only; a transfer of three pages or more
    panics in the first turn of the loop that fills the list of pages.  The
    number of a command is one more than the counter, which stays at 1. *)
Theorem transfer_commands (PMO : Z) (write : bool) (c : NVMeController) (ns : NVMeNamespace)
    (n lba num_blocks buffer : Z) m :
  let command := if write then write_blocks_command PMO else read_blocks_command PMO in
  let bytes := num_blocks * lba_size ns in
  let pages := (bytes + page_size c - 1) / page_size c in
  1 ≤ n ≤ 256 → namespaces c !! Z.to_nat (n - 1) = Some ns → valid ns = true →
  0 < num_blocks < 2 ^ 32 → 0 < bytes → 0 < page_size c → bytes + page_size c < 2 ^ 32 →
  0 ≤ PMO ≤ buffer → 0 < buffer → buffer + page_size c < 2 ^ 64 → in_width 64 lba → 0 ≤ next_cmd_id c < 2 ^ 16 - 1 →
  if pages <=? 2 then
    ∃ cmd cmd' c', command c n lba num_blocks buffer m = Ret (inr cmd, m) ∧
      prp2 cmd = (if pages =? 2 then buffer + page_size c - PMO else 0) ∧
      submit_io PMO c cmd buffer = Ret (cmd', c') ∧
      opcode cmd' = NVME_IO_READ ∧ nsid cmd' = n ∧ prp1 cmd' = buffer - PMO ∧ prp2 cmd' = 0 ∧
      cdw10 cmd' + 2 ^ 32 * cdw11 cmd' = lba ∧
      cdw12 cmd' = (if write then (num_blocks - 1) mod 2 ^ 16 else num_blocks - 1) ∧
      command_id cmd' = next_cmd_id c + 1 ∧ next_cmd_id c' = Z.max 1 (next_cmd_id c)
  else ∀ p m', on_pages (λ st mp f, alloc st mp f (8 * (pages - 1))) m = Ret (Some p, m') →
    command c n lba num_blocks buffer m = Panic ArithmeticOverflow.
Proof.
  intros command bytes pages Hn Hns Hv Hnb Hb Hps Hbps HP Hbuf Hbe Hlba Hid.
  assert (Hpg : 1 ≤ pages ∧ pages * page_size c < bytes + page_size c).
  { unfold pages. pose proof (Z.div_mod (bytes + page_size c - 1) (page_size c) ltac:(lia)).
    pose proof (Z.mod_pos_bound (bytes + page_size c - 1) (page_size c) Hps). nia. }
  set (cut := λ v, if write then Z.land v 0xFFFF else v).
  assert (Hcmd : command c n lba num_blocks buffer m = prepare PMO cut c n lba num_blocks buffer m)
    by (unfold command, cut; by destruct write).
  assert (Hcut : cut (num_blocks - 1) = if write then (num_blocks - 1) mod 2 ^ 16 else num_blocks - 1).
  { unfold cut. destruct write; [|done]. by rewrite <- (land_low_mask _ 16). }
  rewrite Hcmd, <- Hcut. clear Hcmd. unfold prepare, get_namespace, index.
  rewrite (proj2 (Z.eqb_neq n 0)), (proj2 (Z.ltb_ge 256 n)) by lia. cbn [orb].
  rewrite Hns, bind_Ret, Hv, io_bind_lift, Hv. cbn [negb].
  rewrite (checked_ok 32 (num_blocks - 1)), io_bind_lift by (unfold in_width; lia). fold bytes.
  rewrite (checked_ok 32 bytes), io_bind_lift by (unfold in_width; lia).
  rewrite (checked_ok 32 (bytes + page_size c)), io_bind_lift by (unfold in_width; lia).
  rewrite (checked_ok 32 (bytes + page_size c - 1)), io_bind_lift by (unfold in_width; lia).
  rewrite (proj2 (Z.eqb_neq (page_size c) 0)), io_bind_lift by lia. fold pages. cbv zeta.
  assert (Hlb : wrap 32 lba + 2 ^ 32 * wrap 32 (Z.shiftr lba 32) = lba) by (apply split_words; done).
  destruct (Z.leb_spec pages 2) as [Hle|Hgt].
  - destruct (Z.eqb_spec pages 1) as [H1p|H1p].
    + rewrite (proj2 (Z.eqb_neq pages 2)) by lia. eexists _, _, _. split; [reflexivity|].
      split; [done|]. rewrite submit_io_exact by lia. by split_and!.
    + rewrite (proj2 (Z.eqb_eq pages 2)) by lia.
      rewrite (checked_ok 64 (buffer + page_size c)), io_bind_lift by (unfold in_width; lia).
      rewrite (checked_ok 64 (buffer + page_size c - PMO)), io_bind_lift by (unfold in_width; lia).
      eexists _, _, _. split; [reflexivity|]. split; [done|]. rewrite submit_io_exact by lia. by split_and!.
  - intros p m' Ha. rewrite (proj2 (Z.eqb_neq pages 1)), (proj2 (Z.eqb_neq pages 2)) by lia.
    rewrite (checked_ok 64 (pages - 1)), io_bind_lift by (unfold in_width; nia).
    rewrite (checked_ok 64 ((pages - 1) * 8)), io_bind_lift by (unfold in_width; nia).
    rewrite (Z.mul_comm (pages - 1)), (io_bind_Ret _ _ _ _ _ Ha).
    replace (Z.to_nat pages) with (S (Z.to_nat (pages - 1))) by lia. cbn [prp_loop].
    unfold mbind at 1, io_bind at 1, get at 1. rewrite (checked_ok 32 (0 * page_size c)), bind_Ret by done.
    rewrite (checked_ok 32 (wrap 32 buffer + _)), bind_Ret; [reflexivity|].
    pose proof (wrap_in_width 32 buffer ltac:(lia)). by rewrite Z.mul_0_l, Z.add_0_r.
Qed.
End theorems.

(** ** Waiting *)

Section waiting.
Context {H : Type} `{Hardware H} {MP F : Type}.
Abbreviation M := (machine H MP F).
Implicit Types (m : M).

(** What the head of the ring [q] shows at a look. *)
Definition hit (mem : Z → Z) (q : NVMeQueue) (cmd_id : Z) : bool :=
  (Z.land (cqe_field mem q COMPLETION_STATUS) 1 =? cq_phase q) && (cqe_field mem q COMPLETION_ID =? cmd_id).

(** Waiting for a command ends after [1000 * timeout_ms] looks at memory at
    the latest.  It ends at the first look whose entry has the phase and the
    number it waits for: the head moves on by one, modulo the depth of the
    queue, the phase flips exactly when the head comes round, and the doorbell
    pointer is replaced by the head; the result is the status of that entry.
    Without such a look it times out with the queue as it was. *)
Theorem wait_completion_exact (run : M → M) (q : NVMeQueue) (cmd_id t : Z) m :
  0 ≤ t → t * 1000 < 2 ^ 32 → 0 ≤ cq_head q < q_depth q → q_depth q < 2 ^ 16 → cq_phase q = 0 ∨ cq_phase q = 1 →
  let at_look i := Nat.iter (S i) run m in
  let n := Z.to_nat (t * 1000) in
  returns (wait_completion (λ m, Ret ((), run m)) (ret ()) q cmd_id t m) (λ '((r, q'), m'),
    match List.find (λ i, hit (memory (at_look i)) q cmd_id) (seq 0 n) with
    | None => r = inl Timeout ∧ q' = q ∧ m' = Nat.iter n run m
    | Some i =>
        r = (if Z.shiftr (wrap 8 (cqe_field (memory (at_look i)) q COMPLETION_STATUS)) 1 =? 0 then inr () else inl CommandFailed) ∧
        cq_head q' = (cq_head q + 1) mod q_depth q ∧ cq_db q' = cq_head q' ∧
        cq_phase q' = (if cq_head q + 1 =? q_depth q then 1 - cq_phase q else cq_phase q) ∧
        sq_tail q' = sq_tail q ∧ q_depth q' = q_depth q ∧ m' = at_look i
    end).
Proof.
  intros Ht Htm Hh Hd Hp at_look n. unfold wait_completion. rewrite checked_ok, io_bind_lift by (unfold in_width; lia). fold n.
  assert (Hloop : ∀ n i, returns (wait_loop (λ m, Ret ((), run m)) (ret ()) n q cmd_id (Nat.iter i run m)) (λ '((r, q'), m'),
    match List.find (λ i, hit (memory (at_look i)) q cmd_id) (seq i n) with
    | None => r = inl Timeout ∧ q' = q ∧ m' = Nat.iter (i + n) run m
    | Some i =>
        r = (if Z.shiftr (wrap 8 (cqe_field (memory (at_look i)) q COMPLETION_STATUS)) 1 =? 0 then inr () else inl CommandFailed) ∧
        cq_head q' = (cq_head q + 1) mod q_depth q ∧ cq_db q' = cq_head q' ∧
        cq_phase q' = (if cq_head q + 1 =? q_depth q then 1 - cq_phase q else cq_phase q) ∧
        sq_tail q' = sq_tail q ∧ q_depth q' = q_depth q ∧ m' = at_look i
    end)); [|exact (Hloop n 0%nat)].
  clear n. intros n. induction n as [|n IH]; intros i.
  { cbn [wait_loop List.seq List.find]. apply returns_Ret. by rewrite Nat.add_0_r. }
  cbn [wait_loop List.seq List.find].
  change ((λ m, Ret ((), run m)) (Nat.iter i run m)) with (Ret ((), at_look i)).
  rewrite (io_bind_Ret _ _ _ () (at_look i) eq_refl).
  destruct (hit (memory (at_look i)) q cmd_id) eqn:Hhit.
  - assert (E : ∃ q', look (ret ()) q cmd_id (at_look i) =
        Ret (Some (if Z.shiftr (wrap 8 (cqe_field (memory (at_look i)) q COMPLETION_STATUS)) 1 =? 0 then inr () else inl CommandFailed, q'),
             at_look i) ∧
        cq_head q' = (cq_head q + 1) mod q_depth q ∧ cq_db q' = cq_head q' ∧
        cq_phase q' = (if cq_head q + 1 =? q_depth q then 1 - cq_phase q else cq_phase q) ∧
        sq_tail q' = sq_tail q ∧ q_depth q' = q_depth q).
    { unfold look. rewrite (io_bind_Ret _ _ _ (memory (at_look i)) (at_look i) eq_refl). fold (hit (memory (at_look i)) q cmd_id).
      rewrite Hhit, io_bind_ret, checked_ok, io_bind_lift by (unfold in_width; lia). unfold NVME_SC_SUCCESS.
      destruct (Z.leb_spec (q_depth q) (cq_head q + 1)) as [Hle|Hlt].
      - assert (Hround : cq_head q + 1 = q_depth q) by lia. rewrite Hround, Z.eqb_refl, Z.mod_same by lia.
        assert (Hx : Z.lxor (cq_phase q) 1 = 1 - cq_phase q) by (destruct Hp as [->| ->]; done). rewrite Hx.
        eexists. split; [by destruct (_ =? 0)|done].
      - rewrite (proj2 (Z.eqb_neq _ (q_depth q))), Z.mod_small by lia. eexists. split; [by destruct (_ =? 0)|done]. }
    destruct E as (q' & E & Hq). rewrite (io_bind_Ret _ _ _ _ _ E). apply returns_Ret. split; [done|].
    destruct Hq as (? & ? & ? & ? & ?). by split_and!.
  - assert (E : look (ret ()) q cmd_id (at_look i) = Ret (None, at_look i)).
    { unfold look. rewrite (io_bind_Ret _ _ _ (memory (at_look i)) (at_look i) eq_refl). fold (hit (memory (at_look i)) q cmd_id).
      by rewrite Hhit. }
    rewrite (io_bind_Ret _ _ _ _ _ E). replace (i + S n)%nat with (S i + n)%nat by lia. apply (IH (S i)).
Qed.
End waiting.

(** ** Sample runs *)

Definition nvme_dev : PCIDevice := mkPCI 0x8086 0xf1a6 1 8 0 3 0.
Definition nvme_regs (k : Z) : Z :=
  if k =? dkey nvme_dev 0x10 then 0xFEB00000 else if k =? dkey nvme_dev 8 then 0x01080200 else 0xFFFFFFFF.
Definition nvme_machine : machine sample_bus (gmap Z (Z * Z)) (BootInfoFrameAllocator (MemoryRegionKind:=bool)) :=
  mkMachine statics0 ∅ sample_frames (λ _, 0) (mkBus 0 nvme_regs).
Definition nvme_controller : NVMeController :=
  mkController nvme_dev 0 4 4096 64 true [mkNs 1 100 512 true 0] 0.
Definition nvme_queue : NVMeQueue := mkQueue 0x1000 0x2000 0 0 0 63 1 64 1.

#[local] Existing Instances amd64 amd64_laws sample_Mapper sample_MapperLaws sample_FA sample_FC.
#[local] Instance nvme_bus : Hardware sample_bus := sample_bus_hw store_at 0.
#[local] Instance nvme_space : ConfigSpace sample_bus 0 := sample_bus_space store_at 0 ports_ok.

Lemma nvme_dev_ok : dev_ok nvme_dev.
Proof. unfold dev_ok, bdf_ok. cbn. lia. Qed.

Lemma controller_state_never_seen_witness :
  ∃ m', wait_ready 0 nvme_controller true 3 (ret ()) nvme_machine = Ret (inl Timeout, m').
Proof.
  destruct (controller_state_never_seen (ecam:=0) nvme_controller nvme_machine (ret ()) 3) as [_ (m' & E & _)].
  - exact nvme_dev_ok.
  - reflexivity.
  - split; [discriminate|reflexivity].
  - intros m. by exists m.
  - by exists m'.
Defined.

Lemma init_exact_witness :
  ∃ c' h, init 0 (λ c _, ret (inr (), c)) nvme_controller nvme_machine =
    Ret ((inl InitFailed, c'), with_hw nvme_machine h) ∧ page_size c' = 4096.
Proof.
  destruct (init_exact (ecam:=0) (λ c _, ret (inr (), c)) nvme_controller nvme_machine) as (c' & h & E & _ & _ & Hp).
  - exact nvme_dev_ok.
  - split; [discriminate|reflexivity].
  - split; [discriminate|reflexivity].
  - reflexivity.
  - reflexivity.
  - exists c', h. split; [exact E|exact Hp].
Defined.

Lemma free_queue_leaks_witness :
  ∃ q' m', alloc_queue nvme_controller nvme_queue 1 2 nvme_machine = Ret ((inr (), q'), m') ∧
    sq_cmds q' = NEXT_VIRT statics0.
Proof.
  destruct (free_queue_leaks nvme_controller nvme_queue 1 2 nvme_machine) as (q' & m' & E & Hq & _).
  - done.
  - done.
  - exact kernel_area_ok.
  - apply sample_frames_for. split; discriminate.
  - apply empty_fresh.
  - by exists q', m'.
Defined.

Lemma transfer_commands_witness :
  ∃ cmd, write_blocks_command 0 nvme_controller 1 5 9 0x8000 nvme_machine = Ret (inr cmd, nvme_machine) ∧
    prp2 cmd = 0x9000.
Proof.
  destruct (transfer_commands 0 true nvme_controller (mkNs 1 100 512 true 0) 1 5 9 0x8000 nvme_machine)
    as (cmd & cmd' & c' & E & Hp & _); try reflexivity; try (unfold in_width; cbn; lia).
  by exists cmd.
Defined.

(** The device completes command 0x0101 before the third look. *)
Definition third_look (m : machine sample_bus (gmap Z (Z * Z)) (BootInfoFrameAllocator (MemoryRegionKind:=bool))) :=
  let k := memory m 0 + 1 in
  mkMachine (statics m) (mapper m) (frames m) (λ a, if a =? 0 then k else if k =? 3 then 1 else 0) (hw m).

Lemma wait_completion_exact_witness :
  returns (wait_completion (λ m, Ret ((), third_look m)) (ret ()) nvme_queue 0x0101 1 nvme_machine)
    (λ '((r, q'), m'), r = inr () ∧ cq_head q' = 0 ∧ cq_phase q' = 0 ∧ memory m' 0 = 3).
Proof.
  destruct (wait_completion_exact third_look nvme_queue 0x0101 1 nvme_machine) as ([[r q'] m'] & E & Hq); try done.
  { by right. }
  exists (r, q', m'). split; [done|]. destruct Hq as (Hr & Hh & _ & Hp & _ & _ & ->). by split_and!.
Defined.
