(* ===== verification/NvmeAdmin.v ===== *)
(** * NVMe: administration (kernel/src/drivers/nvme.rs)

    The admin commands as they are built, what is read out of the data a device
    identifies a namespace with, the loop over the namespaces, the shutdown,
    and the self test up to its first transfer.  The way of a submitted command
    is an argument, [submit]; [NvmeInit] has it. *)

From Stdlib Require Import String.
From S2P Require Import Prelude Arch Hardware FrameAllocator Paging Pci Nvme.
#[local] Open Scope string_scope.
Open Scope Z_scope.
Open Scope rust_scope.

Definition NVME_ADMIN_IDENTIFY : Z := 0x06.
Definition NVME_ADMIN_DELETE_CQ : Z := 0x04.
Definition NVME_ADMIN_GET_FEATURES : Z := 0x0A.
Definition NVME_CC_SHN_NORMAL : Z := Z.shiftl 1 14.
Definition NVME_SHUTDOWN_TIMEOUT_MS : Z := 5000.

(** The fields of the packed structs, with their sizes; [lbaf] holds 16 [Lbaf]. *)
Definition NVMeIDNS : list (string * Z) :=
  [("nsze", 8); ("ncap", 8); ("nuse", 8); ("nsfeat", 1); ("nlbaf", 1); ("flbas", 1); ("mc", 1); ("dpc", 1);
   ("dps", 1); ("nmic", 1); ("rescap", 1); ("fpi", 1); ("dlfeat", 1); ("nawun", 2); ("nawupf", 2);
   ("nacwu", 2); ("nabsn", 2); ("nabo", 2); ("nabspf", 2); ("noiob", 2); ("nvmcap", 16); ("npwg", 2);
   ("npwa", 2); ("npdg", 2); ("npda", 2); ("nows", 2); ("rsvd74", 18); ("anagrpid", 4); ("rsvd96", 3);
   ("nsattr", 1); ("nvmsetid", 2); ("endgid", 2); ("nguid", 16); ("eui64", 8); ("lbaf", 64);
   ("rsvd192", 192); ("vs", 3712)].

(** [ms], [lbads], [rp]. *)
Definition Lbaf : list (string * Z) :=
  [("ms", 2); ("lbads", 1); ("rp", 1)].

(** What a controller tells of itself. *)
Definition NVMeIDCtrl : list (string * Z) :=
  [("vid", 2); ("ssvid", 2); ("sn", 20); ("mn", 40); ("fr", 8); ("rab", 1); ("ieee", 3); ("cmic", 1);
   ("mdts", 1); ("cntlid", 2); ("ver", 4); ("rtd3r", 4); ("rtd3e", 4); ("oaes", 4); ("ctratt", 4);
   ("rsvd100", 156); ("oacs", 2); ("acl", 1); ("aerl", 1); ("frmw", 1); ("lpa", 1); ("elpe", 1); ("npss", 1);
   ("avscc", 1); ("apsta", 1); ("wctemp", 2); ("cctemp", 2); ("mtfa", 2); ("hmpre", 4); ("hmmin", 4);
   ("tnvmcap", 16); ("unvmcap", 16); ("rpmbs", 4); ("edstt", 2); ("dsto", 1); ("fwug", 1); ("kas", 2);
   ("hctma", 2); ("mntmt", 2); ("mxtmt", 2); ("sanicap", 4); ("rsvd332", 180); ("sqes", 1); ("cqes", 1);
   ("maxcmd", 2); ("nn", 4); ("oncs", 2); ("fuses", 2); ("fna", 1); ("vwc", 1); ("awun", 2); ("awupf", 2);
   ("nvscc", 1); ("rsvd531", 1); ("acwu", 2); ("rsvd534", 2); ("sgls", 4); ("rsvd540", 228); ("subnqn", 256);
   ("rsvd1024", 768); ("nvmsr", 256); ("vs", 1024)].

Definition struct_size (fs : list (string * Z)) : Z := foldr (λ f n, f.2 + n) 0 fs.

Fixpoint offset_of (name : string) (fs : list (string * Z)) : Z :=
  match fs with
  | [] => 0
  | (n, z) :: fs => if String.eqb n name then 0 else z + offset_of name fs
  end.

Definition IDNS_SIZE : Z := struct_size NVMeIDNS.
Definition IDCTRL_SIZE : Z := struct_size NVMeIDCtrl.
Definition IDNS_NSZE : Z := offset_of "nsze" NVMeIDNS.
Definition IDNS_NLBAF : Z := offset_of "nlbaf" NVMeIDNS.
Definition IDNS_FLBAS : Z := offset_of "flbas" NVMeIDNS.
Definition IDNS_LBAF : Z := offset_of "lbaf" NVMeIDNS.

(** The offsets are the standard's; the controller's struct lacks the last
    kilobyte of the page a device answers with. *)
Lemma identify_layout :
  (IDNS_SIZE, IDCTRL_SIZE, IDNS_NSZE, IDNS_NLBAF, IDNS_FLBAS, IDNS_LBAF, struct_size Lbaf, offset_of "lbads" Lbaf) =
  (4096, 3072, 0, 25, 26, 128, 4, 2).
Proof. reflexivity. Qed.

(** ** Commands *)

Definition admin_command (op nsid cdw10 : Z) : NVMeCommand := mkCommand op 0 0 nsid 0 0 0 cdw10 0 0 0 0 0.

Definition identify_command : NVMeCommand := admin_command NVME_ADMIN_IDENTIFY 0 0x1.
Definition identify_namespace_command (nsid : Z) : NVMeCommand := admin_command NVME_ADMIN_IDENTIFY nsid 0.
Definition list_command : NVMeCommand := admin_command NVME_ADMIN_IDENTIFY 0 0x2.
Definition features_command : NVMeCommand := admin_command NVME_ADMIN_GET_FEATURES 0 0x7.
Definition delete_cq_command : NVMeCommand := admin_command NVME_ADMIN_DELETE_CQ 0 1.

(** ** Namespaces *)

(** [lba_size] out of the data of a namespace. *)
Definition identified_lba_size (mem : Z → Z) (data : Z) : outcome Z :=
  let lba_format := mem (data + IDNS_FLBAS) in
  if lba_format <? mem (data + IDNS_NLBAF) then
    if lba_format <? 16
    then checked_shl32 1 (mem (data + IDNS_LBAF + struct_size Lbaf * lba_format + offset_of "lbads" Lbaf))
    else Panic IndexOutOfBounds
  else Ret 512.

(** [identify_namespace] behind the submission. *)
Definition identified (mem : Z → Z) (nsid : Z) (ns : NVMeNamespace) : outcome NVMeNamespace :=
  s ← identified_lba_size mem (ns_data ns);
  Ret (mkNs nsid (le_value (read_bytes mem (ns_data ns + IDNS_NSZE) 8)) s true (ns_data ns)).

Section admin.
Context {H : Type} `{Hardware H} `{X86} {MP : Type} `{Mapper MP} {F : Type} `{FrameAllocator F}.
Context (PMO ecam : Z) (CONTROLLER_SIZE : Z).
Abbreviation M := (machine H MP F).

(** A controller with the fields [NVMeController] leaves out; [here]: where it
    lies (for the shutdown a local of its loop). *)
Record Running : Type := mkRunning {
  ctl : NVMeController; admin_queue : NVMeQueue; io_queues : list NVMeQueue; num_io_queues : Z;
  ctrl_data : Z; num_namespaces : Z; here : Z;
}.

Definition set_ctl (c : NVMeController) (r : Running) : Running :=
  mkRunning c (admin_queue r) (io_queues r) (num_io_queues r) (ctrl_data r) (num_namespaces r) (here r).

Definition set_namespaces (l : list NVMeNamespace) (r : Running) : Running :=
  let c := ctl r in
  set_ctl (mkController (pci_dev c) (bar0 c) (stride c) (page_size c) (max_queue_entries c) (enabled c) l (next_cmd_id c)) r.

(** [identify_namespace]; [submit] is [submit_admin_cmd], the command's way to
    the device and back. *)
Definition identify_namespace (submit : Running → NVMeCommand → Z → io M ((NVMeError + unit) * Running * NVMeCommand))
    (r : Running) (nsid : Z) : io M ((NVMeError + unit) * Running) :=
  n ← lift (nsid -[64] 1);
  match namespaces (ctl r) !! Z.to_nat n with
  | None => ret (inl NotFound, r)
  | Some ns =>
      o ← on_pages (λ st mp f, alloc st mp f IDNS_SIZE);
      match o with
      | None => ret (inl OutOfMemory, r)
      | Some data =>
          let ns := mkNs (ns_id ns) (size ns) (lba_size ns) (valid ns) data in
          let r := set_namespaces (<[Z.to_nat n := ns]> (namespaces (ctl r))) r in
          '(x, r, _) ← submit r (identify_namespace_command nsid) data;
          match x with
          | inl e => ret (inl e, r)
          | inr _ =>
              ns ← lift (index (namespaces (ctl r)) n);
              mem ← get memory;
              ns ← lift (identified mem nsid ns);
              ret (inr (), set_namespaces (<[Z.to_nat n := ns]> (namespaces (ctl r))) r)
          end
      end
  end.

(** [self.num_namespaces += 1] *)
Definition count_namespace (r : Running) : outcome Running :=
  k ← num_namespaces r +[32] 1;
  Ret (mkRunning (ctl r) (admin_queue r) (io_queues r) (num_io_queues r) (ctrl_data r) k (here r)).

(** The loop of [init_namespaces]: [ns_list.add(i)], a pointer, is taken for
    the [i]-th identifier. *)
Fixpoint namespace_loop (identify : Running → Z → io M ((NVMeError + unit) * Running))
    (ns_list i : Z) (n : nat) (r : Running) : io M ((NVMeError + unit) * Running) :=
  match n with
  | O => ret (inr (), r)
  | S n =>
      let nsid := ns_list + i in
      if nsid =? 0 then ret (inr (), r) else
      '(x, r) ← identify r (wrap 32 nsid);
      match x with
      | inl e => ret (inl e, r)
      | inr _ => r ← lift (count_namespace r); namespace_loop identify ns_list (i + 1) n r
      end
  end.

Definition init_namespaces (submit : Running → NVMeCommand → Z → io M ((NVMeError + unit) * Running * NVMeCommand))
    (r : Running) : io M ((NVMeError + unit) * Running) :=
  o ← on_pages (λ st mp f, alloc st mp f 4096);
  match o with
  | None => ret (inl InitFailed, r)
  | Some ns_list =>
      '(x, r, _) ← submit r list_command ns_list;
      match x with
      | inl e => ret (inl e, r)
      | inr _ =>
          '(x, r) ← namespace_loop (identify_namespace submit) ns_list 0 1024 r;
          match x with
          | inl e => ret (inl e, r)
          | inr _ =>
              v ← lift (virt_new ns_list);
              _ ← on_mapper (λ mp, free mp v 4096);
              ret (inr (), r)
          end
      end
  end.

(** ** Shutdown *)

(** Every [free_queue] succeeds (a ring that is not freed is only logged). *)
Fixpoint free_queues (qs : list NVMeQueue) (i : Z) (n : nat) : io M unit :=
  match n with
  | O => ret ()
  | S n => q ← lift (index qs i); _ ← free_queue q; free_queues qs (i + 1) n
  end.

(** What a stopped controller leaves: queues, data, itself. *)
Definition free_controller (r : Running) : io M unit :=
  _ ← free_queue (admin_queue r);
  _ ← free_queues (io_queues r) 0 (Z.to_nat (num_io_queues r));
  v ← lift (virt_new (ctrl_data r));
  x ← on_mapper (λ mp, free mp v IDCTRL_SIZE);
  match x with
  | inl _ => ret ()
  | inr _ =>
      v ← lift (virt_new (here r));
      _ ← on_mapper (λ mp, free mp v CONTROLLER_SIZE);
      ret ()
  end.

(** One turn; every error goes on with the next controller. *)
Definition shutdown_one (sleep : io M unit) (r : Running) : io M unit :=
  if negb (enabled (ctl r)) then ret () else
  o ← read_reg32 ecam (ctl r) NVME_REG_CC;
  match o with
  | None => ret ()
  | Some c =>
      _ ← write_reg32 ecam (ctl r) NVME_REG_CC (Z.lor (Z.land c (unot 32 NVME_CC_EN)) NVME_CC_SHN_NORMAL);
      w ← wait_ready ecam (ctl r) false (Z.to_nat NVME_SHUTDOWN_TIMEOUT_MS) sleep;
      match w with
      | inl _ => ret ()
      | inr _ => free_controller r
      end
  end.

Fixpoint shutdown (sleep : io M unit) (rs : list Running) : io M unit :=
  match rs with [] => ret () | r :: rs => _ ← shutdown_one sleep r; shutdown sleep rs end.

(** ** The self test *)

(** The loop over the candidates: the last one that is valid. *)
Fixpoint candidates (c : NVMeController) (i : Z) (n : nat) (nsid : Z) : outcome Z :=
  match n with
  | O => Ret nsid
  | S n => r ← get_namespace c i; candidates c (i + 1) n (match r with inr _ => i | inl _ => nsid end)
  end.

(** [run_basic_test] up to its first copy, which writes 26 bytes over a message
    of 25: the namespace, its block size, the block, the two buffers. *)
Definition basic_test_setup (c : NVMeController) : io M (option (Z * Z * Z * Z * Z)) :=
  if negb (enabled c) then ret None else
  nsid ← lift (candidates c 1 255 0);
  if nsid =? 0 then ret None else
  r ← lift (get_namespace c nsid);
  match r with
  | inl _ => ret None
  | inr ns =>
      let test_lba := if size ns <=? 0x1000 then 0x1000 / 2 else 0x1000 in
      w ← alloc_aligned_buffer PMO (lba_size ns);
      match w with
      | None => ret None
      | Some w =>
          r ← alloc_aligned_buffer PMO (lba_size ns);
          match r with
          | None => ret None
          | Some r => ret (Some (nsid, lba_size ns, test_lba, w, r))
          end
      end
  end.
End admin.

(** ** Properties *)

Section theorems.
Context {H : Type} `{Hardware H} `{X86} {MP : Type} `{Mapper MP} {F : Type} `{FrameAllocator F}.
Context {ecam : Z} `{!ConfigSpace H ecam}.
Abbreviation M := (machine H MP F).
Implicit Types (m : M).

(** The shutdown does not shut down: the value for the control register goes
    nowhere, the ready bit it waits for is bit 0 of an address, and so a
    controller's memory is freed at once, whatever the device is doing; that
    includes the pages of the local variable it was moved to. *)
Theorem shutdown_frees_at_once (CONTROLLER_SIZE : Z) (sleep : io M unit) (r : Running) m :
  let bar := config ecam (hw m) (dkey (pci_dev (ctl r)) 0x10) in
  dev_ok (pci_dev (ctl r)) → enabled (ctl r) = true → bar mod 4 = 0 → 0 ≤ bar < 2 ^ 32 - 0x1C →
  ∃ h, shutdown_one ecam CONTROLLER_SIZE sleep r m = free_controller CONTROLLER_SIZE r (with_hw m h) ∧
    config ecam h = config ecam (hw m).
Proof.
  intros bar Hd He Hm Hb. subst bar. set (c := ctl r) in *.
  destruct (csts_bits (config ecam (hw m) (dkey (pci_dev c) 0x10))) as [Hrdy _]; [lia|done|].
  destruct (read_reg32_address c NVME_REG_CC m Hd) as (h1 & E1 & Hc1); [unfold in_width, NVME_REG_CC; lia|].
  unfold shutdown_one. fold c. rewrite He. cbn [negb]. rewrite (io_bind_Ret _ _ _ _ _ E1).
  match goal with |- context [write_reg32 _ _ _ ?v] =>
    destruct (write_reg32_value c NVME_REG_CC v (with_hw m h1) Hd) as (h2 & E2 & Hc2) end.
  { cbn [with_hw hw]. rewrite Hc1. unfold in_width, NVME_REG_CC. lia. }
  rewrite (io_bind_Ret _ _ _ _ _ E2).
  change (Z.to_nat NVME_SHUTDOWN_TIMEOUT_MS) with (S (Z.to_nat (NVME_SHUTDOWN_TIMEOUT_MS - 1))). cbn [wait_ready].
  destruct (read_reg32_address c NVME_REG_CSTS (with_hw (with_hw m h1) h2) Hd) as (h3 & E3 & Hc3);
    [cbn [with_hw hw] in *; rewrite Hc2, Hc1; unfold in_width, NVME_REG_CSTS; lia|].
  rewrite io_bind_assoc, (io_bind_Ret _ _ _ _ _ E3). cbn [with_hw hw] in *.
  rewrite Hc2, Hc1, Hrdy. cbn [Z.eqb negb Bool.eqb]. rewrite io_bind_ret.
  exists h3. split; [reflexivity|congruence].
Qed.

(** The loop over the namespaces looks at none: its first identifier is the
    low half of the address of the list, a multiple of the page size, and so
    either not the number of a namespace, or 0, whose predecessor overflows. *)
Theorem namespaces_never_identified submit (ns_list : Z) (r : Running) m :
  page_aligned ns_list → 0 < ns_list < 2 ^ 64 → zlen (namespaces (ctl r)) = 256 →
  namespace_loop (identify_namespace submit) ns_list 0 1024 r m =
    if wrap 32 ns_list =? 0 then Panic ArithmeticOverflow else Ret ((inl NotFound, r), m).
Proof.
  intros Hal Hn Hl.
  assert (Hw : 0 ≤ wrap 32 ns_list ∧ wrap 32 ns_list mod 4096 = 0).
  { unfold page_aligned in Hal. unfold wrap. change (2 ^ 32) with (4096 * 2 ^ 20).
    pose proof (Z.mod_pos_bound ns_list (4096 * 2 ^ 20)). Z.to_euclidean_division_equations; lia. }
  change 1024%nat with (S 1023). generalize 1023%nat as k. intros k. cbn [namespace_loop]. rewrite Z.add_0_r, (proj2 (Z.eqb_neq ns_list 0)) by lia.
  destruct (Z.eqb_spec (wrap 32 ns_list) 0) as [E|E].
  - unfold identify_namespace. by rewrite E.
  - assert (4096 ≤ wrap 32 ns_list) by (Z.to_euclidean_division_equations; lia).
    pose proof (wrap_in_width 32 ns_list ltac:(lia)) as [_ Hw32].
    assert (Ei : identify_namespace submit r (wrap 32 ns_list) m = Ret ((inl NotFound, r), m)).
    { unfold identify_namespace. rewrite checked_ok, io_bind_lift by (unfold in_width; lia).
      by rewrite (lookup_ge_None_2 (namespaces (ctl r))) by (unfold zlen in Hl; lia). }
    by rewrite (io_bind_Ret _ _ _ _ _ Ei).
Qed.

(** The self test takes the last valid namespace of the first 255. *)
Definition is_valid (c : NVMeController) (i : Z) : bool :=
  match namespaces c !! Z.to_nat (i - 1) with Some ns => valid ns | None => false end.

Theorem candidates_last (c : NVMeController) (i : Z) (n : nat) (acc : Z) :
  1 ≤ i → i + Z.of_nat n ≤ 257 → zlen (namespaces c) = 256 →
  candidates c i n acc = Ret (default acc (List.find (is_valid c) (rev (seqZ i (Z.of_nat n))))).
Proof.
  intros Hi Hn Hl. revert i acc Hi Hn. induction n as [|n IH]; intros i acc Hi Hn; [done|].
  rewrite seqZ_cons by lia. cbn [candidates rev]. replace (Z.pred (Z.of_nat (S n))) with (Z.of_nat n) by lia.
  destruct (lookup_lt_is_Some_2 (namespaces c) (Z.to_nat (i - 1))) as [ns Hns]; [unfold zlen in Hl; lia|].
  unfold get_namespace, index. rewrite (proj2 (Z.eqb_neq i 0)), (proj2 (Z.ltb_ge 256 i)) by lia. cbn [orb].
  rewrite Hns, !bind_Ret, IH by lia. change (Z.succ i) with (i + 1). f_equal.
  assert (Hf : ∀ l, List.find (is_valid c) (l ++ [i]) =
    match List.find (is_valid c) l with Some j => Some j | None => if valid ns then Some i else None end).
  { intros l. induction l as [|x l IHl]; cbn [app List.find].
    - unfold is_valid. by rewrite Hns.
    - destruct (is_valid c x); [done|apply IHl]. }
  rewrite Hf. destruct (List.find _ _); [done|]. by destruct (valid ns).
Qed.

(** What the device says of the formats, [nlbaf + 1] of them, counted from 0. *)
Definition format_size (mem : Z → Z) (data : Z) : option Z :=
  let f := mem (data + IDNS_FLBAS) in
  if f <=? mem (data + IDNS_NLBAF) then Some (2 ^ mem (data + IDNS_LBAF + struct_size Lbaf * f + offset_of "lbads" Lbaf)) else None.

(** The size of a block is the one the device reports, except in its last
    format, the only one of most devices: there it is taken to be 512. *)
Theorem identified_lba_size_exact (mem : Z → Z) (data : Z) :
  let f := mem (data + IDNS_FLBAS) in
  0 ≤ f < 16 → 0 ≤ mem (data + IDNS_LBAF + struct_size Lbaf * f + offset_of "lbads" Lbaf) < 32 →
  identified_lba_size mem data =
    Ret (if f =? mem (data + IDNS_NLBAF) then 512 else default 512 (format_size mem data)).
Proof.
  intros f Hf Hs. unfold identified_lba_size, format_size. fold f.
  destruct (Z.ltb_spec f (mem (data + IDNS_NLBAF))) as [Hlt|Hge].
  - rewrite (proj2 (Z.ltb_lt f 16)), (proj2 (Z.eqb_neq _ _)), (proj2 (Z.leb_le _ _)) by lia.
    unfold checked_shl32. rewrite (proj2 (Z.ltb_lt _ 32)) by lia. unfold shl. cbn [default].
    rewrite Z.shiftl_1_l. unfold wrap. rewrite Z.mod_small; [done|]. split; [lia|].
    apply Z.pow_lt_mono_r; lia.
  - destruct (Z.eqb_spec f (mem (data + IDNS_NLBAF))) as [E|E]; [done|].
    by rewrite (proj2 (Z.leb_gt _ _)) by lia.
Qed.
End theorems.
