(* ===== verification/NvmeInit.v ===== *)
(** * NVMe: submission and bring-up (kernel/src/drivers/nvme.rs)

    The way of a command to the device and back, the queues a controller gets,
    the end of [init], what [probe_controller] does behind it, and the self test behind its
    set-up.  Three copies of the code go past the end of what they copy and
    have no defined effect; each is an argument: [clobber] (4096 bytes from the
    two-byte field [sq_tail] over the command on the stack), [copy_out] (256
    bytes from a completion of 16 over the ring) and [copy_message] (26 bytes
    over a message of 25).  [device] is what the device does to the machine
    between two looks at a ring. *)

From S2P Require Import Prelude Arch Hardware FrameAllocator Paging Pci Nvme NvmeAdmin.
Open Scope Z_scope.
Open Scope rust_scope.

Definition NVME_REG_AQA : Z := 0x24.
Definition NVME_REG_ASQ : Z := 0x28.
Definition NVME_REG_ACQ : Z := 0x30.
Definition NVME_CC_CSS_NVM : Z := Z.shiftl 0 4.
Definition NVME_ENABLE_TIMEOUT_MS : Z := 1000.
Definition NVME_COMMAND_TIMEOUT_MS : Z := 30000.
Definition NVME_ADMIN_QUEUE_SIZE : Z := 64.

(** The bytes of the message the self test writes and compares, and one more. *)
Definition MESSAGE_LEN : Z := 25 + 1.

(** ** Commands on their way *)

Section submission.
Context {H MP F : Type} (PMO : Z).
Abbreviation M := (machine H MP F).
Context (device : io M unit) (clobber : NVMeQueue → NVMeCommand → io M NVMeCommand).

Definition set_admin (q : NVMeQueue) (r : Running) : Running :=
  mkRunning (ctl r) q (io_queues r) (num_io_queues r) (ctrl_data r) (num_namespaces r) (here r).

Definition set_io (q : NVMeQueue) (r : Running) : Running :=
  mkRunning (ctl r) (admin_queue r) (<[0%nat := q]> (io_queues r)) (num_io_queues r) (ctrl_data r) (num_namespaces r) (here r).

Definition set_num_io (n : Z) (r : Running) : Running :=
  mkRunning (ctl r) (admin_queue r) (io_queues r) n (ctrl_data r) (num_namespaces r) (here r).

Definition submit_cmd_to_queue (q : NVMeQueue) (cmd : NVMeCommand) : io M ((NVMeError + unit) * NVMeQueue * NVMeCommand) :=
  cmd ← clobber q cmd;
  t ← lift (next_tail q);
  ret (inr (), mkQueue (sq_cmds q) (cqes q) t (cq_db q) t (cq_head q) (qid q) (q_depth q) (cq_phase q), cmd).

(** Submission to [q] and the wait on it; both callers end in this. *)
Definition submit_and_wait (q : NVMeQueue) (cmd : NVMeCommand) (timeout_ms : Z) :
    io M ((NVMeError + unit) * NVMeQueue * NVMeCommand) :=
  '(x, q, cmd) ← submit_cmd_to_queue q cmd;
  match x with
  | inl e => ret (inl e, q, cmd)
  | inr _ => '(x, q) ← wait_completion device (ret ()) q (command_id cmd) timeout_ms; ret (x, q, cmd)
  end.

Definition submit_admin_cmd (r : Running) (cmd : NVMeCommand) (buffer : Z) :
    io M ((NVMeError + unit) * Running * NVMeCommand) :=
  '(cmd, c) ← lift (submit_admin PMO (ctl r) cmd buffer);
  '(x, q, cmd) ← submit_and_wait (admin_queue r) cmd NVME_COMMAND_TIMEOUT_MS;
  ret (x, set_admin q (set_ctl c r), cmd).

Definition submit_io_cmd (r : Running) (cmd : NVMeCommand) (buffer : Z) : io M ((NVMeError + unit) * Running) :=
  q ← (if 0 <? num_io_queues r then lift (index (io_queues r) 0) else ret (admin_queue r));
  '(cmd, c) ← lift (submit_io PMO (ctl r) cmd buffer);
  '(x, q, _) ← submit_and_wait q cmd NVME_COMMAND_TIMEOUT_MS;
  let r := set_ctl c r in
  ret (x, if 0 <? num_io_queues r then set_io q r else set_admin q r).
End submission.

(** [read_blocks] and [write_blocks]: the commands of [Nvme], submitted. *)
Section transfers.
Context {H : Type} `{X86} {MP : Type} `{Mapper MP} {F : Type} `{FrameAllocator F} (PMO : Z).
Abbreviation M := (machine H MP F).
Context (device : io M unit) (clobber : NVMeQueue → NVMeCommand → io M NVMeCommand).

Definition submit_transfer (command : NVMeController → Z → Z → Z → Z → io M (NVMeError + NVMeCommand))
    (r : Running) (n lba num_blocks buffer : Z) : io M ((NVMeError + unit) * Running) :=
  x ← command (ctl r) n lba num_blocks buffer;
  match x with
  | inl e => ret (inl e, r)
  | inr cmd => submit_io_cmd PMO device clobber r cmd buffer
  end.

Definition read_blocks := submit_transfer (read_blocks_command PMO).
Definition write_blocks := submit_transfer (write_blocks_command PMO).
End transfers.

(** ** The queues and the start *)

Section start.
Context {H : Type} `{Hardware H} `{X86} {MP : Type} `{Mapper MP} {F : Type} `{FrameAllocator F}.
Context (PMO ecam CONTROLLER_SIZE : Z).
Abbreviation M := (machine H MP F).

(** [submit_admin_cmd], as in [NvmeAdmin]. *)
Context (submit : Running → NVMeCommand → Z → io M ((NVMeError + unit) * Running * NVMeCommand)).
Context (device copy_out : io M unit).

Definition create_cq (r : Running) (qid_ size_ : Z) : io M ((NVMeError + unit) * Running) :=
  cmd ← lift (create_cq_command PMO (io_queues r) qid_ size_);
  '(x, r, _) ← submit r cmd 0;
  ret (x, r).

Definition create_sq (r : Running) (qid_ size_ : Z) : io M ((NVMeError + unit) * Running) :=
  cmd ← lift (create_sq_command PMO (io_queues r) qid_ size_);
  '(x, r, _) ← submit r cmd 0;
  ret (x, r).

Definition identify (r : Running) : io M ((NVMeError + unit) * Running) :=
  o ← on_pages (λ st mp f, alloc st mp f IDCTRL_SIZE);
  match o with
  | None => ret (inl OutOfMemory, r)
  | Some v =>
      let r := mkRunning (ctl r) (admin_queue r) (io_queues r) (num_io_queues r) v (num_namespaces r) (here r) in
      '(x, r, _) ← submit r identify_command v;
      ret (x, r)
  end.

(** [free_queue(mapper, queue)?] and falling back to the admin queue. *)
Definition drop_io_queue (r : Running) : io M ((NVMeError + unit) * Running) :=
  q ← lift (index (io_queues r) 0);
  '(x, q) ← free_queue q;
  let r := set_io q r in
  match x with
  | inl e => ret (inl e, r)
  | inr _ => ret (inr (), set_num_io 0 r)
  end.

(** [init_io_queues]: the completion of the first command is waited for a second
    time, on a copy of the queue.  What the device said of its queues is read
    out of a completion that stays zero, and not used. *)
Definition init_io_queues (r : Running) : io M ((NVMeError + unit) * Running) :=
  '(x, r, get_feat) ← submit r features_command 0;
  match x with
  | inl e => ret (inl e, r)
  | inr _ =>
      '(x, _) ← wait_completion device copy_out (admin_queue r) (command_id get_feat) NVME_COMMAND_TIMEOUT_MS;
      match x with
      | inl e => ret (inl e, r)
      | inr _ =>
          q ← lift (index (io_queues r) 0);
          '(x, q) ← alloc_queue (ctl r) q 1 2;
          let r := set_io q r in
          match x with
          | inl _ => ret (inr (), set_num_io 0 r)
          | inr _ =>
              '(x, r) ← create_cq r 1 2;
              match x with
              | inl _ => drop_io_queue r
              | inr _ =>
                  '(x, r) ← create_sq r 1 2;
                  match x with
                  | inl _ =>
                      '(x, r, _) ← submit r delete_cq_command 0;
                      match x with
                      | inl e => ret (inl e, r)
                      | inr _ => drop_io_queue r
                      end
                  | inr _ => ret (inr (), set_num_io 1 r)
                  end
              end
          end
      end
  end.

(** [probe_controller] behind [init]; errors of freeing are only logged. *)
Definition bring_up (r : Running) : io M (NVMeError + unit) :=
  '(x, r) ← identify r;
  match x with
  | inl e =>
      _ ← free_queue (admin_queue r);
      _ ← free_ring (here r) CONTROLLER_SIZE;
      ret (inl e)
  | inr _ =>
      '(x, r) ← init_io_queues r;
      match x with
      | inl e =>
          _ ← free_ring (ctrl_data r) IDCTRL_SIZE;
          _ ← free_queue (admin_queue r);
          _ ← free_ring (here r) CONTROLLER_SIZE;
          ret (inl e)
      | inr _ => _ ← init_namespaces submit r; ret (inr ())
      end
  end.

(** [init] behind the test for the NVM command set, on the admin queue as the
    controller's memory has it.  [sub] on a pointer counts entries; below 0 it has
    no defined result and is taken to wrap.  The control register is the value to
    write, and the value the register; the outcome of waiting is dropped. *)
Definition enable (admin : NVMeQueue) (sleep : io M unit) (c : NVMeController) (cap : Z) :
    io M ((NVMeError + unit) * NVMeController) :=
  let mpsmin := wrap 8 (Z.shiftr cap 48) in
  let admin_queue_size := if NVME_ADMIN_QUEUE_SIZE <? max_queue_entries c then NVME_ADMIN_QUEUE_SIZE else max_queue_entries c in
  n ← lift (admin_queue_size -[32] 1);
  _ ← write_reg32 ecam c NVME_REG_AQA (Z.lor n (shl 32 n 16));
  _ ← write_reg64 ecam c NVME_REG_ASQ (wrap 64 (sq_cmds admin - COMMAND_SIZE * PMO));
  _ ← write_reg64 ecam c NVME_REG_ACQ (wrap 64 (cqes admin - COMPLETION_SIZE * PMO));
  o ← read_reg32 ecam c NVME_REG_CC;
  match o with
  | None => ret (inl RWRegError, c)
  | Some cc =>
      let v := Z.lor NVME_CC_EN (Z.lor NVME_CC_CSS_NVM (Z.lor (Z.shiftl 6 16) (Z.lor (Z.shiftl 4 20) (Z.shiftl mpsmin 7)))) in
      _ ← write_reg32 ecam c (wrap 32 v) cc;
      _ ← wait_ready ecam c true (Z.to_nat NVME_ENABLE_TIMEOUT_MS) sleep;
      ret (inr (), c)
  end.

(** [probe_controller] as a whole; [raw]: what the memory of the controller holds. *)
Definition probe (PageAlreadyMapped : MapToError (M:=MP) → bool) (sleep : io M unit) (raw : Running) (dev : PCIDevice) :
    io M (NVMeError + unit) :=
  probe_controller PMO ecam PageAlreadyMapped CONTROLLER_SIZE (enable (admin_queue raw) sleep)
    (λ controller c, bring_up (mkRunning c (admin_queue raw) (io_queues raw) (num_io_queues raw) (ctrl_data raw)
       (num_namespaces raw) controller)) (ctl raw) dev.
End start.

(** ** The self test behind its set-up *)

Section self_test.
Context {H : Type} `{X86} {MP : Type} `{Mapper MP} {F : Type} `{FrameAllocator F} {T : Type}.
Context (PMO : Z).
Abbreviation M := (machine H MP F).

(** [write_blocks] and [read_blocks] above, with what of them the test needs:
    controller, namespace, block, number of blocks, buffer. *)
Context (write_blocks read_blocks : T → Z → Z → Z → Z → io M ((NVMeError + unit) * T)) (copy_message : io M unit).

(** One buffer: [lba_sz + 4096 - 1 / 4096], in which the division comes first. *)
Definition free_buffer (p lba_sz : Z) : io M bool :=
  n ← lift (lba_sz +[64] 4096);
  n ← lift (n -[64] (1 / 4096));
  x ← free_at p n;
  ret (match x with inl _ => false | inr _ => true end).

(** Both; false at the first that fails. *)
Definition free_buffers (w r lba_sz : Z) : io M bool :=
  b ← free_buffer w lba_sz;
  if negb b then ret false else free_buffer r lba_sz.

Definition basic_test_transfer (c : T) (nsid_ lba_sz test_lba w r : Z) : io M bool :=
  mem ← get memory;
  _ ← set_memory (write_bytes mem w (replicate (Z.to_nat lba_sz) 0));
  _ ← copy_message;
  '(x, c) ← write_blocks c nsid_ test_lba 1 w;
  match x with
  | inl _ => _ ← free_buffers w r lba_sz; ret false
  | inr _ =>
      mem ← get memory;
      _ ← set_memory (write_bytes mem r (replicate (Z.to_nat lba_sz) 0xFF));
      '(x, c) ← read_blocks c nsid_ test_lba 1 r;
      match x with
      | inl _ => _ ← free_buffers w r lba_sz; ret false
      | inr _ =>
          mem ← get memory;
          if bool_decide (read_bytes mem w MESSAGE_LEN = read_bytes mem r MESSAGE_LEN) then free_buffers w r lba_sz
          else _ ← free_buffers w r lba_sz; ret false
      end
  end.

Definition run_basic_test (ctl_of : T → NVMeController) (c : T) : io M bool :=
  o ← basic_test_setup PMO (ctl_of c);
  match o with
  | None => ret false
  | Some (nsid_, lba_sz, test_lba, w, r) => basic_test_transfer c nsid_ lba_sz test_lba w r
  end.
End self_test.

(** ** What a submission leaves alone *)

(** A queue whose counters are in range. *)
Definition queue_ok (q : NVMeQueue) : Prop :=
  0 ≤ cq_head q < q_depth q ∧ 0 ≤ sq_tail q < q_depth q ∧ q_depth q < 2 ^ 16.

Section keeps.
Context {H MP F : Type} (PMO : Z).
Abbreviation M := (machine H MP F).
Implicit Types (m : M).

(** The kernel's own state; the device's and the memory it writes may change. *)
Definition same_pages m m' : Prop := statics m' = statics m ∧ mapper m' = mapper m ∧ frames m' = frames m.

#[export] Instance same_pages_preorder : PreOrder same_pages.
Proof. split; [by intros m|]. intros m1 m2 m3 (H1 & H2 & H3) (H4 & H5 & H6). unfold same_pages. by split_and!; etrans. Qed.

Definition keeps {A} (op : io M A) : Prop := ∀ m, io_returns op m (λ _ m', same_pages m m').

(** What the wait on a queue leaves of it. *)
Definition waited (q q' : NVMeQueue) : Prop :=
  queue_ok q' ∧ sq_cmds q' = sq_cmds q ∧ cqes q' = cqes q ∧ q_depth q' = q_depth q.

Lemma look_keeps copy q id_ m :
  keeps copy → queue_ok q →
  io_returns (look copy q id_) m (λ o m', same_pages m m' ∧ ∀ x q', o = Some (x, q') → waited q q').
Proof.
  intros Hc (Hh & Ht & Hd). unfold look. eapply io_returns_bind with (P := λ _ m', m' = m); [by eexists _, _|].
  intros mem m1 ->. destruct (_ && _); [|by apply io_returns_ret].
  eapply io_returns_bind; [apply Hc|]. intros [] m1 Hm. cbv beta in Hm.
  eapply io_returns_bind with (P := λ h m', h = cq_head q + 1 ∧ m' = m1).
  { apply io_returns_lift. rewrite checked_ok by (unfold in_width; lia). by apply returns_Ret. }
  intros ? ? [-> ->]. destruct (Z.leb_spec (q_depth q) (cq_head q + 1)); apply io_returns_ret;
    (split; [done|intros x q' [= <- <-]; unfold waited, queue_ok; cbn; split_and!; lia]).
Qed.

Lemma wait_loop_keeps device copy q id_ n m :
  keeps device → keeps copy → queue_ok q →
  io_returns (wait_loop device copy n q id_) m (λ '(x, q') m', same_pages m m' ∧ waited q q').
Proof.
  intros Hd Hc Hq. revert m. induction n as [|n IH]; intros m; cbn [wait_loop]; [by apply io_returns_ret|].
  eapply io_returns_bind; [apply Hd|]. intros [] m1 Hm1. eapply io_returns_bind; [by apply look_keeps|].
  intros [[x q']|] m2 [Hm2 Hw]; cbv beta in Hm1.
  - apply io_returns_ret. split; [by etrans|by eapply Hw].
  - eapply io_returns_mono; [apply IH|]. intros [x q'] m3 [Hm3 ?]. split; [|done]. etrans; [exact Hm1|]. by etrans.
Qed.

Lemma wait_completion_keeps device copy q id_ t m :
  keeps device → keeps copy → queue_ok q → 0 ≤ t * 1000 < 2 ^ 32 →
  io_returns (wait_completion device copy q id_ t) m (λ '(x, q') m', same_pages m m' ∧ waited q q').
Proof.
  intros Hd Hc Hq Ht. unfold wait_completion. rewrite checked_ok by done.
  eapply io_returns_bind with (P := λ n m', m' = m); [by eexists _, _|]. intros n m1 ->. by apply wait_loop_keeps.
Qed.

(** What the start of a controller needs of the way of a command without a
    buffer: it comes back, the kernel's pages and the queues are as they were. *)
Class AdminPath (submit : Running → NVMeCommand → Z → io M ((NVMeError + unit) * Running * NVMeCommand)) := {
  admin_ok : Running → Prop;
  submit_admin_ok r cmd m : admin_ok r →
    io_returns (submit r cmd 0) m (λ '(x, r', cmd') m', same_pages m m' ∧ admin_ok r' ∧ io_queues r' = io_queues r);
  admin_ok_queue r : admin_ok r → queue_ok (admin_queue r);
  admin_ok_io r q : admin_ok r → admin_ok (set_io q r);
}.

(** The counter of commands moves from 0 to 1 and stays there; the tail is
    always 0 after a submission. *)
Definition numbered (r : Running) : Prop := 0 ≤ next_cmd_id (ctl r) ≤ 1 ∧ queue_ok (admin_queue r).

Lemma submit_and_wait_keeps device clobber q cmd t m :
  keeps device → (∀ q cmd, keeps (clobber q cmd)) → queue_ok q → 0 ≤ t * 1000 < 2 ^ 32 →
  io_returns (submit_and_wait device clobber q cmd t) m (λ '(x, q', _) m', same_pages m m' ∧ waited q q').
Proof.
  intros Hd Hc (Hh & Ht & Hq) Htm. unfold submit_and_wait, submit_cmd_to_queue.
  eapply io_returns_bind.
  { eapply io_returns_bind; [apply Hc|]. intros cmd' m1 Hm1.
    eapply io_returns_bind with (P := λ t m', t = 0 ∧ m' = m1).
    { apply io_returns_lift. unfold next_tail. rewrite (proj2 (Z.leb_gt _ _)) by lia. by apply returns_Ret. }
    intros ? ? [-> ->]. apply io_returns_ret.
    instantiate (1 := λ '(x, q', _) m', x = inr () ∧ same_pages m m' ∧ waited q q').
    split_and!; [done|exact Hm1|]. unfold waited, queue_ok. cbn. split_and!; (done || lia). }
  intros [[x q1] cmd1] m1 (-> & Hm1 & Hw). cbv beta iota.
  eapply io_returns_bind; [apply wait_completion_keeps; [exact Hd|by intros m2; apply io_returns_ret|apply Hw|done]|].
  intros [y q2] m2 [Hm2 Hw2]. apply io_returns_ret. split; [by etrans|].
  destruct Hw as (_ & E1 & E2 & E3), Hw2 as (Hq2 & E4 & E5 & E6). unfold waited. split_and!; congruence || done.
Qed.

Lemma submit_admin_cmd_keeps device clobber r cmd m :
  keeps device → (∀ q cmd, keeps (clobber q cmd)) → numbered r →
  io_returns (submit_admin_cmd PMO device clobber r cmd 0) m
    (λ '(x, r', _) m', same_pages m m' ∧ numbered r' ∧ io_queues r' = io_queues r).
Proof.
  intros Hd Hc [Hn Hq]. unfold submit_admin_cmd.
  eapply io_returns_bind with (P := λ '(_, c) m', 0 ≤ next_cmd_id c ≤ 1 ∧ m' = m).
  { apply io_returns_lift. unfold submit_admin, get_next_cmd_id. cbn [Z.eqb negb].
    rewrite (checked_ok 16 (next_cmd_id (ctl r) + 1)), !bind_Ret by (unfold in_width; lia). apply returns_Ret. split; [|done]. destruct (Z.eqb_spec (next_cmd_id (ctl r)) 0); cbn; lia. }
  intros [cmd1 c] m1 [Hc1 ->]. eapply io_returns_bind; [by apply submit_and_wait_keeps|].
  intros [[x q] cmd2] m2 [Hm2 Hw]. apply io_returns_ret. split_and!; [done| |done]. split; [exact Hc1|apply Hw].
Qed.

Lemma admin_path device clobber :
  keeps device → (∀ q cmd, keeps (clobber q cmd)) → AdminPath (submit_admin_cmd PMO device clobber).
Proof.
  intros Hd Hc. refine {| admin_ok := numbered |}.
  - intros r cmd m Hr. by apply submit_admin_cmd_keeps.
  - by intros r [_ ?].
  - by intros r q.
Defined.
End keeps.

(** ** Properties of the start *)

Section theorems.
Context {H : Type} `{Hardware H} `{X86Laws} {MP : Type} `{MapperLaws MP} {F : Type} `{FrameContract F}.
Context (PMO ecam : Z).
Abbreviation M := (machine H MP F).
Implicit Types (m : M).
Context (submit : Running → NVMeCommand → Z → io M ((NVMeError + unit) * Running * NVMeCommand)) `{!AdminPath submit}.
Context (device copy_out : io M unit) (device_keeps : keeps device) (copy_keeps : keeps copy_out).

(** Where the I/O queue's two rings are, if they are mapped. *)
Definition rings_mapped (base : Z) m m' : Prop :=
  ∃ fr1 fr2, page_map (mapper m') = map_pages base [fr1; fr2] (Z.lor PRESENT WRITABLE) (page_map (mapper m)).

Lemma drop_io_queue_unmaps base q (rest : list NVMeQueue) r m m1 :
  io_queues r = q :: rest → sq_cmds q = base → cqes q = base + 4096 → q_depth q = 2 →
  0 < base → region_ok base 2 → fresh_range (mapper m) base 2 → rings_mapped base m m1 →
  io_returns (drop_io_queue r) m1 (λ '(x, r') m', x = inr () ∧ num_io_queues r' = 0 ∧ page_map (mapper m') = page_map (mapper m)).
Proof.
  intros Hq Hs Hc Hd Hb Hreg Hf (fr1 & fr2 & Hpm). unfold drop_io_queue. rewrite Hq. change (index (q :: rest) 0) with (Ret q).
  destruct (free_queue_unmaps q 2 base [fr1; fr2] (page_map (mapper m)) m1) as (q' & m' & E & _ & _ & Hpm');
    [done|done|done|lia|done|exact Hreg|done|exact Hpm|intros i Hi; by apply Hf|].
  change (drop _ _) with (@nil Z) in Hpm'. exists (inr (), set_num_io 0 (set_io q' r)), m'.
  split; [|by split_and!]. by rewrite io_bind_lift, (io_bind_Ret _ _ _ _ _ E).
Qed.

Lemma create_command_ok op ring low (q : NVMeQueue) rest :
  0 ≤ PMO ≤ ring q → ring q < 2 ^ 64 → ∃ cmd, create_command PMO op ring low (q :: rest) 1 2 = Ret cmd.
Proof.
  intros Hp Hr. unfold create_command.
  rewrite (checked_ok 64 (1 - 1)), bind_Ret by done. change (index (q :: rest) (1 - 1)) with (Ret q). rewrite bind_Ret.
  rewrite (checked_ok 64 (ring q - PMO)), bind_Ret by (unfold in_width; lia). by eexists.
Qed.

Lemma create_ok (create : Running → Z → Z → io M ((NVMeError + unit) * Running)) (r : Running) q rest (ring : NVMeQueue → Z) m :
  create = create_cq PMO submit ∧ ring = cqes ∨ create = create_sq PMO submit ∧ ring = sq_cmds →
  admin_ok r → io_queues r = q :: rest → 0 ≤ PMO ≤ ring q → ring q < 2 ^ 64 →
  io_returns (create r 1 2) m (λ '(x, r') m', same_pages m m' ∧ admin_ok r' ∧ io_queues r' = io_queues r).
Proof.
  intros Hc Hr Hq Hp Hl. destruct Hc as [[-> ->]|[-> ->]].
  all: unfold create_cq, create_sq, create_cq_command, create_sq_command; rewrite Hq;
    match goal with |- context [create_command ?p ?o ?g ?w] => destruct (create_command_ok o g w q rest Hp Hl) as [cmd ->] end.
  all: eapply io_returns_step; [reflexivity|]; eapply io_returns_bind; [by eapply (submit_admin_ok r cmd m Hr)|]; intros [[x r'] c'] m' (Hm & Hr' & Hq').
  all: apply io_returns_ret; split_and!; [done|done|congruence].
Qed.

Lemma rings_mapped_same base m m1 m2 : rings_mapped base m m1 → same_pages m1 m2 → rings_mapped base m m2.
Proof. intros (f1 & f2 & E) (_ & Hm & _). exists f1, f2. by rewrite Hm. Qed.

(** The features of the device could not be asked for, with error [e]. *)
Definition features_failed (r : Running) m (e : NVMeError) : Prop :=
  ∃ r1 feat m1,
    submit r features_command 0 m = Ret ((inl e, r1, feat), m1) ∨
    submit r features_command 0 m = Ret ((inr (), r1, feat), m1) ∧
    ∃ q m2, wait_completion device copy_out (admin_queue r1) (command_id feat) NVME_COMMAND_TIMEOUT_MS m1 = Ret ((inl e, q), m2).

(** The completion queue was created, the submission queue was not, and deleting
    the completion queue failed with [e], which leaves [r'] and [m']. *)
Definition deletion_failed (r : Running) (q0 : NVMeQueue) m (e : NVMeError) (r' : Running) m' : Prop :=
  ∃ r1 feat m1 cq m2 q m3 r2 m4 e4 r3 m5 cmd,
    submit r features_command 0 m = Ret ((inr (), r1, feat), m1) ∧
    wait_completion device copy_out (admin_queue r1) (command_id feat) NVME_COMMAND_TIMEOUT_MS m1 = Ret ((inr (), cq), m2) ∧
    alloc_queue (ctl r1) q0 1 2 m2 = Ret ((inr (), q), m3) ∧
    create_cq PMO submit (set_io q r1) 1 2 m3 = Ret ((inr (), r2), m4) ∧
    create_sq PMO submit r2 1 2 m4 = Ret ((inl e4, r3), m5) ∧
    submit r3 delete_cq_command 0 m5 = Ret ((inl e, r', cmd), m').

(** C38: What [init_io_queues] leaves mapped.  Whatever the device answers, and
    whenever: it ends in one of four ways. [Ok] with one queue, whose two rings
    are the only new pages; [Ok] with no queue and the rings taken back: no new
    page; the error of asking for the features, the command's own or that of the
    second wait for its completion, and no new page; or, where the completion
    queue was created, the submission queue was not and the completion queue
    could not be deleted again, the error of that deletion, and then the rings
    stay mapped. The two pages at the next address of the allocator are unmapped
    and inside the address space, the device memory's window starts below them,
    and there are frames for them; the way of an admin command comes back and
    leaves the kernel's pages alone ([AdminPath], which the driver's own path
    has), as the device does while it is waited for. *)
Theorem init_io_queues_pages (r : Running) (q0 : NVMeQueue) (rest : list NVMeQueue) m :
  let base := NEXT_VIRT (statics m) in
  admin_ok r → io_queues r = q0 :: rest → 0 ≤ PMO ≤ base → 0 < base → region_ok base 2 →
  frames_for (frames m) 2 → fresh_range (mapper m) base 2 →
  io_returns (init_io_queues PMO submit device copy_out r) m (λ '(x, r') m',
    (x = inr () ∧ num_io_queues r' = 1 ∧ (∃ q, io_queues r' = q :: rest ∧ sq_cmds q = base ∧ cqes q = base + 4096) ∧ rings_mapped base m m') ∨
    (x = inr () ∧ num_io_queues r' = 0 ∧ page_map (mapper m') = page_map (mapper m)) ∨
    (∃ e, x = inl e ∧ features_failed r m e ∧ page_map (mapper m') = page_map (mapper m)) ∨
    (∃ e, x = inl e ∧ deletion_failed r q0 m e r' m' ∧ rings_mapped base m m')).
Proof.
  intros base Hr Hq Hp Hb Hreg Hf Hfr. unfold init_io_queues.
  destruct (submit_admin_ok r features_command m Hr) as ([[x r1] feat] & m1 & E1 & Hm1 & Hr1 & Hq1).
  eapply io_returns_step; [exact E1|].
  destruct x as [e|[]].
  { apply io_returns_ret. right. right. left. exists e. split; [done|]. split; [|by destruct Hm1 as (_ & -> & _)].
    exists r1, feat, m1. by left. }
  destruct (wait_completion_keeps device copy_out (admin_queue r1) (command_id feat) NVME_COMMAND_TIMEOUT_MS m1) as ([x cq] & m2 & E2 & Hm2 & _);
    [done|done|by apply admin_ok_queue|done|].
  assert (Hm : same_pages m m2) by by etrans.
  eapply io_returns_step; [exact E2|].
  destruct x as [e|[]].
  { apply io_returns_ret. right. right. left. exists e. split; [done|]. split; [|by destruct Hm as (_ & -> & _)].
    exists r1, feat, m1. right. split; [exact E1|]. by exists cq, m2. }
  rewrite Hq1, Hq. eapply io_returns_step; [reflexivity|].
  pose proof Hm as (Hst & Hmp & Hfm). pose proof Hreg as (_ & _ & Hend & _).
  destruct (alloc_queue_maps (ctl r1) q0 1 2 m2) as (q & m3 & frs & E3 & Hl & Hqv & Hpm & _);
    [lia|by rewrite Hst|by rewrite Hfm|by rewrite Hst, Hmp|]. change (ring_pages (64 * 2)) with 1 in *.
  rewrite Hst in Hqv, Hpm. fold base in Hqv, Hpm. rewrite Hmp in Hpm.
  destruct frs as [|f1 [|f2 [|? ?]]]; try (exfalso; unfold zlen in Hl; cbn in Hl; lia).
  assert (Hrg3 : rings_mapped base m m3) by by exists f1, f2.
  assert (Hs : sq_cmds q = base ∧ cqes q = base + 4096 ∧ q_depth q = 2) by (rewrite Hqv; cbn; split_and!; lia).
  destruct Hs as (Hsq & Hcq & Hdep). eapply io_returns_step; [exact E3|]. cbv zeta.
  assert (Hqs : io_queues (set_io q r1) = q :: rest) by (cbn; by rewrite Hq1, Hq).
  assert (Hdrop : ∀ r m5, io_queues r = q :: rest → rings_mapped base m m5 →
    io_returns (drop_io_queue r) m5 (λ '(x, r') m', x = inr () ∧ num_io_queues r' = 0 ∧ page_map (mapper m') = page_map (mapper m)))
    by (intros; by eapply drop_io_queue_unmaps).
  destruct (create_ok (create_cq PMO submit) (set_io q r1) q rest cqes m3) as ([x r2] & m4 & E4 & Hm4 & Hr2 & Hq2);
    [by left|by apply admin_ok_io|exact Hqs|lia|lia|].
  assert (Hrg4 : rings_mapped base m m4) by by eapply rings_mapped_same.
  eapply io_returns_step; [exact E4|]. rewrite Hqs in Hq2.
  destruct x as [e|[]].
  { eapply io_returns_mono; [by apply Hdrop|]. intros [x r'] m' ?. by right; left. }
  destruct (create_ok (create_sq PMO submit) r2 q rest sq_cmds m4) as ([x r3] & m5 & E5 & Hm5 & Hr3 & Hq3);
    [by right|done|exact Hq2|lia|lia|].
  assert (Hrg5 : rings_mapped base m m5) by by eapply rings_mapped_same.
  eapply io_returns_step; [exact E5|]. rewrite Hq2 in Hq3.
  destruct x as [e4|[]].
  - destruct (submit_admin_ok r3 delete_cq_command m5 Hr3) as ([[x r4] cmd] & m6 & E6 & Hm6 & _ & Hq4).
    assert (Hrg6 : rings_mapped base m m6) by by eapply rings_mapped_same.
    eapply io_returns_step; [exact E6|].
    destruct x as [e'|[]].
    + apply io_returns_ret. right. right. right. exists e'. split; [done|]. split; [|exact Hrg6].
      unfold deletion_failed. do 13 eexists. by split_and!.
    + eapply io_returns_mono; [apply Hdrop; congruence || done|]. intros [x r'] m' ?. by right; left.
  - apply io_returns_ret. left. split_and!; [done|done| |done]. by exists q.
Qed.

Lemma wait_loop_times_out (run : M → M) copy q id_ n m :
  (∀ i, (i < n)%nat → hit (memory (Nat.iter (S i) run m)) q id_ = false) →
  wait_loop (λ m, Ret ((), run m)) copy n q id_ m = Ret ((inl Timeout, q), Nat.iter n run m).
Proof.
  revert m. induction n as [|n IH]; intros m Hh; cbn [wait_loop]; [done|].
  rewrite (io_bind_Ret _ _ _ () (run m) eq_refl).
  assert (E : look copy q id_ (run m) = Ret (None, run m)).
  { unfold look. rewrite (io_bind_Ret _ _ _ (memory (run m)) (run m) eq_refl). fold (hit (memory (run m)) q id_).
    assert (Hh0 : hit (memory (run m)) q id_ = false) by (apply (Hh 0%nat); lia). by rewrite Hh0. }
  rewrite (io_bind_Ret _ _ _ _ _ E), IH, Nat.iter_succ_r; [done|].
  intros i Hi. rewrite <- Nat.iter_succ_r. apply Hh. lia.
Qed.

(** The features of the device are asked for once and waited for twice.  When
    the head of the ring, past the completion that [submit_admin_cmd] has taken,
    does not show that command again, [init_io_queues] ends in a timeout after
    30,000,000 looks: no I/O queue is ever created. *)
Theorem features_awaited_twice (run : M → M) (r r1 : Running) (cmd : NVMeCommand) m m1 :
  let looks := Z.to_nat (NVME_COMMAND_TIMEOUT_MS * 1000) in
  submit r features_command 0 m = Ret ((inr (), r1, cmd), m1) →
  (∀ i, (i < looks)%nat → hit (memory (Nat.iter (S i) run m1)) (admin_queue r1) (command_id cmd) = false) →
  init_io_queues PMO submit (λ m, Ret ((), run m)) copy_out r m = Ret ((inl Timeout, r1), Nat.iter looks run m1).
Proof.
  intros looks Hs Hh. unfold init_io_queues. rewrite (io_bind_Ret _ _ _ _ _ Hs).
  assert (E : wait_completion (λ m, Ret ((), run m)) copy_out (admin_queue r1) (command_id cmd) NVME_COMMAND_TIMEOUT_MS m1 =
    Ret ((inl Timeout, admin_queue r1), Nat.iter looks run m1)).
  { unfold wait_completion. rewrite checked_ok, io_bind_lift by done. by apply wait_loop_times_out. }
  by rewrite (io_bind_Ret _ _ _ _ _ E).
Qed.

(** The driver as a whole starts no controller: [probe_controller] ends in an
    error or not at all, whatever the device does. *)
Theorem probe_never_ok SIZE already sleep (raw : Running) (d : PCIDevice) m x m' :
  probe PMO ecam SIZE submit device copy_out already sleep raw d m = Ret (x, m') → ∃ e, x = inl e.
Proof. apply probe_fails. Qed.

(** ** Properties of the self test *)

Lemma alloc_buffer_maps bytes k m :
  let base := NEXT_VIRT (statics m) in
  0 < bytes ≤ 4096 → 0 ≤ k → region_ok base 1 → page_aligned PMO → 0 ≤ PMO ≤ base →
  frames_for (frames m) (1 + k) → fresh_range (mapper m) base 1 →
  ∃ mp f fr, alloc_aligned_buffer PMO bytes m =
      Ret (Some base, mkMachine (mkStatics (base + 4096) (NEXT_VIRT_USER (statics m))) mp f (memory m) (hw m)) ∧
    page_map mp = map_pages base [fr] (Z.lor PRESENT WRITABLE) (page_map (mapper m)) ∧
    frames_for f k ∧ (∀ p, huge mp p → huge (mapper m) p).
Proof.
  intros base Hb Hk Hreg Hal Hp Hf Hfr. pose proof Hreg as (Hbal & Hb0 & Hend & _).
  destruct (alloc_pages_maps 1 k m) as (mp & f & frs & Ha & Hl & Hpm & Hf' & Hh); [lia|done..|].
  destruct frs as [|fr [|? ?]]; try (exfalso; unfold zlen in Hl; cbn in Hl; lia).
  exists mp, f, fr. split; [|by split_and!]. unfold alloc_aligned_buffer.
  do 2 (rewrite checked_ok, io_bind_lift by (unfold in_width; lia)).
  replace ((bytes + 4096 - 1) / 4096) with 1 by (Z.to_euclidean_division_equations; lia).
  rewrite (io_bind_Ret _ _ _ _ _ Ha). fold base.
  rewrite (checked_ok 64 (base - PMO)), io_bind_lift by (unfold in_width; lia).
  change (4096 - 1) with (2 ^ 12 - 1). rewrite land_low_mask by lia.
  replace ((base - PMO) mod 2 ^ 12) with 0; [done|].
  unfold page_aligned in *. fold base in Hbal. Z.to_euclidean_division_equations; lia.
Qed.

(** Freeing the first buffer takes the second one with it. *)
Lemma free_buffers_fails base bytes m m1 :
  0 < bytes ≤ 4096 → 0 < base → region_ok base 2 → fresh_range (mapper m) base 2 → rings_mapped base m m1 →
  io_returns (free_buffers base (base + 4096) bytes) m1 (λ b m', b = false ∧ page_map (mapper m') = page_map (mapper m)).
Proof.
  intros Hb Hb0 Hreg Hf (f1 & f2 & Hpm). pose proof Hreg as (Hal & Hz & Hend & Hcan). unfold free_buffers, free_buffer.
  destruct (free_at_mapped base (bytes + 4096 - 1 / 4096) 2 [f1; f2] (Z.lor PRESENT WRITABLE) (page_map (mapper m)) m1)
    as (mp & E & Hpm').
  { unfold div_ceil. change (1 / 4096) with 0. Z.to_euclidean_division_equations; lia. }
  { lia. } { done. } { change (1 / 4096) with 0. lia. } { done. } { done. } { exact Hpm. } { intros i Hi. by apply Hf. }
  change (drop _ _) with (@nil Z) in Hpm'. cbn [map_pages] in Hpm'.
  assert (Hck : in_width 64 (bytes + 4096) ∧ in_width 64 (bytes + 4096 - 1 / 4096))
    by (change (1 / 4096) with 0; unfold in_width; lia).
  destruct Hck as [Hc1 Hc2].
  eapply io_returns_step.
  { rewrite checked_ok, io_bind_lift, checked_ok, io_bind_lift, (io_bind_Ret _ _ _ _ _ E) by done. reflexivity. }
  cbn [negb]. set (m2 := mkMachine (statics m1) mp (frames m1) (memory m1) (hw m1)).
  destruct (free_at_unmapped (base + 4096) (bytes + 4096 - 1 / 4096) m2) as (e & mp' & E' & Hpm2).
  { lia. } { change (1 / 4096) with 0. lia. }
  { change 4096 with (4096 * 1). by apply page_aligned_step. } { change 4096 with (4096 * 1). apply Hcan. lia. } { lia. }
  { cbn. rewrite Hpm'. change 4096 with (4096 * 1). apply Hf. lia. }
  exists false. eexists. split.
  { rewrite checked_ok, io_bind_lift, checked_ok, io_bind_lift, (io_bind_Ret _ _ _ _ _ E') by done. reflexivity. }
  split; [done|]. cbn [mapper]. rewrite Hpm2. exact Hpm'.
Qed.

Context {T : Type} (write_blocks read_blocks : T → Z → Z → Z → Z → io M ((NVMeError + unit) * T)) (copy_message : io M unit).
Context (write_keeps : ∀ c n l k b, keeps (write_blocks c n l k b)) (read_keeps : ∀ c n l k b, keeps (read_blocks c n l k b)).
Context (message_keeps : keeps copy_message).

Lemma transfer_fails (c : T) n base bytes lba m m1 :
  0 < bytes ≤ 4096 → 0 < base → region_ok base 2 → fresh_range (mapper m) base 2 → rings_mapped base m m1 →
  io_returns (basic_test_transfer write_blocks read_blocks copy_message c n bytes lba base (base + 4096)) m1
    (λ b m', b = false ∧ page_map (mapper m') = page_map (mapper m)).
Proof.
  intros Hb Hb0 Hreg Hf Hm. unfold basic_test_transfer.
  assert (Hfree : ∀ m2, rings_mapped base m m2 →
    io_returns (free_buffers base (base + 4096) bytes) m2 (λ b m', b = false ∧ page_map (mapper m') = page_map (mapper m)))
    by (intros; by apply free_buffers_fails).
  assert (Hfree' : ∀ m2, rings_mapped base m m2 →
    io_returns (_ ← free_buffers base (base + 4096) bytes; ret false) m2 (λ b m', b = false ∧ page_map (mapper m') = page_map (mapper m))).
  { intros m2 Hm2. eapply io_returns_bind; [by apply Hfree|]. intros b m3 [_ ?]. by apply io_returns_ret. }
  eapply io_returns_step; [reflexivity|]. eapply io_returns_step; [reflexivity|].
  match goal with |- io_returns _ ?x _ => assert (Hm2 : rings_mapped base m x) by done end.
  eapply io_returns_bind; [apply message_keeps|]. intros [] m3 Hm3.
  eapply io_returns_bind; [apply write_keeps|]. intros [x c1] m4 Hm4. cbv beta in Hm3, Hm4.
  assert (Hr4 : rings_mapped base m m4) by (eapply rings_mapped_same; [|exact Hm4]; by eapply rings_mapped_same).
  destruct x as [e|[]]; [by apply Hfree'|].
  eapply io_returns_step; [reflexivity|]. eapply io_returns_step; [reflexivity|].
  match goal with |- io_returns _ ?x _ => assert (Hm5 : rings_mapped base m x) by done end.
  eapply io_returns_bind; [apply read_keeps|]. intros [x c2] m6 Hm6. cbv beta in Hm6.
  assert (Hr6 : rings_mapped base m m6) by by eapply rings_mapped_same.
  destruct x as [e|[]]; [by apply Hfree'|]. eapply io_returns_step; [reflexivity|].
  case_bool_decide; [by apply Hfree|by apply Hfree'].
Qed.

(** The self test never passes.  Its two buffers are neighbours, and each is
    freed with one page too many: freeing the first unmaps the second, whose
    freeing then fails, and that makes the result false, even when the block that
    was written has been read back. *)
Theorem self_test_never_passes (ctl_of : T → NVMeController) (c : T) m :
  let base := NEXT_VIRT (statics m) in
  zlen (namespaces (ctl_of c)) = 256 → Forall (λ ns, 0 < lba_size ns ≤ 4096) (namespaces (ctl_of c)) →
  page_aligned PMO → 0 ≤ PMO ≤ base → 0 < base → region_ok base 2 → frames_for (frames m) 2 → fresh_range (mapper m) base 2 →
  io_returns (run_basic_test PMO write_blocks read_blocks copy_message ctl_of c) m
    (λ b m', b = false ∧ page_map (mapper m') = page_map (mapper m)).
Proof.
  intros base Hl Hlba Hal Hp Hb0 Hreg Hf Hfr. unfold run_basic_test, basic_test_setup. set (k := ctl_of c) in *.
  destruct (enabled k); cbn [negb]; [|by eapply io_returns_step; [reflexivity|]; apply io_returns_ret].
  rewrite (candidates_last k 1 255 0) by lia. destruct (List.find _ _) as [i|] eqn:Hfind.
  2: { eapply io_returns_step; [reflexivity|]. by apply io_returns_ret. }
  change (default 0 (Some i)) with i. apply List.find_some in Hfind as [Hin Hv]. apply List.in_rev, list_elem_of_In, elem_of_seqZ in Hin.
  destruct (lookup_lt_is_Some_2 (namespaces k) (Z.to_nat (i - 1))) as [ns Hns]; [unfold zlen in Hl; lia|].
  unfold is_valid in Hv. rewrite Hns in Hv.
  assert (Hg : get_namespace k i = Ret (inr ns)).
  { unfold get_namespace, index. rewrite (proj2 (Z.eqb_neq i 0)), (proj2 (Z.ltb_ge 256 i)) by lia. cbn [orb].
    by rewrite Hns, bind_Ret, Hv. }
  rewrite Forall_forall in Hlba. assert (Hns' : ns ∈ namespaces k) by by eapply list_elem_of_lookup_2.
  specialize (Hlba ns Hns'). cbn beta in Hlba.
  pose proof (region_ok_split base 1 1 ltac:(lia) ltac:(lia) Hreg) as [Hreg1 Hreg2].
  pose proof (fresh_range_split (mapper m) base 1 1 ltac:(lia) ltac:(lia) Hfr) as [Hfr1 Hfr2].
  destruct (alloc_buffer_maps (lba_size ns) 1 m) as (mp1 & f1 & fr1 & E1 & Hpm1 & Hf1 & Hh1); [done|lia|done..|]. fold base in E1, Hpm1.
  set (m1 := mkMachine _ mp1 f1 _ _) in E1.
  destruct (alloc_buffer_maps (lba_size ns) 0 m1) as (mp2 & f2 & fr2 & E2 & Hpm2 & _ & _); cbn [m1 statics NEXT_VIRT mapper frames];
    [done|lia|by rewrite Z.mul_1_r in Hreg2|done|lia|by rewrite Z.add_0_r| |].
  { change (base + 4096) with (base + 4096 * zlen [fr1]). eapply fresh_range_behind; [exact Hpm1|exact Hh1|exact Hfr2]. }
  cbn [m1 statics NEXT_VIRT mapper frames] in E2, Hpm2.
  eapply io_returns_step.
  { rewrite io_bind_lift, (proj2 (Z.eqb_neq i 0)), Hg, io_bind_lift by lia.
    rewrite (io_bind_Ret _ _ _ _ _ E1), (io_bind_Ret _ _ _ _ _ E2). reflexivity. }
  apply (transfer_fails c i base (lba_size ns)); [done|done|done|done|]. exists fr1, fr2. cbn [mapper].
  rewrite Hpm2, Hpm1. reflexivity.
Qed.
End theorems.

(** ** A sample run *)

#[local] Existing Instances amd64 amd64_laws sample_Mapper sample_MapperLaws sample_FA sample_FC nvme_bus.

(** The machine of [Nvme] with entries that complete command 2, a device that
    does nothing more, and a copy that leaves the command as it is. *)
Definition answering_machine : machine sample_bus (gmap Z (Z * Z)) (BootInfoFrameAllocator (MemoryRegionKind:=bool)) :=
  mkMachine statics0 ∅ sample_frames (λ a, if a mod 16 =? 12 then 2 else 0) (mkBus 0 nvme_regs).

Definition sample_controller : Running :=
  mkRunning (mkController nvme_dev 0 4 4096 64 true [] 1) (mkQueue 0x1000 0x2000 0 0 0 0 0 64 0)
    (replicate 8 (mkQueue 0 0 0 0 0 0 0 0 0)) 0 0 0 0x5000.

Lemma init_io_queues_pages_witness :
  ∃ x r m, init_io_queues 0 (submit_admin_cmd 0 (ret ()) (λ _ cmd, ret cmd)) (ret ()) (ret ()) sample_controller answering_machine =
      Ret ((x, r), m) ∧ (x = inr () → num_io_queues r = 0 ∨ num_io_queues r = 1).
Proof.
  assert (Hd : keeps (ret (H:=machine sample_bus (gmap Z (Z * Z)) (BootInfoFrameAllocator (MemoryRegionKind:=bool))) ()))
    by (intros m; by apply io_returns_ret).
  assert (Hc : ∀ (q : NVMeQueue) (cmd : NVMeCommand),
    keeps (ret (H:=machine sample_bus (gmap Z (Z * Z)) (BootInfoFrameAllocator (MemoryRegionKind:=bool))) cmd))
    by (intros q cmd m; by apply io_returns_ret).
  destruct (init_io_queues_pages 0 _ (AdminPath0 := admin_path 0 (ret ()) (λ _ cmd, ret cmd) Hd Hc) (ret ()) (ret ()) Hd Hd
    sample_controller (mkQueue 0 0 0 0 0 0 0 0 0) (replicate 7 (mkQueue 0 0 0 0 0 0 0 0 0)) answering_machine) as ([x r] & m & E & Hx).
  - split; [split; discriminate|]. split_and!; by vm_compute.
  - done.
  - split; by vm_compute.
  - done.
  - exact kernel_area_ok.
  - by apply sample_frames_for.
  - apply empty_fresh.
  - exists x, r, m. split; [exact E|]. clear E. intros ->. destruct Hx as [(_ & ? & _)|[(_ & Hn & _)|[(e & [=] & _)|(e & [=] & _)]]]; [by right|by left].
Defined.
