(* ===== verification/KernelMain.v ===== *)
(** * The boot sequence (kernel/src/main.rs [kernel_main], memory.rs [init], png.rs)

    [prepare] is [kernel_main] up to the RAM disk: screen, page tables, heap,
    logo, configuration window, bus scan, descriptors, interrupt controllers,
    network devices, each the operation of its own file on the one state
    [kernel]; [Boot.start] is the rest.  Log lines are left out, and so are
    [init_idt], which loads the table of [Interrupts], and the enabling of
    interrupts with the scancode queue, which [Keyboard] starts from. *)

From S2P Require Import Prelude GlobalAlloc BumpAllocator Arch Hardware FrameAllocator Paging Ustar Pci Acpi Apic Rtl8139.
From S2P Require Import Framebuffer Font Tty Interrupts Usermode Elf Boot.
Open Scope Z_scope.
Open Scope rust_scope.

(** ** What the bootloader, the tables and the crates say *)

Record BootInfo {K : Type} : Type := mkBootInfo {
  framebuffer : option Framebuffer;
  physical_memory_offset : option Z;
  memory_regions : list (MemoryRegion (MemoryRegionKind:=K));
  rsdp_addr : option Z;
}.
Arguments BootInfo : clear implicits.

Inductive InterruptModel : Type := ApicModel (local_apic_address : Z) (io_apics : list IoApicInfo) | OtherModel.
Record AcpiTables : Type := mkTables { find_mcfg : option Mcfg; platform_info : option InterruptModel }.

(** A decoded image: whether it is RGBA, its dimensions, its bytes. *)
Record Png : Type := mkPng { is_rgba : option bool; dimensions : option (Z * Z); samples : option (list Z) }.

(** ** The logo *)

Fixpoint chunks_exact4 (bs : list Z) : list rgba :=
  match bs with
  | r :: g :: b :: a :: bs => (r, g, b, a) :: chunks_exact4 bs
  | _ => []
  end.

Definition draw_png (p : option Png) (x y : Z) (s : Screen) : outcome Screen :=
  p ← unwrap p;
  c ← unwrap (is_rgba p);
  if negb c then Panic ExplicitPanic else
  '(width, height) ← unwrap (dimensions p);
  bs ← unwrap (samples p);
  match FRAMEBUFFER s with
  | Some fb => fb ← draw_bitmap (chunks_exact4 bs) width height x y fb; Ret (mkScreen (Some fb) (FONT_HEIGHT s))
  | None => Ret s
  end.

(** The screen and the console. *)
Definition FONT_HEIGHT_0 : Z := 8.     (* before a font is parsed *)

Definition init_display {K} (info : BootInfo K) : outcome console :=
  fb ← unwrap (framebuffer info);
  let s := mkScreen (Some fb) FONT_HEIGHT_0 in
  clear_tty (tty_new s, s).

Definition display_logo (logo : option Png) (s : Screen) : outcome Screen :=
  '(w, h) ← match FRAMEBUFFER s with Some fb => Ret (resolution fb) | None => Panic ExplicitPanic end;
  x ← w -[64] 64;
  draw_png logo x 0 s.

(** ** Boot *)

Section boot.
Context `{X86} `{X86Phys} {M : Type} `{Mapper M} `{!Translate M} {HW : Type} `{Hardware HW} {T : Type} `{DescriptorTable T}.
Context {K : Type} `{EqDecision K} (Usable : K).
Abbreviation F := (BootInfoFrameAllocator (MemoryRegionKind:=K)).
#[local] Hint Extern 0 (FrameAllocator _) => exact (boot_FrameAllocator Usable) : typeclass_instances.

(** Device registers, through the page tables [m]: the page of the access, which
    is aligned, is mapped, or the access is a fault. *)
Definition mapped (m : M) (a : Z) : bool := bool_decide (is_Some (translate_addr m a)).

Definition paged (m : M) : Mmio HW := {|
  mmio_load w a h := if mapped m a then Ret (mmio_read w a h) else Panic PageFault;
  mmio_store w a v h := if mapped m a then Ret (mmio_write w a v h) else Panic PageFault;
|}.

(** The crate's page tables: the address of the level 4 table, the offset. *)
Context (OffsetPageTable : Z → Z → M).

Definition memory_init (cr3 physical_memory_offset : Z) : outcome M :=
  virt ← virt_add physical_memory_offset cr3;
  Ret (OffsetPageTable virt physical_memory_offset).

Definition init_memory (cr3 pmo : Z) (info : BootInfo K) : outcome (BumpAllocator * M * F) :=
  a ← virt_new pmo;
  m ← memory_init cr3 a;
  '(r, b, m, f) ← init_heap BumpAllocator.new m (FrameAllocator.init (memory_regions info));
  _ ← expect r;
  Ret (b, m, f).

Definition init_apic {MM : Mmio HW} (pmo : Z) (platform : option InterruptModel) (tsc : option Z) :
    io HW (option LocalApic * option IoApic) :=
  pi ← lift (unwrap platform);
  match pi with
  | ApicModel local_apic_address io_apics =>
      pa ← lift (phys_new local_apic_address);
      '(lapic, cell) ← lapic_init pmo None pa;
      let freq := default 1000000 tsc in
      _ ← start_timer lapic freq;
      c ← init_ioapics pmo None io_apics;
      ret (cell, c)
  | OtherModel => lift (Panic ExplicitPanic)
  end.

Record kernel : Type := mkKernel {
  screen : console; ALLOCATOR : BumpAllocator; vm : machine M F; hw : HW; ECAM_BASE : Z; segs : Segments;
  LAPIC : option LocalApic; IO_APIC_0 : option IoApic; net_devs : list (option Rtl8139);
}.

(** The answers the crates, the processor and the compiler give. *)
Context (from_rsdp : Z → option AcpiTables) (sdt_header_size : Z) (logo : option Png) (tsc : option Z).
Context (cr3 rx_buffer_base : Z) (fuel : nat).

Definition prepare (info : BootInfo K) (mem : Z → Z) (s : Segments) (h : HW) : outcome kernel :=
  '(t, sc) ← init_display info;
  pmo ← unwrap (physical_memory_offset info);
  '(b, m, f) ← init_memory cr3 pmo info;
  sc ← display_logo logo sc;
  rsdp ← unwrap (rsdp_addr info);
  tables ← unwrap (from_rsdp rsdp);
  '(r, m, f) ← init_pcie_from_acpi pmo sdt_header_size (find_mcfg tables) mem m f;
  let ecam := match r with inr base => base | inl _ => 0 end in
  '(devs, h) ← scan_pci_bus (MM := paged m) ecam h;
  let s := Usermode.init (T:=T) s in
  '((l, c), h) ← init_apic (MM := paged m) pmo (platform_info tables) tsc h;
  '((net, m), h) ← init_network pmo rx_buffer_base paged fuel ecam devs m h;
  Ret (mkKernel (t, sc) b (mkMachine statics0 m f mem) h ecam s l c net).

Definition kernel_main (parse : list Z → option Elf) (ramdisk_data : list Z) (info : BootInfo K) (mem : Z → Z)
    (s : Segments) (h : HW) : outcome (started * kernel) :=
  k ← prepare info mem s h;
  '(st, m) ← start parse (vm k) ramdisk_data;
  Ret (st, mkKernel (screen k) (ALLOCATOR k) m (hw k) (ECAM_BASE k) (segs k) (LAPIC k) (IO_APIC_0 k) (net_devs k)).
End boot.
Arguments kernel : clear implicits.

(** ** The screen *)

Section screens.

(** A screen that can be drawn on, and an image the decoder accepts. *)
Definition screen_ok (s : Screen) (w : Z) : Prop := ∃ fb, FRAMEBUFFER s = Some fb ∧ fb_ok fb ∧ fb_width (fb_info fb) = w.
Definition png_ok (p : option Png) : Prop :=
  ∃ w h bs, p = Some (mkPng (Some true) (Some (w, h)) (Some bs)) ∧ 0 ≤ w ∧ 0 ≤ h ∧ w * h < 2 ^ 64.

Lemma init_display_ready {K} (info : BootInfo K) fb :
  framebuffer info = Some fb → fb_ok fb → pixel_format (fb_info fb) ≠ OtherFormat →
  returns (init_display info) (λ '(_, s), screen_ok s (fb_width (fb_info fb))).
Proof.
  intros Hfb Hok Hf. unfold init_display. rewrite Hfb. cbn [unwrap]. rewrite bind_Ret. unfold clear_tty, clear_background.
  cbn [FRAMEBUFFER FONT_HEIGHT].
  destruct (clear_screen_shows _ _ fb BACKGROUND (shows_self fb Hok) ltac:(unfold gray_fits, BACKGROUND; lia) Hf)
    as (fb' & -> & Hi & Hok' & _). rewrite !bind_Ret.
  eapply returns_bind; [apply clear_cells; by vm_compute|]. intros buf _. apply returns_Ret. exists fb'.
  split_and!; [done|done|by rewrite Hi].
Qed.

Lemma display_logo_ready logo s w :
  screen_ok s w → png_ok logo → 64 ≤ w < 2 ^ 64 → returns (display_logo logo s) (λ s', screen_ok s' w).
Proof.
  intros (fb & Hfb & Hok & Hw) (lw & lh & bs & -> & Hlw & Hlh & Hm) Hb. unfold display_logo. rewrite Hfb.
  unfold resolution. rewrite bind_Ret, Hw. checked_step. unfold draw_png.
  do 4 (cbn [unwrap is_rgba dimensions samples negb]; rewrite bind_Ret). rewrite Hfb.
  eapply returns_bind; [apply (draw_bitmap_shows _ _ fb _ lw lh (w - 64) 0 (shows_self fb Hok)); lia|].
  intros fb' (Hi & Hok' & _). apply returns_Ret. exists fb'. split_and!; [done|done|by rewrite Hi].
Qed.

(** The width less 64 overflows before anything is drawn. *)
Lemma display_logo_narrow logo s w : screen_ok s w → 0 ≤ w < 64 → display_logo logo s = Panic ArithmeticOverflow.
Proof.
  intros (fb & Hfb & _ & Hw) Hb. unfold display_logo. rewrite Hfb. unfold resolution. rewrite bind_Ret, Hw.
  by rewrite checked_underflow by lia.
Qed.
End screens.

(** ** Interrupt controllers *)

Section apics.
Context `{X86Laws} {HW : Type} `{Hardware HW} {MM : Mmio HW}.

Lemma write_and_wait_total ws (h : HW) : ∃ h', write_and_wait ws h = Ret ((), h').
Proof.
  revert h. induction ws as [|[p v] ws IH]; intros h; cbn [write_and_wait]; [by exists h|].
  destruct (IH (port_out 1 0x80 0 (port_out 1 p v h))) as (h' & E). exists h'. exact E.
Qed.

(** A local APIC whose registers have addresses, and are reached. *)
Definition lapic_at (pmo a : Z) : Prop :=
  in_width 52 a ∧ 0 ≤ pmo ∧ canonical (a + pmo) ∧ a + pmo + 0x400 ≤ 2 ^ 64.

Definition reached (a : Z) : Prop :=
  (∀ h, ∃ v h', mmio_load 4 a h = Ret (v, h')) ∧ ∀ v h, ∃ h', mmio_store 4 a v h = Ret h'.
Definition lapic_reached (pmo a : Z) : Prop := ∀ r, 0 ≤ r < 0x3F0 → reached (a + pmo + r).

Lemma lapic_read_total pmo a r (h : HW) :
  lapic_at pmo a → lapic_reached pmo a → 0 ≤ r < 0x3F0 →
  ∃ v h', lapic_read (mkLapic (a + pmo)) r h = Ret (v, h').
Proof.
  intros (Ha & Hp & _ & He) Hr H0'. unfold lapic_read. cbn [lapic_address].
  rewrite checked_ok, io_bind_lift by (unfold in_width in *; lia). apply (Hr r H0').
Qed.

Lemma lapic_write_total pmo a r v (h : HW) :
  lapic_at pmo a → lapic_reached pmo a → 0 ≤ r < 0x3F0 →
  ∃ h', lapic_write (mkLapic (a + pmo)) r v h = Ret ((), h').
Proof.
  intros (Ha & Hp & _ & He) Hr H0'. unfold lapic_write. cbn [lapic_address].
  rewrite checked_ok, io_bind_lift by (unfold in_width in *; lia).
  destruct (proj2 (Hr r H0') v h) as [h' E]. exists h'. unfold write32. by rewrite E.
Qed.

Lemma lapic_init_total pmo a (h : HW) :
  lapic_at pmo a → lapic_reached pmo a →
  ∃ h', lapic_init pmo None a h = Ret ((mkLapic (a + pmo), Some (mkLapic (a + pmo))), h').
Proof.
  intros Ha Hr. pose proof Ha as ([Ha0 Ha1] & Hp & Hc & He). unfold lapic_init, disable_pic.
  destruct (write_and_wait_total pic_writes h) as (h1 & E1). rewrite (io_bind_Ret _ _ _ _ _ E1).
  rewrite checked_ok, io_bind_lift by (unfold in_width; lia). rewrite virt_new_ok, io_bind_lift by done.
  cbn [get_or_init]. destruct (msr_read 0x1B h1) as [m h2] eqn:E2.
  rewrite (io_bind_Ret _ _ _ m h2) by (unfold rdmsr; by rewrite E2).
  rewrite (io_bind_Ret _ _ _ () (msr_write 0x1B (Z.lor m (Z.shiftl 1 11)) h2)) by done.
  edestruct (lapic_read_total pmo a 0xF0) as (v & h3 & E3); [done|done|lia|]. rewrite (io_bind_Ret _ _ _ _ _ E3).
  edestruct (lapic_write_total pmo a 0xF0 (Z.lor v 0x1FF) h3) as (h4 & E4); [done|done|lia|]. rewrite (io_bind_Ret _ _ _ _ _ E4).
  by exists h4.
Qed.

Lemma start_timer_total pmo a freq (h : HW) :
  lapic_at pmo a → lapic_reached pmo a → ∃ h', start_timer (mkLapic (a + pmo)) freq h = Ret ((), h').
Proof.
  intros Ha Hr. unfold start_timer, set_div_conf, set_lvt_timer, set_init_count.
  destruct (lapic_write_total pmo a 0x3E0 0xb h) as (h1 & E1); [done|done|lia|]. rewrite (io_bind_Ret _ _ _ _ _ E1).
  destruct (lapic_write_total pmo a 0x320 (Z.shiftl 1 17 + 48) h1) as (h2 & E2); [done|done|lia|].
  rewrite (io_bind_Ret _ _ _ _ _ E2). by apply lapic_write_total.
Qed.

(** Every entry of [a] has its vector and is unmasked. *)
Definition vectors_set (a : IoApic) `{!IoApicDevice HW a} (h : HW) : Prop :=
  ∀ i, 0 ≤ i < 24 →
    (∀ j, 0 ≤ j < 8 → Z.testbit (iregs a h (0x10 + 2 * i)) j = Z.testbit (50 + i) j) ∧
    Z.testbit (iregs a h (0x10 + 2 * i)) 16 = false.

Lemma route_irqs_set (a : IoApic) `{!IoApicDevice HW a} (h : HW) :
  ∃ h', route_irqs a h = Ret ((), h') ∧ vectors_set a h'.
Proof.
  destruct (route_all_spec a (seqZ 0 24) h) as (h' & E & R & _); [apply NoDup_seqZ| |].
  { rewrite Forall_forall. intros i ?%elem_of_seqZ. lia. }
  exists h'. split; [exact E|]. intros i Hi. destruct (R i) as (A & _ & B & _); [apply elem_of_seqZ; lia|]. by split.
Qed.

(** The cell keeps the first I/O APIC: each turn of the loop programs that one. *)
Lemma init_ioapics_full pmo (a : IoApic) `{!IoApicDevice HW a} infos (h : HW) :
  vectors_set a h → ∃ h', init_ioapics pmo (Some a) infos h = Ret (Some a, h') ∧ vectors_set a h'.
Proof.
  revert h. induction infos as [|info infos IH]; intros h Hv; cbn [init_ioapics]; [by exists h|].
  cbn [ioapic_init]. rewrite io_bind_lift. destruct (route_irqs_set a h) as (h1 & E1 & Hv1).
  rewrite (io_bind_Ret _ _ _ _ _ E1). by apply IH.
Qed.

Definition first_ioapic (pmo : Z) (i : IoApicInfo) : IoApic :=
  mkIoapic (address i + pmo) (global_system_interrupt_base i) (info_id i).

Lemma init_ioapics_first pmo i infos `{!IoApicDevice HW (first_ioapic pmo i)} (h : HW) :
  in_width 52 (address i) → in_width 64 (address i + pmo) →
  ∃ h', init_ioapics pmo None (i :: infos) h = Ret (Some (first_ioapic pmo i), h') ∧ vectors_set (first_ioapic pmo i) h'.
Proof.
  intros Ha Hp. cbn [init_ioapics]. unfold ioapic_init. rewrite phys_new_ok, bind_Ret by done.
  rewrite checked_ok, bind_Ret by done. pose proof (address_ok (a:=first_ioapic pmo i)) as [Hc _]. cbn [virt_address] in Hc.
  rewrite virt_new_ok, bind_Ret by done. rewrite io_bind_lift. cbn [get_or_init]. fold (first_ioapic pmo i).
  destruct (route_irqs_set (first_ioapic pmo i) h) as (h1 & E1 & Hv1). rewrite (io_bind_Ret _ _ _ _ _ E1).
  by apply init_ioapics_full.
Qed.
End apics.

(** ** The network devices *)

Definition is_rtl8139 (d : PCIDevice) : bool := (vendor_id d =? PCI_VENDOR_ID) && (device_id d =? PCI_DEVICE_ID).

Lemma init_network_none `{X86} {M : Type} `{Mapper M} {HW : Type} `{Hardware HW} pmo rx mmio fuel ecam devs (m : M) (h : HW) :
  Forall (λ d, is_rtl8139 d = false) devs → init_network pmo rx mmio fuel ecam devs m h = Ret (([], m), h).
Proof.
  induction 1 as [|d devs Hd _ IH]; [done|]. cbn [init_network]. unfold is_rtl8139 in Hd. by rewrite Hd.
Qed.

(** ** The boot *)

Section laws.
Context `{X86Laws} `{X86PhysLaws} {M : Type} `{MapperLaws M} `{!Translate M} `{!TranslateLaws M}.
Context {HW : Type} `{Hardware HW} {T : Type} `{DescriptorTable T}.
Context {K : Type} `{EqDecision K} (Usable : K).
Abbreviation F := (BootInfoFrameAllocator (MemoryRegionKind:=K)).
#[local] Hint Extern 0 (FrameAllocator _) => exact (boot_FrameAllocator Usable) : typeclass_instances.
#[local] Hint Extern 0 (FrameContract _) => exact (boot_FrameContract Usable) : typeclass_instances.

Context (OffsetPageTable : Z → Z → M).
Context (from_rsdp : Z → option AcpiTables) (sdt_header_size : Z) (logo : option Png) (tsc : option Z).
Context (cr3 rx_buffer_base : Z) (fuel : nat).

(** ** Registers through the page tables *)

Lemma paged_load (m : M) w a h : is_Some (translate_addr m a) → mmio_load (Mmio := paged m) w a h = Ret (mmio_read w a h).
Proof. intros Ha. cbn [mmio_load paged]. unfold mapped. by rewrite bool_decide_eq_true_2. Qed.

Lemma paged_store (m : M) w a v h : is_Some (translate_addr m a) → mmio_store (Mmio := paged m) w a v h = Ret (mmio_write w a v h).
Proof. intros Ha. cbn [mmio_store paged]. unfold mapped. by rewrite bool_decide_eq_true_2. Qed.

Lemma paged_reached (m : M) a : is_Some (translate_addr m a) → reached (MM := paged m) a.
Proof.
  intros Ha. split.
  - intros h. rewrite paged_load by done. destruct (mmio_read 4 a h) as [v h']. by exists v, h'.
  - intros v h. rewrite paged_store by done. by eexists.
Qed.

(** The window of all 256 buses is mapped. *)
Definition window_mapped (m : M) (base phys : Z) : Prop := ∀ k, 0 ≤ k < 2 ^ 28 → translate_addr m (base + k) = Some (phys + k).

Definition paged_config (m : M) (base phys : Z) (HC : ConfigSpace HW base) (Hm : window_mapped m base phys) :
  ConfigSpace (MM := paged m) HW base.
Proof.
  refine {| config := config base; cfg_write := cfg_write base; Pci.window_ok := Pci.window_ok;
            port_read := port_read; port_write := port_write |}.
  - intros h k He Hk. rewrite paged_load by (rewrite Hm by done; by eexists). exact (window_read h k He Hk).
  - intros h k v He Hk. rewrite paged_store by (rewrite Hm by done; by eexists). exact (window_write h k v He Hk).
Defined.

Definition ioapic_mapped (m : M) (a : Z) : Prop := is_Some (translate_addr m a) ∧ is_Some (translate_addr m (a + 16)).

Definition paged_ioapic (m : M) (a : IoApic) (HA : IoApicDevice HW a) (Hm : ioapic_mapped m (virt_address a)) :
  IoApicDevice (MM := paged m) HW a.
Proof.
  destruct Hm as [Hm0 Hm16].
  refine {| iregs := iregs a; iregs_width := iregs_width; address_ok := address_ok;
            read_only := read_only a; vector_writable := vector_writable |}.
  - intros h r Hr. destruct (ioapic_rd h r Hr) as (h1 & h' & E1 & E2 & Hs). cbn in E1, E2.
    rewrite paged_store by done. eexists _, h'. split; [reflexivity|]. rewrite paged_load by done.
    injection E1 as <-. by split.
  - intros h r x Hr Hx. destruct (ioapic_wr h r x Hr Hx) as (h1 & h' & E1 & E2 & Hs). cbn in E1, E2.
    rewrite paged_store by done. eexists _, h'. split; [reflexivity|]. rewrite paged_store by done.
    injection E1 as <-. by split.
Defined.

(** ** What the boot needs *)

(** How the window of [e] is there: the kernel maps its [w] pages, of all 256
    buses; or the bootloader's mapping of physical memory has it. *)
Definition window_there (m0 : M) (base : Z) (e : McfgEntry) (w : Z) : Prop :=
  w = 256 * 256 ∧ bus_count e = 256 ∧ fresh_range m0 base w ∨
  w = 0 ∧ window_mapped m0 base (base_address e).

(** What the boot relies on, component by component; [k] more pages can be
    mapped after it. *)
Record boots (info : BootInfo K) (mem : Z → Z) (fb : Framebuffer) (pmo rsdp : Z) (tables : AcpiTables) (t : Mcfg)
    (e : McfgEntry) (lapic : Z) (i : IoApicInfo) (infos : list IoApicInfo) (k : Z) : Prop := {
  boots_screen : framebuffer info = Some fb ∧ fb_ok fb ∧ pixel_format (fb_info fb) ≠ OtherFormat ∧
                 64 ≤ fb_width (fb_info fb) < 2 ^ 64;
  boots_logo : png_ok logo;
  boots_offset : physical_memory_offset info = Some pmo ∧ canonical pmo ∧ 0 ≤ cr3 ∧ canonical (pmo + cr3);
  boots_tables : rsdp_addr info = Some rsdp ∧ from_rsdp rsdp = Some tables ∧ find_mcfg tables = Some t ∧
                 platform_info tables = Some (ApicModel lapic (i :: infos));
  boots_window : names_window pmo sdt_header_size t mem e;
  boots_apics : lapic_at pmo lapic ∧ in_width 52 (address i) ∧ in_width 64 (address i + pmo) ∧
    (∀ r, 0 ≤ r < 0x3F0 → is_Some (translate_addr (OffsetPageTable (pmo + cr3) pmo) (lapic + pmo + r))) ∧
    ioapic_mapped (OffsetPageTable (pmo + cr3) pmo) (address i + pmo);
  boots_frames : 0 ≤ k ∧ ∃ w, window_there (OffsetPageTable (pmo + cr3) pmo) (base_address e + pmo) e w ∧
    frames_for (F:=F) (FrameAllocator.init (memory_regions info)) (3840 + (w + k));
  boots_heap : Forall (λ p, page_map (OffsetPageTable (pmo + cr3) pmo) !! p = None ∧
                            ¬ huge (OffsetPageTable (pmo + cr3) pmo) p) heap_pages;
  boots_apart : base_address e + pmo + 2 ^ 28 ≤ HEAP_START ∨ HEAP_START + HEAP_SIZE ≤ base_address e + pmo;
}.

(** The pages of the window. *)
Definition in_ecam (base : Z) (e : McfgEntry) (p : Z) : Prop := ∃ j, 0 ≤ j < 256 * bus_count e ∧ p = base + 4096 * j.

Lemma init_memory_maps info pmo n :
  let m0 := OffsetPageTable (pmo + cr3) pmo in
  canonical pmo → 0 ≤ cr3 → canonical (pmo + cr3) → 0 ≤ n → frames_for (F:=F) (FrameAllocator.init (memory_regions info)) (3840 + n) →
  Forall (λ p, page_map m0 !! p = None ∧ ¬ huge m0 p) heap_pages →
  ∃ m f, init_memory (K:=K) Usable OffsetPageTable cr3 pmo info = Ret (kernel_heap, m, f) ∧
    (∀ p, p ∈ heap_pages → ∃ fr, page_map m !! p = Some (fr, Z.lor PRESENT WRITABLE)) ∧
    (∀ p, p ∉ heap_pages → page_map m !! p = page_map m0 !! p) ∧
    frames_for (F:=F) f n ∧ (∀ q, huge m q → huge m0 q) ∧ still_mapped m0 m.
Proof.
  intros m0 Hc Hcr Hc' Hn Hf Hheap. unfold init_memory, memory_init. rewrite virt_new_ok, bind_Ret by done.
  rewrite virt_add_ok, !bind_Ret by done. fold m0.
  destruct (init_heap_more (F:=F) m0 (FrameAllocator.init (memory_regions info)) n)
    as (m & f & Hl & Hin & Hout & Hf' & Hh); [done|done|done|].
  pose proof (init_heap_kept _ _ _ _ _ _ _ Hl) as Hkept.
  rewrite Hl, bind_Ret. cbn [expect]. rewrite bind_Ret. exists m, f. split_and!; [done| |done..].
  intros p Hp. destruct (Hin p Hp) as (fr & ? & _). by exists fr.
Qed.

Lemma init_memory_ready info mem fb pmo rsdp tables t e lapic i infos k :
  boots info mem fb pmo rsdp tables t e lapic i infos k →
  let m0 := OffsetPageTable (pmo + cr3) pmo in
  ∃ m f w, init_memory Usable OffsetPageTable cr3 pmo info = Ret (kernel_heap, m, f) ∧
    (∀ p, p ∈ heap_pages → ∃ fr, page_map m !! p = Some (fr, Z.lor PRESENT WRITABLE)) ∧
    (∀ p, p ∉ heap_pages → page_map m !! p = page_map m0 !! p) ∧
    window_there m0 (base_address e + pmo) e w ∧ frames_for (F:=F) f (w + k) ∧
    (∀ q, huge m q → huge m0 q) ∧ still_mapped m0 m.
Proof.
  intros [_ _ (_ & Hc & Hcr & Hc') _ Hwin _ (Hk & w & Hw & Hf) Hheap _] m0.
  assert (0 ≤ w) by (destruct Hw as [(-> & _)|(-> & _)]; lia).
  destruct (init_memory_maps info pmo (w + k)) as (m & f & E & H1' & H2' & H3' & H4' & H5'); [done|done|done|lia|done|done|].
  exists m, f, w. by split_and!.
Qed.

Lemma init_apic_ready {MM : Mmio HW} pmo tables lapic i infos (h : HW) `{!IoApicDevice HW (first_ioapic pmo i)} :
  platform_info tables = Some (ApicModel lapic (i :: infos)) →
  lapic_at pmo lapic → lapic_reached pmo lapic → in_width 52 (address i) → in_width 64 (address i + pmo) →
  ∃ h', init_apic pmo (platform_info tables) tsc h =
      Ret ((Some (mkLapic (lapic + pmo)), Some (first_ioapic pmo i)), h') ∧ vectors_set (first_ioapic pmo i) h'.
Proof.
  intros Hpi Hl Hlr Ha Hap. unfold init_apic. rewrite Hpi. cbn [unwrap]. rewrite io_bind_lift.
  rewrite phys_new_ok, io_bind_lift by apply Hl.
  destruct (lapic_init_total pmo lapic h Hl Hlr) as (h1 & E1). rewrite (io_bind_Ret _ _ _ _ _ E1).
  destruct (start_timer_total pmo lapic (default 1000000 tsc) h1 Hl Hlr) as (h2 & E2). rewrite (io_bind_Ret _ _ _ _ _ E2).
  destruct (init_ioapics_first pmo i infos h2 Ha Hap) as (h3 & E3 & Hv). rewrite (io_bind_Ret _ _ _ _ _ E3). by exists h3.
Qed.

(** The heap's pages are not in the window. *)
Lemma heap_apart pmo e p :
  page_aligned (base_address e + pmo) → 1 ≤ bus_count e ≤ 256 →
  base_address e + pmo + 2 ^ 28 ≤ HEAP_START ∨ HEAP_START + HEAP_SIZE ≤ base_address e + pmo →
  p ∈ heap_pages → ¬ in_ecam (base_address e + pmo) e p.
Proof.
  intros Hal Hn Hap Hp (j & Hj & ->). unfold heap_pages in Hp. rewrite elem_page_range in Hp by done.
  unfold HEAP_START, HEAP_SIZE in *. lia.
Qed.

(** The window after [init_pcie_from_acpi]: mapped, nothing else changed. *)
Lemma window_ready pmo t mem e w k (m0 m1 : M) (f1 : F) :
  let base := base_address e + pmo in
  names_window pmo sdt_header_size t mem e → window_there m0 base e w → 0 ≤ k → frames_for f1 (w + k) →
  (∀ p, p ∉ heap_pages → page_map m1 !! p = page_map m0 !! p) → (∀ q, huge m1 q → huge m0 q) → still_mapped m0 m1 →
  base + 2 ^ 28 ≤ HEAP_START ∨ HEAP_START + HEAP_SIZE ≤ base →
  ∃ m2 f2, init_pcie_from_acpi pmo sdt_header_size (Some t) mem m1 f1 = Ret (inr base, m2, f2) ∧
    window_mapped m2 base (base_address e) ∧ frames_for f2 k ∧ (∀ q, huge m2 q → huge m0 q) ∧ still_mapped m0 m2 ∧
    (∀ p, ¬ in_ecam base e p → page_map m2 !! p = page_map m1 !! p).
Proof.
  intros base Hwin Hw Hk Hf1 Hout Hh1 Hkept1 Hap.
  pose proof Hwin as (_ & _ & _ & Hs8 & He8 & _ & (Hal & _)). pose proof (bus_count_range e Hs8 He8) as Hcnt.
  destruct Hw as [(-> & H256 & Hfree)|(-> & Hmap)].
  - assert (Hfr1 : fresh_range m1 base (256 * bus_count e)).
    { intros j Hj. destruct (Hfree j ltac:(lia)) as [Hn Hnh]. split; [|by intros ?%Hh1]. rewrite Hout; [done|].
      intros Hp. eapply heap_apart; [exact Hal|exact Hcnt|exact Hap|exact Hp|]. by exists j. }
    destruct (init_pcie_more pmo sdt_header_size t mem e m1 f1 k Hwin Hk) as (m2 & f2 & E & Hh2 & Hf2 & Hpm2);
      [by rewrite H256|done|].
    pose proof (init_pcie_kept _ _ _ _ _ _ _ _ _ E) as Hkept2. exists m2, f2.
    split; [exact E|]. split; [|split; [done|split; [by intros q ?%Hh2%Hh1|split; [by intros a pa ?%Hkept1%Hkept2|]]]].
    + intros a Ha. replace (base + a) with (base + 4096 * (a / 4096) + a mod 4096) by (Z.to_euclidean_division_equations; lia).
      assert (Hj : 0 ≤ a / 4096 < 256 * 256) by (Z.to_euclidean_division_equations; lia).
      rewrite (translate_mapped m2 (base + 4096 * (a / 4096)) (a mod 4096) (base_address e + 4096 * (a / 4096)) (Z.lor PRESENT WRITABLE)).
      * f_equal. Z.to_euclidean_division_equations; lia.
      * by apply page_aligned_step.
      * rewrite Hpm2. replace (a / 4096) with (Z.of_nat (Z.to_nat (a / 4096))) at 1 by lia.
        apply map_pages_lookup. rewrite consecutive_lookup by lia. f_equal. lia.
      * by apply Z.mod_pos_bound.
    + intros p Hp. rewrite Hpm2. apply map_pages_outside. rewrite consecutive_length. intros j Hj ->.
      apply Hp. exists j. split; [lia|done].
  - assert (Hm1 : window_mapped m1 base (base_address e)) by (intros a Ha; by apply Hkept1, Hmap).
    exists m1, f1. split; [|by split].
    apply init_pcie_mapped; [done|]. specialize (Hm1 0 ltac:(lia)). by rewrite !Z.add_0_r in Hm1.
Qed.

(** On a machine where each step finds what it needs, the boot gets to the
    RAM disk without a panic.  The heap is mapped and its allocator starts from
    the state the theorems on the heap assume; the configuration window of the
    ACPI table is mapped, for all 256 buses, and in use; no other page has changed, the two cursors
    of fresh pages are at their start and the frames left serve [k] more pages;
    the kernel's selectors are loaded; and every entry of the first I/O APIC is
    unmasked with its vector from 50 on: the cell keeps that I/O APIC, and any
    further one is never programmed. *)
Theorem boot_prepares (info : BootInfo K) (mem : Z → Z) (s : Segments) (h : HW) (fb : Framebuffer) (pmo rsdp : Z)
    (tables : AcpiTables) (t : Mcfg) (e : McfgEntry) (lapic : Z) (i : IoApicInfo) (infos : list IoApicInfo) (k : Z)
    `{!IoApicDevice HW (first_ioapic pmo i)} `{!ConfigSpace HW (base_address e + pmo)} :
  let m0 := OffsetPageTable (pmo + cr3) pmo in
  let base := base_address e + pmo in
  boots info mem fb pmo rsdp tables t e lapic i infos k →
  Forall (λ d, is_rtl8139 d = false) (all_found (config base h)) →
  returns (prepare (T:=T) Usable OffsetPageTable from_rsdp sdt_header_size logo tsc cr3 rx_buffer_base fuel info mem s h)
    (λ r,
      ALLOCATOR r = kernel_heap ∧ ECAM_BASE r = base ∧ memory (vm r) = mem ∧ statics (vm r) = statics0 ∧
      (∀ p, p ∈ heap_pages → ∃ fr, page_map (mapper (vm r)) !! p = Some (fr, Z.lor PRESENT WRITABLE)) ∧
      window_mapped (mapper (vm r)) base (base_address e) ∧
      (∀ p, p ∉ heap_pages → ¬ in_ecam base e p → page_map (mapper (vm r)) !! p = page_map m0 !! p) ∧
      (∀ q, huge (mapper (vm r)) q → huge m0 q) ∧ frames_for (F:=F) (frames (vm r)) k ∧
      segs r = Usermode.init (T:=T) s ∧
      IO_APIC_0 r = Some (first_ioapic pmo i) ∧ vectors_set (first_ioapic pmo i) (hw r) ∧ LAPIC r = Some (mkLapic (lapic + pmo))).
Proof.
  intros m0 base Hb Hnet. pose proof Hb as [(Hfb & Hok & Hfmt & Hw) Hlogo (Hpmo & _) (Hrsdp & Htab & Hmcfg & Hpi)
    Hwin (Hlap & Hia & Hip & Hlm & Hio0 & Hio16) (Hk & _) _ Hap]. unfold prepare.
  destruct (init_display_ready info fb Hfb Hok Hfmt) as ((t0 & sc) & -> & Hsc). rewrite bind_Ret, Hpmo.
  cbn [unwrap]. rewrite bind_Ret.
  destruct (init_memory_ready info mem fb pmo rsdp tables t e lapic i infos k Hb)
    as (m1 & f1 & w & -> & Hheap & Hout & Hww & Hf1 & Hh1 & Hkept1). fold m0 in Hout, Hww, Hh1, Hkept1.
  rewrite bind_Ret. destruct (display_logo_ready logo sc _ Hsc Hlogo Hw) as (sc' & -> & _). rewrite bind_Ret.
  rewrite Hrsdp. cbn [unwrap]. rewrite bind_Ret, Htab. cbn [unwrap]. rewrite bind_Ret, Hmcfg.
  pose proof Hwin as (_ & _ & _ & Hs8 & He8 & _ & (Hal & _)). pose proof (bus_count_range e Hs8 He8) as Hcnt.
  destruct (window_ready pmo t mem e w k m0 m1 f1 Hwin Hww Hk Hf1 Hout Hh1 Hkept1 Hap)
    as (m2 & f2 & -> & Hwm & Hf2 & Hh2 & Hkept2 & Hkeep). fold base in Hwm, Hkeep.
  rewrite bind_Ret. cbv zeta. fold base.
  destruct (reads_scan (MM:=paged m2) (ecam:=base) (ConfigSpace0:=paged_config m2 base _ _ Hwm) (config base h) h eq_refl)
    as (h1 & E1 & Hc1). cbn [config paged_config] in E1. rewrite E1, bind_Ret.
  assert (Hreach : ∀ a, is_Some (translate_addr m0 a) → is_Some (translate_addr m2 a))
    by (intros a [pa Ha]; exists pa; by apply Hkept2).
  destruct (init_apic_ready (MM:=paged m2) pmo tables lapic i infos h1
    (IoApicDevice0:=paged_ioapic m2 (first_ioapic pmo i) _ (conj (Hreach _ Hio0) (Hreach _ Hio16))) Hpi Hlap)
    as (h2 & -> & Hv); [|done|done|].
  { intros a Ha. by apply paged_reached, Hreach, Hlm. }
  rewrite bind_Ret, init_network_none by done. rewrite bind_Ret. apply returns_Ret.
  cbn [ALLOCATOR ECAM_BASE vm memory statics mapper frames segs LAPIC IO_APIC_0 hw].
  split; [done|]. split; [done|]. split; [done|]. split; [done|].
  split; [intros p Hp; rewrite Hkeep by (eapply heap_apart; done); by apply Hheap|]. split; [done|].
  split; [intros p Hp Hp'; rewrite Hkeep by done; by apply Hout|].
  split; [done|]. split; [done|]. split; [done|]. split; [done|]. split; [exact Hv|done].
Qed.

(** On a screen narrower than the logo the kernel panics once the heap is there,
    whatever else the machine has. *)
Theorem narrow_screen_panics (parse : list Z → option Elf) (ramdisk : list Z) (info : BootInfo K) (mem : Z → Z)
    (s : Segments) (h : HW) (fb : Framebuffer) (pmo : Z) :
  framebuffer info = Some fb → fb_ok fb → pixel_format (fb_info fb) ≠ OtherFormat → 0 ≤ fb_width (fb_info fb) < 64 →
  physical_memory_offset info = Some pmo → (∃ x, init_memory Usable OffsetPageTable cr3 pmo info = Ret x) →
  kernel_main (T:=T) Usable OffsetPageTable from_rsdp sdt_header_size logo tsc cr3 rx_buffer_base fuel parse
    ramdisk info mem s h = Panic ArithmeticOverflow.
Proof.
  intros Hfb Hok Hfmt Hw Hpmo ([[b m] f] & Hm). unfold kernel_main, prepare.
  destruct (init_display_ready info fb Hfb Hok Hfmt) as ((t0 & sc) & -> & Hsc). rewrite bind_Ret, Hpmo.
  cbn [unwrap]. rewrite bind_Ret, Hm, bind_Ret. by rewrite (display_logo_narrow logo sc _ Hsc Hw).
Qed.

(** A scan that comes back has read the first register of every bus. *)
Lemma from_bsf_mapped (m : M) ecam b s f h x :
  ecam ≠ 0 → from_bsf (MM := paged m) ecam b s f h = Ret x →
  ∃ a, ecam_address ecam b s f 0 = Ret a ∧ is_Some (translate_addr m a).
Proof.
  intros He. destruct x as [o h']. intros (v & h1 & E & _)%io_bind_inv. unfold read_config32, ecam_read32 in E.
  rewrite (proj2 (Z.eqb_neq ecam 0)) in E by done. apply io_bind_inv in E as (o1 & h2 & E & _).
  apply io_bind_inv in E as (a & h3 & Ea & E). apply lift_inv in Ea as [Ea ->]. exists a. split; [exact Ea|].
  apply io_bind_inv in E as (w & h4 & E & _). cbn [read32 mmio_load paged] in E. unfold read32 in E. cbn [mmio_load paged] in E.
  unfold mapped in E. by case_bool_decide.
Qed.

Lemma scan_buses_mapped (m : M) ecam bs b h x :
  ecam ≠ 0 → b ∈ bs → scan_buses (MM := paged m) ecam bs h = Ret x →
  ∃ a, ecam_address ecam b 0 0 0 = Ret a ∧ is_Some (translate_addr m a).
Proof.
  intros He Hb. revert h x. induction bs as [|b0 bs IH]; intros h [ds h']; [by apply not_elem_of_nil in Hb|].
  cbn [scan_buses]. intros (d0 & h1 & E & E')%io_bind_inv. apply elem_of_cons in Hb as [<-|Hb].
  - change (seqZ 0 32) with (0 :: seqZ 1 31) in E. cbn [scan_slots] in E. apply io_bind_inv in E as (d1 & h2 & E & _).
    change (seqZ 0 8) with (0 :: seqZ 1 7) in E. cbn [scan_funcs] in E. apply io_bind_inv in E as (o & h3 & E & _).
    by eapply from_bsf_mapped.
  - apply io_bind_inv in E' as (d1 & h2 & E' & _). by eapply IH.
Qed.

(** A table that names fewer than 256 buses does not get the kernel past its
    scan, where the bootloader's mapping does not have the window: the pages of
    the named buses are mapped, the scan goes on to the next bus, and its first
    read there faults.  There is no interrupt table yet. *)
Theorem short_window_never_boots (parse : list Z → option Elf) (ramdisk : list Z) (info : BootInfo K) (mem : Z → Z)
    (s : Segments) (h : HW) (pmo rsdp : Z) (tables : AcpiTables) (t : Mcfg) (e : McfgEntry) :
  let m0 := OffsetPageTable (pmo + cr3) pmo in
  let base := base_address e + pmo in
  physical_memory_offset info = Some pmo → canonical pmo → 0 ≤ cr3 → canonical (pmo + cr3) →
  rsdp_addr info = Some rsdp → from_rsdp rsdp = Some tables → find_mcfg tables = Some t →
  names_window pmo sdt_header_size t mem e → bus_count e < 256 → base ≠ 0 → base + 2 ^ 28 ≤ 2 ^ 64 →
  frames_for (F:=F) (FrameAllocator.init (memory_regions info)) (3840 + 256 * bus_count e) →
  Forall (λ p, page_map m0 !! p = None ∧ ¬ huge m0 p) heap_pages → fresh_range m0 base (256 * 256) →
  base + 2 ^ 28 ≤ HEAP_START ∨ HEAP_START + HEAP_SIZE ≤ base →
  ∀ x, kernel_main (T:=T) Usable OffsetPageTable from_rsdp sdt_header_size logo tsc cr3 rx_buffer_base fuel parse
         ramdisk info mem s h ≠ Ret x.
Proof.
  intros m0 base Hpmo Hc Hcr Hc' Hrsdp Htab Hmcfg Hwin Hlt Hb0 Htop Hf Hheap Hfree Hap x E.
  pose proof Hwin as (_ & _ & _ & Hs8 & He8 & _ & (Hal & _ & Hb1 & _)). pose proof (bus_count_range e Hs8 He8) as Hcnt.
  unfold kernel_main in E. apply bind_Ret_inv in E as (k & E & _). unfold prepare in E.
  apply bind_Ret_inv in E as ([t0 sc] & _ & E). rewrite Hpmo in E. cbn [unwrap] in E. rewrite bind_Ret in E.
  destruct (init_memory_maps info pmo (256 * bus_count e)) as (m1 & f1 & E1 & _ & Hout & Hf1 & Hh1 & _); [done|done|done|lia|done|done|].
  rewrite E1, bind_Ret in E. apply bind_Ret_inv in E as (sc' & _ & E). rewrite Hrsdp in E. cbn [unwrap] in E.
  rewrite bind_Ret, Htab in E. cbn [unwrap] in E. rewrite bind_Ret, Hmcfg in E.
  assert (Hfr1 : fresh_range m1 base (256 * 256)).
  { intros j Hj. destruct (Hfree j Hj) as [Hn Hnh]. split; [|by intros ?%Hh1]. rewrite Hout; [done|].
    intros Hp. unfold heap_pages in Hp. rewrite elem_page_range in Hp by done. unfold HEAP_START, HEAP_SIZE in *. fold base in Hal. lia. }
  destruct (init_pcie_more pmo sdt_header_size t mem e m1 f1 0) as (m2 & f2 & E2 & Hh2 & _ & Hpm2);
    [done|done|by rewrite Z.add_0_r|intros j Hj; apply Hfr1; lia|].
  rewrite E2, bind_Ret in E. cbv zeta in E. fold base in E, Hpm2. apply bind_Ret_inv in E as ([ds h1] & E & _).
  unfold scan_pci_bus in E. assert (Hin : bus_count e ∈ seqZ 0 256) by (apply elem_of_seqZ; lia). revert E Hin.
  generalize (seqZ 0 256). intros buses E Hin.
  destruct (scan_buses_mapped m2 base buses (bus_count e) h (ds, h1) Hb0 Hin E) as (a & Ea & Ht).
  destruct (Hfr1 (256 * bus_count e) ltac:(lia)) as [Hnone Hnh].
  rewrite (ecam_address_key base (bus_count e) 0 0 0) in Ea by (fold base in Hb1; unfold bdf_ok; lia). injection Ea as <-.
  replace (base + key (bus_count e) 0 0 0) with (base + 4096 * (256 * bus_count e) + 0) in Ht by (unfold key; lia).
  rewrite translate_unmapped in Ht; [by destruct Ht|by apply page_aligned_step| |by intros ?%Hh2|done].
  rewrite Hpm2, map_pages_outside; [done|]. rewrite consecutive_length. intros j Hj. lia.
Qed.

(** What the boot leaves free outside of the heap and the window. *)
Lemma still_free (m0 m : M) e base p0 n :
  (∀ p, p ∉ heap_pages → ¬ in_ecam base e p → page_map m !! p = page_map m0 !! p) →
  (∀ q, huge m q → huge m0 q) → fresh_range m0 p0 n → page_aligned base → bus_count e ≤ 256 →
  HEAP_START + HEAP_SIZE ≤ p0 → base + 2 ^ 28 ≤ p0 ∨ p0 + 4096 * n ≤ base → fresh_range m p0 n.
Proof.
  intros Hout Hh Hf Hal Hc Hp Hb j Hj. destruct (Hf j Hj) as [Hn Hnh]. split; [|by intros ?%Hh].
  rewrite Hout; [done| |].
  - unfold heap_pages. rewrite elem_page_range by done. unfold HEAP_START, HEAP_SIZE in *. lia.
  - intros (i & Hi & He). lia.
Qed.

(** The boot, from the bootloader's hand-over to the first instruction of
    the init program.  With the archive on the image, an init program in it and
    memory enough, [kernel_main] ends in [jump_to_usermode] with the program's
    relocated entry point; by then its segments are in user pages as [Elf] lays
    them out, the RAM disk holds the archive, the heap is mapped and its
    allocator initialised, the configuration window of ACPI is mapped and in
    use, the kernel's selectors are loaded, and every entry of the first I/O APIC
    delivers its vector. *)
Theorem kernel_main_enters_init (info : BootInfo K) (mem : Z → Z) (s : Segments) (h : HW) (fb : Framebuffer)
    (pmo rsdp : Z) (tables : AcpiTables) (t : Mcfg) (e : McfgEntry) (lapic : Z) (i : IoApicInfo) (infos : list IoApicInfo)
    `{!IoApicDevice HW (first_ioapic pmo i)} `{!ConfigSpace HW (base_address e + pmo)}
    (parse : list Z → option Elf) (files : list (list Z * list Z)) (prog : list Z) (elf : Elf) :
  let m0 := OffsetPageTable (pmo + cr3) pmo in
  let base := base_address e + pmo in
  let user := NEXT_VIRT_USER statics0 in
  let ls := loads elf in
  let n := pages_for (footprint ls) in
  boots info mem fb pmo rsdp tables t e lapic i infos (RAMDISK_PAGES + (n + 10)) →
  Forall (λ d, is_rtl8139 d = false) (all_found (config base h)) →
  Forall entry_ok files → zlen (archive files) ≤ 50 * 2 ^ 20 →
  head (filter (λ f, f.1 = init_name) files) = Some (init_name, prog) → zlen prog < 2 ^ 63 →
  parse prog = Some elf → Forall (segment_ok prog) ls → separated (extent <$> ls) → 0 < footprint ls →
  0 ≤ elf_entry elf → elf_entry elf + user < 2 ^ 64 → region_ok user (n + 10) →
  fresh_range m0 RAMDISK_START RAMDISK_PAGES → fresh_range m0 user (n + 10) →
  base + 2 ^ 28 ≤ RAMDISK_START ∨ RAMDISK_START + 4096 * RAMDISK_PAGES ≤ base ∧ base + 2 ^ 28 ≤ user →
  returns (kernel_main (T:=T) Usable OffsetPageTable from_rsdp sdt_header_size logo tsc cr3 rx_buffer_base fuel parse
             (archive files) info mem s h)
    (λ '(st, r),
      st = Program (elf_entry elf + user) (user + 4096 * n) ∧
      (∀ ph a, ph ∈ ls → in_segment user ph a → memory (vm r) a = image prog user ph a) ∧
      read_bytes (memory (vm r)) RAMDISK_START (zlen (archive files)) = archive files ∧
      (∀ j, 0 ≤ j < n + 10 → ∃ fr, page_map (mapper (vm r)) !! (user + 4096 * j) = Some (fr, user_flags)) ∧
      ALLOCATOR r = kernel_heap ∧ ECAM_BASE r = base ∧ segs r = Usermode.init (T:=T) s ∧
      IO_APIC_0 r = Some (first_ioapic pmo i) ∧ vectors_set (first_ioapic pmo i) (hw r) ∧ LAPIC r = Some (mkLapic (lapic + pmo))).
Proof.
  intros m0 base user ls n Hb Hnet Hes Hlen Hhead Hpl Hparse Hok Hsep Hfp He0 Heu Hreg Hrd Hus Hap.
  destruct (boot_prepares info mem s h fb pmo rsdp tables t e lapic i infos _ Hb Hnet)
    as (r & Hr & Ha & Hec & Hmem & Hst & _ & _ & Hout & Hh & Hf & Hsg & Hio & Hv & Hlap).
  pose proof Hb as [_ _ _ _ (_ & _ & _ & Hs8 & He8 & _ & (Hal & _)) _ _ _ _].
  pose proof (bus_count_range e Hs8 He8) as Hcnt.
  assert (Hn : 0 ≤ n) by (unfold n, pages_for; lia).
  assert (Husr : RAMDISK_START + 4096 * RAMDISK_PAGES ≤ user) by (by vm_compute).
  assert (Hhs : HEAP_START + HEAP_SIZE ≤ RAMDISK_START) by (by vm_compute).
  unfold kernel_main. rewrite Hr, bind_Ret.
  destruct (boot_enters_init parse (vm r) files prog elf) as ((st & m) & Hs & Hrest); rewrite ?Hst; try done.
  - eapply still_free; [exact Hout|exact Hh|exact Hrd|exact Hal|lia|done|]. destruct Hap as [?|[? ?]]; [by left|by right].
  - eapply still_free; [exact Hout|exact Hh|exact Hus|exact Hal|lia|by vm_compute|].
    left. unfold RAMDISK_PAGES in *. destruct Hap as [?|[? ?]]; fold base; lia.
  - rewrite Hs, bind_Ret. apply returns_Ret. cbn [vm ALLOCATOR ECAM_BASE segs LAPIC IO_APIC_0 hw]. rewrite Hst in Hrest.
    destruct Hrest as (R1 & R2 & R3 & R4). by split_and!.
Qed.
End laws.

(** ** Sample run: a machine with one I/O APIC and no network card *)

#[local] Existing Instances amd64 amd64_laws amd64_phys amd64_phys_laws sample_Mapper sample_MapperLaws
  sample_Translate sample_TranslateLaws count_table.

Definition PMO_0 : Z := 0x10000000000.
Definition WINDOW : Z := 0xB0000000 + PMO_0.
Definition io_info : IoApicInfo := mkIoApicInfo 0 0xFEC00000 0.
Definition IOA : Z := 0xFEC00000 + PMO_0.

(** The bus of the other samples, with an I/O APIC at its address. *)
Record boot_machine : Type := mkBoot { the_bus : sample_bus; selected : Z; entries_of : Z → Z }.

#[local] Instance window_bus : Hardware sample_bus := sample_bus_hw store_at WINDOW.
#[local] Instance boot_hw : Hardware boot_machine := {
  mmio_read w a h :=
    if a =? IOA + 16 then (wrap 32 (entries_of h (selected h)), h)
    else let '(v, b) := mmio_read w a (the_bus h) in (v, mkBoot b (selected h) (entries_of h));
  mmio_write w a v h :=
    if a =? IOA then mkBoot (the_bus h) v (entries_of h)
    else if a =? IOA + 16 then
      mkBoot (the_bus h) (selected h) (λ r, if r =? selected h then v else entries_of h r)
    else mkBoot (mmio_write w a v (the_bus h)) (selected h) (entries_of h);
  port_in w p h := let '(v, b) := port_in w p (the_bus h) in (v, mkBoot b (selected h) (entries_of h));
  port_out w p v h := mkBoot (port_out w p v (the_bus h)) (selected h) (entries_of h);
  msr_read r h := (0, h);
  msr_write r v h := h;
}.

#[local] Instance boot_ioapic : IoApicDevice boot_machine (first_ioapic PMO_0 io_info).
Proof.
  refine {| iregs h r := wrap 32 (entries_of h r); read_only r j := false |}.
  - intros h r. apply wrap_in_width. lia.
  - unfold canonical, first_ioapic, io_info, PMO_0. cbn. lia.
  - done.
  - intros h r _. do 2 eexists. split; [reflexivity|]. by split.
  - intros h r x _ Hx. do 2 eexists. split; [reflexivity|]. split; [reflexivity|]. intros r' j.
    change (virt_address (first_ioapic PMO_0 io_info)) with IOA. cbn [mmio_write boot_hw].
    rewrite Z.eqb_refl. change (IOA + 16 =? IOA) with false. cbv iota. rewrite Z.eqb_refl. cbn [entries_of selected].
    destruct (Z.eqb_spec r' r); cbn [negb andb]; [|done]. by rewrite in_width_wrap.
Defined.

Lemma WINDOW_ok : 0 ≤ WINDOW ∧ WINDOW + 2 ^ 28 ≤ 2 ^ 64.
Proof. unfold WINDOW, PMO_0. lia. Qed.

Lemma not_ioapic k : 0 ≤ k < 2 ^ 28 → (WINDOW + k =? IOA) = false ∧ (WINDOW + k =? IOA + 16) = false.
Proof. unfold WINDOW, IOA. intros Hk. split; apply Z.eqb_neq; lia. Qed.

#[local] Instance boot_space : ConfigSpace boot_machine WINDOW.
Proof.
  pose (S := sample_bus_space store_at WINDOW WINDOW_ok).
  refine (@Build_ConfigSpace boot_machine boot_hw _ WINDOW (λ h, Pci.regs (the_bus h)) store_at WINDOW_ok _ _ _ _).
  - intros h k _ Hk. destruct (not_ioapic k Hk) as [_ E]. exists h. cbn [mmio_load flat mmio_read boot_hw]. rewrite E.
    cbn [mmio_read window_bus sample_bus_hw]. replace (WINDOW + k - WINDOW) with k by lia. by destruct h.
  - intros h k v _ Hk. destruct (not_ioapic k Hk) as [E1 E2]. eexists. split; [reflexivity|]. cbn [mmio_write boot_hw]. rewrite E1, E2.
    cbn [the_bus mmio_write window_bus sample_bus_hw Pci.regs]. by replace (WINDOW + k - WINDOW) with k by lia.
  - intros h b s f r Hb Hs Hf Hr Hr4. destruct (@Pci.port_read _ _ _ _ S (the_bus h) b s f r Hb Hs Hf Hr Hr4) as (b' & E & Hc).
    eexists. cbn [port_in port_out boot_hw the_bus selected entries_of].
    change window_bus with (sample_bus_hw store_at WINDOW). rewrite E. split; [reflexivity|exact Hc].
  - intros h b s f r v Hb Hs Hf Hr Hr4. cbn [port_out boot_hw the_bus].
    exact (@Pci.port_write _ _ _ _ S (the_bus h) b s f r v Hb Hs Hf Hr Hr4).
Defined.

Definition boot_fb : Framebuffer := mkFb (mkInfo 64 8 64 3 Rgb) (replicate (Z.to_nat 1536) 0).
Definition boot_info : BootInfo bool := mkBootInfo bool (Some boot_fb) (Some PMO_0) (one_region 400000) (Some 0xE0000).

(** A table with one entry, all buses of segment 0 at 0xB0000000, and page tables
    that map the registers of the two interrupt controllers. *)
Definition mcfg_bytes : list Z := [0; 0; 0; 0xB0; 0; 0; 0; 0; 0; 0; 0; 255; 0; 0; 0; 0].
Definition mcfg_memory : Z → Z := write_bytes (λ _, 0) (0x1000 + 44) mcfg_bytes.
Definition boot_mcfg : Mcfg := mkTable 0x1000 60.
Definition boot_entry : McfgEntry := mkMcfg 0xB0000000 0 0 255.

Lemma boot_mcfg_holds : table_holds 36 mcfg_memory boot_mcfg [boot_entry].
Proof. split; [done|]. intros [|i] e Hi; cbn in Hi; [injection Hi as <-; by vm_compute|done]. Qed.

Definition LAPIC_PAGE : Z := 0xFEE00000 + PMO_0.
Definition boot_pages : gmap Z (Z * Z) := <[LAPIC_PAGE := (0xFEE00000, 3)]> {[ IOA := (0xFEC00000, 3) ]}.

Lemma boot_pages_fresh p n :
  (∀ j, 0 ≤ j < n → p + 4096 * j ≠ LAPIC_PAGE ∧ p + 4096 * j ≠ IOA) → fresh_range boot_pages p n.
Proof.
  intros Hp j Hj. destruct (Hp j Hj). split; [|by intros []]. change (boot_pages !! (p + 4096 * j) = None). unfold boot_pages.
  rewrite lookup_insert_ne by done. by rewrite lookup_singleton_ne.
Qed.

Lemma boot_pages_translate pg fr off :
  (pg, fr) = (LAPIC_PAGE, 0xFEE00000) ∨ (pg, fr) = (IOA, 0xFEC00000) → 0 ≤ off < 4096 →
  is_Some (translate_addr boot_pages (pg + off)).
Proof.
  intros Hp Hoff. exists (fr + off). apply (translate_mapped boot_pages pg off fr 3); [| |done];
    destruct Hp as [[= -> ->]|[= -> ->]]; by vm_compute.
Qed.

Definition boot_tables : AcpiTables := mkTables (Some boot_mcfg) (Some (ApicModel 0xFEE00000 [io_info])).
Definition boot_logo : option Png := Some (mkPng (Some true) (Some (1, 1)) (Some [1; 2; 3; 255])).
Definition empty_slots : boot_machine := mkBoot (mkBus 0 (λ _, 0xFFFFFFFF)) 0 (λ _, 0x10000).

Lemma boot_info_boots k :
  0 ≤ k ≤ RAMDISK_PAGES + (2 + 10) →
  boots true (λ _ _, boot_pages) (λ _, Some boot_tables) 36 boot_logo 0x1000
    boot_info mcfg_memory boot_fb PMO_0 0xE0000 boot_tables boot_mcfg boot_entry 0xFEE00000 io_info [] k.
Proof.
  intros Hk. split.
  - split_and!; [done|repeat split; vm_compute; first [reflexivity|discriminate]|done|done|done].
  - by exists 1, 1, [1; 2; 3; 255].
  - split_and!; [done|left; unfold PMO_0; lia|done|left; unfold PMO_0; lia].
  - by split_and!.
  - split_and!; try done.
    + exists [boot_entry]. split; [exact boot_mcfg_holds|done].
    + split_and!; [done|done|done|done|done|]. intros i Hi. left. change (256 * bus_count _) with 65536 in Hi.
      unfold PMO_0. cbn [base_address boot_entry]. lia.
  - split; [split_and!; [done|done|left; unfold PMO_0; lia|done]|]. split; [done|]. split; [done|]. split; [|split].
    + intros r Hr. apply (boot_pages_translate LAPIC_PAGE 0xFEE00000); [by left|lia].
    + apply (boot_pages_translate IOA 0xFEC00000 0); [by right|lia].
    + apply (boot_pages_translate IOA 0xFEC00000 16); [by right|lia].
  - split; [lia|]. exists 65536. split.
    + left. split_and!; [done|done|]. apply boot_pages_fresh. intros j Hj. unfold LAPIC_PAGE, IOA, PMO_0. cbn [base_address boot_entry]. lia.
    + apply one_region_frames_for; unfold RAMDISK_PAGES in Hk; lia.
  - apply Forall_forall. intros p Hp. unfold heap_pages in Hp. rewrite elem_page_range in Hp by done.
    destruct (boot_pages_fresh p 1) with (i := 0) as [Hn Hh]; [|by split|].
    { intros j Hj. unfold LAPIC_PAGE, IOA, PMO_0, HEAP_START, HEAP_SIZE in *. lia. }
    rewrite Z.mul_0_r, Z.add_0_r in Hn, Hh. by split.
  - left. by vm_compute.
Qed.

(** The RAM disk's pages and the program's are free. *)
Lemma boot_ramdisk_free : fresh_range boot_pages RAMDISK_START RAMDISK_PAGES.
Proof. apply boot_pages_fresh. intros j Hj. unfold LAPIC_PAGE, IOA, PMO_0, RAMDISK_START, RAMDISK_PAGES in *. lia. Qed.

Lemma boot_user_free n : 0 ≤ n ≤ 2 ^ 16 → fresh_range boot_pages (NEXT_VIRT_USER statics0) n.
Proof. intros Hn. apply boot_pages_fresh. intros j Hj. unfold LAPIC_PAGE, IOA, PMO_0, statics0. cbn [NEXT_VIRT_USER]. lia. Qed.

Lemma no_cards : Forall (λ d, is_rtl8139 d = false) (all_found (config (base_address boot_entry + PMO_0) empty_slots)).
Proof.
  apply Forall_forall. intros d Hd. exfalso. revert Hd. unfold all_found.
  intros (b & Hd & _)%list_elem_of_bind. apply list_elem_of_bind in Hd as (s & Hd & _).
  change (found (λ _, 0xFFFFFFFF) b s) with (@nil PCIDevice) in Hd. by apply not_elem_of_nil in Hd.
Qed.

Lemma boot_prepares_witness :
  ∃ r, prepare (T:=Z) true (λ _ _, boot_pages) (λ _, Some boot_tables) 36 boot_logo None 0x1000 0x9000 10
      boot_info mcfg_memory (mkSegments 0 0 0 0 0 0 0) empty_slots = Ret r ∧
    ALLOCATOR r = kernel_heap ∧ ECAM_BASE r = WINDOW.
Proof.
  destruct (boot_prepares (T:=Z) true (λ _ _, boot_pages) (λ _, Some boot_tables) 36 boot_logo None 0x1000 0x9000 10
    boot_info mcfg_memory (mkSegments 0 0 0 0 0 0 0) empty_slots boot_fb PMO_0 0xE0000 boot_tables boot_mcfg boot_entry
    0xFEE00000 io_info [] (RAMDISK_PAGES + (2 + 10)) (boot_info_boots (RAMDISK_PAGES + (2 + 10)) ltac:(done))) as (r & E & Ha & He & _).
  - exact no_cards.
  - exists r. split; [exact E|]. split; [exact Ha|exact He].
Defined.

(** The same machine with a screen of 32 columns. *)
Definition narrow_fb : Framebuffer := mkFb (mkInfo 32 8 32 3 Rgb) (replicate (Z.to_nat 768) 0).
Definition narrow_info : BootInfo bool := mkBootInfo bool (Some narrow_fb) (Some PMO_0) (one_region 400000) (Some 0xE0000).

Lemma narrow_screen_panics_witness :
  kernel_main (T:=Z) true (λ _ _, boot_pages) (λ _, Some boot_tables) 36 boot_logo None 0x1000 0x9000 10
    (λ _, None) [] narrow_info mcfg_memory (mkSegments 0 0 0 0 0 0 0) empty_slots = Panic ArithmeticOverflow.
Proof.
  apply (narrow_screen_panics (T:=Z) true (λ _ _, boot_pages) (λ _, Some boot_tables) 36 boot_logo None 0x1000 0x9000 10
    (λ _, None) [] narrow_info mcfg_memory (mkSegments 0 0 0 0 0 0 0) empty_slots narrow_fb PMO_0);
    [done|repeat split; vm_compute; first [reflexivity|discriminate]|done|done|done|].
  destruct (init_memory_ready true (λ _ _, boot_pages) (λ _, Some boot_tables) 36 boot_logo 0x1000
    boot_info mcfg_memory boot_fb PMO_0 0xE0000 boot_tables boot_mcfg boot_entry 0xFEE00000 io_info []
    0 (boot_info_boots 0 ltac:(done))) as (m & f & w & E & _). eexists. exact E.
Defined.

(** The same machine with a table of two buses. *)
Definition two_buses : AcpiTables := mkTables (Some sample_table) (Some (ApicModel 0xFEE00000 [io_info])).

Lemma short_window_never_boots_witness : ∀ x,
  kernel_main (T:=Z) true (λ _ _, boot_pages) (λ _, Some two_buses) 36 boot_logo None 0x1000 0x9000 10
    (λ _, None) [] boot_info table_memory (mkSegments 0 0 0 0 0 0 0) empty_slots ≠ Ret x.
Proof.
  destruct (boot_info_boots 0 ltac:(done)) as [_ _ (Hpmo & Hc & Hcr & Hc') _ _ _ _ Hheap Hap].
  apply (short_window_never_boots (T:=Z) true (λ _ _, boot_pages) (λ _, Some two_buses) 36 boot_logo None 0x1000 0x9000 10
    (λ _, None) [] boot_info table_memory (mkSegments 0 0 0 0 0 0 0) empty_slots PMO_0 0xE0000 two_buses sample_table
    (mkMcfg 0xB0000000 0 0 1)); try done.
  - split_and!; try done; [exists sample_entries; split; [exact sample_table_holds|done]|].
    split_and!; try done. intros i Hi. left. change (256 * bus_count _) with 512 in Hi. unfold PMO_0. cbn [base_address]. lia.
  - apply one_region_frames_for; change (256 * bus_count _) with 512; lia.
  - apply boot_pages_fresh. intros j Hj. unfold LAPIC_PAGE, IOA, PMO_0. cbn [base_address]. lia.
Defined.

Lemma kernel_main_enters_init_witness :
  ∃ r, kernel_main (T:=Z) true (λ _ _, boot_pages) (λ _, Some boot_tables) 36 boot_logo None 0x1000 0x9000 10
      (λ _, Some sample_elf) (archive sample_archive) boot_info mcfg_memory (mkSegments 0 0 0 0 0 0 0) empty_slots =
        Ret (Program 0xffffffff90000100 0xffffffff90002000, r) ∧
    memory (vm r) 0xffffffff90000101 = 2 ∧ ECAM_BASE r = WINDOW.
Proof.
  destruct (kernel_main_enters_init (T:=Z) true (λ _ _, boot_pages) (λ _, Some boot_tables) 36 boot_logo None
    0x1000 0x9000 10 boot_info mcfg_memory (mkSegments 0 0 0 0 0 0 0) empty_slots boot_fb PMO_0 0xE0000 boot_tables
    boot_mcfg boot_entry 0xFEE00000 io_info [] (λ _, Some sample_elf) sample_archive [9; 1; 2; 3] sample_elf
    (boot_info_boots (RAMDISK_PAGES + (2 + 10)) ltac:(done)) no_cards) as ((st & r) & E & -> & Him & _ & _ & _ & Hec & _);
    [exact sample_archive_ok|by vm_compute|by vm_compute|done|done| |by split; [constructor|]|done|done|done
    |by apply user_area_ok|exact boot_ramdisk_free|by apply boot_user_free|left; by vm_compute|].
  - apply Forall_singleton. repeat split; vm_compute; discriminate.
  - exists r. split; [exact E|]. split; [|exact Hec].
    rewrite (Him (mkPh PT_LOAD 1 0x100 3 8) 0xffffffff90000101); [done|by left|].
    split; vm_compute; first [reflexivity|discriminate].
Defined.
