(* ===== verification/System.v ===== *)
(** * From power-on to the init program's greeting, or to the command line

    [KernelMain] and [User] put together: what [kernel_main] leaves in memory
    is what the init program of src/init.asm finds there; and [KernelMain] and
    [Shell]: without an init program, what is typed is run on the RAM disk. *)

From Stdlib Require Import String.
From S2P Require Import Prelude GlobalAlloc BumpAllocator Arch Hardware FrameAllocator Paging Ustar Pci Acpi Apic Rtl8139.
From S2P Require Import Sync Keyboard Text Framebuffer Font Tty Console Commandline Shell Usermode Elf Boot KernelMain Syscall User Preempt.
Open Scope Z_scope.
Open Scope rust_scope.

(** ** What is in the file of a program *)

(** The bytes of the file that a segment puts at [v], counted from the base. *)
Definition file_bytes (prog : list Z) (ph : ProgramHeader) (v n : Z) : list Z :=
  let o := p_offset ph + (v - p_vaddr ph) in sub_list prog o (o + n).

Definition holds (prog : list Z) (elf : Elf) (v : Z) (bs : list Z) : Prop :=
  ∃ ph, ph ∈ loads elf ∧ p_vaddr ph ≤ v ∧ v + zlen bs ≤ p_vaddr ph + p_filesz ph ∧ file_bytes prog ph v (zlen bs) = bs.

Lemma holds_loaded prog elf user mem v bs :
  Forall (segment_ok prog) (loads elf) → holds prog elf v bs →
  (∀ ph a, ph ∈ loads elf → in_segment user ph a → mem a = image prog user ph a) →
  read_bytes mem (user + v) (zlen bs) = bs.
Proof.
  intros Hok (ph & Hin & Hv & He & Hb) Him. rewrite Forall_forall in Hok. destruct (Hok ph Hin) as (Hv0 & Ho & Hf & Hl).
  pose proof (zlen_nonneg bs). apply list_eq. intros k.
  destruct (decide (Z.of_nat k < zlen bs)) as [Hk|Hk].
  - rewrite <- Hb at 2. unfold file_bytes. cbv zeta.
    assert (Hr : read_bytes mem (user + v) (zlen bs) !! k = Some (mem (user + v + Z.of_nat k))).
    { unfold read_bytes. rewrite list_lookup_fmap, (lookup_seqZ_lt _ _ k) by lia. done. }
    rewrite Hr, (Him ph) by (done || (unfold in_segment; lia)). unfold image.
    rewrite bool_decide_eq_true_2 by lia.
    destruct (lookup_lt_is_Some_2 prog (Z.to_nat (p_offset ph + (v - p_vaddr ph) + Z.of_nat k))) as [x Hx]; [unfold zlen in *; lia|].
    replace (p_offset ph + (user + v + Z.of_nat k - (user + p_vaddr ph)))
      with (p_offset ph + (v - p_vaddr ph) + Z.of_nat k) by lia. rewrite Hx. symmetry.
    rewrite lookup_sub_list by lia. transitivity (Some x); [rewrite <- Hx; f_equal; lia|done].
  - rewrite (lookup_ge_None_2 bs) by (unfold zlen in *; lia). apply lookup_ge_None_2.
    pose proof (read_bytes_length mem (user + v) (zlen bs)). unfold zlen in *. lia.
Qed.

(** An address in a run of mapped pages is in one of them. *)
Lemma user_page_containing `{X86Laws} {A} (pages : gmap Z A) (user n a : Z) :
  page_aligned user → 0 ≤ user → (∀ j, 0 ≤ j < n → is_Some (pages !! (user + 4096 * j))) →
  user ≤ a < user + 4096 * n → is_Some (pages !! containing_address a).
Proof.
  intros Hal Hu Hp Ha. rewrite containing_address_eq by lia.
  replace (a - a mod 4096) with (user + 4096 * ((a - user) / 4096)).
  - apply Hp. Z.to_euclidean_division_equations; lia.
  - unfold page_aligned in Hal. Z.to_euclidean_division_equations; lia.
Qed.

(** ** The boot *)

Section laws.
Context `{X86Laws} `{X86PhysLaws} {M : Type} `{MapperLaws M} `{!Translate M} `{!TranslateLaws M}.
Context {HW : Type} `{Hardware HW} {T : Type} `{DescriptorTable T}.
Context {K : Type} `{EqDecision K} (Usable : K).
Abbreviation F := (BootInfoFrameAllocator (MemoryRegionKind:=K)).
#[local] Hint Extern 0 (FrameAllocator _) => exact (boot_FrameAllocator Usable) : typeclass_instances.
#[local] Hint Extern 0 (FrameContract _) => exact (boot_FrameContract Usable) : typeclass_instances.

Context (OffsetPageTable : Z → Z → M).
Context (from_rsdp : Z → option AcpiTables) (sdt_header_size : Z) (logo : option Png) (tsc : option Z).
Context (cr3 rx_buffer_base : Z) (fuel : nat).
Context {C : Type} `{ConsoleLaws C} {R : Type} (rdrand : R → option Z * R).
Context (here : Z → text) (ticks : nat → Z) (sleep_fuel : nat) (rsp0 : Z).

(** C4: From power-on to the greeting.  With the archive on the image, in it an
    init program that loads as in C5, and memory enough, [kernel_main] ends in [jump_to_usermode]
    with the program's relocated entry point, the heap, the configuration window
    of ACPI and the first I/O APIC set up, the program in user pages; and the
    instructions of src/init.asm there, run with whatever registers, find their
    texts at the addresses they were relocated to, show the smiling face, a
    space, the sad face and the message on the console, in this order, and stay
    at their last jump; and they show the same whatever devices interrupt them,
    wherever, with the local APIC that the boot has set up. Every access of the
    boot to a device register goes through the page tables of that moment and
    faults where they map nothing; so the machine ([boots]) has the registers of its local
    APIC and first I/O APIC in the bootloader's mapping, and for the scan of 256
    buses either the whole configuration window in that mapping, or none of it
    and a table that names all 256 buses. There is no RTL8139 among the devices;
    the pages of the heap, the RAM disk and the program are unmapped and apart
    from the window; there is a screen of at least 64 columns, and the logo's
    image decodes. *)
Theorem boot_shows_greeting (info : BootInfo K) (mem : Z → Z) (s : Segments) (h : HW) (fb : Framebuffer)
    (pmo rsdp : Z) (tables : AcpiTables) (t : Mcfg) (e : McfgEntry) (lapic : Z) (i : IoApicInfo) (infos : list IoApicInfo)
    `{!IoApicDevice HW (first_ioapic pmo i)} `{!ConfigSpace HW (base_address e + pmo)}
    (parse : list Z → option Elf) (files : list (list Z * list Z)) (prog : list Z) (elf : Elf) (msg_at space_at : Z)
    {Q W} `{ArrayQueueLaws Q Z} `{AtomicWakerLaws W Z} :
  let m0 := OffsetPageTable (pmo + cr3) pmo in
  let base := base_address e + pmo in
  let user := NEXT_VIRT_USER statics0 in
  let ls := loads elf in
  let n := pages_for (footprint ls) in
  boots Usable OffsetPageTable from_rsdp sdt_header_size logo cr3 info mem fb pmo rsdp tables t e lapic i infos (RAMDISK_PAGES + (n + 10)) →
  Forall (λ d, is_rtl8139 d = false) (all_found (config base h)) →
  Forall entry_ok files → zlen (archive files) ≤ 50 * 2 ^ 20 →
  head (filter (λ f, f.1 = init_name) files) = Some (init_name, prog) → zlen prog < 2 ^ 63 →
  parse prog = Some elf → Forall (segment_ok prog) ls → separated (extent <$> ls) → 0 < footprint ls →
  0 ≤ elf_entry elf → elf_entry elf + user < 2 ^ 64 → region_ok user (n + 10) →
  fresh_range m0 RAMDISK_START RAMDISK_PAGES → fresh_range m0 user (n + 10) →
  base + 2 ^ 28 ≤ RAMDISK_START ∨ RAMDISK_START + 4096 * RAMDISK_PAGES ≤ base ∧ base + 2 ^ 28 ≤ user →
  holds prog elf msg_at (as_bytes msg) → holds prog elf space_at (as_bytes space) →
  returns (kernel_main (T:=T) Usable OffsetPageTable from_rsdp sdt_header_size logo tsc cr3 rx_buffer_base fuel parse
             (archive files) info mem s h)
    (λ '(st, r),
      st = Program (elf_entry elf + user) (user + 4096 * n) ∧
      (∀ j, 0 ≤ j < n + 10 → ∃ fr, page_map (Elf.mapper (vm r)) !! (user + 4096 * j) = Some (fr, user_flags)) ∧
      KernelMain.ALLOCATOR r = kernel_heap ∧ ECAM_BASE r = base ∧ segs r = Usermode.init (T:=T) s ∧
      IO_APIC_0 r = Some (first_ioapic pmo i) ∧ vectors_set (first_ioapic pmo i) (KernelMain.hw r) ∧
      ∀ (c : C) (en : R) (regs : Syscall.Cpu), console_ok c →
        let code := init_program (user + msg_at) (user + space_at) in
        let m c := Syscall.mkMachine c (Elf.memory (vm r)) en in
        returns (init_shows c) (λ shown, ∀ present : access → Z → bool,
          (∀ a, is_Some (page_map (Elf.mapper (vm r)) !! containing_address a) → present Reading a = true) →
          must rdrand present here ticks sleep_fuel rsp0 code 16 (λ u,
            sys u = m shown ∧ ∀ u', User.step rdrand present here ticks sleep_fuel rsp0 code u u' ↔ u' = u)
            (mkUser regs 0 (m c)) ∧
          ∀ (k : Interrupts.kernel Q W) es s', cpu_ok regs → Interrupts.LAPIC k = KernelMain.LAPIC r → quiet k →
            Preempt.run rdrand present here sleep_fuel rsp0 code rx_buffer_base fuel es
              (mkState (mkUser regs 0 (m c)) k (KernelMain.hw r)) s' →
            (16 ≤ instructions es)%nat → sys (Preempt.prog s') = m shown)).
Proof.
  intros m0 base user ls n Hb Hnet Hes Hlen Hhead Hpl Hparse Hok Hsep Hfp He0 Heu Hreg Hrd Hus Hap Hmsg Hsp.
  eapply returns_mono; [by eapply kernel_main_enters_init|].
  intros [st r] (Hst & Him & _ & Hpg & Ha & Hec & Hsg & Hio & Hv & Hlapic). split_and!; [done..|].
  intros c en regs Hc code m.
  pose proof (holds_loaded prog elf user (Elf.memory (vm r)) msg_at _ Hok Hmsg Him) as Hm.
  pose proof (holds_loaded prog elf user (Elf.memory (vm r)) space_at _ Hok Hsp Him) as Hs.
  destruct (footprint_bounds 0 ls ltac:(lia) (segments_sized prog ls Hok)) as [_ Hfb].
  change (foldl grow 0 ls) with (footprint ls) in Hfb.
  pose proof (pages_for_enough (footprint ls) ltac:(lia)) as Hen. fold n in Hen.
  destruct Hreg as (Hu8 & Hu0 & Hend & _).
  assert (Hrange : ∀ v bs, 0 < zlen bs → holds prog elf v bs → 0 < user + v < 2 ^ 64).
  { intros v bs Hz (ph & Hin & Hv1 & Hv2 & _). rewrite Forall_forall in Hfb, Hok. specialize (Hfb ph Hin).
    destruct (Hok ph Hin) as (? & _ & ? & _). cbn beta in Hfb. assert (0 < user) by done. lia. }
  assert (Hpages : ∀ present v bs, (∀ a, is_Some (page_map (Elf.mapper (vm r)) !! containing_address a) → present Reading a = true) →
    holds prog elf v bs → pages_at present Reading (user + v) (zlen bs)).
  { intros present v bs Hpre (ph & Hin & Hv1 & Hv2 & _) x Hx. rewrite Forall_forall in Hfb, Hok. specialize (Hfb ph Hin).
    destruct (Hok ph Hin) as (? & _ & ? & _). cbn beta in Hfb. apply Hpre, (user_page_containing _ user (n + 10)); [done|lia| |lia].
    intros j Hj. destruct (Hpg j Hj) as [fr Hfr]. by eexists. }
  destruct (init_shows_ok c Hc) as (shown & Hshown & _). exists shown. split; [exact Hshown|]. intros present Hpre.
  assert (Hmust : ∀ tk, must rdrand present here tk sleep_fuel rsp0 code 16 (λ u,
    sys u = m shown ∧ ∀ u', User.step rdrand present here tk sleep_fuel rsp0 code u u' ↔ u' = u) (mkUser regs 0 (m c))).
  { intros tk. destruct (init_program_shows rdrand present here tk sleep_fuel rsp0 regs (m c) (user + msg_at) (user + space_at))
      as (shown' & E & Hmust); [done| | |by apply (Hpages present msg_at (as_bytes msg))
      |by apply (Hpages present space_at (as_bytes space))|exact Hm|exact Hs|].
    - by eapply (Hrange msg_at (as_bytes msg)).
    - by eapply (Hrange space_at (as_bytes space)).
    - cbn [console m] in E. rewrite Hshown in E. injection E as <-. exact Hmust. }
  split; [apply Hmust|]. intros k es s' Hregs Hl Hq Hrun H16.
  assert (Hk : kern_ok k).
  { split; [|done]. rewrite Hlapic in Hl. eexists. split; [exact Hl|]. cbn.
    destruct Hb as [_ _ _ _ _ ((Hw & Hpm & _ & Htop) & _) _ _ _]. unfold in_width in Hw. lia. }
  refine (proj1 (must_undisturbed rdrand present here sleep_fuel rsp0 code rx_buffer_base fuel 16 _ es
    (mkState (mkUser regs 0 (m c)) k (KernelMain.hw r)) s' Hregs Hk
    (Hmust (λ _, 0)) _ Hrun H16)).
  intros u u' [Hu Hstay] Hs'. apply Hstay in Hs' as ->. by split.
Qed.

(** ** Without an init program *)

(** The boot up to the command line. *)
Lemma kernel_main_shell (info : BootInfo K) (mem : Z → Z) (s : Segments) (h : HW) (fb : Framebuffer)
    (pmo rsdp : Z) (tables : AcpiTables) (t : Mcfg) (e : McfgEntry) (lapic : Z) (i : IoApicInfo) (infos : list IoApicInfo)
    `{!IoApicDevice HW (first_ioapic pmo i)} `{!ConfigSpace HW (base_address e + pmo)}
    (parse : list Z → option Elf) (files : list (list Z * list Z)) :
  let base := base_address e + pmo in
  boots Usable OffsetPageTable from_rsdp sdt_header_size logo cr3 info mem fb pmo rsdp tables t e lapic i infos RAMDISK_PAGES →
  Forall (λ d, is_rtl8139 d = false) (all_found (config base h)) →
  Forall entry_ok files → zlen (archive files) ≤ 50 * 2 ^ 20 → init_name ∉ files.*1 →
  fresh_range (OffsetPageTable (pmo + cr3) pmo) RAMDISK_START RAMDISK_PAGES →
  base + 2 ^ 28 ≤ RAMDISK_START ∨ RAMDISK_START + 4096 * RAMDISK_PAGES ≤ base →
  returns (kernel_main (T:=T) Usable OffsetPageTable from_rsdp sdt_header_size logo tsc cr3 rx_buffer_base fuel parse
             (archive files) info mem s h)
    (λ '(st, r), st = Boot.Shell ∧ read_bytes (Elf.memory (vm r)) RAMDISK_START (zlen (archive files)) = archive files ∧
       KernelMain.ALLOCATOR r = kernel_heap ∧ ECAM_BASE r = base).
Proof.
  intros base Hb Hnet Hes Hlen Hn Hrd Hap.
  destruct (boot_prepares Usable OffsetPageTable from_rsdp sdt_header_size logo tsc cr3 rx_buffer_base fuel
    info mem s h fb pmo rsdp tables t e lapic i infos _ Hb Hnet)
    as (r & Hr & Ha & Hec & _ & _ & _ & _ & Hout & Hh & Hf & _).
  pose proof Hb as [_ _ _ _ (_ & _ & _ & Hs8 & He8 & _ & (Hal & _)) _ _ _ _].
  pose proof (bus_count_range e Hs8 He8) as Hcnt.
  unfold kernel_main. rewrite Hr, bind_Ret. unfold start.
  destruct (load_ramdisk_result (vm r) (archive files) 0) as (m' & f' & Hl & _); [lia|by rewrite Z.add_0_r| |].
  { eapply still_free; [exact Hout|exact Hh|exact Hrd|exact Hal|lia|by vm_compute|]. exact Hap. }
  rewrite Hl, bind_Ret. rewrite read_file_archive_none by (done || lia). rewrite !bind_Ret. apply returns_Ret.
  cbn [vm KernelMain.ALLOCATOR ECAM_BASE Elf.memory]. by rewrite read_write_bytes.
Qed.

(** [cat] of an archived file, as a line. *)
Lemma cat_word_line (a : text) :
  Forall (λ c, is_whitespace c = false) a → a ≠ [] → word_line [] [] (txt "cat") a [a].
Proof.
  intros Hw Ha. split_and!; [constructor|constructor| |done|done|done|done].
  constructor; [repeat constructor|by constructor].
Qed.

Lemma cat_line_split (a : text) :
  Forall (λ c, is_whitespace c = false) a → a ≠ [] → split 32 (trim (txt "cat " ++ a)) = [txt "cat"; a].
Proof.
  intros Hw Ha. pose proof (cat_word_line a Hw Ha) as Hl. rewrite <- (word_line_split _ _ _ _ _ Hl).
  rewrite <- (word_line_trim _ _ _ _ _ Hl). cbn [app join]. by rewrite app_nil_r.
Qed.

Lemma cat_line_runs (to_lowercase : text → text) (unchecked : list Z → text) (a t : text) (files : list (list Z * list Z))
    (k : shell C HW) :
  COMMAND_REGISTRY k = Some init_command_registry → FS k = Some (archive files) →
  Forall entry_ok files → zlen (archive files) < 2 ^ 63 →
  Forall (λ c, is_whitespace c = false) a → a ≠ [] → Forall is_scalar a → Forall is_scalar t →
  head (filter (λ f, f.1 = as_bytes a) files) = Some (as_bytes a, as_bytes t) →
  process_command to_lowercase unchecked here (txt "cat " ++ a) 0 k = says (println [t]) 0 k.
Proof.
  intros Hr Hf Hes Hlen Hw Ha Has Hts Hhead. change (txt "cat " ++ a) with (txt "cat" ++ 32 :: a).
  pose proof (process_words to_lowercase unchecked here [] [] (txt "cat") a [a] 0 k init_command_registry Hr) as Hp.
  cbn [app join] in Hp. rewrite app_nil_r in Hp. rewrite Hp by (by apply cat_word_line).
  unfold run_words. assert (Hs : ∃ c, search init_command_registry (txt "cat") = Some c ∧ command_func c = cat).
    { eexists. split; vm_compute; reflexivity. }
  destruct Hs as (c & -> & ->). by eapply cat_prints_archived_file.
Qed.

(** C10: From power-on through the keyboard to a file.  On a machine as in C4
    ([boots]: the registers the boot uses are mapped, the window of all 256 buses
    among them; no RTL8139) and with an archive without
    an init program on the image, [kernel_main] ends in the command line with the
    archive in memory; and when the keys that the keyboard's queue took spell,
    with whatever corrections, cat and the name of a file in it, and Enter, then,
    wherever the interrupts fell, the prompt, the keys, the text of that file and
    the next prompt, with code 0, are what is printed, and the processor halts. *)
Theorem boot_then_cat (info : BootInfo K) (mem : Z → Z) (s : Segments) (h : HW) (fb : Framebuffer)
    (pmo rsdp : Z) (tables : AcpiTables) (mcfg : Mcfg) (e : McfgEntry) (lapic : Z) (i : IoApicInfo) (infos : list IoApicInfo)
    `{!IoApicDevice HW (first_ioapic pmo i)} `{!ConfigSpace HW (base_address e + pmo)}
    (parse : list Z → option Elf) (files : list (list Z * list Z))
    {Q W} `{ArrayQueueLaws Q Z} `{AtomicWakerLaws W Z} (reader : Z) {KB E} `{Decoder KB E}
    (to_lowercase : text → text) (unchecked : list Z → text) (a t : text) (keys : list DecodedKey) :
  let base := base_address e + pmo in
  let fs := archive files in
  (∀ t, Forall char_ok t → Forall char_ok (to_lowercase t)) → (∀ bs, Forall char_ok (unchecked bs)) →
  (∀ n, Forall char_ok (here n)) →
  boots Usable OffsetPageTable from_rsdp sdt_header_size logo cr3 info mem fb pmo rsdp tables mcfg e lapic i infos RAMDISK_PAGES →
  Forall (λ d, is_rtl8139 d = false) (all_found (config base h)) →
  Forall entry_ok files → zlen fs ≤ 50 * 2 ^ 20 → Forall (λ b, 0 ≤ b) fs → init_name ∉ files.*1 →
  fresh_range (OffsetPageTable (pmo + cr3) pmo) RAMDISK_START RAMDISK_PAGES →
  base + 2 ^ 28 ≤ RAMDISK_START ∨ RAMDISK_START + 4096 * RAMDISK_PAGES ≤ base →
  Forall (λ c, is_whitespace c = false) a → a ≠ [] → Forall is_scalar a → Forall is_scalar t →
  head (filter (λ f, f.1 = as_bytes a) files) = Some (as_bytes a, as_bytes t) →
  Forall editing keys → foldl edit [] keys = txt "cat " ++ a →
  returns (kernel_main (T:=T) Usable OffsetPageTable from_rsdp sdt_header_size logo tsc cr3 rx_buffer_base fuel parse
             fs info mem s h)
    (λ '(st, r), st = Boot.Shell ∧ read_bytes (Elf.memory (vm r)) RAMDISK_START (zlen fs) = fs ∧
      ∀ c : C, console_ok c →
        let prologue := command_prologue (K:=KB) here in
        let body := command_body to_lowercase unchecked here in
        returns (sys_start (Q:=Q) (W:=W) reader (command_start (mkShell c (KernelMain.hw r) (Some fs) None))) (λ s0, ∀ s,
          rtc (sys_step reader prologue body) s0 s → at_ (kbd s) ≠ Panicked →
          (decode_all (accepted (kbd s)) keyboard_new).1 = keys ++ [Unicode 0x0A] →
          ∃ c' keyboard,
            (c ← prompt 0 c; c ← echo keys c; c ← print [NL] c; c ← println [t] c; prompt 0 c) = Ret c' ∧
            let s' := sys_run reader prologue body (sys_work s) s in
            at_ (kbd s') = Halted ∧
            task s' = (keyboard, mkLine [] 0, mkShell c' (KernelMain.hw r) (Some fs) (Some init_command_registry)))).
Proof.
  intros base fs Hlower Hunch Hhere Hb Hnet Hes Hlen Hbytes Hn Hrd Hap Hw Ha Has Hts Hhead Hkeys Hline.
  eapply returns_mono; [by eapply kernel_main_shell|]. intros [st r] (-> & Hfs & _). split_and!; [done..|].
  intros c Hc pro bod.
  eapply returns_mono.
  - apply (typed_line_session reader to_lowercase unchecked here Hlower Hunch Hhere) with (keys := keys); [|done|done|].
    + split_and!; [done| |done]. cbn [FS]. split; [lia|done].
    + rewrite Hline, (cat_line_split a Hw Ha). intros w ws cmd [= <- <-] Hs. vm_compute in Hs. by injection Hs as <-.
  - intros s0 Hrun s1 Hr Hp Hd.
    destruct (Hrun s1 Hr Hp Hd) as (c1 & code & k2 & k3 & E1 & Hpc & Hpr & Hh & keyboard & Htask).
    cbn [con ports FS] in *.
    rewrite Hline, (cat_line_runs to_lowercase unchecked a t files) in Hpc by (done || (change (archive files) with fs; lia)).
    unfold says, with_con in Hpc, Hpr. apply bind_Ret_inv in Hpc as (k2' & Hc2 & Hpc). injection Hpc as <- ->.
    apply bind_Ret_inv in Hc2 as (c2 & Hc2 & Hk2). injection Hk2 as <-.
    apply bind_Ret_inv in Hpr as (c3 & Hc3 & Hk3). injection Hk3 as <-. cbn [con ports FS COMMAND_REGISTRY] in *.
    exists c3, keyboard. split_and!; [|done|done].
    apply bind_Ret_inv in E1 as (ca & Ea & E1). apply bind_Ret_inv in E1 as (cb & Eb & E1).
    by rewrite Ea, bind_Ret, Eb, bind_Ret, E1, bind_Ret, Hc2, bind_Ret.
Qed.
End laws.

(** ** A sample: the machine of [KernelMain], an image with the two texts *)

#[local] Existing Instances amd64 amd64_laws amd64_phys amd64_phys_laws sample_Mapper sample_MapperLaws
  sample_Translate sample_TranslateLaws count_table boot_hw boot_ioapic boot_space log_Console log_ConsoleLaws
  list_ArrayQueue list_ArrayQueueLaws option_AtomicWaker option_AtomicWakerLaws ascii_Decoder.

(** One segment of the file: the message at 0x100 of the program, the space behind it. *)
Definition greeting_prog : list Z := as_bytes msg ++ as_bytes space.
Definition greeting_elf : Elf := mkElf [mkPh PT_LOAD 0 0x100 37 0x200] 0x140.
Definition greeting_archive : list (list Z * list Z) := [(init_name, greeting_prog)].

Lemma boot_shows_greeting_witness :
  ∃ r shown, kernel_main (T:=Z) true (λ _ _, boot_pages) (λ _, Some boot_tables) 36 boot_logo None 0x1000 0x9000 10
      (λ _, Some greeting_elf) (archive greeting_archive) boot_info mcfg_memory (mkSegments 0 0 0 0 0 0 0) empty_slots =
        Ret (Program 0xffffffff90000140 0xffffffff90002000, r) ∧
    log_tty shown = [space; msg] ∧ log_faces shown = [true; false] ∧
    must sample_rdrand (λ _ _, true) (λ _, []) (λ _, 0) 1 0x8000 (init_program 0xffffffff90000100 0xffffffff90000124) 16
      (λ u, console (sys u) = shown)
      (mkUser (Syscall.mkCpu 1 2 3 4 5 6 7 8) 0 (Syscall.mkMachine (mkLog [] [] []) (Elf.memory (vm r)) ())).
Proof.
  destruct (boot_shows_greeting (T:=Z) true (λ _ _, boot_pages) (λ _, Some boot_tables) 36 boot_logo None
    0x1000 0x9000 10 sample_rdrand (λ _, []) (λ _, 0) 1 0x8000 boot_info mcfg_memory (mkSegments 0 0 0 0 0 0 0) empty_slots
    boot_fb PMO_0 0xE0000 boot_tables
    boot_mcfg boot_entry 0xFEE00000 io_info [] (λ _, Some greeting_elf) greeting_archive greeting_prog greeting_elf 0x100 0x124
    (Q:=list_queue Z) (W:=option Z)
    (boot_info_boots (RAMDISK_PAGES + (2 + 10)) ltac:(done)) no_cards) as ((st & r) & E & -> & _ & _ & _ & _ & _ & _ & Hrun);
    [ |by vm_compute|done|done|done| |by split; [constructor|]|done|done|done
    |by apply user_area_ok|exact boot_ramdisk_free|by apply boot_user_free|left; by vm_compute| | |].
  - repeat (constructor; [split_and!; vm_compute; first [reflexivity|discriminate|repeat constructor; discriminate]|]). constructor.
  - apply Forall_singleton. repeat split; vm_compute; discriminate.
  - exists (mkPh PT_LOAD 0 0x100 37 0x200). split_and!; [by left|done|vm_compute; discriminate|by vm_compute].
  - exists (mkPh PT_LOAD 0 0x100 37 0x200). split_and!; [by left|done|vm_compute; discriminate|by vm_compute].
  - destruct (Hrun (mkLog [] [] []) () (Syscall.mkCpu 1 2 3 4 5 6 7 8) I) as (shown & Hs & Hm).
    destruct (Hm (λ _ _, true) (λ _ _, eq_refl)) as [Hm' _]. clear Hm. rename Hm' into Hm. exists r, shown.
    split; [exact E|]. vm_compute in Hs. injection Hs as <-. split; [reflexivity|]. split; [reflexivity|].
    revert Hm. apply must_mono. by intros u [-> _].
Defined.

(** A file of the name a with the text hi, and cat, a wrong letter, a backspace
    and the name typed before the command line has written its prompt. *)
Definition hi_archive : list (list Z * list Z) := [(as_bytes (txt "a"), as_bytes (txt "hi"))].

Definition cat_keys : list DecodedKey := [Unicode 0x63; Unicode 0x61; Unicode 0x74; Unicode 0x20; Unicode 0x78; Unicode 0x08; Unicode 0x61].

Definition cat_prologue : command_task (K:=unit) (C:=Log) (HW:=boot_machine) → outcome _ := command_prologue (λ _, []).
Definition cat_body : Z → command_task (K:=unit) (C:=Log) (HW:=boot_machine) → outcome _ :=
  command_body (λ t, t) sample_unchecked (λ _, []).

Lemma boot_then_cat_witness :
  ∃ r s0, kernel_main (T:=Z) true (λ _ _, boot_pages) (λ _, Some boot_tables) 36 boot_logo None 0x1000 0x9000 10
      (λ _, None) (archive hi_archive) boot_info mcfg_memory (mkSegments 0 0 0 0 0 0 0) empty_slots = Ret (Boot.Shell, r) ∧
    sys_start (Q:=list_queue Z) (W:=option Z) 0
      (command_start (K:=unit) (mkShell (mkLog [] [] []) (KernelMain.hw r) (Some (archive hi_archive)) None)) = Ret s0 ∧
    match early_keys cat_prologue cat_body [0x63; 0x61; 0x74; 0x20; 0x78; 0x08; 0x61; 0x0A] s0 with
    | Some s => let s' := sys_run 0 cat_prologue cat_body (sys_work s) s in
        at_ (kbd s') = Halted ∧ txt "hi" ∈ log_tty (con (task s').2)
    | None => False
    end.
Proof.
  destruct (boot_then_cat (T:=Z) true (λ _ _, boot_pages) (λ _, Some boot_tables) 36 boot_logo None
    0x1000 0x9000 10 (λ _, []) boot_info mcfg_memory (mkSegments 0 0 0 0 0 0 0) empty_slots
    boot_fb PMO_0 0xE0000 boot_tables boot_mcfg boot_entry 0xFEE00000 io_info [] (λ _, None) hi_archive
    (Q:=list_queue Z) (W:=option Z) 0 (KB:=unit) (λ t, t) sample_unchecked (txt "a") (txt "hi") cat_keys
    (λ t Ht, Ht) (λ _, Forall_nil_2 _) (λ _, Forall_nil_2 _)
    (boot_info_boots RAMDISK_PAGES ltac:(done)) no_cards) as ((st & r) & E & -> & _ & Hrun).
  - repeat (constructor; [split_and!; vm_compute; first [reflexivity|discriminate|repeat constructor; discriminate]|]). constructor.
  - by vm_compute.
  - apply (bool_decide_unpack _). by vm_compute.
  - apply (bool_decide_unpack _). by vm_compute.
  - exact boot_ramdisk_free.
  - left. by vm_compute.
  - repeat constructor.
  - done.
  - repeat (constructor; [unfold is_scalar; vm_compute; intuition congruence|]). constructor.
  - repeat (constructor; [unfold is_scalar; vm_compute; intuition congruence|]). constructor.
  - by vm_compute.
  - repeat (constructor; [unfold editing, is_scalar; lia|]). constructor.
  - by vm_compute.
  - exists r. destruct (Hrun (mkLog [] [] []) I) as (s0 & Hs0 & Hall). exists s0. split; [exact E|]. split; [exact Hs0|].
    clear Hrun E. destruct (early_keys _ _ _ s0) as [s|] eqn:Hs.
    + assert (Hr : rtc (sys_step 0 cat_prologue cat_body) s0 s) by by eapply early_keys_steps.
      specialize (Hall s Hr). revert Hs0 Hs Hall. clear Hr. generalize (KernelMain.hw r). intros hw Hs0 Hs Hall.
      vm_compute in Hs0. injection Hs0 as <-. vm_compute in Hs. injection Hs as <-.
      destruct Hall as (c' & kb & Hc & Hh & Ht); [done|reflexivity|]. split; [exact Hh|].
      vm_compute in Hc. injection Hc as <-. cbv zeta. unfold cat_body, cat_prologue. rewrite Ht.
      apply (bool_decide_unpack _). by vm_compute.
    + revert Hs0 Hs. clear. generalize (KernelMain.hw r). intros hw Hs0 Hs.
      vm_compute in Hs0. injection Hs0 as <-. vm_compute in Hs. discriminate Hs.
Defined.
